(* ===== verification/_CoqProject ===== *)
-Q . S2P
Prelude.v
JsString.v
Numbers.v
Dates.v
Domain.v
Store.v
Sample.v
Totp.v
SignInAttempts.v
Keys.v
Tokens.v
Sessions.v
Accounts.v
Clients.v
AppCheck.v
PasskeyStore.v
Auth.v
Handlers.v
SignIn.v
Login.v
SecondFactor.v
Passkeys.v
Records.v
Geocoding.v
Profiles.v
Fleet.v
Couriers.v
Sellers.v
Pages.v
Feed.v
Grpc.v
Errors.v
Validation.v
Guards.v
Routes.v
Access.v
Credentials.v
Mesh.v
Sweeper.v
Service.v
Maintenance.v
Shutdown.v
Nominatim.v
GeoGrpc.v
Json.v
Logging.v
Settings.v
Metrics.v
Schema.v
Migrations.v
Entities.v
WrittenRows.v
DataMigrations.v
Startup.v
Wiring.v
Replies.v
