(* ===== verification/Prelude.v ===== *)
(** * Kinetix identity service: verification library (root file)

    ** The program

    A NestJS service (src/src) with an HTTP and a gRPC server over one PostgreSQL database. It keeps
    accounts, signs people in (passwords, one-time codes, passkeys), issues and revokes sessions,
    decides which applications may call it, onboards sellers and couriers, keeps profiles with
    geocoded addresses, and tells other services who a principal is and which merchants changed.
    Controllers (src/src/adapters) call use cases (src/src/application), which call ports
    (src/src/domain/ports) implemented in src/src/infrastructure.

    ** How it is modelled

    An async method is a program ([prog], below): a sequence of atomic actions on a shared world.
    [run] executes one program alone; [psteps] interleaves the actions of any number of programs
    with steps of an environment, so a theorem stated for it holds for every schedule. An exception
    is a value
    ([res], [Throw]). The world (Store.v) has one finite map per database table, the clocks, the
    entropy and the log. A statement, and a transaction, is one atomic action; a transaction whose
    body throws restores the tables. Any call of the database may lose its connection, before or
    after it took effect, as an arbitrary schedule says, unless a theorem assumes [reliable].
    Serial execution of a transaction is an assumption about the row locks and the isolation the
    code asks for; where it asks for too little the manifest has a finding, and Feed.v models
    overlapping transactions, because its subject is the order in which they commit.

    Integers are [Z]; JavaScript's 32-bit operations wrap (JsString.v, Totp.v). Coordinates and
    parsed settings are exact rationals with the limits of a double (Numbers.v). An instant is its
    milliseconds. A string is a sequence of code units 0..255.

    ** Files, from the bottom up

    - Prelude.v: results, programs, their weakest preconditions and automation. JsString.v,
      Numbers.v, Dates.v: what the code uses of JavaScript's strings, numbers and dates.
    - Domain.v: entities, errors and policies (src/src/domain, src/src/types). Store.v: tables,
      clocks, [Platform]. Sample.v: a concrete platform for examples and witnesses.
    - Totp.v: crypto/totp.ts. Keys.v: crypto/jwt_key_provider.ts, config/required_setting.ts.
    - SignInAttempts.v: sign_in_attempts.service.ts, its repository and crypto/account_key.ts.
    - Tokens.v, Sessions.v: token.service.ts, and the theorems about it. Accounts.v: the user
      repository and principal_resolver.service.ts. Auth.v: auth_usecase.service.ts, with theorems
      in Handlers.v (what every handler preserves), SignIn.v, Login.v and SecondFactor.v.
    - Clients.v, AppCheck.v: the registry of client applications, the gate and the verification of
      App Check tokens. PasskeyStore.v, Passkeys.v: passkeys, their challenges and use cases.
    - Records.v: saving of numbered records. Geocoding.v, Nominatim.v, GeoGrpc.v: the geocoding use
      case, its provider and its gRPC controller. Profiles.v: user_profile_usecase.service.ts.
    - Fleet.v, Couriers.v: the client of the fleet registry; courier registration and onboarding.
      Sellers.v: seller_onboarding_usecase.service.ts and the merchant repositories. Pages.v: the
      paged lists of applications. Feed.v: the feed of changed merchants over overlapping
      transactions. Grpc.v: identity_grpc.controller.ts and its mappers.
    - Errors.v: the exception filter. Validation.v: the input classes and the validation pipe.
      Guards.v: guards and audit. Routes.v: the HTTP controllers. Access.v, Credentials.v: theorems
      about every route together.
    - Mesh.v: which service may call the gRPC server. Sweeper.v: expired_record_sweeper.service.ts.
      Service.v: all routes and sweeps over time. Maintenance.v: src/scripts and bootstrap-admin.ts. Shutdown.v: shutdown_drain.ts.
    - Json.v, Logging.v: JSON as it is written and read; observability/json_logger.ts, log_levels.ts and
      the request ids. Settings.v: config/relying_party.ts, http/gateway_hop.ts and
      observability/build_identity.ts. Metrics.v: metrics_registry.ts and what records in it.
    - Schema.v: the data definition statements of PostgreSQL the migrations use, as a function on
      schemas. Migrations.v: src/src/migrations, every [up] and [down]. Entities.v: the decorators of
      persistence/entities. WrittenRows.v: the columns the adapters write, and how they fit the schema.
      DataMigrations.v: the migrations that change rows, on the tables of Store.v.
    - Startup.v: main.ts, migrate.ts, the settings of data-source.ts, mesh/service_identity.ts,
      mesh/contract_proto.ts and the controllers of health, metrics and the key set. Wiring.v:
      app.module.ts, the constructors of the classes it names and what they ask of the settings.
      Replies.v: the JSON of the replies, from the output classes and the view types.

    ** What the theorems show

    - Sign-in: who a session, a challenge or an enrolment is answered to; one session per challenge,
      one renewal per refresh token, whatever interleaves; [login] refines a decision on the stored
      account, and an unknown account looks like a wrong password; guesses are bounded by the delay
      table; a change of the second factor closes the other sessions first.
    - Sessions and keys: refinement of rotation, one live token per session, one purpose per token,
      verification of what was issued; the published keys are the accepted ones; codes are RFC 4226.
    - Over time: whatever requests come, on any routes and in any interleaving, what a log-out ended, of
      which no other request was in the middle, stays ended (with sweeps among the requests), no two
      accounts share an email, no alias is repointed, and no courier's approval is withdrawn.
    - Over HTTP: under which authority every route runs, who can change credentials (by a request
      that no other overlaps), what a request that is not refused is bounded by, that administrators are
      audited, and that whatever is thrown is answered and internal errors reveal nothing; a client can read from the reply of a login exactly what it was issued.
    - Couriers, sellers, merchants: an approval follows the answer of the fleet; applications only
      evolve along their states and are read completely page by page; the feed misses no change and
      catches up; cursors resume.
    - The database: the schema the migrations build is the one the entities declare, in both directions;
      every migration runs and can be reverted; those that change rows succeed together or change
      nothing; a row the service writes meets what its table asks of a row by itself (types, widths, ranges,
      not null, checks) exactly if its values fit. What compares rows, unique keys and foreign keys, is
      checked by the statements of the store.
    - Operation: the application can be created exactly if its settings are in order (the process comes up
      exactly if, besides, its logger can be made and its files are there), every constructor
      is given objects of the types it declares, and no port is opened before what guards it is in place;
      mesh calls pass exactly when granted; a sweep changes no decision; the shutdown ends with a truthful
      exit code; scripts are all or nothing; a log line cannot be forged and is the event's record
      unless JSON cannot write it, and counters count every event
      once.

    Interfaces between components are type classes with their laws: [SessionPrimitives],
    [Primitives], [ServicePrimitives], [ClientProofVerifierPort], [PasskeyCeremonyPort], [GeocodingProviderPort],
    [FleetRegistryPort], [MerchantFeedPort], [NestContainer]; clients are proved against the class and the adapters
    discharge it.

    ** Parameters, bounds and fuel

    Code outside the repository is a parameter: [Platform] (bcrypt, jsonwebtoken, HMAC, entropy, with
    [PlatformLaws] for documented behaviour), [KeyMaterial], [AppCheckPlatform], [WebAuthn],
    [FleetTransport], [UrlParser], [NetLibrary], [WebUrlParser], [ValidatorLibrary], the rate limiter,
    the UUID pipe and HTTP fetches, the framework's steps of start-up, files, the order in which the
    database reads a table, [MigrationSource], TypeORM's runner of migrations, and [NestContainer], the
    framework's container. Sample instances witness every law; the one of the container looks as deep as
    the longest chain of providers ([DEPTH], Wiring.v). Four loops have fuel:
    [read_pages] (Pages.v), one unit more than there are applications, proved enough by the theorem
    that it reads them all; [pem_blocks] (Keys.v), the length of the text ([pem_blocks_fuel]);
    [emit_groups] (Totp.v), two passes, since a byte arrives with fewer than five bits pending, as
    the equality with the reference encoding shows; and the JSON reader (Json.v), one unit more than
    the text has characters, as its round trip shows. Every other loop is structural on its input.
    There are no axioms.

    ** Not modelled

    The JSON of decimal coordinates and of ceremony options, the set-up of Fastify, TLS itself, the buckets
    of histograms and the text of stack traces. These configure a framework or hand bytes to a library and
    hold no decision of the domain. *)

From stdpp Require Export base tactics option list gmap strings.
From Stdlib Require Export ZArith Lia.

(** ** Results: a value, or what the code throws *)

Inductive res (E A : Type) : Type :=
| Ok (a : A)
| Err (e : E).
Arguments Ok {E A} a.
Arguments Err {E A} e.

#[export] Instance res_eq_dec {E A} `{EqDecision E} `{EqDecision A} : EqDecision (res E A).
Proof. solve_decision. Defined.

Definition res_bind {E A B} (r : res E A) (f : A -> res E B) : res E B :=
  match r with Ok a => f a | Err e => Err e end.

Definition is_ok {E A} (r : res E A) : bool :=
  match r with Ok _ => true | Err _ => false end.

(** ** Programs: sequences of atomic actions on a shared world

    An [async] method of the service is a sequence of atomic actions (a database statement or
    transaction, a reading of a clock, a line of log), between which the process serves other
    requests. [Atom op k] performs [op] on the world at once and goes on with [k]; a JavaScript
    exception is [Throw]. *)
Inductive prog (W E A : Type) : Type :=
| Ret (a : A)
| Throw (e : E)
| Atom (X : Type) (op : W -> X * W) (k : X -> prog W E A).
Arguments Ret {W E A} a.
Arguments Throw {W E A} e.
Arguments Atom {W E A} {X} op k.

Section Prog.
Context {W E : Type}.

Fixpoint bind {A B} (m : prog W E A) (f : A -> prog W E B) : prog W E B :=
  match m with
  | Ret a => f a
  | Throw e => Throw e
  | Atom op k => Atom op (fun x => bind (k x) f)
  end.

(** [try { m } catch (e) { h(e) }] *)
Fixpoint catch {A} (m : prog W E A) (h : E -> prog W E A) : prog W E A :=
  match m with
  | Ret a => Ret a
  | Throw e => h e
  | Atom op k => Atom op (fun x => catch (k x) h)
  end.

Definition atom {X} (op : W -> X * W) : prog W E X := Atom op Ret.
Definition of_res {A} (r : res E A) : prog W E A :=
  match r with Ok a => Ret a | Err e => Throw e end.

(** The program run alone, from start to end. *)
Fixpoint run {A} (m : prog W E A) (w : W) : res E A * W :=
  match m with
  | Ret a => (Ok a, w)
  | Throw e => (Err e, w)
  | Atom op k => let '(x, w') := op w in run (k x) w'
  end.

Lemma run_bind {A B} (m : prog W E A) (f : A -> prog W E B) w :
  run (bind m f) w =
  match run m w with
  | (Ok a, w') => run (f a) w'
  | (Err e, w') => (Err e, w')
  end.
Proof. revert w; induction m as [| |X op k IH]; intros w; simpl; auto. destruct (op w); auto. Qed.

Lemma run_catch {A} (m : prog W E A) (h : E -> prog W E A) w :
  run (catch m h) w =
  match run m w with
  | (Ok a, w') => (Ok a, w')
  | (Err e, w') => run (h e) w'
  end.
Proof. revert w; induction m as [| |X op k IH]; intros w; simpl; auto. destruct (op w); auto. Qed.

(** [wp m Q w]: run from [w], [m] ends with a result and a world that satisfy [Q]. *)
Definition wp {A} (m : prog W E A) (Q : res E A -> W -> Prop) (w : W) : Prop :=
  Q (run m w).1 (run m w).2.

Lemma run_wp_any {A} (m : prog W E A) (Q : res E A -> W -> Prop) w : wp m Q w -> Q (run m w).1 (run m w).2.
Proof. done. Qed.

Lemma wp_mono {A} (m : prog W E A) (Q Q' : res E A -> W -> Prop) w :
  wp m Q w -> (forall r w', Q r w' -> Q' r w') -> wp m Q' w.
Proof. unfold wp. auto. Qed.

Lemma wp_and {A} (m : prog W E A) (Q Q' : res E A -> W -> Prop) w :
  wp m Q w -> wp m Q' w -> wp m (fun r w' => Q r w' /\ Q' r w') w.
Proof. done. Qed.

Lemma wp_bind {A B} (m : prog W E A) (f : A -> prog W E B) Q w :
  wp m (fun r w' => match r with Ok a => wp (f a) Q w' | Err e => Q (Err e) w' end) w ->
  wp (bind m f) Q w.
Proof. unfold wp. rewrite run_bind. destruct (run m w) as [[] ]; auto. Qed.

Lemma wp_catch {A} (m : prog W E A) (h : E -> prog W E A) Q w :
  wp m (fun r w' => match r with Ok a => Q (Ok a) w' | Err e => wp (h e) Q w' end) w ->
  wp (catch m h) Q w.
Proof. unfold wp. rewrite run_catch. destruct (run m w) as [[] ]; auto. Qed.

Lemma wp_ret {A} (a : A) (Q : res E A -> W -> Prop) w : Q (Ok a) w -> wp (Ret a) Q w.
Proof. auto. Qed.
Lemma wp_throw {A} e (Q : res E A -> W -> Prop) w : Q (Err e) w -> wp (Throw e) Q w.
Proof. auto. Qed.
Lemma wp_atom {X} (op : W -> X * W) Q w :
  Q (Ok (op w).1) (op w).2 -> wp (atom op) Q w.
Proof. unfold wp, atom; simpl. destruct (op w); auto. Qed.
Lemma wp_of_res {A} (r : res E A) (Q : res E A -> W -> Prop) w : Q r w -> wp (of_res r) Q w.
Proof. destruct r; auto. Qed.

(** *** Guarantees of every atomic action

    [guar R m]: whatever the world each action finds, it takes it along [R]. This is what a
    program promises to the programs interleaved with it. *)
Fixpoint guar {A} (R : W -> W -> Prop) (m : prog W E A) : Prop :=
  match m with
  | Ret _ | Throw _ => True
  | Atom op k => forall w, R w (op w).2 /\ guar R (k (op w).1)
  end.

Lemma guar_bind {A B} R (m : prog W E A) (f : A -> prog W E B) :
  guar R m -> (forall a, guar R (f a)) -> guar R (bind m f).
Proof. induction m as [| |X op k IH]; simpl; intros Hm Hf; auto. intros w. split; [apply Hm|]. apply IH; [apply Hm|auto]. Qed.

Lemma guar_catch {A} R (m : prog W E A) (h : E -> prog W E A) :
  guar R m -> (forall e, guar R (h e)) -> guar R (catch m h).
Proof. induction m as [| |X op k IH]; simpl; intros Hm Hf; auto. intros w. split; [apply Hm|]. apply IH; [apply Hm|auto]. Qed.

Lemma guar_atom {X} R (op : W -> X * W) : (forall w, R w (op w).2) -> guar R (atom op).
Proof. simpl. auto. Qed.
Lemma guar_call {X} (R : W -> W -> Prop) (op : W -> res E X * W) :
  (forall w, wp (Atom op of_res) (fun _ w' => R w w') w) -> guar R (Atom op of_res).
Proof.
  intros H w. specialize (H w). unfold wp in H. simpl in *.
  destruct (op w) as [[x|e] w']; simpl in *; done.
Qed.
Lemma guar_of_res {A} R (r : res E A) : guar R (of_res r).
Proof. destruct r; exact I. Qed.
Lemma guar_ret {A} R (a : A) : guar R (Ret a).
Proof. exact I. Qed.
Lemma guar_throw {A} R (e : E) : guar R (@Throw W E A e).
Proof. exact I. Qed.

Lemma guar_mono {A} (R R' : W -> W -> Prop) (m : prog W E A) :
  (forall w w', R w w' -> R' w w') -> guar R m -> guar R' m.
Proof. intros HR. induction m as [| |X op k IH]; simpl; auto. intros Hm w. split; [apply HR, Hm|apply IH, Hm]. Qed.

Lemma guar_run {A} (R : W -> W -> Prop) (m : prog W E A) w :
  Reflexive R -> Transitive R -> guar R m -> R w (run m w).2.
Proof.
  intros Hr Ht. revert w. induction m as [| |X op k IH]; simpl; intros w Hm; auto.
  destruct (Hm w) as [H1 H2]. destruct (op w) as [x w']; simpl in *. etrans; eauto.
Qed.

(** *** Gated programs

    [gated spent m]: [m] returns a value only after one of its own actions took the world from
    [~ spent] to [spent]; every other path throws. *)
Fixpoint gated {A} (spent : W -> Prop) (m : prog W E A) : Prop :=
  match m with
  | Ret _ => False
  | Throw _ => True
  | Atom op k =>
      forall w, gated spent (k (op w).1) \/ (~ spent w /\ spent (op w).2)
  end.

Lemma gated_bind_l {A B} spent (m : prog W E A) (f : A -> prog W E B) :
  gated spent m -> gated spent (bind m f).
Proof. induction m as [| |X op k IH]; simpl; auto; [tauto|]. intros Hm w. destruct (Hm w); auto. Qed.

Lemma gated_bind_r {A B} spent (m : prog W E A) (f : A -> prog W E B) :
  (forall a, gated spent (f a)) -> gated spent (bind m f).
Proof. intros Hf. induction m as [| |X op k IH]; simpl; auto. Qed.

Lemma gated_call {X B} spent (op : W -> res E X * W) (f : X -> prog W E B) :
  (forall w, wp (Atom op of_res) (fun r w' =>
     match r with Ok x => gated spent (f x) \/ (~ spent w /\ spent w') | Err _ => True end) w) ->
  gated spent (bind (Atom op of_res) f).
Proof.
  intros H w. specialize (H w). unfold wp in H. simpl in H.
  destruct (op w) as [[x|e] w']; simpl in *; [done|by left].
Qed.

(** Like [gated_bind_r], with what every value [m] returns satisfies. *)
Fixpoint returns {A} (P : A -> Prop) (m : prog W E A) : Prop :=
  match m with
  | Ret a => P a
  | Throw _ => True
  | Atom op k => forall w, returns P (k (op w).1)
  end.

Lemma returns_true {A} (m : prog W E A) : returns (fun _ => True) m.
Proof. induction m; simpl; auto. Qed.

Lemma returns_bind {A B} (P : A -> Prop) (Q : B -> Prop) (m : prog W E A) (f : A -> prog W E B) :
  returns P m -> (forall a, P a -> returns Q (f a)) -> returns Q (bind m f).
Proof. intros Hm Hf. induction m as [| |X op k IH]; simpl in *; auto. Qed.

Lemma returns_catch {A} (P : A -> Prop) (m : prog W E A) (h : E -> prog W E A) :
  returns P m -> (forall e, returns P (h e)) -> returns P (catch m h).
Proof. intros Hm Hf. induction m as [| |X op k IH]; simpl in *; auto. Qed.

Lemma returns_run {A} (P : A -> Prop) (m : prog W E A) w a w' :
  returns P m -> run m w = (Ok a, w') -> P a.
Proof.
  revert w. induction m as [b|e|X op k IH]; simpl; intros w Hm Hr.
  - congruence.
  - congruence.
  - pose proof (Hm w) as Hw. destruct (op w) as [x w1]; simpl in *. eauto.
Qed.

Lemma gated_bind_returns {A B} spent (P : A -> Prop) (m : prog W E A) (f : A -> prog W E B) :
  returns P m -> (forall a, P a -> gated spent (f a)) -> gated spent (bind m f).
Proof. intros Hm Hf. induction m as [| |X op k IH]; simpl in *; auto. Qed.

(** *** Interleaving

    A pool of requests served at once: any one of them performs its next action, or the rest of
    the system (other handlers, the sweeper, the clocks) moves the world along [R]. *)
Inductive pstep {A} (R : W -> W -> Prop) : W * list (prog W E A) -> W * list (prog W E A) -> Prop :=
| pstep_request i X (op : W -> X * W) k w ps :
    ps !! i = Some (Atom op k) ->
    pstep R (w, ps) ((op w).2, <[i := k (op w).1]> ps)
| pstep_other w w' ps : R w w' -> pstep R (w, ps) (w', ps).

Definition psteps {A} R := rtc (@pstep A R).

(** The pool run along a given schedule, to evaluate interleavings. *)
Definition step_at {A} (i : nat) (c : W * list (prog W E A)) : W * list (prog W E A) :=
  match c.2 !! i with
  | Some (Atom op k) => ((op c.1).2, <[i := k (op c.1).1]> c.2)
  | _ => c
  end.
Definition schedule {A} (order : list nat) (c : W * list (prog W E A)) : W * list (prog W E A) :=
  fold_left (fun c i => step_at i c) order c.

Lemma schedule_psteps {A} R order (c : W * list (prog W E A)) : psteps R c (schedule order c).
Proof.
  revert c. induction order as [|i order IH]; intros c; [apply rtc_refl|]. simpl.
  unfold psteps in *. etrans; [|apply IH]. unfold step_at. destruct c as [w ps]. simpl.
  destruct (ps !! i) as [[a|e|X op k]|] eqn:Ei; try apply rtc_refl.
  apply rtc_once. by apply pstep_request.
Qed.

Definition returned {A} (m : prog W E A) : Prop := exists a, m = Ret a.

Section AtMostOnce.
Context {A : Type} (R : W -> W -> Prop) (spent : W -> Prop).
Context (R_spent : forall w w', R w w' -> spent w -> spent w').

(** Either no request is past the gate, or [spent] holds and only request [j] is. *)
Definition one_past (c : W * list (prog W E A)) : Prop :=
  (forall i m, c.2 !! i = Some m -> gated spent m /\ guar R m) \/
  (spent c.1 /\ exists j, forall i m, c.2 !! i = Some m -> guar R m /\ (i <> j -> gated spent m)).

Lemma one_past_step c c' : one_past c -> pstep R c c' -> one_past c'.
Proof.
  intros Hone Hstep. destruct Hstep as [i X op k w ps Hi | w w' ps HR]; simpl in *.
  - destruct Hone as [Hone|(Hs & j & Hone)]; simpl in *.
    + destruct (Hone _ _ Hi) as [Hg Hr]. simpl in Hg, Hr.
      destruct (Hr w) as [HR Hr']. destruct (Hg w) as [Hg'|[Hn Hs]].
      * left; simpl. intros i' m Hm. apply list_lookup_insert_Some in Hm as [(-> & <- & _)|[Hne Hm]]; eauto.
      * right; simpl. split; [done|]. exists i. intros i' m Hm.
        apply list_lookup_insert_Some in Hm as [(-> & <- & _)|[Hne Hm]]; [done|].
        destruct (Hone _ _ Hm). done.
    + destruct (Hone _ _ Hi) as [Hr Hg]. simpl in Hr, Hg. destruct (Hr w) as [HR Hr'].
      right; simpl. split; [eauto|]. exists j. intros i' m Hm.
      apply list_lookup_insert_Some in Hm as [(-> & <- & _)|[Hne Hm]]; [|by eauto].
      split; [done|]. intros Hne. destruct (Hg Hne w) as [?|[Hn _]]; [done|contradiction].
  - destruct Hone as [Hone|(Hs & j & Hone)]; simpl in *; [by left|].
    right; simpl; eauto.
Qed.

(** At most one of any number of interleaved gated requests returns. *)
Lemma gated_at_most_once w ps w' ps' i j :
  Forall (fun m => gated spent m /\ guar R m) ps ->
  psteps R (w, ps) (w', ps') ->
  (exists m : prog W E A, ps' !! i = Some m /\ returned m) ->
  (exists m : prog W E A, ps' !! j = Some m /\ returned m) -> i = j.
Proof.
  intros Hall Hsteps (mi & Hi & ai & ->) (mj & Hj & aj & ->).
  assert (one_past (w', ps')) as Hone.
  { assert (one_past (w, ps)) as H0.
    { left; simpl. intros i' m Hm. rewrite Forall_lookup in Hall. eauto. }
    unfold psteps in Hsteps. clear Hi Hj Hall. revert H0. induction Hsteps; eauto using one_past_step. }
  destruct Hone as [Hone|(_ & l & Hone)]; simpl in Hone.
  - by destruct (Hone _ _ Hi).
  - destruct (Hone _ _ Hi) as [_ Hgi]. destruct (Hone _ _ Hj) as [_ Hgj].
    destruct (decide (i = l)) as [->|Hl]; [|destruct (Hgi Hl)].
    destruct (decide (j = l)) as [->|Hl']; [done|destruct (Hgj Hl')].
Qed.

(** However the pool runs, the world moves along [R]. *)
Lemma psteps_guar c c' :
  Reflexive R -> Transitive R ->
  Forall (guar R) c.2 -> psteps R c c' -> R c.1 c'.1 /\ Forall (guar (A := A) R) c'.2.
Proof.
  intros Hr Ht Hall Hs. induction Hs as [c|c c1 c2 Hst _ IH]; [done|].
  assert (R c.1 c1.1 /\ Forall (guar R) c1.2) as [H1 H2].
  { destruct Hst as [i X op k w ps Hi|w w1 ps HR]; simpl in *; [|done].
    pose proof (Forall_lookup_1 _ _ _ _ Hall Hi) as Hg. simpl in Hg.
    destruct (Hg w). split; [done|]. by apply Forall_insert. }
  destruct (IH H2). split; [by etrans|done].
Qed.
End AtMostOnce.
(** *** Counted requests

    [I n w]: at most [n] admissions have been paid for when the world is [w]. A request is
    [paid] when it can only return a [good] value after one of its actions took the count from
    [n] to [n + 1]; every other action, and the rest of the system, keeps the count. *)
Section Counted.
Context {A : Type} (R : W -> W -> Prop) (I : nat -> W -> Prop) (good : A -> bool).

Definition keeps (w w' : W) : Prop := forall n, I n w -> I n w'.

Fixpoint paid (m : prog W E A) : Prop :=
  match m with
  | Ret a => good a = false
  | Throw _ => True
  | Atom op k =>
      forall w, (keeps w (op w).2 /\ paid (k (op w).1)) \/
                ((forall n, I n w -> I (S n) (op w).2) /\ guar keeps (k (op w).1))
  end.

(** A request that begins with a call and goes on with its answer. *)
Lemma paid_call {X} (op : W -> res E X * W) (f : X -> prog W E A) :
  (forall w, wp (Atom op of_res) (fun r w' =>
    match r with
    | Err _ => keeps w w'
    | Ok x => (keeps w w' /\ paid (f x)) \/ ((forall n, I n w -> I (S n) w') /\ guar keeps (f x))
    end) w) ->
  paid (bind (Atom op of_res) f).
Proof.
  intros H w. specialize (H w). unfold wp in H. simpl in H.
  destruct (op w) as [[x|e] w']; simpl in *; [done|left; done].
Qed.

(** A program that pays nothing, then one that pays. *)
Lemma paid_bind_guar {B} (m : prog W E B) (f : B -> prog W E A) :
  guar keeps m -> (forall b, paid (f b)) -> paid (bind m f).
Proof. intros Hm Hf. induction m as [| |X op k IH]; simpl in *; auto. intros w. left. split; [apply Hm|apply IH, Hm]. Qed.

Definition is_good (m : prog W E A) : bool := match m with Ret a => good a | _ => false end.
Definition count_good (ps : list (prog W E A)) : nat := List.length (List.filter is_good ps).

Definition flagged (m : prog W E A) (past : bool) : Prop := if past then guar keeps m else paid m.
Definition count_past (flags : list bool) : nat := List.length (List.filter id flags).

Lemma count_past_insert flags i :
  flags !! i = Some false -> count_past (<[i := true]> flags) = S (count_past flags).
Proof.
  revert i. induction flags as [|b flags IH]; intros [|i] H; simplify_eq/=; unfold count_past; [done|].
  destruct b; simpl; f_equal; by apply IH.
Qed.

Lemma flagged_good ps flags : Forall2 flagged ps flags -> (count_good ps <= count_past flags)%nat.
Proof.
  unfold count_good, count_past. induction 1 as [|m b ps flags Hm _ IH]; simpl; [lia|].
  destruct b; simpl in *; [destruct (is_good m); simpl; lia|].
  destruct m; simpl in *; [rewrite Hm|..]; done.
Qed.

Definition counted_inv (c : W * list (prog W E A)) : Prop :=
  exists n flags, I n c.1 /\ Forall2 flagged c.2 flags /\ (count_past flags <= n)%nat.

Context (R_keeps : forall w w', R w w' -> keeps w w').

Lemma counted_step c c' : counted_inv c -> pstep R c c' -> counted_inv c'.
Proof.
  intros Hinv Hs. destruct Hs as [i X op k w ps Hi|w w' ps HR];
    destruct Hinv as (n & flags & HI & Hall & Hn); simpl in *.
  - destruct (Forall2_lookup_l _ _ _ _ _ Hall Hi) as ([|] & Hb & Hf); simpl in Hf.
    + exists n, flags. simpl. destruct (Hf w) as [Hk Hg]. split; [by apply Hk|]. split; [|done].
      rewrite <- (list_insert_id flags i true) by done. by apply Forall2_insert.
    + destruct (Hf w) as [[Hk Hp]|[Hk Hg]].
      * exists n, flags. simpl. split; [by apply Hk|]. split; [|done].
        rewrite <- (list_insert_id flags i false) by done. by apply Forall2_insert.
      * exists (S n), (<[i := true]> flags). simpl. split; [by apply Hk|]. split.
        -- by apply Forall2_insert.
        -- rewrite count_past_insert by done. lia.
  - exists n, flags. simpl. split; [by apply (R_keeps _ _ HR)|done].
Qed.

(** However the requests interleave, no more of them return a [good] value than were paid. *)
Lemma counted_bound w ps w' ps' :
  I 0 w -> Forall paid ps -> psteps R (w, ps) (w', ps') ->
  exists n, I n w' /\ (count_good ps' <= n)%nat.
Proof.
  intros HI Hall Hs.
  assert (counted_inv (w, ps)) as H0.
  { exists 0%nat, (replicate (List.length ps) false). simpl. split; [done|]. split.
    - clear Hs. induction Hall; simpl; constructor; auto.
    - unfold count_past. generalize (List.length ps). intros l. induction l; simpl; lia. }
  assert (counted_inv (w', ps')) as (n & flags & Hn & Hf & Hc).
  { unfold psteps in Hs. clear Hall HI. revert H0. induction Hs; eauto using counted_step. }
  exists n. split; [done|]. pose proof (flagged_good _ _ Hf). simpl in *. lia.
Qed.
End Counted.

(** A program that pays, then one that returns a [good] value only for a value paid for. *)
Lemma paid_bind {A B} (I : nat -> W -> Prop) (goodA : A -> bool) (goodB : B -> bool)
    (m : prog W E A) (f : A -> prog W E B) :
  paid I goodA m -> (forall a, guar (keeps I) (f a)) -> (forall a, goodA a = false -> paid I goodB (f a)) ->
  paid I goodB (bind m f).
Proof.
  intros Hm Hg Hf. induction m as [| |X op k IH]; simpl in *; auto. intros w.
  destruct (Hm w) as [[Hk Hp]|[Hk Hp]]; [left|right]; split; auto. by apply guar_bind.
Qed.

(** *** Facts a request has secured

    [secures Phi m]: whatever [m] returns, [Phi] held of it right after one of [m]'s own actions. *)
Fixpoint secures {A} (Phi : A -> W -> Prop) (m : prog W E A) : Prop :=
  match m with
  | Ret _ => False
  | Throw _ => True
  | Atom op k => forall w, secures Phi (k (op w).1) \/ returns (fun a => Phi a (op w).2) (k (op w).1)
  end.

Lemma returns_mono {A} (P Q : A -> Prop) (m : prog W E A) : (forall a, P a -> Q a) -> returns P m -> returns Q m.
Proof. intros HPQ. induction m; simpl; auto. Qed.

Lemma secures_bind_r {A B} (Phi : B -> W -> Prop) (m : prog W E A) (f : A -> prog W E B) :
  (forall a, secures Phi (f a)) -> secures Phi (bind m f).
Proof. intros Hf. induction m as [| |X op k IH]; simpl; auto. Qed.

Lemma secures_atom {X B} (Phi : B -> W -> Prop) (op : W -> X * W) (f : X -> prog W E B) :
  (forall w, secures Phi (f (op w).1) \/ returns (fun b => Phi b (op w).2) (f (op w).1)) ->
  secures Phi (bind (atom op) f).
Proof. intros H w. apply H. Qed.

Lemma secures_call {X B} (Phi : B -> W -> Prop) (op : W -> res E X * W) (f : X -> prog W E B) :
  (forall w, wp (Atom op of_res) (fun r w' =>
     match r with Ok x => secures Phi (f x) \/ returns (fun a => Phi a w') (f x) | Err _ => True end) w) ->
  secures Phi (bind (Atom op of_res) f).
Proof.
  intros H w. specialize (H w). unfold wp in H. simpl in H.
  destruct (op w) as [[x|e] w']; simpl in *; [done|by left].
Qed.

Lemma secures_catch_call {A} (Phi : A -> W -> Prop) (op : W -> res E A * W) (h : E -> prog W E A) :
  (forall w, wp (Atom op of_res) (fun r w' =>
     match r with Ok a => Phi a w' | Err e => secures Phi (h e) end) w) ->
  secures Phi (catch (Atom op of_res) h).
Proof.
  intros H w. specialize (H w). unfold wp in H. simpl in H.
  destruct (op w) as [[x|e] w']; simpl in *; auto.
Qed.

(** A program that begins with a program. *)
Lemma returns_bind_assoc {A B C} (Q : C -> Prop) (m : prog W E A) (f : A -> prog W E B) (g : B -> prog W E C) :
  returns Q (bind m (fun a => bind (f a) g)) -> returns Q (bind (bind m f) g).
Proof. induction m as [| |X op k IH]; simpl; auto. Qed.

Lemma secures_bind_assoc {A B C} (Phi : C -> W -> Prop) (m : prog W E A) (f : A -> prog W E B) (g : B -> prog W E C) :
  secures Phi (bind m (fun a => bind (f a) g)) -> secures Phi (bind (bind m f) g).
Proof.
  induction m as [| |X op k IH]; simpl; auto. intros H w.
  destruct (H w); [left; by apply IH|right; by apply returns_bind_assoc].
Qed.

Lemma gated_bind_assoc {A B C} spent (m : prog W E A) (f : A -> prog W E B) (g : B -> prog W E C) :
  gated spent (bind m (fun a => bind (f a) g)) -> gated spent (bind (bind m f) g).
Proof. induction m as [| |X op k IH]; simpl; auto. intros H w. destruct (H w); auto. Qed.

(** What a program returns, when part of it returns only what satisfies [P]. *)
Lemma secures_bind_returns {A B} (Phi : B -> W -> Prop) (P : A -> Prop) (m : prog W E A) (f : A -> prog W E B) :
  returns P m -> (forall a, P a -> secures Phi (f a)) -> secures Phi (bind m f).
Proof. intros Hm Hf. induction m as [| |X op k IH]; simpl in *; auto. Qed.

Lemma secures_bind {A B} (Phi : A -> W -> Prop) (Psi : B -> W -> Prop) (m : prog W E A) (f : A -> prog W E B) :
  secures Phi m -> (forall a w, Phi a w -> returns (fun b => Psi b w) (f a)) -> secures Psi (bind m f).
Proof.
  intros Hm Hf. induction m as [| |X op k IH]; simpl in *; auto; [done|]. intros w.
  destruct (Hm w) as [H|H]; [left; by apply IH|right]. eapply returns_bind; [exact H|]. intros a. apply Hf.
Qed.

(** A handler that throws in its turn. *)
Lemma secures_catch {A} (Phi : A -> W -> Prop) (m : prog W E A) (h : E -> prog W E A) :
  (forall e, exists e', h e = Throw e') -> secures Phi m -> secures Phi (catch m h).
Proof.
  intros Hh. induction m as [|e|X op k IH]; simpl; auto.
  - intros _. by destruct (Hh e) as [e' ->].
  - intros H w. destruct (H w) as [H'|H']; [left; by apply IH|right]. apply returns_catch; [exact H'|].
    intros e. by destruct (Hh e) as [e' ->].
Qed.

(** What a request of the pool answered, it had secured, and it still holds. *)
Lemma secured_pool {A} R (Phi : A -> W -> Prop) w (ps : list (prog W E A)) w' ps' :
  (forall a w w', R w w' -> Phi a w -> Phi a w') ->
  Forall (fun m => secures Phi m /\ guar R m) ps -> psteps R (w, ps) (w', ps') ->
  forall i a, ps' !! i = Some (Ret a) -> Phi a w'.
Proof.
  intros HR Hall Hs.
  assert (forall i m, (w', ps').2 !! i = Some m ->
    guar R m /\ (secures Phi m \/ returns (fun a => Phi a (w', ps').1) m)) as Hinv.
  { assert (forall i m, (w, ps).2 !! i = Some m ->
      guar R m /\ (secures Phi m \/ returns (fun a => Phi a (w, ps).1) m)) as H0.
    { simpl. intros i m Hm. destruct (Forall_lookup_1 _ _ _ _ Hall Hm). auto. }
    unfold psteps in Hs. clear Hall. revert H0. generalize (w, ps), (w', ps'), Hs. clear Hs.
    intros c c' Hs. induction Hs as [c|c c1 c2 Hst _ IH]; [done|]. intros H0. apply IH. clear IH.
    destruct Hst as [i X op k w0 ps0 Hi|w0 w1 ps0 Hr]; simpl in *; intros i' m Hm.
    - destruct (H0 _ _ Hi) as [Hg Hsec]. simpl in Hg, Hsec. destruct (Hg w0) as [HR0 Hg0].
      apply list_lookup_insert_Some in Hm as [(-> & <- & _)|[Hne Hm]].
      + split; [done|]. destruct Hsec as [Hsec|Hret]; [by apply Hsec|right].
        eapply returns_mono; [|apply Hret]. simpl. intros a. by apply HR.
      + destruct (H0 _ _ Hm) as [Hgm [Hsm|Hrm]]; [by auto|]. split; [done|]. right.
        eapply returns_mono; [|exact Hrm]. simpl. intros a. by apply HR.
    - destruct (H0 _ _ Hm) as [Hgm [Hsm|Hrm]]; [by auto|]. split; [done|]. right.
      eapply returns_mono; [|exact Hrm]. simpl. intros a. by apply HR. }
  intros i a Hi. by destruct (Hinv i _ Hi) as [_ [[]|?]].
Qed.

(** *** At most one, counted *)
Lemma count_unique {A} (ps : list (prog W E A)) :
  (forall i j, (exists m, ps !! i = Some m /\ returned m) -> (exists m, ps !! j = Some m /\ returned m) -> i = j) ->
  (count_good (fun _ => true) ps <= 1)%nat.
Proof.
  unfold count_good. induction ps as [|m ps IH]; intros H; [simpl; lia|].
  assert (List.length (List.filter (is_good (fun _ => true)) ps) <= 1)%nat as IH'.
  { apply IH. intros i j (a & Ha & Ra) (b & Hb & Rb).
    enough (S i = S j) by lia. apply H; eauto. }
  simpl. destruct m as [a|e|X op k]; simpl; try done.
  destruct (List.filter (is_good (fun _ => true)) ps) as [|m' l] eqn:El; [simpl; lia|].
  assert (In m' ps /\ is_good (fun _ => true) m' = true) as [Hin Hg]
    by (apply filter_In; rewrite El; left; done).
  apply list_elem_of_In, list_elem_of_lookup in Hin as [i Hi].
  destruct m' as [a'|e'|X' op' k']; try done.
  assert (O = S i) by (apply H; eexists; (split; [try reflexivity; exact Hi|by eexists])). lia.
Qed.

(** Once spent, no gated request ever returns. *)
Lemma gated_spent {A} R (spent : W -> Prop) w (ps : list (prog W E A)) w' ps' :
  (forall w w', R w w' -> spent w -> spent w') -> spent w ->
  Forall (fun m => gated spent m /\ guar R m) ps -> psteps R (w, ps) (w', ps') ->
  spent w' /\ count_good (fun _ => true) ps' = O.
Proof.
  intros HR Hw Hall Hs.
  assert (spent w' /\ Forall (fun m => gated spent m /\ guar R m) ps') as [Hw' Hall'].
  { change (spent (w', ps').1 /\ Forall (fun m => gated spent m /\ guar R m) (w', ps').2).
    change w with (w, ps).1 in Hw. change ps with (w, ps).2 in Hall. unfold psteps in Hs.
    revert Hw Hall. generalize (w, ps), (w', ps'), Hs. clear Hs. intros c c' Hs.
    induction Hs as [c|c c1 c2 Hst _ IH]; [done|]. intros Hw Hall. apply IH.
    - destruct Hst as [i X op k w0 ps0 Hi|w0 w1 ps0 Hr]; simpl in *; [|by eapply HR].
      destruct (Forall_lookup_1 _ _ _ _ Hall Hi) as [_ Hg]. by eapply HR; [apply Hg|].
    - destruct Hst as [i X op k w0 ps0 Hi|w0 w1 ps0 Hr]; simpl in *; [|done].
      destruct (Forall_lookup_1 _ _ _ _ Hall Hi) as [Hg Hr]. apply Forall_insert; [done|].
      destruct (Hg w0) as [?|[? _]]; [|done]. split; [done|apply Hr]. }
  split; [done|]. unfold count_good. clear Hs Hall.
  induction Hall' as [|m ps'' [Hm _] _ IH]; simpl; [done|]. by destruct m.
Qed.

Lemma gated_count {A} R (spent : W -> Prop) w (ps : list (prog W E A)) w' ps' :
  (forall w w', R w w' -> spent w -> spent w') ->
  Forall (fun m => gated spent m /\ guar R m) ps -> psteps R (w, ps) (w', ps') ->
  (count_good (fun _ => true) ps' <= 1)%nat.
Proof. intros HR Hall Hs. apply count_unique. intros i j. by eapply gated_at_most_once. Qed.
End Prog.

Declare Scope prog_scope.
Delimit Scope prog_scope with prog.
Notation "x <- m ;; k" := (bind m (fun x => k))
  (at level 100, m at next level, right associativity) : prog_scope.
Notation "' p <- m ;; k" := (bind m (fun x => match x with p => k end))
  (at level 20, p pattern, m at level 99, k at level 200) : prog_scope.
Notation "m ;;; k" := (bind m (fun _ => k))
  (at level 100, right associativity) : prog_scope.

Create HintDb guar.
#[export] Hint Resolve guar_ret guar_throw guar_of_res : guar.
#[export] Hint Extern 1 (Reflexive _) => typeclasses eauto : guar.
