(* ===== verification/JsString.v ===== *)
(** * The JavaScript string and number operations the service uses

    A string is a [String.string]: a sequence of code units 0..255 (the Latin-1 part of UTF-16).
    [trim], [toLowerCase], [split], [indexOf] and the other operations below are exact on it. The
    upper case of U+00B5 and U+00FF lies outside the range and is left as it is; [toUpperCase] is
    applied only to base32 secrets and to client names, which hold neither. *)

From S2P Require Import Prelude.
From Stdlib Require Import Ascii String NArith.
From stdpp Require Import pretty.

Local Open Scope Z_scope.

Abbreviation str_list := String.list_ascii_of_string.
Abbreviation list_str := String.string_of_list_ascii.

Definition code (c : ascii) : Z := Z.of_nat (nat_of_ascii c).
Definition chr (z : Z) : ascii := ascii_of_nat (Z.to_nat z).

Lemma chr_code c : chr (code c) = c.
Proof. unfold chr, code. rewrite Nat2Z.id. apply ascii_nat_embedding. Qed.
Lemma code_chr z : 0 <= z < 256 -> code (chr z) = z.
Proof. intros H. unfold chr, code. rewrite nat_ascii_embedding; lia. Qed.
Lemma code_range c : 0 <= code c < 256.
Proof. unfold code. pose proof (nat_ascii_bounded c). lia. Qed.

(** Decide a property of characters by looking at all 256 of them. *)
Definition all_chars : list ascii := map chr (map Z.of_nat (List.seq 0 256)).

Lemma all_chars_elem c : In c all_chars.
Proof.
  unfold all_chars. rewrite map_map, in_map_iff. exists (nat_of_ascii c). split.
  - unfold chr. rewrite Nat2Z.id. apply ascii_nat_embedding.
  - apply in_seq. pose proof (nat_ascii_bounded c). lia.
Qed.

Lemma forall_chars (P : ascii -> bool) :
  forallb P all_chars = true -> forall c, P c = true.
Proof. rewrite forallb_forall. intros H c. apply H, all_chars_elem. Qed.

(** ** Characters *)

Definition is_space (c : ascii) : bool :=
  let z := code c in ((9 <=? z) && (z <=? 13)) || (z =? 32) || (z =? 160).
Definition is_digit (c : ascii) : bool := (48 <=? code c) && (code c <=? 57).
Definition is_lower (c : ascii) : bool := (97 <=? code c) && (code c <=? 122).
Definition is_upper (c : ascii) : bool := (65 <=? code c) && (code c <=? 90).

Definition lower_char (c : ascii) : ascii :=
  let z := code c in
  if ((65 <=? z) && (z <=? 90)) || ((192 <=? z) && (z <=? 222) && negb (z =? 215))
  then chr (z + 32) else c.

Definition upper_char (c : ascii) : list ascii :=
  let z := code c in
  if z =? 223 then ["S"; "S"]%char
  else if ((97 <=? z) && (z <=? 122)) || ((224 <=? z) && (z <=? 254) && negb (z =? 247))
  then [chr (z - 32)] else [c].

(** ** Strings *)

Fixpoint drop_while {A} (p : A -> bool) (l : list A) : list A :=
  match l with
  | [] => []
  | x :: l' => if p x then drop_while p l' else l
  end.

Definition trim_list (l : list ascii) : list ascii :=
  rev (drop_while is_space (rev (drop_while is_space l))).

Definition trim (s : string) : string := list_str (trim_list (str_list s)).
Definition toLowerCase (s : string) : string := list_str (map lower_char (str_list s)).
Definition toUpperCase (s : string) : string := list_str (flat_map upper_char (str_list s)).
Definition str_length (s : string) : Z := Z.of_nat (String.length s).

(** [s.split(sep)] for a separator of one character. *)
Fixpoint split_list (sep : ascii) (l : list ascii) : list (list ascii) :=
  match l with
  | [] => [[]]
  | c :: l' =>
      if Ascii.eqb c sep then [] :: split_list sep l'
      else match split_list sep l' with
           | [] => [[c]]
           | part :: parts => (c :: part) :: parts
           end
  end.
Definition split (sep : ascii) (s : string) : list string :=
  map list_str (split_list sep (str_list s)).

Definition startsWith (pre s : string) : bool := String.prefix pre s.

(** [parts.join(sep)] *)
Definition join (sep : string) (parts : list string) : string := String.concat sep parts.

(** [String(n)] of an integer. *)
Definition String_of (n : Z) : string := pretty n.

(** [Number(s)] on decimal integers with surrounding white space; anything else is [NaN] here
    (fractions, exponents and hexadecimal occur in no string the service gives it). *)
Fixpoint digits_value (acc : Z) (l : list ascii) : option Z :=
  match l with
  | [] => Some acc
  | c :: l' => if is_digit c then digits_value (acc * 10 + (code c - 48)) l' else None
  end.

Definition Number (s : string) : option Z :=
  match trim_list (str_list s) with
  | [] => Some 0
  | c :: l =>
      if Ascii.eqb c "-" then match l with [] => None | _ => Z.opp <$> digits_value 0 l end
      else if Ascii.eqb c "+" then match l with [] => None | _ => digits_value 0 l end
      else digits_value 0 (c :: l)
  end.

(** [/^[0-9]{lo,hi}$/.test(s)] *)
Definition all_digits (lo hi : nat) (s : string) : bool :=
  forallb is_digit (str_list s) && (Nat.leb lo (String.length s)) && (Nat.leb (String.length s) hi).

(** ** Lemmas *)

Lemma str_list_str l : str_list (list_str l) = l.
Proof. apply list_ascii_of_string_of_list_ascii. Qed.
Lemma list_str_list s : list_str (str_list s) = s.
Proof. apply string_of_list_ascii_of_string. Qed.

Lemma str_list_app s t : str_list (s ++ t) = (str_list s ++ str_list t)%list.
Proof. induction s as [|c s IH]; [done|]. exact (f_equal (cons c) IH). Qed.

Lemma list_str_inj l1 l2 : list_str l1 = list_str l2 -> l1 = l2.
Proof. intros H. rewrite <- (str_list_str l1), H. apply str_list_str. Qed.

Lemma str_list_length s : List.length (str_list s) = String.length s.
Proof. induction s; simpl; auto. Qed.

Lemma drop_while_idem {A} (p : A -> bool) l : drop_while p (drop_while p l) = drop_while p l.
Proof. induction l as [|x l IH]; simpl; auto. destruct (p x) eqn:E; simpl; rewrite ?E; auto. Qed.

Lemma drop_while_map {A} (p : A -> bool) (f : A -> A) l :
  (forall x, p (f x) = p x) -> drop_while p (map f l) = map f (drop_while p l).
Proof. intros H. induction l as [|x l IH]; simpl; auto. rewrite H. destruct (p x); auto. Qed.

Lemma drop_while_id {A} (p : A -> bool) l :
  drop_while p l = l <-> match l with [] => True | x :: _ => p x = false end.
Proof.
  destruct l as [|x l]; simpl; [tauto|]. destruct (p x) eqn:E; [|tauto].
  split; [|discriminate]. intros H. exfalso.
  assert (List.length (drop_while p l) <= List.length l)%nat as Hl.
  { clear. induction l as [|y l IH]; simpl; auto. destruct (p y); simpl; lia. }
  rewrite H in Hl. simpl in Hl. lia.
Qed.

Lemma drop_while_suffix {A} (p : A -> bool) l : exists pre, l = pre ++ drop_while p l.
Proof.
  induction l as [|x l [pre IH]]; simpl; [by exists []|].
  destruct (p x); [exists (x :: pre); simpl; by f_equal|by exists []].
Qed.

(** Dropping at the other end keeps a head that stays. *)
Lemma trim_list_fixed l :
  drop_while is_space l = l -> drop_while is_space (rev l) = rev l -> trim_list l = l.
Proof. intros H1 H2. unfold trim_list. rewrite H1, H2. apply rev_involutive. Qed.

Lemma trim_list_idem l : trim_list (trim_list l) = trim_list l.
Proof.
  apply trim_list_fixed; unfold trim_list.
  - set (a := drop_while is_space l).
    assert (drop_while is_space a = a) as Ha by apply drop_while_idem.
    destruct (drop_while_suffix is_space (rev a)) as [pre Hpre].
    set (b := drop_while is_space (rev a)) in *.
    assert (a = rev b ++ rev pre) as Hab by (rewrite <- rev_app_distr, <- Hpre; by rewrite rev_involutive).
    apply drop_while_id. apply drop_while_id in Ha. rewrite Hab in Ha.
    destruct (rev b); simpl in *; auto.
  - rewrite rev_involutive. apply drop_while_idem.
Qed.

Lemma is_space_lower c : is_space (lower_char c) = is_space c.
Proof.
  apply eqb_prop. revert c. apply (forall_chars (fun c => Bool.eqb (is_space (lower_char c)) (is_space c))).
  vm_compute. reflexivity.
Qed.

Lemma lower_char_idem c : lower_char (lower_char c) = lower_char c.
Proof.
  apply Ascii.eqb_eq. revert c.
  apply (forall_chars (fun c => Ascii.eqb (lower_char (lower_char c)) (lower_char c))).
  vm_compute. reflexivity.
Qed.

Lemma trim_list_lower l : trim_list (map lower_char l) = map lower_char (trim_list l).
Proof.
  unfold trim_list.
  rewrite (drop_while_map _ _ _ is_space_lower), <- !map_rev.
  by rewrite (drop_while_map _ _ _ is_space_lower), map_rev.
Qed.

Lemma trim_idem s : trim (trim s) = trim s.
Proof. unfold trim. by rewrite str_list_str, trim_list_idem. Qed.

Lemma toLowerCase_idem s : toLowerCase (toLowerCase s) = toLowerCase s.
Proof.
  unfold toLowerCase. rewrite str_list_str, map_map. f_equal. apply map_ext. apply lower_char_idem.
Qed.

Lemma trim_toLowerCase s : trim (toLowerCase s) = toLowerCase (trim s).
Proof. unfold trim, toLowerCase. by rewrite !str_list_str, trim_list_lower. Qed.

Example trim_ex : trim "  Ada@Example.COM " = "Ada@Example.COM"%string.
Proof. reflexivity. Qed.
Example split_ex : split "," "a,,b" = ["a"; ""; "b"]%string.
Proof. reflexivity. Qed.
Example number_ex : Number " 42" = Some 42 /\ Number "x" = None.
Proof. split; reflexivity. Qed.

(** [Number(String(n))] is [n]: the local ids of the alias table are read back as they were
    written. *)
Lemma pretty_N_char_digit n :
  (n < 10)%N -> code (pretty_N_char n) = 48 + Z.of_N n /\ is_digit (pretty_N_char n) = true.
Proof.
  intros H.
  assert (In n (map N.of_nat (List.seq 0 10))) as Hn.
  { apply in_map_iff. exists (N.to_nat n). split; [lia|apply in_seq; lia]. }
  simpl in Hn. destruct_or!; subst; try done; split; reflexivity.
Qed.

Lemma digits_value_pretty_go n s :
  (0 < n)%N -> digits_value 0 (str_list (pretty_N_go n s)) = digits_value (Z.of_N n) (str_list s).
Proof.
  revert s. induction n as [n IH] using (well_founded_ind N.lt_wf_0); intros s Hn.
  rewrite pretty_N_go_step by lia.
  assert (digits_value (Z.of_N (n `div` 10)) (str_list (String (pretty_N_char (n `mod` 10)) s)) =
          digits_value (Z.of_N n) (str_list s)) as Hdigit.
  { assert (n `mod` 10 < 10)%N as Hm by (apply N.mod_lt; lia).
    pose proof (pretty_N_char_digit _ Hm) as [Hc Hd].
    simpl. rewrite Hd, Hc. f_equal. pose proof (N.div_mod n 10 ltac:(lia)). lia. }
  destruct (N.eq_0_gt_0_cases (n `div` 10)) as [Hz|Hp].
  - rewrite <- Hdigit, Hz. by rewrite pretty_N_go_0.
  - rewrite IH; [done| |done]. apply N.div_lt; lia.
Qed.

Lemma digits_value_head l acc v : digits_value acc l = Some v -> forallb is_digit l = true.
Proof.
  revert acc. induction l as [|c l IH]; intros acc; simpl; auto.
  destruct (is_digit c); [eauto|discriminate].
Qed.

Lemma digits_not_space c : is_digit c = true -> is_space c = false /\ Ascii.eqb c "-" = false /\ Ascii.eqb c "+" = false.
Proof.
  intros H.
  pose proof (forall_chars (fun c => negb (is_digit c) || (negb (is_space c) && negb (Ascii.eqb c "-") && negb (Ascii.eqb c "+")))) as Hall.
  specialize (Hall ltac:(vm_compute; reflexivity) c). cbv beta in Hall. rewrite H in Hall.
  destruct (is_space c), (Ascii.eqb c "-"), (Ascii.eqb c "+"); simpl in *; auto; discriminate.
Qed.

Lemma trim_list_digits l : forallb is_digit l = true -> trim_list l = l.
Proof.
  intros H. apply trim_list_fixed; apply drop_while_id.
  - destruct l as [|c l]; [done|]. simpl in H. apply andb_prop in H as [H _]. by apply digits_not_space.
  - assert (forallb is_digit (rev l) = true) as Hr.
    { apply forallb_forall. intros x Hx. apply in_rev in Hx. eapply forallb_forall; eauto. }
    destruct (rev l) as [|c l']; [done|]. simpl in Hr. apply andb_prop in Hr as [Hr _]. by apply digits_not_space.
Qed.

Lemma Number_digits s v : digits_value 0 (str_list s) = Some v -> s <> ""%string -> Number s = Some v.
Proof.
  intros H Hne. unfold Number.
  rewrite trim_list_digits by eauto using digits_value_head.
  destruct (str_list s) as [|c l] eqn:E.
  - destruct s; [done|discriminate].
  - pose proof (digits_value_head _ _ _ H) as Hd. simpl in Hd. apply andb_prop in Hd as [Hd _].
    destruct (digits_not_space _ Hd) as (_ & -> & ->). done.
Qed.

Lemma Number_String_of n : 0 <= n -> Number (String_of n) = Some n.
Proof.
  intros Hn. destruct n as [|p|p]; [reflexivity| |lia].
  change (String_of (Zpos p)) with (pretty_N_go (Npos p) "").
  apply Number_digits.
  - rewrite digits_value_pretty_go by done. done.
  - rewrite pretty_N_go_step by done. intros Hc.
    assert (digits_value 0 (str_list (pretty_N_go (Npos p) "")) = Some (Zpos p)) as Hd
      by (rewrite digits_value_pretty_go by done; done).
    rewrite pretty_N_go_step in Hd by done. rewrite Hc in Hd. simpl in Hd. congruence.
Qed.

Lemma String_of_inj n m : 0 <= n -> 0 <= m -> String_of n = String_of m -> n = m.
Proof. intros Hn Hm H. apply Number_String_of in Hn, Hm. congruence. Qed.
