(* ===== verification/Numbers.v ===== *)
(** * Numbers

    [Number(s)] of JavaScript for the strings that are not only decimal integers: settings and the
    coordinates of a geocoder. A finite number is kept as the exact rational that the text denotes;
    the model leaves out its rounding to 53 bits, and keeps the limits of a double, beyond which a
    text denotes an infinity or zero. *)

From S2P Require Import Prelude JsString.
From Stdlib Require Import Ascii String QArith_base Qabs.

Local Open Scope string_scope.
Local Open Scope Z_scope.

Inductive JsNumber := NaN | Infinite (negative : bool) | Finite (q : Q).

Fixpoint span {A} (p : A -> bool) (l : list A) : list A * list A :=
  match l with
  | [] => ([], [])
  | x :: l' => if p x then let '(a, b) := span p l' in (x :: a, b) else ([], l)
  end.

Definition decimal (l : list ascii) : Z := default 0 (digits_value 0 l).

(** Digits with a point among them or not; at least one digit. *)
Definition read_mantissa (l : list ascii) : option (Q * list ascii) :=
  let '(whole, rest) := span is_digit l in
  let '(fraction, rest) := match rest with
                           | "."%char :: rest => span is_digit rest
                           | _ => ([], rest)
                           end in
  match (whole ++ fraction)%list with
  | [] => None
  | digits => Some (decimal digits # Z.to_pos (10 ^ Z.of_nat (List.length fraction)), rest)
  end.

Definition read_signed (l : list ascii) : option Z :=
  let '(negative, digits) := match l with
                             | "-"%char :: l => (true, l)
                             | "+"%char :: l => (false, l)
                             | _ => (false, l)
                             end in
  match digits with
  | [] => None
  | _ => if forallb is_digit digits then Some (if negative : bool then - decimal digits else decimal digits) else None
  end.

Definition read_exponent (l : list ascii) : option Z :=
  match l with
  | [] => Some 0
  | c :: l => if Ascii.eqb c "e" || Ascii.eqb c "E" then read_signed l else None
  end.

Definition scaled (q : Q) (e : Z) : Q := if 0 <=? e then Qmult q (10 ^ e # 1) else Qdiv q (10 ^ (- e) # 1).

(** The largest magnitude that rounds to a finite double, and the largest that rounds to zero. *)
Definition double_limit : Q := 2 ^ 1024 - 2 ^ 970 # 1.
Definition double_nothing : Q := 1 # 2 ^ 1075.
Definition doubled (q : Q) : JsNumber :=
  if Qle_bool double_limit (Qabs q) then Infinite (negb (Qle_bool 0 q))
  else if Qle_bool (Qabs q) double_nothing then Finite 0 else Finite q.

Definition negated (n : JsNumber) : JsNumber :=
  match n with NaN => NaN | Infinite b => Infinite (negb b) | Finite q => Finite (Qopp q) end.

Definition unsigned_number (l : list ascii) : JsNumber :=
  if bool_decide (list_str l = "Infinity") then Infinite false
  else match read_mantissa l with
       | Some (q, rest) => match read_exponent rest with Some e => doubled (scaled q e) | None => NaN end
       | None => NaN
       end.

(** A digit of a hexadecimal, octal or binary number. *)
Definition digit_in (base : Z) (c : ascii) : option Z :=
  let d := if is_digit c then code c - 48
           else if is_lower c then code c - 87 else if is_upper c then code c - 55 else base in
  if d <? base then Some d else None.
Fixpoint radix_value (base acc : Z) (l : list ascii) : option Z :=
  match l with
  | [] => Some acc
  | c :: l => match digit_in base c with Some d => radix_value base (acc * base + d) l | None => None end
  end.
Definition radix_of (c : ascii) : option Z :=
  if Ascii.eqb c "x" || Ascii.eqb c "X" then Some 16
  else if Ascii.eqb c "o" || Ascii.eqb c "O" then Some 8
  else if Ascii.eqb c "b" || Ascii.eqb c "B" then Some 2 else None.

Definition Number_of (s : string) : JsNumber :=
  match trim_list (str_list s) with
  | [] => Finite 0
  | "-"%char :: l => negated (unsigned_number l)
  | "+"%char :: l => unsigned_number l
  | "0"%char :: c :: l =>
      match radix_of c with
      | Some base =>
          match l with
          | [] => NaN
          | _ => match radix_value base 0 l with Some v => doubled (v # 1) | None => NaN end
          end
      | None => unsigned_number ("0"%char :: c :: l)
      end
  | l => unsigned_number l
  end.

Definition number_eqb (a b : JsNumber) : bool :=
  match a, b with
  | Finite p, Finite q => Qeq_bool p q
  | Infinite x, Infinite y => Bool.eqb x y
  | NaN, NaN => true
  | _, _ => false
  end.

Example numbers :
  forallb (fun '(s, n) => number_eqb (Number_of s) n)
    [("", Finite 0); (" 25 ", Finite (25 # 1)); ("-6.2088", Finite (-62088 # 10000)); ("1.5e3", Finite (1500 # 1)); (".5", Finite (1 # 2));
     ("5.", Finite (5 # 1)); ("0x1F", Finite (31 # 1)); ("-0x1F", NaN); ("1e400", Infinite false); ("1e-400", Finite 0);
     ("-Infinity", Infinite true); ("1 2", NaN); (".", NaN); ("1e", NaN); ("abc", NaN)] = true.
Proof. vm_compute. reflexivity. Qed.
