(* ===== verification/Dates.v ===== *)
(** * Dates as text

    What the service uses of JavaScript's [Date]: the ISO text of an instant in milliseconds, and the
    instant of a text with its offset. *)

From S2P Require Import Prelude JsString.
From Stdlib Require Import Ascii String.

Local Open Scope string_scope.
Local Open Scope Z_scope.

(** ** [Date.prototype.toISOString]

    The civil date of a day number (days since 1970-01-01) in the proleptic Gregorian calendar,
    by counting eras of 400 years from 1 March of year 0. *)
Definition civil_of_days (days : Z) : Z * Z * Z :=
  let z := days + 719468 in
  let era := z / 146097 in
  let doe := z - era * 146097 in
  let yoe := (doe - doe / 1460 + doe / 36524 - doe / 146096) / 365 in
  let doy := doe - (365 * yoe + yoe / 4 - yoe / 100) in
  let mp := (5 * doy + 2) / 153 in
  let d := doy - (153 * mp + 2) / 5 + 1 in
  let m := if mp <? 10 then mp + 3 else mp - 9 in
  (yoe + era * 400 + (if m <=? 2 then 1 else 0), m, d).

Definition padded (width : nat) (n : Z) : string :=
  let s := String_of n in
  String.append (list_str (repeat "0"%char (width - String.length s))) s.

Definition toISOString (ms : Z) : string :=
  let days := ms / 86400000 in
  let rest := ms mod 86400000 in
  let '(y, m, d) := civil_of_days days in
  let year := if (0 <=? y) && (y <=? 9999) then padded 4 y
              else if y <? 0 then "-" ++ padded 6 (- y) else "+" ++ padded 6 y in
  year ++ "-" ++ padded 2 m ++ "-" ++ padded 2 d ++ "T" ++
  padded 2 (rest / 3600000) ++ ":" ++ padded 2 (rest / 60000 mod 60) ++ ":" ++
  padded 2 (rest / 1000 mod 60) ++ "." ++ padded 3 (rest mod 1000) ++ "Z".

Example epoch : toISOString 0 = "1970-01-01T00:00:00.000Z".
Proof. reflexivity. Qed.
Example leap_day : toISOString 951826154678 = "2000-02-29T12:09:14.678Z".
Proof. reflexivity. Qed.
Example before_epoch : toISOString (-1) = "1969-12-31T23:59:59.999Z".
Proof. reflexivity. Qed.

(** ** [new Date(text)]

    The instant of a text [YYYY-MM-DDThh:mm[:ss[.fff]](Z|+hh:mm|-hh:mm)], whose parts are in their
    ranges: the day number of a civil date, the parts read one after the other. *)
Definition days_of_civil (y m d : Z) : Z :=
  let y := if m <=? 2 then y - 1 else y in
  let era := y / 400 in
  let yoe := y - era * 400 in
  let doy := (153 * (if 2 <? m then m - 3 else m + 9) + 2) / 5 + d - 1 in
  era * 146097 + (yoe * 365 + yoe / 4 - yoe / 100 + doy) - 719468.

Definition read_digits (n : nat) (l : list ascii) : option (Z * list ascii) :=
  if Nat.eqb (List.length (take n l)) n
  then match digits_value 0 (take n l) with Some v => Some (v, drop n l) | None => None end
  else None.
Definition read_char (c : ascii) (l : list ascii) : option (list ascii) :=
  match l with d :: rest => if Ascii.eqb c d then Some rest else None | [] => None end.

(** One to three digits after the point, as milliseconds. *)
Definition read_fraction (l : list ascii) : Z * list ascii :=
  match read_digits 3 l, read_digits 2 l, read_digits 1 l with
  | Some (v, rest), _, _ => (v, rest)
  | None, Some (v, rest), _ => (v * 10, rest)
  | None, None, Some (v, rest) => (v * 100, rest)
  | None, None, None => (0, "?"%char :: l)
  end.

(** [:ss[.fff]], as milliseconds; absent, nothing is read. *)
Definition read_seconds (l : list ascii) : option (Z * list ascii) :=
  match read_char ":" l with
  | None => Some (0, l)
  | Some l =>
      match read_digits 2 l with
      | None => None
      | Some (s, l) =>
          match read_char "." l with
          | None => Some (s * 1000, l)
          | Some l => let '(f, l) := read_fraction l in Some (s * 1000 + f, l)
          end
      end
  end.

(** [hh:mm], in minutes. *)
Definition read_minutes (l : list ascii) : option (Z * list ascii) :=
  match read_digits 2 l with
  | None => None
  | Some (h, l) =>
      match read_char ":" l with
      | None => None
      | Some l => match read_digits 2 l with Some (m, l) => Some (h * 60 + m, l) | None => None end
      end
  end.

(** The offset that ends the text, in minutes. *)
Definition read_offset (l : list ascii) : option Z :=
  match l with
  | ["Z"%char] => Some 0
  | "+"%char :: l => match read_minutes l with Some (m, []) => Some m | _ => None end
  | "-"%char :: l => match read_minutes l with Some (m, []) => Some (- m) | _ => None end
  | _ => None
  end.

Definition Date_parse (text : string) : option Z :=
  y ← read_digits 4 (str_list text);
  l ← read_char "-" y.2;
  m ← read_digits 2 l;
  l ← read_char "-" m.2;
  d ← read_digits 2 l;
  l ← read_char "T" d.2;
  t ← read_minutes l;
  s ← read_seconds t.2;
  z ← read_offset s.2;
  Some ((days_of_civil y.1 m.1 d.1 * 1440 + t.1 - z) * 60000 + s.1).

Definition instant_with_offset (text : string) : bool := match Date_parse text with Some _ => true | None => false end.

Example parsed : Date_parse "2026-10-29T00:00:00+07:00" = Some 1793206800000.
Proof. reflexivity. Qed.
Example parsed_fraction : Date_parse "2000-02-29T12:09:14.678Z" = Some 951826154678 /\ Date_parse "1969-12-31T23:59Z" = Some (-60000).
Proof. split; reflexivity. Qed.
Example not_parsed : map instant_with_offset ["2026-10-29"; "2026-10-29T00:00:00"; "2026-10-29T00:00:00.Z"; "2026-10-29T00:00:00.1234Z"] = [false; false; false; false].
Proof. reflexivity. Qed.
