(* ===== verification/Domain.v ===== *)
(** * The domain: entities, errors and the policies over them

    Models src/src/domain (entities, errors, the policy functions) and the value types of
    src/src/types that the services exchange. An instant ([Date]) is its number of milliseconds, in
    [Z]; an optional or nullable field is an [option]; a union of string literals is an inductive
    type with one constructor per literal. *)

From S2P Require Import Prelude JsString.
From Stdlib Require Import QArith_base.
From stdpp Require Import pretty.

Local Open Scope string_scope.
Local Open Scope Z_scope.

(** ** Accounts and principals *)

Inductive UserRole := Customer | Seller | Courier | Admin.
#[export] Instance UserRole_eq_dec : EqDecision UserRole.
Proof. solve_decision. Defined.

Definition role_name (r : UserRole) : string :=
  match r with
  | Customer => "customer" | Seller => "seller" | Courier => "courier" | Admin => "admin"
  end.

Inductive PrincipalKind :=
| PRINCIPAL_KIND_UNSPECIFIED | PRINCIPAL_KIND_CUSTOMER | PRINCIPAL_KIND_MERCHANT
| PRINCIPAL_KIND_DRIVER | PRINCIPAL_KIND_STAFF | PRINCIPAL_KIND_SERVICE.
#[export] Instance PrincipalKind_eq_dec : EqDecision PrincipalKind.
Proof. solve_decision. Defined.

Definition principalKindForRole (role : UserRole) : PrincipalKind :=
  match role with
  | Customer => PRINCIPAL_KIND_CUSTOMER
  | Seller => PRINCIPAL_KIND_MERCHANT
  | Courier => PRINCIPAL_KIND_DRIVER
  | Admin => PRINCIPAL_KIND_STAFF
  end.

Definition requiresTwoFactor (role : UserRole) : bool :=
  match role with Admin => true | _ => false end.

Definition normalisedEmail (email : string) : string := toLowerCase (trim email).

(** [UserEntity] without its two timestamps, which no operation of the service reads. *)
Record UserEntity := mkUser {
  user_id : Z;
  user_email : string;
  passwordHash : string;
  user_role : UserRole;
  isTwoFactorEnabled : bool;
  twoFactorSecret : option string
}.

Record TokenSubject := mkSubject {
  subject_id : Z;
  subject_email : string;
  subject_role : UserRole
}.
Definition subject_of (u : UserEntity) : TokenSubject :=
  mkSubject (user_id u) (user_email u) (user_role u).

(** ** Clients *)

Inductive RequestClient := Named (name : string) | Unnamed.
#[export] Instance RequestClient_eq_dec : EqDecision RequestClient.
Proof. solve_decision. Defined.

Inductive SessionClientDecision := Continue | Bind | Mismatch.
#[export] Instance SessionClientDecision_eq_dec : EqDecision SessionClientDecision.
Proof. solve_decision. Defined.

Definition sessionClientDecision (sessionClient : option string) (request : RequestClient)
    : SessionClientDecision :=
  match sessionClient with
  | None => match request with Named _ => Bind | Unnamed => Continue end
  | Some c =>
      match request with
      | Named n => if decide (n = c) then Continue else Mismatch
      | Unnamed => Mismatch
      end
  end.

Definition clientNameOf (client : RequestClient) : option string :=
  match client with Named n => Some n | Unnamed => None end.

Record CallContext := mkContext {
  requestId : option string;
  context_client : option RequestClient
}.

Inductive ProofRefusalReason :=
| missing | malformed | invalid_signature | expired | not_yet_valid
| wrong_project | wrong_app_id | keys_unavailable.
#[export] Instance ProofRefusalReason_eq_dec : EqDecision ProofRefusalReason.
Proof. solve_decision. Defined.

Inductive ClientRefusalReason :=
| proof_refusal (r : ProofRefusalReason) | unknown_client | client_required | client_mismatch.
#[export] Instance ClientRefusalReason_eq_dec : EqDecision ClientRefusalReason.
Proof. solve_decision. Defined.

(** ** Sign-in attempts *)

Record AttemptState := mkAttempt {
  attempts : Z;
  lastAttemptAt : Z;
  delayedUntil : Z
}.
#[export] Instance AttemptState_eq_dec : EqDecision AttemptState.
Proof. solve_decision. Defined.

Inductive AttemptAdmission :=
| AttemptAdmitted (n : Z) (until : Z)
| AttemptDelayed (retryAfterSeconds : Z).

Record ChallengeAttempt := mkChallengeAttempt {
  challenge_jti : string;
  challenge_expiresAt : Z;
  challenge_limit : Z
}.

Inductive ChallengeAdmission :=
| ChallengeAdmitted (n : Z)
| ChallengeDelayed (retryAfterSeconds : Z)
| ChallengeExhausted.

Inductive SignInStage := StagePassword | StageTwoFactor | StagePasskey.
Inductive SignInRole := RoleAdmin | RoleOther.
Inductive SignInFailureReason :=
| unknown_account | wrong_password | wrong_code | code_reused
| unknown_passkey | passkey_refused | no_passkey_challenge | sign_count_regressed.

Record SignInFailure := mkFailure {
  failure_stage : SignInStage;
  failure_reason : SignInFailureReason;
  failure_email : string;
  failure_user : option UserEntity;
  failure_attempt : Z;
  failure_detail : option string
}.

Definition ATTEMPTS_BEFORE_DELAY : Z := 5.
Definition FIRST_DELAY_SECONDS : Z := 1.
Definition LONGEST_DELAY_SECONDS : Z := 60.
Definition FORGET_AFTER_SECONDS : Z := 3600.
Definition ATTEMPTS_PER_CHALLENGE : Z := 5.

Definition delaySecondsAfter (n : Z) : Z :=
  if n <? ATTEMPTS_BEFORE_DELAY then 0
  else
    let doublings := Z.min (n - ATTEMPTS_BEFORE_DELAY) 30 in
    Z.min LONGEST_DELAY_SECONDS (FIRST_DELAY_SECONDS * 2 ^ doublings).

(** [Math.ceil(a / 1000)] of an integer. *)
Definition ceil_seconds (ms : Z) : Z := - ((- ms) / 1000).

Definition admitAttempt (state : option AttemptState) (now : Z) : AttemptAdmission :=
  match state with
  | Some s =>
      if delayedUntil s >? now
      then AttemptDelayed (Z.max 1 (ceil_seconds (delayedUntil s - now)))
      else
        let forgotten := now - lastAttemptAt s >=? FORGET_AFTER_SECONDS * 1000 in
        let n := if forgotten then 1 else attempts s + 1 in
        AttemptAdmitted n (now + delaySecondsAfter n * 1000)
  | None => AttemptAdmitted 1 (now + delaySecondsAfter 1 * 1000)
  end.

(** ** Passkeys *)

Inductive PasskeyDeviceType := singleDevice | multiDevice.
Definition device_type_name (t : PasskeyDeviceType) : string := match t with singleDevice => "singleDevice" | multiDevice => "multiDevice" end.

Record PasskeyEntity := mkPasskey {
  passkey_id : string;
  passkey_userId : Z;
  credentialId : string;
  publicKey : list Z;
  signCount : Z;
  transports : list string;
  deviceType : PasskeyDeviceType;
  backedUp : bool;
  passkey_name : string;
  passkey_createdAt : Z;
  lastUsedAt : option Z
}.

Definition PASSKEYS_PER_ACCOUNT : Z := 10.
Definition REGISTRATION_CHALLENGE_SECONDS : Z := 300.
Definition SIGN_IN_CHALLENGE_SECONDS : Z := 120.

(** ** Merchants, applications, profiles *)

Inductive MerchantState := m_pending | m_verified | m_active | m_suspended.
#[export] Instance MerchantState_eq_dec : EqDecision MerchantState.
Proof. solve_decision. Defined.

Definition merchant_state_name (s : MerchantState) : string :=
  match s with
  | m_pending => "pending" | m_verified => "verified"
  | m_active => "active" | m_suspended => "suspended"
  end.

Definition MAY_SELL : list string := ["verified"; "active"].
Definition maySell (status : string) : bool := bool_decide (status ∈ MAY_SELL).

Record MerchantEntity := mkMerchant {
  merchant_id : Z;
  merchant_userId : Z;
  merchant_storeName : string;
  slug : string;
  merchant_description : option string;
  merchant_businessRegistrationNumber : string;
  merchant_taxId : string;
  merchant_status : MerchantState;
  merchant_verifiedAt : option Z;
  merchant_streetAddress : string;
  merchant_city : string;
  merchant_postalCode : string;
  merchant_latitude : option Q;
  merchant_longitude : option Q;
  merchant_geocodedAt : option Z
}.

Inductive SellerApplicationStatus := s_pending | s_verified | s_rejected.
#[export] Instance SellerApplicationStatus_eq_dec : EqDecision SellerApplicationStatus.
Proof. solve_decision. Defined.

Definition seller_status_name (s : SellerApplicationStatus) : string :=
  match s with s_pending => "pending" | s_verified => "verified" | s_rejected => "rejected" end.

Record MerchantVerificationEntity := mkVerification {
  verification_id : Z;
  verification_userId : Z;
  storeName : string;
  businessRegistrationNumber : string;
  taxId : string;
  verification_status : SellerApplicationStatus;
  verifiedAt : option Z;
  verification_streetAddress : string;
  verification_city : string;
  verification_postalCode : string;
  rejectedAt : option Z
}.

Inductive CourierApplicationStatus := c_pending | c_approved | c_rejected.
#[export] Instance CourierApplicationStatus_eq_dec : EqDecision CourierApplicationStatus.
Proof. solve_decision. Defined.

Definition courier_status_name (s : CourierApplicationStatus) : string :=
  match s with c_pending => "pending" | c_approved => "approved" | c_rejected => "rejected" end.

Record CourierFiling := mkFiling {
  filing_userId : Z;
  filing_principalId : string;
  filing_driverId : Z
}.

Record ProfileEntity := mkProfile {
  profile_id : Z;
  profile_userId : Z;
  fullName : string;
  phoneNumber : string;
  profile_streetAddress : string;
  profile_city : string;
  profile_postalCode : string;
  avatarUrl : option string;
  profile_latitude : option Q;
  profile_longitude : option Q;
  profile_geocodedAt : option Z
}.

Inductive GeocodePrecision := UNSPECIFIED | ROOFTOP | STREET | SUBURB | CITY.
Inductive GeocodeFailure :=
| NOT_FOUND | AMBIGUOUS | PROVIDER_UNAVAILABLE | OUT_OF_SERVICE_AREA | INSUFFICIENT_ADDRESS.

Record ProviderPoint := mkPoint {
  latitude : Q;
  longitude : Q;
  precision : GeocodePrecision;
  displayName : option string
}.

(** ** Errors *)

Inductive FleetFailureKind := refused | fault | unknown.
#[export] Instance FleetFailureKind_eq_dec : EqDecision FleetFailureKind.
Proof. solve_decision. Defined.

Record FleetFailure := mkFleetFailure {
  fleet_kind : FleetFailureKind;
  fleet_code : string;
  fleet_message : string
}.
#[export] Instance FleetFailure_eq_dec : EqDecision FleetFailure.
Proof. solve_decision. Defined.

Inductive HttpStatus :=
| BadRequest | Unauthorized | Forbidden | NotFound | Conflict | UnprocessableEntity
| TooManyRequests | BadGateway | ServiceUnavailable.
#[export] Instance HttpStatus_eq_dec : EqDecision HttpStatus.
Proof. solve_decision. Defined.

Definition getStatus (s : HttpStatus) : Z :=
  match s with
  | BadRequest => 400 | Unauthorized => 401 | Forbidden => 403 | NotFound => 404
  | Conflict => 409 | UnprocessableEntity => 422 | TooManyRequests => 429 | BadGateway => 502 | ServiceUnavailable => 503
  end.

(** Everything the service throws: NestJS's HTTP exceptions with the machine code of their body
    (when they have one), the domain's errors, TypeORM's [QueryFailedError] with its SQL state, a
    lost database connection, and a plain [Error]. *)
Inductive exn :=
| HttpException (status : HttpStatus) (error : option string) (message : string)
| SignInDelayedError (retryAfterSeconds : Z)
| ClientMismatchError (sessionClient : option string)
| FleetRegistryError (failure : FleetFailure)
| RecordConflictError (message : string)
| MissingReferenceError (message : string)
| QueryFailedError (sqlState : string)
| ConnectionLost
| PlainError (message : string).
#[export] Instance exn_eq_dec : EqDecision exn.
Proof. solve_decision. Defined.

(** [error.message]; the driver's own text of a failed query is its SQL state here. *)
Definition exn_message (e : exn) : string :=
  match e with
  | HttpException _ _ m => m
  | SignInDelayedError s => "sign-in attempts for this account are delayed for " ++ String_of s ++ " s"
  | ClientMismatchError c =>
      "this session belongs to the client " ++ default "(unnamed)" c ++ ", not to the one renewing it"
  | FleetRegistryError f => fleet_code f ++ ": " ++ fleet_message f
  | RecordConflictError m | MissingReferenceError m | PlainError m => m
  | QueryFailedError s => s
  | ConnectionLost => "Connection terminated unexpectedly"
  end.

Definition definitelyDidNothing (f : FleetFailure) : bool := bool_decide (fleet_kind f <> unknown).
Definition isFault (f : FleetFailure) : bool := bool_decide (fleet_kind f = fault).

Definition UNIQUE_VIOLATION : string := "23505".
Definition FOREIGN_KEY_VIOLATION : string := "23503".

Definition sqlStateOf (e : exn) : option string :=
  match e with QueryFailedError s => Some s | _ => None end.
Definition isUniqueViolation (e : exn) : bool := bool_decide (sqlStateOf e = Some UNIQUE_VIOLATION).
Definition isForeignKeyViolation (e : exn) : bool :=
  bool_decide (sqlStateOf e = Some FOREIGN_KEY_VIOLATION).

Definition isUnauthorized (e : exn) : bool :=
  match e with HttpException Unauthorized _ _ => true | _ => false end.

Definition checkedClient (client : option RequestClient) : res exn RequestClient :=
  match client with
  | None => Err (PlainError "a session was started or renewed on a route that does not check its client")
  | Some c => Ok c
  end.

(** ** Facts about the policies *)

Lemma normalisedEmail_idem e : normalisedEmail (normalisedEmail e) = normalisedEmail e.
Proof. unfold normalisedEmail. by rewrite trim_toLowerCase, trim_idem, toLowerCase_idem. Qed.

Lemma sessionClientDecision_mismatch c r :
  sessionClientDecision c r = Mismatch <-> exists n, c = Some n /\ r <> Named n.
Proof.
  unfold sessionClientDecision. destruct c as [n|], r as [m|]; try case_decide; subst;
    split; try (intros [? [? ?]]); try intros ?; naive_solver.
Qed.

Lemma requiresTwoFactor_Admin r : requiresTwoFactor r = true <-> r = Admin.
Proof. destruct r; simpl; split; congruence. Qed.

(** The delay table: nothing before the fifth attempt, then it doubles from one second up to a
    minute and never decreases. *)
Lemma delaySecondsAfter_range n : 0 <= delaySecondsAfter n <= LONGEST_DELAY_SECONDS.
Proof.
  unfold delaySecondsAfter, LONGEST_DELAY_SECONDS, FIRST_DELAY_SECONDS, ATTEMPTS_BEFORE_DELAY.
  destruct (Z.ltb_spec n 5); [lia|].
  assert (0 < 2 ^ Z.min (n - 5) 30) by (apply Z.pow_pos_nonneg; lia). lia.
Qed.

Lemma delaySecondsAfter_mono n m : n <= m -> delaySecondsAfter n <= delaySecondsAfter m.
Proof.
  intros H. unfold delaySecondsAfter, FIRST_DELAY_SECONDS, ATTEMPTS_BEFORE_DELAY, LONGEST_DELAY_SECONDS.
  destruct (Z.ltb_spec n 5), (Z.ltb_spec m 5); try lia.
  assert (2 ^ Z.min (n - 5) 30 <= 2 ^ Z.min (m - 5) 30) by (apply Z.pow_le_mono_r; lia). lia.
Qed.

Lemma delaySecondsAfter_full n : 11 <= n -> delaySecondsAfter n = LONGEST_DELAY_SECONDS.
Proof.
  intros H. pose proof (delaySecondsAfter_mono 11 n H) as Hm. pose proof (delaySecondsAfter_range n).
  change (delaySecondsAfter 11) with 60 in Hm. unfold LONGEST_DELAY_SECONDS in *. lia.
Qed.

Lemma ceil_seconds_spec ms : ms <= ceil_seconds ms * 1000 < ms + 1000.
Proof. unfold ceil_seconds. pose proof (Z.div_mod (- ms) 1000 ltac:(lia)). pose proof (Z.mod_pos_bound (- ms) 1000 ltac:(lia)). lia. Qed.
