(* ===== verification/Store.v ===== *)
(** * The world: database tables, clocks, entropy, log

    Models the persistence layer under the adapters of src/src/infrastructure/persistence: one
    field per table of src/src/infrastructure/persistence/entities (and its migration), keyed by
    the column the table is unique on. A database statement is one atomic action; a transaction is
    one atomic action whose tables are restored when its body throws. Either may fail because the
    connection is lost, with or without having taken effect: [db_fault] says, for the n-th call,
    which of the three happens, and every theorem is for every such schedule.

    What the service takes from Node's crypto, bcrypt, jsonwebtoken and PostgreSQL is the class
    [Platform]; [PlatformLaws] states the documented behaviour some theorems rely on. *)

From S2P Require Import Prelude JsString Domain.
From stdpp Require Import pretty.

Local Open Scope string_scope.
Local Open Scope Z_scope.

(** ** Rows *)

(** src/src/infrastructure/persistence/entities/user_typeorm.entity.ts: the entity and the column
    only [acceptTwoFactorStep] touches. *)
Record UserRow := mkUserRow {
  row_user : UserEntity;
  twoFactorLastStep : option Z
}.

Record PrincipalRow := mkPrincipal {
  kind : PrincipalKind;
  principal_displayName : option string
}.

Record RefreshTokenRow := mkRefreshRow {
  familyId : string;
  principalId : string;
  token_userId : Z;
  client : option string;
  expiresAt : Z;
  usedAt : option Z;
  revokedAt : option Z;
  revokedReason : option string;
  replacedByJti : option string
}.

Record RevokedTokenRow := mkRevokedRow {
  revoked_expiresAt : Z;
  revoked_reason : string
}.

Record ChallengeAttemptRow := mkChallengeRow {
  challenge_attempts : Z;
  challenge_row_expiresAt : Z
}.

Inductive ChallengePurpose := purpose_register | purpose_sign_in.
#[export] Instance ChallengePurpose_eq_dec : EqDecision ChallengePurpose.
Proof. solve_decision. Defined.

Record PasskeyChallengeRow := mkPasskeyChallenge {
  pc_userId : Z;
  purpose : ChallengePurpose;
  pc_challenge : string;
  mfaJti : option string;
  pc_expiresAt : Z;
  pc_usedAt : option Z
}.

Record CourierApplicationRow := mkCourierRow {
  courier_id : Z;
  courier_principalId : string;
  courier_driverId : option Z;
  courier_status : CourierApplicationStatus;
  filedAt : Z;
  approvedAt : option Z;
  courier_rejectedAt : option Z
}.

Record GeocodedRow := mkGeocoded {
  geocoded_point : ProviderPoint;
  geocoded_provider : string
}.

(** ** The database *)

Record Db := mkDb {
  users : gmap Z UserRow;
  users_next : Z;
  principals : gmap string PrincipalRow;
  principal_aliases : gmap (string * string) string;
  refresh_tokens : gmap string RefreshTokenRow;
  revoked_access_tokens : gmap string RevokedTokenRow;
  account_sign_in_attempts : gmap string AttemptState;
  two_factor_challenge_attempts : gmap string ChallengeAttemptRow;
  passkeys : gmap string PasskeyEntity;
  passkey_challenges : gmap string PasskeyChallengeRow;
  profiles : gmap Z ProfileEntity;
  profiles_next : Z;
  merchants : gmap Z MerchantEntity;
  merchants_next : Z;
  merchant_verifications : gmap Z MerchantVerificationEntity;
  merchant_verifications_next : Z;
  courier_applications : gmap Z CourierApplicationRow;
  courier_applications_next : Z;
  geocoded_addresses : gmap string GeocodedRow
}.

Definition set_users (v : gmap Z UserRow) (d : Db) : Db :=
  mkDb v (d.(users_next)) (d.(principals)) (d.(principal_aliases)) (d.(refresh_tokens)) (d.(revoked_access_tokens)) (d.(account_sign_in_attempts)) (d.(two_factor_challenge_attempts)) (d.(passkeys)) (d.(passkey_challenges)) (d.(profiles)) (d.(profiles_next)) (d.(merchants)) (d.(merchants_next)) (d.(merchant_verifications)) (d.(merchant_verifications_next)) (d.(courier_applications)) (d.(courier_applications_next)) (d.(geocoded_addresses)).
Definition set_users_next (v : Z) (d : Db) : Db :=
  mkDb (d.(users)) v (d.(principals)) (d.(principal_aliases)) (d.(refresh_tokens)) (d.(revoked_access_tokens)) (d.(account_sign_in_attempts)) (d.(two_factor_challenge_attempts)) (d.(passkeys)) (d.(passkey_challenges)) (d.(profiles)) (d.(profiles_next)) (d.(merchants)) (d.(merchants_next)) (d.(merchant_verifications)) (d.(merchant_verifications_next)) (d.(courier_applications)) (d.(courier_applications_next)) (d.(geocoded_addresses)).
Definition set_principals (v : gmap string PrincipalRow) (d : Db) : Db :=
  mkDb (d.(users)) (d.(users_next)) v (d.(principal_aliases)) (d.(refresh_tokens)) (d.(revoked_access_tokens)) (d.(account_sign_in_attempts)) (d.(two_factor_challenge_attempts)) (d.(passkeys)) (d.(passkey_challenges)) (d.(profiles)) (d.(profiles_next)) (d.(merchants)) (d.(merchants_next)) (d.(merchant_verifications)) (d.(merchant_verifications_next)) (d.(courier_applications)) (d.(courier_applications_next)) (d.(geocoded_addresses)).
Definition set_principal_aliases (v : gmap (string * string) string) (d : Db) : Db :=
  mkDb (d.(users)) (d.(users_next)) (d.(principals)) v (d.(refresh_tokens)) (d.(revoked_access_tokens)) (d.(account_sign_in_attempts)) (d.(two_factor_challenge_attempts)) (d.(passkeys)) (d.(passkey_challenges)) (d.(profiles)) (d.(profiles_next)) (d.(merchants)) (d.(merchants_next)) (d.(merchant_verifications)) (d.(merchant_verifications_next)) (d.(courier_applications)) (d.(courier_applications_next)) (d.(geocoded_addresses)).
Definition set_refresh_tokens (v : gmap string RefreshTokenRow) (d : Db) : Db :=
  mkDb (d.(users)) (d.(users_next)) (d.(principals)) (d.(principal_aliases)) v (d.(revoked_access_tokens)) (d.(account_sign_in_attempts)) (d.(two_factor_challenge_attempts)) (d.(passkeys)) (d.(passkey_challenges)) (d.(profiles)) (d.(profiles_next)) (d.(merchants)) (d.(merchants_next)) (d.(merchant_verifications)) (d.(merchant_verifications_next)) (d.(courier_applications)) (d.(courier_applications_next)) (d.(geocoded_addresses)).
Definition set_revoked_access_tokens (v : gmap string RevokedTokenRow) (d : Db) : Db :=
  mkDb (d.(users)) (d.(users_next)) (d.(principals)) (d.(principal_aliases)) (d.(refresh_tokens)) v (d.(account_sign_in_attempts)) (d.(two_factor_challenge_attempts)) (d.(passkeys)) (d.(passkey_challenges)) (d.(profiles)) (d.(profiles_next)) (d.(merchants)) (d.(merchants_next)) (d.(merchant_verifications)) (d.(merchant_verifications_next)) (d.(courier_applications)) (d.(courier_applications_next)) (d.(geocoded_addresses)).
Definition set_account_sign_in_attempts (v : gmap string AttemptState) (d : Db) : Db :=
  mkDb (d.(users)) (d.(users_next)) (d.(principals)) (d.(principal_aliases)) (d.(refresh_tokens)) (d.(revoked_access_tokens)) v (d.(two_factor_challenge_attempts)) (d.(passkeys)) (d.(passkey_challenges)) (d.(profiles)) (d.(profiles_next)) (d.(merchants)) (d.(merchants_next)) (d.(merchant_verifications)) (d.(merchant_verifications_next)) (d.(courier_applications)) (d.(courier_applications_next)) (d.(geocoded_addresses)).
Definition set_two_factor_challenge_attempts (v : gmap string ChallengeAttemptRow) (d : Db) : Db :=
  mkDb (d.(users)) (d.(users_next)) (d.(principals)) (d.(principal_aliases)) (d.(refresh_tokens)) (d.(revoked_access_tokens)) (d.(account_sign_in_attempts)) v (d.(passkeys)) (d.(passkey_challenges)) (d.(profiles)) (d.(profiles_next)) (d.(merchants)) (d.(merchants_next)) (d.(merchant_verifications)) (d.(merchant_verifications_next)) (d.(courier_applications)) (d.(courier_applications_next)) (d.(geocoded_addresses)).
Definition set_passkeys (v : gmap string PasskeyEntity) (d : Db) : Db :=
  mkDb (d.(users)) (d.(users_next)) (d.(principals)) (d.(principal_aliases)) (d.(refresh_tokens)) (d.(revoked_access_tokens)) (d.(account_sign_in_attempts)) (d.(two_factor_challenge_attempts)) v (d.(passkey_challenges)) (d.(profiles)) (d.(profiles_next)) (d.(merchants)) (d.(merchants_next)) (d.(merchant_verifications)) (d.(merchant_verifications_next)) (d.(courier_applications)) (d.(courier_applications_next)) (d.(geocoded_addresses)).
Definition set_passkey_challenges (v : gmap string PasskeyChallengeRow) (d : Db) : Db :=
  mkDb (d.(users)) (d.(users_next)) (d.(principals)) (d.(principal_aliases)) (d.(refresh_tokens)) (d.(revoked_access_tokens)) (d.(account_sign_in_attempts)) (d.(two_factor_challenge_attempts)) (d.(passkeys)) v (d.(profiles)) (d.(profiles_next)) (d.(merchants)) (d.(merchants_next)) (d.(merchant_verifications)) (d.(merchant_verifications_next)) (d.(courier_applications)) (d.(courier_applications_next)) (d.(geocoded_addresses)).
Definition set_profiles (v : gmap Z ProfileEntity) (d : Db) : Db :=
  mkDb (d.(users)) (d.(users_next)) (d.(principals)) (d.(principal_aliases)) (d.(refresh_tokens)) (d.(revoked_access_tokens)) (d.(account_sign_in_attempts)) (d.(two_factor_challenge_attempts)) (d.(passkeys)) (d.(passkey_challenges)) v (d.(profiles_next)) (d.(merchants)) (d.(merchants_next)) (d.(merchant_verifications)) (d.(merchant_verifications_next)) (d.(courier_applications)) (d.(courier_applications_next)) (d.(geocoded_addresses)).
Definition set_profiles_next (v : Z) (d : Db) : Db :=
  mkDb (d.(users)) (d.(users_next)) (d.(principals)) (d.(principal_aliases)) (d.(refresh_tokens)) (d.(revoked_access_tokens)) (d.(account_sign_in_attempts)) (d.(two_factor_challenge_attempts)) (d.(passkeys)) (d.(passkey_challenges)) (d.(profiles)) v (d.(merchants)) (d.(merchants_next)) (d.(merchant_verifications)) (d.(merchant_verifications_next)) (d.(courier_applications)) (d.(courier_applications_next)) (d.(geocoded_addresses)).
Definition set_merchants (v : gmap Z MerchantEntity) (d : Db) : Db :=
  mkDb (d.(users)) (d.(users_next)) (d.(principals)) (d.(principal_aliases)) (d.(refresh_tokens)) (d.(revoked_access_tokens)) (d.(account_sign_in_attempts)) (d.(two_factor_challenge_attempts)) (d.(passkeys)) (d.(passkey_challenges)) (d.(profiles)) (d.(profiles_next)) v (d.(merchants_next)) (d.(merchant_verifications)) (d.(merchant_verifications_next)) (d.(courier_applications)) (d.(courier_applications_next)) (d.(geocoded_addresses)).
Definition set_merchants_next (v : Z) (d : Db) : Db :=
  mkDb (d.(users)) (d.(users_next)) (d.(principals)) (d.(principal_aliases)) (d.(refresh_tokens)) (d.(revoked_access_tokens)) (d.(account_sign_in_attempts)) (d.(two_factor_challenge_attempts)) (d.(passkeys)) (d.(passkey_challenges)) (d.(profiles)) (d.(profiles_next)) (d.(merchants)) v (d.(merchant_verifications)) (d.(merchant_verifications_next)) (d.(courier_applications)) (d.(courier_applications_next)) (d.(geocoded_addresses)).
Definition set_merchant_verifications (v : gmap Z MerchantVerificationEntity) (d : Db) : Db :=
  mkDb (d.(users)) (d.(users_next)) (d.(principals)) (d.(principal_aliases)) (d.(refresh_tokens)) (d.(revoked_access_tokens)) (d.(account_sign_in_attempts)) (d.(two_factor_challenge_attempts)) (d.(passkeys)) (d.(passkey_challenges)) (d.(profiles)) (d.(profiles_next)) (d.(merchants)) (d.(merchants_next)) v (d.(merchant_verifications_next)) (d.(courier_applications)) (d.(courier_applications_next)) (d.(geocoded_addresses)).
Definition set_merchant_verifications_next (v : Z) (d : Db) : Db :=
  mkDb (d.(users)) (d.(users_next)) (d.(principals)) (d.(principal_aliases)) (d.(refresh_tokens)) (d.(revoked_access_tokens)) (d.(account_sign_in_attempts)) (d.(two_factor_challenge_attempts)) (d.(passkeys)) (d.(passkey_challenges)) (d.(profiles)) (d.(profiles_next)) (d.(merchants)) (d.(merchants_next)) (d.(merchant_verifications)) v (d.(courier_applications)) (d.(courier_applications_next)) (d.(geocoded_addresses)).
Definition set_courier_applications (v : gmap Z CourierApplicationRow) (d : Db) : Db :=
  mkDb (d.(users)) (d.(users_next)) (d.(principals)) (d.(principal_aliases)) (d.(refresh_tokens)) (d.(revoked_access_tokens)) (d.(account_sign_in_attempts)) (d.(two_factor_challenge_attempts)) (d.(passkeys)) (d.(passkey_challenges)) (d.(profiles)) (d.(profiles_next)) (d.(merchants)) (d.(merchants_next)) (d.(merchant_verifications)) (d.(merchant_verifications_next)) v (d.(courier_applications_next)) (d.(geocoded_addresses)).
Definition set_courier_applications_next (v : Z) (d : Db) : Db :=
  mkDb (d.(users)) (d.(users_next)) (d.(principals)) (d.(principal_aliases)) (d.(refresh_tokens)) (d.(revoked_access_tokens)) (d.(account_sign_in_attempts)) (d.(two_factor_challenge_attempts)) (d.(passkeys)) (d.(passkey_challenges)) (d.(profiles)) (d.(profiles_next)) (d.(merchants)) (d.(merchants_next)) (d.(merchant_verifications)) (d.(merchant_verifications_next)) (d.(courier_applications)) v (d.(geocoded_addresses)).
Definition set_geocoded_addresses (v : gmap string GeocodedRow) (d : Db) : Db :=
  mkDb (d.(users)) (d.(users_next)) (d.(principals)) (d.(principal_aliases)) (d.(refresh_tokens)) (d.(revoked_access_tokens)) (d.(account_sign_in_attempts)) (d.(two_factor_challenge_attempts)) (d.(passkeys)) (d.(passkey_challenges)) (d.(profiles)) (d.(profiles_next)) (d.(merchants)) (d.(merchants_next)) (d.(merchant_verifications)) (d.(merchant_verifications_next)) (d.(courier_applications)) (d.(courier_applications_next)) v.

(** ** Log lines and counters *)

Inductive Event :=
| MetricSignInFailure (stage : SignInStage) (role : SignInRole)
| LogSignInFailure (request : option string) (stage : SignInStage) (role : SignInRole)
    (reason : SignInFailureReason) (account_key : string) (n : Z) (user : option Z) (detail : option string)
| MetricClientRefusal (client_label : string) (reason : ClientRefusalReason)
| LogClientRefused (request : option string) (client_label : string) (reason : ClientRefusalReason)
    (presented : option string) (session_client : option string) (user : option Z)
| LogSessionBound (request : option string) (client_label : string) (user : Z)
| MetricAdminAction (action outcome : string)
| LogAdminAction (request : option string) (actor action target outcome : string)
| LogLine (request : option string) (line : string).

Inductive Fault := NoFault | LostBefore | LostAfter.

(** ** The platform *)

Record Claims := mkClaims {
  sub : string; jti : string; iss : string; aud : string; iat : Z; exp : Z;
  token_use : string; fam : option string; azp : option string;
  uid : Z; claims_email : option string; claims_role : option string
}.
#[export] Instance Claims_eq_dec : EqDecision Claims.
Proof. solve_decision. Defined.

(** A verified payload is an object of claims, or a bare string. *)
Inductive JwtPayload := JwtObject (c : Claims) | JwtString (s : string).

Class Platform := {
  (** Node's [crypto]: the n-th UUID, n-th batch of 20 random bytes, SHA-256 in hex, HMAC-SHA1. *)
  uuid_of : nat -> string;
  random20_of : nat -> list Z;
  sha256_hex : string -> string;
  hmac_sha1 : list Z -> list Z -> list Z;
  (** bcrypt, the n-th salt making the hash. *)
  bcrypt_compare : string -> string -> bool;
  bcrypt_hash : nat -> string -> string;
  (** jsonwebtoken over RS256 with Node's keys; [None] where [verify] throws. *)
  PrivateKey : Type;
  PublicKey : Type;
  createPublicKey : PrivateKey -> PublicKey;
  jwt_sign : PrivateKey -> string -> Claims -> string;
  jwt_header_kid : string -> option string;
  jwt_decode : string -> option JwtPayload;
  jwt_verify : PublicKey -> string -> string -> Z -> string -> option JwtPayload;
  (** PostgreSQL's [lower()], and whether the n-th database call loses its connection. *)
  pg_lower : string -> string;
  db_fault : nat -> Fault
}.

(** Documented behaviour of the platform. [jwt_verify k iss aud now t] answers a payload only for a
    token whose [iss], [aud] and [exp] pass; a signed token verifies under its own public key; bcrypt accepts the password it hashed; UUIDs do not repeat. *)
Class PlatformLaws (P : Platform) := {
  uuid_inj : forall n m, uuid_of n = uuid_of m -> n = m;
  uuid_nonempty : forall n, uuid_of n <> "";
  hmac_bytes : forall k m, List.length (hmac_sha1 k m) = 20%nat /\ Forall (fun b => 0 <= b < 256) (hmac_sha1 k m);
  random20_bytes : forall n, List.length (random20_of n) = 20%nat /\ Forall (fun b => 0 <= b < 256) (random20_of n);
  bcrypt_ok : forall n p, bcrypt_compare p (bcrypt_hash n p) = true;
  sign_kid : forall k kid c, jwt_header_kid (jwt_sign k kid c) = Some kid;
  sign_decode : forall k kid c, jwt_decode (jwt_sign k kid c) = Some (JwtObject c);
  sign_verify : forall k kid c now, now < exp c ->
    jwt_verify (createPublicKey k) (iss c) (aud c) now (jwt_sign k kid c) = Some (JwtObject c);
  verify_decode : forall key i a now t p, jwt_verify key i a now t = Some p -> jwt_decode t = Some p;
  verify_checks : forall key i a now t c, jwt_verify key i a now t = Some (JwtObject c) ->
    iss c = i /\ aud c = a /\ now < exp c;
  pg_lower_idem : forall s, pg_lower (pg_lower s) = pg_lower s
}.

(** ** The world *)

Record World := mkWorld {
  db : Db;
  node_ms : Z;
  pg_ms : Z;
  uuid_next : nat;
  salt_next : nat;
  db_calls : nat;
  events : list Event;
  net_calls : nat
}.

Definition set_db (d : Db) (w : World) : World :=
  mkWorld d (node_ms w) (pg_ms w) (uuid_next w) (salt_next w) (db_calls w) (events w) (net_calls w).
Definition count_call (w : World) : World :=
  mkWorld (db w) (node_ms w) (pg_ms w) (uuid_next w) (salt_next w) (S (db_calls w)) (events w) (net_calls w).
Definition set_clocks (node pg : Z) (w : World) : World :=
  mkWorld (db w) node pg (uuid_next w) (salt_next w) (db_calls w) (events w) (net_calls w).

Abbreviation M := (prog World exn).

(** ** Effects of the Node process *)

Definition Date_now : M Z := atom (fun w => (node_ms w, w)).

Section Effects.
Context {P : Platform}.

Definition randomUUID : M string :=
  atom (fun w =>
    (uuid_of (uuid_next w),
     mkWorld (db w) (node_ms w) (pg_ms w) (S (uuid_next w)) (salt_next w) (db_calls w) (events w) (net_calls w))).

(** The next draw of the process's random bytes, used as a salt or as a secret. *)
Definition next_random : M nat :=
  atom (fun w =>
    (salt_next w,
     mkWorld (db w) (node_ms w) (pg_ms w) (uuid_next w) (S (salt_next w)) (db_calls w) (events w) (net_calls w))).

Definition emit (e : Event) : M unit :=
  atom (fun w =>
    (tt, mkWorld (db w) (node_ms w) (pg_ms w) (uuid_next w) (salt_next w) (db_calls w) (events w ++ [e]) (net_calls w))).

(** The number of this call to another service over the network, which picks the service's answer. *)
Definition next_call : M nat :=
  atom (fun w =>
    (net_calls w,
     mkWorld (db w) (node_ms w) (pg_ms w) (uuid_next w) (salt_next w) (db_calls w) (events w) (S (net_calls w)))).

(** *** A database statement

    [op] reads the world (tables, database clock) and answers with its rows or its error and the
    world it leaves; the call may lose its connection before or after taking effect. *)
Definition statement {X} (op : World -> res exn X * World) : M X :=
  Atom (fun w =>
    let w1 := count_call w in
    match db_fault (db_calls w) with
    | NoFault => op w1
    | LostBefore => (Err ConnectionLost, w1)
    | LostAfter => (Err ConnectionLost, (op w1).2)
    end) of_res.

(** A statement that only reads. *)
Definition query {X} (f : World -> X) : M X := statement (fun w => (Ok (f w), w)).
(** A statement that updates the tables and answers. *)
Definition update {X} (f : World -> X * Db) : M X :=
  statement (fun w => let '(x, d) := f w in (Ok x, set_db d w)).

(** *** A transaction

    Its statements run together: concurrent transactions are serialised by the row locks they
    take. When the body throws, or the commit is lost before taking effect, the tables are
    restored. *)
Definition transaction {X} (body : M X) : M X :=
  Atom (fun w =>
    match run body w with
    | (Err e, w') => (Err e, set_db (db w) w')
    | (Ok x, w') =>
        let w1 := count_call w' in
        match db_fault (db_calls w') with
        | NoFault => (Ok x, w1)
        | LostBefore => (Err ConnectionLost, set_db (db w) w1)
        | LostAfter => (Err ConnectionLost, w1)
        end
    end) of_res.
End Effects.

(** ** Reasoning about effects *)

Section EffectRules.
Context {P : Platform}.

Lemma run_of_res {A} (r : res exn A) (w : World) : run (of_res r) w = (r, w).
Proof. by destruct r. Qed.

Lemma wp_statement {X} (op : World -> res exn X * World) Q w :
  Q (op (count_call w)).1 (op (count_call w)).2 ->
  Q (Err ConnectionLost) (count_call w) ->
  Q (Err ConnectionLost) (op (count_call w)).2 ->
  wp (statement op) Q w.
Proof.
  intros H1 H2 H3. unfold wp, statement. cbn.
  destruct (db_fault _); cbn; rewrite ?run_of_res; cbn; auto.
  destruct (op (count_call w)) as [r w']. cbn in *. rewrite run_of_res. auto.
Qed.

Lemma wp_query {X} (f : World -> X) Q w :
  Q (Ok (f (count_call w))) (count_call w) ->
  Q (Err ConnectionLost) (count_call w) ->
  wp (query f) Q w.
Proof. intros. apply wp_statement; auto. Qed.

Lemma wp_update {X} (f : World -> X * Db) Q w :
  Q (Ok (f (count_call w)).1) (set_db (f (count_call w)).2 (count_call w)) ->
  Q (Err ConnectionLost) (count_call w) ->
  Q (Err ConnectionLost) (set_db (f (count_call w)).2 (count_call w)) ->
  wp (update f) Q w.
Proof. intros. apply wp_statement; destruct (f (count_call w)); auto. Qed.

Lemma wp_transaction {X} (body : M X) (Q : res exn X -> World -> Prop) w :
  wp body (fun r w' =>
    match r with
    | Err e => Q (Err e) (set_db (db w) w')
    | Ok x => Q (Ok x) (count_call w') /\
              Q (Err ConnectionLost) (set_db (db w) (count_call w')) /\
              Q (Err ConnectionLost) (count_call w')
    end) w ->
  wp (transaction body) Q w.
Proof.
  unfold wp, transaction. cbn. destruct (run body w) as [[x|e] w']; cbn.
  - intros (H1 & H2 & H3). destruct (db_fault _); cbn; auto.
  - auto.
Qed.

Lemma wp_Date_now Q w : Q (Ok (node_ms w)) w -> wp Date_now Q w.
Proof. auto. Qed.

(** *** When no connection is lost *)

Definition reliable : Prop := forall n, db_fault n = NoFault.

Section Reliable.
Context (Hrel : reliable).

Lemma run_query_rel {X} (f : World -> X) w : run (query f) w = (Ok (f (count_call w)), count_call w).
Proof. unfold query, statement. cbn. by rewrite Hrel. Qed.

Lemma wp_statement_rel {X} (op : World -> res exn X * World) (Q : res exn X -> World -> Prop) w :
  Q (op (count_call w)).1 (op (count_call w)).2 -> wp (statement op) Q w.
Proof.
  unfold wp, statement. cbn. rewrite Hrel. destruct (op (count_call w)) as [r w']. by rewrite run_of_res.
Qed.

Lemma wp_query_rel {X} (f : World -> X) (Q : res exn X -> World -> Prop) w :
  Q (Ok (f (count_call w))) (count_call w) -> wp (query f) Q w.
Proof. apply (wp_statement_rel (fun w => (Ok (f w), w))). Qed.

Lemma wp_update_rel {X} (f : World -> X * Db) (Q : res exn X -> World -> Prop) w :
  Q (Ok (f (count_call w)).1) (set_db (f (count_call w)).2 (count_call w)) -> wp (update f) Q w.
Proof. intros H. apply wp_statement_rel. by destruct (f (count_call w)). Qed.

Lemma wp_transaction_rel {X} (body : M X) (Q : res exn X -> World -> Prop) w :
  wp body (fun r w' =>
    match r with Err e => Q (Err e) (set_db (db w) w') | Ok x => Q (Ok x) (count_call w') end) w ->
  wp (transaction body) Q w.
Proof. unfold wp, transaction. cbn. destruct (run body w) as [[x|e] w']; cbn; [rewrite Hrel|]; done. Qed.
End Reliable.

Lemma secures_query {X B} (Phi : B -> World -> Prop) (f : World -> X) (k : X -> M B) :
  (forall w, secures Phi (k (f w)) \/ returns (fun b => Phi b w) (k (f w))) -> secures Phi (bind (query f) k).
Proof.
  intros H. apply secures_call. intros w. apply (wp_query f (fun r w' =>
    match r with Ok x => secures Phi (k x) \/ returns (fun a => Phi a w') (k x) | Err _ => True end)); auto.
Qed.

Lemma secures_update {X B} (Phi : B -> World -> Prop) (f : World -> X * Db) (k : X -> M B) :
  (forall w, secures Phi (k (f w).1) \/ returns (fun b => Phi b (set_db (f w).2 w)) (k (f w).1)) ->
  secures Phi (bind (update f) k).
Proof.
  intros H. apply secures_call. intros w. apply (wp_update f (fun r w' =>
    match r with Ok x => secures Phi (k x) \/ returns (fun a => Phi a w') (k x) | Err _ => True end)); auto.
Qed.

(** Guarantees that look at the whole world. *)
Lemma guar_update_world {X} (R : World -> World -> Prop) (f : World -> X * Db) :
  (forall w, R w (count_call w)) ->
  (forall w, R w (set_db (f (count_call w)).2 (count_call w))) -> guar R (update f).
Proof.
  intros H1 H2 w. split; [|apply guar_of_res]. cbn. specialize (H2 w).
  destruct (f (count_call w)) as [x d]. destruct (db_fault _); cbn in *; auto.
Qed.

Lemma guar_query_world {X} (R : World -> World -> Prop) (f : World -> X) :
  (forall w, R w (count_call w)) -> guar R (query f).
Proof. intros H w. split; [|apply guar_of_res]. cbn. destruct (db_fault _); cbn in *; auto. Qed.

(** Relations that look only at the tables. *)
Definition on_db (R : Db -> Db -> Prop) (w w' : World) : Prop := R (db w) (db w').

#[export] Instance on_db_refl R : Reflexive R -> Reflexive (on_db R).
Proof. intros H w. apply H. Qed.
#[export] Instance on_db_trans R : Transitive R -> Transitive (on_db R).
Proof. intros H w1 w2 w3. apply H. Qed.

#[export] Instance on_db_preorder R : PreOrder R -> PreOrder (on_db R).
Proof. intros H. split; typeclasses eauto. Qed.

Section Guarantees.
Context (R : Db -> Db -> Prop) {HR : PreOrder R}.

Lemma guar_pure_atom {X} (op : World -> X * World) :
  (forall w, db (op w).2 = db w) -> guar (E := exn) (on_db R) (atom op).
Proof. intros H. apply guar_atom. intros w. unfold on_db. rewrite H. reflexivity. Qed.

Lemma guar_Date_now : guar (on_db R) Date_now.
Proof. by apply guar_pure_atom. Qed.
Lemma guar_randomUUID : guar (on_db R) randomUUID.
Proof. by apply guar_pure_atom. Qed.
Lemma guar_next_random : guar (on_db R) next_random.
Proof. by apply guar_pure_atom. Qed.
Lemma guar_next_call : guar (on_db R) next_call.
Proof. by apply guar_pure_atom. Qed.
Lemma guar_emit e : guar (on_db R) (emit e).
Proof. by apply guar_pure_atom. Qed.

Lemma guar_statement {X} (op : World -> res exn X * World) :
  (forall w, R (db w) (db (op w).2)) -> guar (on_db R) (statement op).
Proof.
  intros H w. unfold on_db. cbn. split; [|apply guar_of_res].
  specialize (H (count_call w)). destruct (db_fault _); cbn; auto. reflexivity.
Qed.

Lemma guar_query {X} (f : World -> X) : guar (on_db R) (query f).
Proof. apply guar_statement. intros w. cbn. reflexivity. Qed.

Lemma guar_update {X} (f : World -> X * Db) :
  (forall w, R (db w) (f w).2) -> guar (on_db R) (update f).
Proof. intros H. apply guar_statement. intros w. specialize (H w). destruct (f w); auto. Qed.

Lemma guar_transaction {X} (body : M X) : guar (on_db R) body -> guar (on_db R) (transaction body).
Proof.
  intros H w. split; [|apply guar_of_res].
  pose proof (guar_run _ body w _ _ H) as Hrun. unfold on_db in *. cbn.
  destruct (run body w) as [[x|e] w']; cbn in *; [|reflexivity].
  destruct (db_fault _); cbn; auto. reflexivity.
Qed.
End Guarantees.

(** What a transaction answers, its body answered. *)
Lemma returns_statement {X} (Q : X -> Prop) (op : World -> res exn X * World) :
  (forall w x, (op w).1 = Ok x -> Q x) -> returns Q (statement op).
Proof.
  intros H w. cbn. specialize (H (count_call w)).
  destruct (db_fault _); cbn; auto. destruct (op _) as [[x|e] w']; cbn in *; auto.
Qed.
End EffectRules.

#[export] Hint Resolve guar_Date_now guar_randomUUID guar_next_random guar_next_call guar_emit guar_query : guar.
#[export] Hint Extern 1 (PreOrder _) => typeclasses eauto : guar.

(** Prove a guarantee by following the program: the branches it takes, the programs it calls. *)
Ltac guar_step :=
  lazymatch goal with
  | |- guar _ (bind _ _) => apply guar_bind; [|intros]
  | |- guar _ (catch _ _) => apply guar_catch; [|intros]
  | |- guar _ (match ?x with _ => _ end) => destruct x
  | |- guar _ (transaction _) => apply guar_transaction; [typeclasses eauto|]
  | |- forall _, _ => intros
  | |- _ => solve [eauto with guar]
  end.
Ltac guar_auto := repeat guar_step.

(** Run a program symbolically for a [wp] goal; every database call leaves its three outcomes. *)
Ltac wp_step :=
  lazymatch goal with
  | |- wp (bind _ _) _ _ => apply wp_bind
  | |- wp (catch _ _) _ _ => apply wp_catch
  | |- wp (Ret _) _ _ => apply wp_ret
  | |- wp (Throw _) _ _ => apply wp_throw
  | |- wp (of_res _) _ _ => apply wp_of_res
  | |- wp (atom _) _ _ => apply wp_atom
  | |- wp Date_now _ _ => apply wp_Date_now
  | |- wp randomUUID _ _ => apply wp_atom
  | |- wp next_random _ _ => apply wp_atom
  | |- wp next_call _ _ => apply wp_atom
  | |- wp (emit _) _ _ => apply wp_atom
  | |- wp (query _) _ _ => apply wp_query
  | |- wp (update _) _ _ => apply wp_update
  | |- wp (statement _) _ _ => apply wp_statement
  | |- wp (transaction _) _ _ => apply wp_transaction
  | |- wp (match ?x with _ => _ end) _ _ => destruct x eqn:?
  end; cbn beta iota.

(** The same when no connection is lost ([H : reliable]): one outcome per database call. *)
Ltac wp_rel H :=
  lazymatch goal with
  | |- wp (query _) _ _ => apply (wp_query_rel H)
  | |- wp (update _) _ _ => apply (wp_update_rel H)
  | |- wp (statement _) _ _ => apply (wp_statement_rel H)
  | |- wp (transaction _) _ _ => apply (wp_transaction_rel H)
  | |- _ => wp_step
  end; cbn beta iota.
