(* ===== verification/Sample.v ===== *)
(** * A sample platform

    A concrete [Platform] that satisfies [PlatformLaws], to run the model on: tokens are encodings
    of their key, key id and claims; hashes are small arithmetic functions. The theorems never use
    it; the examples and witnesses evaluate the definitions on it. *)

From S2P Require Import Prelude JsString Domain Store.
From Stdlib Require Import Ascii String.
From stdpp Require Import countable.

Local Open Scope string_scope.
Local Open Scope Z_scope.

#[export] Instance Claims_countable : Countable Claims.
Proof.
  refine (inj_countable'
    (fun c => (sub c, jti c, iss c, aud c, iat c, exp c, (token_use c, fam c, azp c, uid c, claims_email c, claims_role c)))
    (fun '(a, b, c, d, e, f, (g, h, i, j, k, l)) => mkClaims a b c d e f g h i j k l) _).
  by intros [].
Defined.

(** Positives as strings of binary digits. *)
Fixpoint string_of_pos (p : positive) : string :=
  match p with
  | xH => ""
  | xO p => String "0"%char (string_of_pos p)
  | xI p => String "1"%char (string_of_pos p)
  end.
Fixpoint pos_of_string (s : string) : positive :=
  match s with
  | EmptyString => xH
  | String c s => if Ascii.eqb c "1"%char then xI (pos_of_string s) else xO (pos_of_string s)
  end.

Lemma pos_of_string_of p : pos_of_string (string_of_pos p) = p.
Proof. induction p; simpl; congruence. Qed.

Definition token_parts := (string * string * Claims)%type.
Definition token_of (parts : token_parts) : string := string_of_pos (encode parts).
Definition parts_of (t : string) : option token_parts := decode (pos_of_string t).

Lemma parts_of_token parts : parts_of (token_of parts) = Some parts.
Proof. unfold parts_of, token_of. rewrite pos_of_string_of. apply decode_encode. Qed.

Definition sample_hmac (key text : list Z) : list Z :=
  map (fun i => fold_left (fun acc b => (acc * 31 + b + i) mod 256) (key ++ text)%list (i mod 256))
      (map Z.of_nat (List.seq 1 20)).

Definition sample_verify (key i a : string) (now : Z) (t : string) : option JwtPayload :=
  match parts_of t with
  | Some (k, _, c) =>
      if bool_decide (k = key /\ iss c = i /\ aud c = a /\ now < exp c) then Some (JwtObject c) else None
  | None => None
  end.

Definition sample (faults : nat -> Fault) : Platform := {|
  uuid_of := fun n => "uuid-" ++ String_of (Z.of_nat n);
  random20_of := fun n => repeat (Z.of_nat n mod 256) 20;
  sha256_hex := fun s => "sha256:" ++ s;
  hmac_sha1 := sample_hmac;
  bcrypt_compare := fun p h => bool_decide (h = "bcrypt:" ++ p);
  bcrypt_hash := fun _ p => "bcrypt:" ++ p;
  PrivateKey := string;
  PublicKey := string;
  createPublicKey := fun k => k;
  jwt_sign := fun k kid c => token_of (k, kid, c);
  jwt_header_kid := fun t => match parts_of t with Some (_, kid, _) => Some kid | None => None end;
  jwt_decode := fun t => match parts_of t with Some (_, _, c) => Some (JwtObject c) | None => None end;
  jwt_verify := sample_verify;
  pg_lower := toLowerCase;
  db_fault := faults
|}.

Lemma sample_hmac_bytes k m :
  List.length (sample_hmac k m) = 20%nat /\ Forall (fun b => 0 <= b < 256) (sample_hmac k m).
Proof.
  split; [unfold sample_hmac; by rewrite !length_map|]. apply Forall_map, Forall_true. intros i.
  assert (0 <= i mod 256 < 256) as H by (apply Z.mod_pos_bound; lia). revert H. generalize (i mod 256).
  induction (k ++ m)%list as [|b l IH]; intros z Hz; simpl; [done|]. apply IH, Z.mod_pos_bound. lia.
Qed.

Lemma sample_random_bytes k n :
  List.length (repeat (Z.of_nat n mod 256) k) = k /\
  Forall (fun b => 0 <= b < 256) (repeat (Z.of_nat n mod 256) k).
Proof.
  split; [apply repeat_length|]. induction k as [|k IH]; [done|].
  constructor; [apply Z.mod_pos_bound; lia|done].
Qed.

Lemma sample_laws faults : PlatformLaws (sample faults).
Proof.
  constructor; cbn; intros *.
  - intros H. injection H as H. apply String_of_inj in H; lia.
  - done.
  - apply sample_hmac_bytes.
  - apply (sample_random_bytes 20).
  - intros _ p. by apply bool_decide_eq_true.
  - by rewrite parts_of_token.
  - by rewrite parts_of_token.
  - intros H. unfold sample_verify. rewrite parts_of_token. by rewrite bool_decide_eq_true_2.
  - unfold sample_verify. destruct (parts_of t) as [[[? ?] ?]|]; [|done]. by case_bool_decide.
  - unfold sample_verify. destruct (parts_of t) as [[[? ?] ?]|]; [|done]. case_bool_decide; [|done].
    intros [= <-]. naive_solver.
  - apply toLowerCase_idem.
Qed.

Definition no_faults : nat -> Fault := fun _ => NoFault.
Definition sample_platform : Platform := sample no_faults.

(** Empty tables at a given instant of both clocks. *)
Definition empty_db : Db := mkDb ∅ 1 ∅ ∅ ∅ ∅ ∅ ∅ ∅ ∅ ∅ 1 ∅ 1 ∅ 1 ∅ 1 ∅.
Definition world_at (ms : Z) (d : Db) : World := mkWorld d ms ms 0 0 0 [] 0.
