(* ===== verification/Totp.v ===== *)
(** * Time-based one-time codes

    Models src/src/infrastructure/crypto/totp.ts: base32 with JavaScript's 32-bit bit operations,
    the HOTP truncation of RFC 4226 and the acceptance window of RFC 6238. *)

From S2P Require Import Prelude JsString Domain Store Sample.
From Stdlib Require Import Ascii String.
From stdpp Require Import pretty.

Local Open Scope string_scope.
Local Open Scope Z_scope.

(** ** JavaScript's bitwise operators on numbers *)

Definition to_uint32 (z : Z) : Z := z mod 2 ^ 32.
Definition to_int32 (z : Z) : Z := (z + 2 ^ 31) mod 2 ^ 32 - 2 ^ 31.

(** [a << n], [a >>> n], [a | b], [a & b] *)
Definition js_shl (a n : Z) : Z := to_int32 (Z.shiftl (to_int32 a) (to_uint32 n mod 32)).
Definition js_shru (a n : Z) : Z := Z.shiftr (to_uint32 a) (to_uint32 n mod 32).
Definition js_or (a b : Z) : Z := to_int32 (Z.lor (to_int32 a) (to_int32 b)).
Definition js_and (a b : Z) : Z := to_int32 (Z.land (to_int32 a) (to_int32 b)).

(** ** Base 32 *)

Definition BASE32_ALPHABET : string := "ABCDEFGHIJKLMNOPQRSTUVWXYZ234567".
Definition DIGITS : nat := 6.
Definition PERIOD_SECONDS : Z := 30.
Definition WINDOW_STEPS : Z := 1.

(** [BASE32_ALPHABET[i]] for the index the bit mask leaves. *)
Definition alphabet_at (i : Z) : ascii :=
  match String.get (Z.to_nat i) BASE32_ALPHABET with Some c => c | None => "A"%char end.

(** [BASE32_ALPHABET.indexOf(char)] *)
Fixpoint index_from (i : Z) (c : ascii) (l : list ascii) : option Z :=
  match l with
  | [] => None
  | x :: l' => if Ascii.eqb x c then Some i else index_from (i + 1) c l'
  end.
Definition alphabet_index (c : ascii) : option Z := index_from 0 c (str_list BASE32_ALPHABET).

(** The inner [while (bits >= 5)]: [fuel] is the number of times it may run; a byte arrives with
    fewer than 5 bits pending, so two passes are always enough. *)
Fixpoint emit_groups (fuel : nat) (value bits : Z) : list ascii * Z :=
  match fuel with
  | O => ([], bits)
  | S fuel' =>
      if 5 <=? bits then
        let c := alphabet_at (js_and (js_shru value (bits - 5)) 31) in
        let '(out, bits') := emit_groups fuel' value (bits - 5) in
        (c :: out, bits')
      else ([], bits)
  end.

Fixpoint encode_loop (bytes : list Z) (value bits : Z) : list ascii :=
  match bytes with
  | [] => if 0 <? bits then [alphabet_at (js_and (js_shl value (5 - bits)) 31)] else []
  | byte :: rest =>
      let value' := js_or (js_shl value 8) byte in
      let '(out, bits') := emit_groups 2 value' (bits + 8) in
      (out ++ encode_loop rest value' bits')%list
  end.

Definition base32Encode (bytes : list Z) : string := list_str (encode_loop bytes 0 0).

(** [encoded.toUpperCase().replace(/=+$/, "").replace(/\s/g, "")] *)
Definition cleaned (encoded : string) : list ascii :=
  let up := str_list (toUpperCase encoded) in
  let stripped := rev (drop_while (fun c => Ascii.eqb c "=") (rev up)) in
  List.filter (fun c => negb (is_space c)) stripped.

Fixpoint decode_loop (chars : list ascii) (value bits : Z) : res exn (list Z) :=
  match chars with
  | [] => Ok []
  | c :: rest =>
      match alphabet_index c with
      | None => Err (PlainError "the stored two-factor secret is not valid base32")
      | Some index =>
          let value' := js_or (js_shl value 5) index in
          let bits' := bits + 5 in
          if 8 <=? bits'
          then res_bind (decode_loop rest value' (bits' - 8))
                 (fun out => Ok (js_and (js_shru value' (bits' - 8)) 255 :: out))
          else decode_loop rest value' bits'
      end
  end.

Definition base32Decode (encoded : string) : res exn (list Z) := decode_loop (cleaned encoded) 0 0.

(** ** Codes *)

(** [buffer.writeUInt32BE(v, at)]: the four bytes of a 32-bit value. *)
Definition uint32_be (v : Z) : list Z :=
  [v / 2 ^ 24 mod 256; v / 2 ^ 16 mod 256; v / 2 ^ 8 mod 256; v mod 256].

(** [text.padStart(width, "0")] *)
Definition padStart0 (width : nat) (s : string) : string :=
  list_str (repeat "0"%char (width - String.length s)) ++ s.

Section Codes.
Context {P : Platform}.

Definition byte_at (digest : list Z) (i : Z) : Z := nth (Z.to_nat i) digest 0.

(** The truncation: 31 bits of the digest at the offset its last byte names. *)
Definition truncated (digest : list Z) : Z :=
  let offset := js_and (byte_at digest (Z.of_nat (List.length digest) - 1)) 15 in
  js_or (js_or (js_or (js_shl (js_and (byte_at digest offset) 127) 24)
                      (js_shl (js_and (byte_at digest (offset + 1)) 255) 16))
               (js_shl (js_and (byte_at digest (offset + 2)) 255) 8))
        (js_and (byte_at digest (offset + 3)) 255).

(** A counter outside 0 .. 2^64 - 1 makes [writeUInt32BE] throw a [RangeError]. *)
Definition codeAt (secret : string) (counter : Z) : res exn string :=
  res_bind (base32Decode secret) (fun key =>
    if (counter / 2 ^ 32 <? 0) || (2 ^ 32 <=? counter / 2 ^ 32)
    then Err (PlainError "The value of value is out of range")
    else
      let buffer := (uint32_be (counter / 2 ^ 32) ++ uint32_be (to_uint32 counter))%list in
      let digest := hmac_sha1 key buffer in
      Ok (padStart0 DIGITS (String_of (truncated digest mod 10 ^ Z.of_nat DIGITS)))).

(** The loop over the window; the last step that matches wins. *)
Fixpoint window_match (offsets : list Z) (secret candidate : string) (step : Z)
    (matched : option Z) : res exn (option Z) :=
  match offsets with
  | [] => Ok matched
  | offset :: rest =>
      res_bind (codeAt secret (step + offset)) (fun actual =>
        window_match rest secret candidate step
          (if bool_decide (actual = candidate) then Some (step + offset) else matched))
  end.

Definition window_offsets : list Z := [- WINDOW_STEPS; 0; WINDOW_STEPS].

Definition acceptedStep (secret code : string) (atMs : Z) : res exn (option Z) :=
  let candidate := trim code in
  if all_digits 6 6 candidate
  then window_match window_offsets secret candidate (atMs / 1000 / PERIOD_SECONDS) None
  else Ok None.

Definition verifyCode (secret code : string) (atMs : Z) : res exn bool :=
  res_bind (acceptedStep secret code atMs) (fun step => Ok (bool_decide (step <> None))).

Definition generateSecret : M string :=
  (n <- next_random ;; Ret (base32Encode (random20_of n)))%prog.
End Codes.

(** [encodeURIComponent]: a code unit below 128 is itself or one escape; one above is its two
    UTF-8 bytes. *)
Definition hex_digit (i : Z) : ascii :=
  match String.get (Z.to_nat i) "0123456789ABCDEF" with Some c => c | None => "0"%char end.
Definition percent (byte : Z) : list ascii := ["%"%char; hex_digit (byte / 16); hex_digit (byte mod 16)].
Definition uri_unreserved (c : ascii) : bool :=
  is_digit c || is_lower c || is_upper c || existsb (Ascii.eqb c) (str_list "-_.!~*'()").
Definition encodeURIComponent (s : string) : string :=
  list_str (flat_map (fun c =>
    if uri_unreserved c then [c]
    else if code c <? 128 then percent (code c)
    else percent (192 + code c / 64) ++ percent (128 + code c mod 64))%list (str_list s)).

Definition otpauthUrl (email secret : string) : string :=
  "otpauth://totp/" ++ encodeURIComponent ("Kinetix:" ++ email) ++ "?secret=" ++ secret ++
  "&issuer=Kinetix&algorithm=SHA1&digits=" ++ String_of (Z.of_nat DIGITS) ++
  "&period=" ++ String_of PERIOD_SECONDS.

Example encode_rfc4648 :
  base32Encode [102; 111; 111; 98; 97; 114] = "MZXW6YTBOI" /\ base32Encode [102; 111] = "MZXQ".
Proof. split; reflexivity. Qed.
Example decode_rfc4648 :
  base32Decode "mzxw6ytboi======" = Ok [102; 111; 111; 98; 97; 114].
Proof. reflexivity. Qed.

(** ** The 32-bit operators, bit by bit *)

Lemma to_int32_mod z : to_int32 z mod 2 ^ 32 = z mod 2 ^ 32.
Proof.
  unfold to_int32. rewrite (Z.mod_eq (z + 2 ^ 31) (2 ^ 32)) by lia.
  replace (z + 2 ^ 31 - 2 ^ 32 * ((z + 2 ^ 31) / 2 ^ 32) - 2 ^ 31)
    with (z + - ((z + 2 ^ 31) / 2 ^ 32) * 2 ^ 32) by lia.
  apply Z.mod_add. lia.
Qed.

Lemma to_int32_small z : 0 <= z < 2 ^ 31 -> to_int32 z = z.
Proof. intros H. unfold to_int32. rewrite Z.mod_small by lia. lia. Qed.

Lemma testbit_low n z i : 0 <= i < n -> Z.testbit (z mod 2 ^ n) i = Z.testbit z i.
Proof. intros H. apply Z.mod_pow2_bits_low. lia. Qed.

Lemma to_int32_bits z i : 0 <= i < 32 -> Z.testbit (to_int32 z) i = Z.testbit z i.
Proof. intros H. rewrite <- (testbit_low 32 (to_int32 z)), to_int32_mod by lia. apply testbit_low; lia. Qed.

Lemma js_or_bits a b i : 0 <= i < 32 -> Z.testbit (js_or a b) i = Z.testbit a i || Z.testbit b i.
Proof. intros H. unfold js_or. by rewrite to_int32_bits, Z.lor_spec, !to_int32_bits by lia. Qed.

Lemma shift_count n : 0 <= n < 32 -> to_uint32 n mod 32 = n.
Proof. intros H. unfold to_uint32. rewrite (Z.mod_small n (2 ^ 32)) by lia. apply Z.mod_small. lia. Qed.

Lemma js_shl_bits a n i :
  0 <= n < 32 -> 0 <= i < 32 -> Z.testbit (js_shl a n) i = (n <=? i) && Z.testbit a (i - n).
Proof.
  intros Hn Hi. unfold js_shl. rewrite shift_count, to_int32_bits by lia.
  rewrite Z.shiftl_spec by lia. destruct (Z.leb_spec n i); simpl.
  - apply to_int32_bits. lia.
  - apply Z.testbit_neg_r. lia.
Qed.

Lemma js_shru_bits a n i :
  0 <= n < 32 -> 0 <= i -> i + n < 32 -> Z.testbit (js_shru a n) i = Z.testbit a (i + n).
Proof.
  intros Hn Hi Hs. unfold js_shru, to_uint32 at 1. rewrite shift_count by lia.
  rewrite Z.shiftr_spec by lia. apply testbit_low; lia.
Qed.

(** Masking with [2^k - 1] keeps the low [k] bits. *)
Lemma js_and_ones a k : 0 <= k <= 31 -> js_and a (2 ^ k - 1) = a mod 2 ^ k.
Proof.
  intros Hk. assert (0 < 2 ^ k <= 2 ^ 31) as Hp by (split; [lia|apply Z.pow_le_mono_r; lia]).
  unfold js_and. rewrite (to_int32_small (2 ^ k - 1)) by lia.
  replace (2 ^ k - 1) with (Z.ones k) by (rewrite Z.ones_equiv; lia).
  rewrite Z.land_ones by lia.
  replace (to_int32 a mod 2 ^ k) with (a mod 2 ^ k).
  - apply to_int32_small. pose proof (Z.mod_pos_bound a (2 ^ k)). lia.
  - apply Z.bits_inj'. intros i Hi. destruct (Z.lt_ge_cases i k).
    + by rewrite !testbit_low, to_int32_bits by lia.
    + by rewrite !Z.mod_pow2_bits_high by lia.
Qed.

(** ** Bits, most significant first *)

Fixpoint bits_of (n : nat) (v : Z) : list bool :=
  match n with
  | O => []
  | S n' => Z.testbit v (Z.of_nat n') :: bits_of n' v
  end.

Fixpoint bits_value (l : list bool) : Z :=
  match l with
  | [] => 0
  | b :: l' => Z.b2z b * 2 ^ Z.of_nat (List.length l') + bits_value l'
  end.

Lemma bits_of_length n v : List.length (bits_of n v) = n.
Proof. induction n; simpl; auto. Qed.

Lemma bits_of_ext n v v' :
  (forall i, 0 <= i < Z.of_nat n -> Z.testbit v i = Z.testbit v' i) -> bits_of n v = bits_of n v'.
Proof. induction n as [|n IH]; intros H; simpl; auto. f_equal; [apply H; lia|apply IH; intros; apply H; lia]. Qed.

Lemma bits_of_split a b v :
  bits_of (a + b) v = (bits_of a (Z.shiftr v (Z.of_nat b)) ++ bits_of b v)%list.
Proof.
  induction a as [|a IH]; simpl; auto. rewrite IH. f_equal.
  rewrite Z.shiftr_spec by lia. f_equal. lia.
Qed.

Lemma bits_value_range l : 0 <= bits_value l < 2 ^ Z.of_nat (List.length l).
Proof.
  induction l as [|b l IH]; simpl bits_value; simpl List.length; [lia|].
  rewrite Nat2Z.inj_succ, Z.pow_succ_r by lia. destruct b; simpl Z.b2z; lia.
Qed.

Lemma bits_of_value l : bits_of (List.length l) (bits_value l) = l.
Proof.
  induction l as [|b l IH]; simpl; auto.
  pose proof (bits_value_range l) as Hr. f_equal.
  - apply Z.b2z_inj. rewrite Z.testbit_spec', Z.add_comm by lia.
    rewrite Z.div_add by lia. rewrite Z.div_small by lia. destruct b; reflexivity.
  - etrans; [|exact IH]. apply bits_of_ext. intros i Hi.
    rewrite <- (testbit_low (Z.of_nat (List.length l)) (_ + _)) by lia.
    rewrite Z.add_comm, Z.mod_add by (apply Z.pow_nonzero; lia). apply testbit_low; lia.
Qed.

Lemma bits_value_of n v : bits_value (bits_of n v) = v mod 2 ^ Z.of_nat n.
Proof.
  pose proof (bits_value_range (bits_of n v)) as Hr. rewrite bits_of_length in Hr.
  pose proof (bits_of_value (bits_of n v)) as Hb. rewrite bits_of_length in Hb.
  assert (0 <= v mod 2 ^ Z.of_nat n < 2 ^ Z.of_nat n) as Hm by (apply Z.mod_pos_bound; lia).
  apply Z.bits_inj'. intros i Hi. destruct (Z.lt_ge_cases i (Z.of_nat n)).
  - rewrite testbit_low by lia. clear Hr Hm. revert Hb. generalize (bits_value (bits_of n v)). intros x.
    induction n as [|n IH]; [lia|]. simpl. intros [= H1 H2].
    destruct (Z.eq_dec i (Z.of_nat n)) as [->|]; [done|]. apply IH; [lia|done].
  - rewrite Z.mod_pow2_bits_high by lia.
    rewrite <- (Z.mod_small _ _ Hr). apply Z.mod_pow2_bits_high. lia.
Qed.

(** ** The reference encoding: the bits of the bytes, five at a time *)

Fixpoint groups5 (l : list bool) : list (list bool) :=
  match l with
  | a :: b :: c :: d :: e :: rest => [a; b; c; d; e] :: groups5 rest
  | [] => []
  | short => [(short ++ repeat false (5 - List.length short))%list]
  end.

Fixpoint bytes8 (l : list bool) : list Z :=
  match l with
  | a :: b :: c :: d :: e :: f :: g :: h :: rest =>
      bits_value [a; b; c; d; e; f; g; h] :: bytes8 rest
  | _ => []
  end.

Definition byte_bits (bytes : list Z) : list bool := flat_map (bits_of 8) bytes.
Definition reference32 (l : list bool) : list ascii :=
  map (fun g => alphabet_at (bits_value g)) (groups5 l).

(** One turn of the inner loop is one group of the reference. *)
Lemma reference32_group v n L :
  (n + 5 <= 32)%nat ->
  reference32 (bits_of (5 + n) v ++ L) =
  alphabet_at (js_and (js_shru v (Z.of_nat n)) 31) :: reference32 (bits_of n v ++ L).
Proof.
  intros Hn. rewrite bits_of_split, <- app_assoc. unfold reference32 at 1.
  change (js_and (js_shru v (Z.of_nat n)) 31) with (js_and (js_shru v (Z.of_nat n)) (2 ^ 5 - 1)).
  rewrite js_and_ones by lia. rewrite <- (bits_value_of 5).
  rewrite (bits_of_ext 5 (js_shru v (Z.of_nat n)) (Z.shiftr v (Z.of_nat n))).
  - reflexivity.
  - intros i Hi. rewrite js_shru_bits, Z.shiftr_spec by lia. done.
Qed.

Lemma emit_groups_reference fuel v n L out bits' :
  (n <= 32)%nat -> (n < 5 * fuel + 5)%nat ->
  emit_groups fuel v (Z.of_nat n) = (out, bits') ->
  exists n', bits' = Z.of_nat n' /\ (n' < 5)%nat /\
    reference32 (bits_of n v ++ L) = (out ++ reference32 (bits_of n' v ++ L))%list.
Proof.
  revert n out bits'. induction fuel as [|fuel IH]; intros n out bits' Hn Hf; cbn [emit_groups].
  - intros [= <- <-]. exists n. split_and!; [done|lia|done].
  - destruct (Z.leb_spec 5 (Z.of_nat n)).
    + replace (Z.of_nat n - 5) with (Z.of_nat (n - 5)) by lia.
      destruct (emit_groups fuel v (Z.of_nat (n - 5))) as [out0 b0] eqn:E. intros [= <- <-].
      destruct (IH (n - 5)%nat _ _ ltac:(lia) ltac:(lia) E) as (n' & -> & Hn' & Heq).
      exists n'. split_and!; [done|done|].
      replace n with (5 + (n - 5))%nat at 1 by lia.
      rewrite reference32_group by lia. rewrite Heq. done.
    + intros [= <- <-]. exists n. split_and!; [done|lia|done].
Qed.

(** A byte joins the pending bits. *)
Lemma push_byte_bits n v byte :
  (n + 8 <= 32)%nat -> 0 <= byte < 256 ->
  bits_of (n + 8) (js_or (js_shl v 8) byte) = (bits_of n v ++ bits_of 8 byte)%list.
Proof.
  intros Hn Hb. rewrite bits_of_split. f_equal; apply bits_of_ext; intros i Hi.
  - rewrite Z.shiftr_spec, js_or_bits, js_shl_bits by lia.
    replace (Z.testbit byte (i + Z.of_nat 8)) with false.
    + destruct (Z.leb_spec 8 (i + Z.of_nat 8)); [|lia]. simpl.
      rewrite orb_false_r. f_equal. lia.
    + symmetry. rewrite <- (Z.mod_small byte (2 ^ 8)) by lia. apply Z.mod_pow2_bits_high. lia.
  - rewrite js_or_bits, js_shl_bits by lia. destruct (Z.leb_spec 8 i); [lia|]. done.
Qed.

Lemma encode_tail n v :
  (n < 5)%nat ->
  (if 0 <? Z.of_nat n then [alphabet_at (js_and (js_shl v (5 - Z.of_nat n)) 31)] else []) =
  reference32 (bits_of n v ++ []).
Proof.
  intros Hn. rewrite app_nil_r. destruct (Z.ltb_spec 0 (Z.of_nat n)).
  - change 31 with (2 ^ 5 - 1). rewrite js_and_ones by lia. rewrite <- (bits_value_of 5).
    replace (bits_of 5 (js_shl v (5 - Z.of_nat n)))
      with (bits_of n v ++ repeat false (5 - n))%list.
    + unfold reference32. pose proof (bits_of_length n v) as Hl.
      destruct (bits_of n v) as [|a [|b [|c [|d [|e r]]]]]; simpl in Hl; try lia; subst n; reflexivity.
    + replace 5%nat with (n + (5 - n))%nat at 2 by lia. rewrite bits_of_split. f_equal.
      * apply bits_of_ext. intros i Hi. rewrite Z.shiftr_spec, js_shl_bits by lia.
        destruct (Z.leb_spec (5 - Z.of_nat n) (i + Z.of_nat (5 - n))); [|lia]. simpl. f_equal. lia.
      * rewrite (bits_of_ext (5 - n) _ 0).
        -- generalize (5 - n)%nat. intros k. induction k; simpl; [done|]. rewrite Z.testbit_0_l. by f_equal.
        -- intros i Hi. rewrite js_shl_bits, Z.testbit_0_l by lia.
           destruct (Z.leb_spec (5 - Z.of_nat n) i); [lia|done].
  - by replace n with O by lia.
Qed.

(** The loop computes the reference, whatever bits are pending. *)
Lemma encode_loop_reference bytes v n :
  Forall (fun b => 0 <= b < 256) bytes -> (n < 5)%nat ->
  encode_loop bytes v (Z.of_nat n) = reference32 (bits_of n v ++ byte_bits bytes).
Proof.
  revert v n. induction bytes as [|byte bytes IH]; intros v n Hall Hn; cbn [encode_loop].
  - by apply encode_tail.
  - inversion_clear Hall. replace (Z.of_nat n + 8) with (Z.of_nat (n + 8)) by lia.
    destruct (emit_groups 2 _ _) as [out b'] eqn:E.
    destruct (emit_groups_reference 2 _ (n + 8)%nat (byte_bits bytes) _ _ ltac:(lia) ltac:(lia) E)
      as (n' & -> & Hn' & Heq).
    rewrite IH, <- Heq by done. rewrite push_byte_bits by (lia || done).
    by rewrite <- app_assoc.
Qed.

Lemma base32Encode_reference bytes :
  Forall (fun b => 0 <= b < 256) bytes ->
  base32Encode bytes = list_str (reference32 (byte_bits bytes)).
Proof. intros H. unfold base32Encode. f_equal. apply (encode_loop_reference bytes 0 0); [done|lia]. Qed.

(** ** Decoding *)

Lemma groups5_ind (Q : list bool -> Prop) :
  (forall a b c d e l, Q l -> Q (a :: b :: c :: d :: e :: l)) ->
  (forall l, (List.length l < 5)%nat -> Q l) -> forall l, Q l.
Proof.
  intros Hstep Hshort l. remember (List.length l) as n eqn:En. revert l En.
  induction n as [n IH] using lt_wf_ind. intros l ->.
  destruct l as [|a [|b [|c [|d [|e l]]]]]; try (apply Hshort; simpl; lia).
  apply Hstep. apply (IH (List.length l)); [simpl; lia|done].
Qed.

Lemma groups5_length l : Forall (fun g => List.length g = 5%nat) (groups5 l).
Proof.
  induction l using groups5_ind; [simpl; auto|].
  destruct l as [|? [|? [|? [|? [|? ?]]]]]; simpl in *; auto; lia.
Qed.

(** The groups joined are the bits and at most four zeros. *)
Lemma groups5_concat l :
  exists k, (k < 5)%nat /\ List.concat (groups5 l) = (l ++ repeat false k)%list.
Proof.
  induction l as [a b c d e l (k & Hk & IH)|l Hl] using groups5_ind.
  - exists k. split; [done|]. simpl. by rewrite IH.
  - destruct l as [|? [|? [|? [|? [|? ?]]]]]; simpl in *;
      [by exists O; auto with lia|by exists 4%nat; auto with lia|by exists 3%nat; auto with lia
      |by exists 2%nat; auto with lia|by exists 1%nat; auto with lia|lia].
Qed.

Lemma bytes8_first a L : (List.length a = 8)%nat -> bytes8 (a ++ L) = bits_value a :: bytes8 L.
Proof.
  intros Ha. destruct a as [|? [|? [|? [|? [|? [|? [|? [|? [|? ?]]]]]]]]]; simpl in Ha; try lia. done.
Qed.

Lemma bytes8_app bytes rest :
  Forall (fun b => 0 <= b < 256) bytes -> (List.length rest < 8)%nat ->
  bytes8 (byte_bits bytes ++ rest) = bytes.
Proof.
  intros Hall Hr. induction Hall as [|b bytes Hb Hall IH].
  - simpl. destruct rest as [|? [|? [|? [|? [|? [|? [|? [|? ?]]]]]]]]; simpl in *; auto; lia.
  - change (byte_bits (b :: bytes)) with (bits_of 8 b ++ byte_bits bytes)%list.
    rewrite <- app_assoc, bytes8_first by apply bits_of_length.
    rewrite IH, bits_value_of. f_equal. by apply Z.mod_small.
Qed.

Lemma push_digit_bits n v index :
  (n + 5 <= 32)%nat -> 0 <= index < 32 ->
  bits_of (n + 5) (js_or (js_shl v 5) index) = (bits_of n v ++ bits_of 5 index)%list.
Proof.
  intros Hn Hb. rewrite bits_of_split. f_equal; apply bits_of_ext; intros i Hi.
  - rewrite Z.shiftr_spec, js_or_bits, js_shl_bits by lia.
    replace (Z.testbit index (i + Z.of_nat 5)) with false.
    + destruct (Z.leb_spec 5 (i + Z.of_nat 5)); [|lia]. simpl.
      rewrite orb_false_r. f_equal. lia.
    + symmetry. rewrite <- (Z.mod_small index (2 ^ 5)) by lia. apply Z.mod_pow2_bits_high. lia.
  - rewrite js_or_bits, js_shl_bits by lia. destruct (Z.leb_spec 5 i); [lia|]. done.
Qed.

(** A property of the 32 digits, by looking at all of them. *)
Lemma forall_digits (Q : Z -> bool) :
  forallb Q (map Z.of_nat (List.seq 0 32)) = true -> forall i, 0 <= i < 32 -> Q i = true.
Proof.
  rewrite forallb_forall. intros H i Hi. apply H, in_map_iff. exists (Z.to_nat i).
  split; [lia|]. apply in_seq. lia.
Qed.

Lemma alphabet_index_at i : 0 <= i < 32 -> alphabet_index (alphabet_at i) = Some i.
Proof.
  intros Hi.
  pose proof (forall_digits (fun i =>
    match alphabet_index (alphabet_at i) with Some j => j =? i | None => false end)
    ltac:(vm_compute; reflexivity) i Hi) as H. simpl in H.
  destruct (alphabet_index (alphabet_at i)); [|done]. f_equal. lia.
Qed.

Lemma decode_loop_bytes digits v n :
  Forall (fun i => 0 <= i < 32) digits -> (n < 8)%nat ->
  decode_loop (map alphabet_at digits) v (Z.of_nat n) =
  Ok (bytes8 (bits_of n v ++ flat_map (bits_of 5) digits)).
Proof.
  intros Hall. revert v n. induction Hall as [|i digits Hi Hall IH]; intros v n Hn; cbn [decode_loop map].
  - simpl. rewrite app_nil_r. pose proof (bits_of_length n v) as Hl.
    destruct (bits_of n v) as [|? [|? [|? [|? [|? [|? [|? [|? ?]]]]]]]]; simpl in *; auto; lia.
  - rewrite alphabet_index_at by done. cbv zeta.
    replace (Z.of_nat n + 5) with (Z.of_nat (n + 5)) by lia.
    set (v' := js_or (js_shl v 5) i).
    assert (bits_of n v ++ flat_map (bits_of 5) (i :: digits) =
            bits_of (n + 5) v' ++ flat_map (bits_of 5) digits)%list as ->.
    { unfold v'. rewrite push_digit_bits by (lia || done). by rewrite <- app_assoc. }
    destruct (Z.leb_spec 8 (Z.of_nat (n + 5))).
    + replace (Z.of_nat (n + 5) - 8) with (Z.of_nat (n - 3)) by lia.
      rewrite IH by lia. simpl res_bind.
      replace (n + 5)%nat with (8 + (n - 3))%nat by lia.
      rewrite (bits_of_split 8), <- app_assoc, (bytes8_first (bits_of 8 _)) by apply bits_of_length.
      replace (8 + (n - 3))%nat with (n + 5)%nat by lia.
      f_equal. f_equal. change 255 with (2 ^ 8 - 1). rewrite js_and_ones by lia.
      rewrite bits_value_of. rewrite <- !(bits_value_of 8). f_equal. apply bits_of_ext.
      intros j Hj. rewrite js_shru_bits, Z.shiftr_spec by lia. done.
    + apply IH. lia.
Qed.

(** No digit of the alphabet is changed or dropped by the cleaning. *)
Lemma cleaned_digits digits :
  Forall (fun i => 0 <= i < 32) digits ->
  cleaned (list_str (map alphabet_at digits)) = map alphabet_at digits.
Proof.
  intros Hall.
  assert (forall i, 0 <= i < 32 -> upper_char (alphabet_at i) = [alphabet_at i] /\
            Ascii.eqb (alphabet_at i) "=" = false /\ is_space (alphabet_at i) = false) as Hd.
  { intros i Hi.
    pose proof (forall_digits (fun i =>
      match upper_char (alphabet_at i) with [c] => Ascii.eqb c (alphabet_at i) | _ => false end &&
      negb (Ascii.eqb (alphabet_at i) "=") && negb (is_space (alphabet_at i)))
      ltac:(vm_compute; reflexivity) i Hi) as H. simpl in H.
    apply andb_prop in H as [[H1 H2]%andb_prop H3].
    destruct (upper_char (alphabet_at i)) as [|c [|]]; try done. apply Ascii.eqb_eq in H1 as ->.
    split; [done|]. by split; apply negb_true_iff. }
  unfold cleaned, toUpperCase. rewrite !str_list_str.
  assert (flat_map upper_char (map alphabet_at digits) = map alphabet_at digits) as ->.
  { induction Hall as [|i l Hi Hall IH]; simpl; [done|]. destruct (Hd i Hi) as [-> _]. simpl. by f_equal. }
  assert (drop_while (fun c => Ascii.eqb c "=") (rev (map alphabet_at digits)) = rev (map alphabet_at digits)) as ->.
  { apply drop_while_id. rewrite <- map_rev. apply Forall_rev in Hall.
    destruct Hall as [|i l Hi Hall]; simpl; [done|]. by destruct (Hd i Hi) as (_ & ? & _). }
  rewrite rev_involutive.
  induction Hall as [|i l Hi Hall IH]; simpl; [done|]. destruct (Hd i Hi) as (_ & _ & ->). simpl. by f_equal.
Qed.

Lemma base32_roundtrip_lemma bytes :
  Forall (fun b => 0 <= b < 256) bytes -> base32Decode (base32Encode bytes) = Ok bytes.
Proof.
  intros Hall. rewrite base32Encode_reference by done. unfold reference32.
  rewrite <- (map_map bits_value alphabet_at).
  assert (Forall (fun i => 0 <= i < 32) (map bits_value (groups5 (byte_bits bytes)))) as Hdig.
  { apply Forall_map. eapply Forall_impl; [apply groups5_length|].
    intros g Hg. simpl in *. pose proof (bits_value_range g) as Hr. rewrite Hg in Hr. done. }
  unfold base32Decode. rewrite cleaned_digits by done.
  etrans; [apply (decode_loop_bytes _ 0 0); [done|lia]|]. f_equal.
  change (bits_of 0 0 ++ ?l)%list with l.
  assert (flat_map (bits_of 5) (map bits_value (groups5 (byte_bits bytes))) =
          List.concat (groups5 (byte_bits bytes))) as ->.
  { pose proof (groups5_length (byte_bits bytes)) as Hl. induction Hl as [|g l Hg Hl IH]; [done|]. cbn [map flat_map List.concat].
    rewrite IH by (by inversion Hdig). f_equal. rewrite <- Hg at 1. apply bits_of_value. }
  destruct (groups5_concat (byte_bits bytes)) as (k & Hk & ->).
  apply bytes8_app; [done|]. rewrite repeat_length. lia.
Qed.

(** ** Codes *)

Lemma js_shl_mul x n : 0 <= n < 32 -> 0 <= x -> x * 2 ^ n < 2 ^ 31 -> js_shl x n = x * 2 ^ n.
Proof.
  intros Hn Hx Hlt. assert (1 <= 2 ^ n) by lia.
  unfold js_shl. rewrite shift_count by done. rewrite (to_int32_small x) by nia.
  rewrite Z.shiftl_mul_pow2 by lia. apply to_int32_small. nia.
Qed.

Lemma js_or_add x n y :
  0 <= n -> 0 <= x -> 0 <= y < 2 ^ n -> x * 2 ^ n + y < 2 ^ 31 -> js_or (x * 2 ^ n) y = x * 2 ^ n + y.
Proof.
  intros Hn Hx Hy Hlt. assert (0 <= x * 2 ^ n) by (apply Z.mul_nonneg_nonneg; lia).
  unfold js_or. rewrite (to_int32_small (x * 2 ^ n)), (to_int32_small y) by lia.
  assert (Z.land (x * 2 ^ n) y = 0) as Hl.
  { apply Z.bits_inj'. intros i Hi. rewrite Z.land_spec, Z.testbit_0_l.
    destruct (Z.ltb_spec i n).
    - by rewrite Z.mul_pow2_bits_low.
    - rewrite <- (Z.mod_small y (2 ^ n)) by lia. rewrite Z.mod_pow2_bits_high by lia. apply andb_false_r. }
  rewrite <- Z.lxor_lor, <- Z.add_nocarry_lxor by done. apply to_int32_small. lia.
Qed.

(** The truncation of RFC 4226, in arithmetic: the 31 low bits of the big-endian word at the
    offset that the low nibble of the last byte names. *)
Definition dynamic_truncation (digest : list Z) : Z :=
  let o := byte_at digest (Z.of_nat (List.length digest) - 1) mod 16 in
  (byte_at digest o mod 128) * 2 ^ 24 + (byte_at digest (o + 1) mod 256) * 2 ^ 16 +
  (byte_at digest (o + 2) mod 256) * 2 ^ 8 + byte_at digest (o + 3) mod 256.

Lemma truncated_reference digest : truncated digest = dynamic_truncation digest.
Proof.
  unfold truncated, dynamic_truncation. change 15 with (2 ^ 4 - 1). change 127 with (2 ^ 7 - 1).
  change 255 with (2 ^ 8 - 1). rewrite !js_and_ones by lia.
  change (2 ^ 4) with 16. set (o := _ mod 16).
  generalize (byte_at digest o) (byte_at digest (o + 1)) (byte_at digest (o + 2)) (byte_at digest (o + 3)).
  intros a b c d.
  change (2 ^ 7) with 128. change (2 ^ 8) with 256.
  pose proof (Z.mod_pos_bound a 128 ltac:(lia)). pose proof (Z.mod_pos_bound b 256 ltac:(lia)).
  pose proof (Z.mod_pos_bound c 256 ltac:(lia)). pose proof (Z.mod_pos_bound d 256 ltac:(lia)).
  rewrite !js_shl_mul by lia.
  rewrite (js_or_add (a mod 128) 24) by lia.
  replace (a mod 128 * 2 ^ 24 + b mod 256 * 2 ^ 16)
    with ((a mod 128 * 2 ^ 8 + b mod 256) * 2 ^ 16) by lia.
  rewrite js_or_add by lia.
  replace ((a mod 128 * 2 ^ 8 + b mod 256) * 2 ^ 16 + c mod 256 * 2 ^ 8)
    with ((a mod 128 * 2 ^ 16 + b mod 256 * 2 ^ 8 + c mod 256) * 2 ^ 8) by lia.
  rewrite js_or_add by lia. lia.
Qed.

Lemma dynamic_truncation_range digest : 0 <= dynamic_truncation digest < 2 ^ 31.
Proof.
  unfold dynamic_truncation. set (o := _ mod 16).
  generalize (byte_at digest o) (byte_at digest (o + 1)) (byte_at digest (o + 2)) (byte_at digest (o + 3)).
  intros a b c d.
  pose proof (Z.mod_pos_bound a 128 ltac:(lia)). pose proof (Z.mod_pos_bound b 256 ltac:(lia)).
  pose proof (Z.mod_pos_bound c 256 ltac:(lia)). pose proof (Z.mod_pos_bound d 256 ltac:(lia)). lia.
Qed.

(** *** Six digits *)

Lemma digits_value_app l1 l2 acc :
  digits_value acc (l1 ++ l2) =
  match digits_value acc l1 with Some v => digits_value v l2 | None => None end.
Proof. revert acc. induction l1 as [|c l1 IH]; intros acc; simpl; [done|]. by destruct (is_digit c). Qed.

Lemma digits_value_zeros k : digits_value 0 (repeat "0"%char k) = Some 0.
Proof. induction k; simpl; [done|]. done. Qed.

Lemma forallb_digits_value l acc : forallb is_digit l = true -> is_Some (digits_value acc l).
Proof.
  revert acc. induction l as [|c l IH]; intros acc; simpl; [eauto|]. destruct (is_digit c); [apply IH|done].
Qed.

Lemma pretty_N_go_length k n s :
  (0 < n < 10 ^ N.of_nat k)%N -> (String.length (pretty_N_go n s) <= k + String.length s)%nat.
Proof.
  revert n s. induction k as [|k IH]; intros n s Hn; [simpl in Hn; lia|].
  rewrite pretty_N_go_step by lia. rewrite Nat2N.inj_succ, N.pow_succ_r in Hn by lia.
  destruct (N.eq_0_gt_0_cases (n `div` 10)) as [->|Hp].
  - rewrite pretty_N_go_0. simpl. lia.
  - specialize (IH (n `div` 10)%N (String (pretty_N_char (n `mod` 10)) s)). simpl in IH.
    rewrite IH; [lia|]. split; [done|]. apply N.Div0.div_lt_upper_bound. lia.
Qed.

Lemma String_of_length k n : 0 <= n < 10 ^ Z.of_nat k -> (0 < k)%nat -> (String.length (String_of n) <= k)%nat.
Proof.
  intros Hn Hk. destruct n as [|p|p]; [simpl; lia| |lia].
  change (String_of (Zpos p)) with (pretty_N_go (Npos p) "").
  etrans; [apply (pretty_N_go_length k)|simpl; lia]. split; [lia|].
  apply N2Z.inj_lt. rewrite N2Z.inj_pow, nat_N_Z. apply Hn.
Qed.

Lemma String_of_digits n : 0 <= n -> digits_value 0 (str_list (String_of n)) = Some n.
Proof.
  intros Hn. destruct n as [|p|p]; [reflexivity| |lia].
  change (String_of (Zpos p)) with (pretty_N_go (Npos p) "").
  by rewrite digits_value_pretty_go.
Qed.

(** [padStart] to the width of a number that fits: the digits of that number, exactly as many. *)
Lemma padStart0_digits k n :
  (0 < k)%nat -> 0 <= n < 10 ^ Z.of_nat k ->
  String.length (padStart0 k (String_of n)) = k /\
  digits_value 0 (str_list (padStart0 k (String_of n))) = Some n.
Proof.
  intros Hk Hn. pose proof (String_of_length k n Hn Hk) as Hl. unfold padStart0. split.
  - rewrite <- str_list_length, str_list_app, length_app, str_list_str, repeat_length, str_list_length. lia.
  - rewrite str_list_app, digits_value_app, str_list_str, digits_value_zeros. apply String_of_digits. lia.
Qed.

(** The eight bytes of the counter, most significant first. *)
Definition be64 (counter : Z) : list Z := map (fun k => counter / 256 ^ k mod 256) [7; 6; 5; 4; 3; 2; 1; 0].

Lemma uint32_be_counter c :
  (uint32_be (c / 2 ^ 32) ++ uint32_be (to_uint32 c))%list = be64 c.
Proof.
  unfold uint32_be, be64, to_uint32. simpl map. rewrite !Z.div_div by lia.
  assert (forall k, 0 <= k <= 24 -> (c mod 2 ^ 32) / 2 ^ k mod 2 ^ 8 = c / 2 ^ k mod 2 ^ 8) as Hlow.
  { intros k Hk. apply Z.bits_inj'. intros i Hi. destruct (Z.ltb_spec i 8).
    - rewrite !testbit_low, !Z.div_pow2_bits by lia. apply testbit_low. lia.
    - rewrite !Z.mod_pow2_bits_high by lia. done. }
  pose proof (Hlow 0 ltac:(lia)) as H0. change (2 ^ 0) with 1 in H0. rewrite !Z.div_1_r in H0.
  pose proof (Hlow 8 ltac:(lia)) as H1. pose proof (Hlow 16 ltac:(lia)) as H2. pose proof (Hlow 24 ltac:(lia)) as H3.
  change 256 with (2 ^ 8) in *. rewrite H0, H1, H2, H3. simpl app.
  change ((2 ^ 8) ^ 0) with 1. rewrite Z.div_1_r. done.
Qed.

Section CodeFacts.
Context {P : Platform}.

Lemma codeAt_spec secret key counter :
  base32Decode secret = Ok key -> 0 <= counter < 2 ^ 64 ->
  exists code, codeAt secret counter = Ok code /\ String.length code = DIGITS /\
    digits_value 0 (str_list code) = Some (dynamic_truncation (hmac_sha1 key (be64 counter)) mod 10 ^ 6).
Proof.
  intros Hkey Hc. unfold codeAt. rewrite Hkey. cbn [res_bind].
  assert (0 <= counter / 2 ^ 32 < 2 ^ 32) as Hhi
    by (split; [apply Z.div_pos; lia|apply Z.div_lt_upper_bound; lia]).
  destruct (Z.ltb_spec (counter / 2 ^ 32) 0), (Z.leb_spec (2 ^ 32) (counter / 2 ^ 32)); try lia.
  cbn [orb]. eexists. split; [reflexivity|]. rewrite uint32_be_counter, truncated_reference.
  apply padStart0_digits; [unfold DIGITS; lia|]. apply Z.mod_pos_bound. lia.
Qed.

Lemma codeAt_six_digits secret counter code :
  codeAt secret counter = Ok code -> all_digits 6 6 code = true /\ trim code = code.
Proof.
  unfold codeAt. destruct (base32Decode secret); [|done]. cbn [res_bind].
  destruct (_ || _); [done|]. set (d := hmac_sha1 _ _). intros H.
  assert (code = padStart0 DIGITS (String_of (truncated d mod 10 ^ Z.of_nat DIGITS))) as -> by congruence.
  pose proof (padStart0_digits DIGITS (truncated d mod 10 ^ Z.of_nat DIGITS) ltac:(unfold DIGITS; lia)
    ltac:(apply Z.mod_pos_bound; unfold DIGITS; lia)) as [Hl Hd].
  apply digits_value_head in Hd. split.
  - unfold all_digits. rewrite Hd, Hl. done.
  - unfold trim. rewrite trim_list_digits by done. apply list_str_list.
Qed.
End CodeFacts.

(** ** Properties *)

(** Base-32 encoding of any byte string is read back by the decoder as the same bytes, so a
    generated secret stored as text is the secret the codes are computed from. *)
Theorem base32_roundtrip bytes :
  Forall (fun b => 0 <= b < 256) bytes -> base32Decode (base32Encode bytes) = Ok bytes.
Proof. apply base32_roundtrip_lemma. Qed.

Lemma base32_roundtrip_witness :
  base32Decode (base32Encode [0; 255; 16; 7]) = Ok [0; 255; 16; 7].
Proof. apply (base32_roundtrip [0; 255; 16; 7]). repeat constructor; lia. Defined.

(** The encoder, with JavaScript's wrapping 32-bit shifts, computes RFC 4648 base 32: the bits
    of the bytes in groups of five, the last padded with zeros, one letter per group. *)
Theorem base32Encode_rfc4648 bytes :
  Forall (fun b => 0 <= b < 256) bytes ->
  base32Encode bytes = list_str (map (fun g => alphabet_at (bits_value g)) (groups5 (byte_bits bytes))).
Proof. apply base32Encode_reference. Qed.

Lemma base32Encode_rfc4648_witness :
  base32Encode [102; 111; 111] =
  list_str (map (fun g => alphabet_at (bits_value g)) (groups5 (byte_bits [102; 111; 111]))).
Proof. apply (base32Encode_rfc4648 [102; 111; 111]). repeat constructor; lia. Defined.

(** C31: For a secret that decodes and a 64-bit counter, [codeAt] answers exactly six decimal digits
    whose value is RFC 4226's truncation (31 bits of the HMAC of the big-endian counter, at the
    offset the last nibble names) modulo a million. *)
Theorem codeAt_rfc4226 {P : Platform} secret key counter :
  base32Decode secret = Ok key -> 0 <= counter < 2 ^ 64 ->
  exists code, codeAt secret counter = Ok code /\ String.length code = 6%nat /\
    digits_value 0 (str_list code) = Some (dynamic_truncation (hmac_sha1 key (be64 counter)) mod 10 ^ 6).
Proof. apply codeAt_spec. Qed.

Lemma codeAt_rfc4226_witness :
  exists code, @codeAt sample_platform "MZXW6YTBOI" 57 = Ok code /\ String.length code = 6%nat /\
    digits_value 0 (str_list code) =
    Some (dynamic_truncation (@hmac_sha1 sample_platform [102; 111; 111; 98; 97; 114] (be64 57)) mod 10 ^ 6).
Proof. apply (@codeAt_rfc4226 sample_platform "MZXW6YTBOI" [102; 111; 111; 98; 97; 114] 57); [reflexivity|lia]. Defined.

(** [acceptedStep] answers the latest step of the window (the current 30-second step, the one
    before and the one after) whose code is the trimmed input, and null exactly when no step of the
    window has that code. *)
Theorem acceptedStep_window {P : Platform} secret key code atMs :
  base32Decode secret = Ok key -> 30000 <= atMs -> atMs < 2 ^ 64 ->
  let step := atMs / 1000 / 30 in
  exists answer, acceptedStep secret code atMs = Ok answer /\
    match answer with
    | Some k =>
        step - 1 <= k <= step + 1 /\ codeAt secret k = Ok (trim code) /\
        forall k', k < k' <= step + 1 -> codeAt secret k' <> Ok (trim code)
    | None => forall k', step - 1 <= k' <= step + 1 -> codeAt secret k' <> Ok (trim code)
    end.
Proof.
  intros Hkey Hlo Hhi step.
  assert (1 <= step /\ step + 1 < 2 ^ 64) as [H1 H2].
  { unfold step. rewrite Z.div_div by lia. split; [apply Z.div_le_lower_bound; lia|].
    enough (atMs / (1000 * 30) < 2 ^ 63) by lia. apply Z.div_lt_upper_bound; lia. }
  destruct (codeAt_spec secret key (step - 1) Hkey ltac:(lia)) as (a & Ha & _).
  destruct (codeAt_spec secret key step Hkey ltac:(lia)) as (b & Hb & _).
  destruct (codeAt_spec secret key (step + 1) Hkey ltac:(lia)) as (c & Hc & _).
  assert (forall k, step - 1 <= k <= step + 1 -> k = step - 1 \/ k = step \/ k = step + 1) as Hk by lia.
  unfold acceptedStep. destruct (all_digits 6 6 (trim code)) eqn:Hd.
  - change (atMs / 1000 / PERIOD_SECONDS) with step. unfold window_offsets, WINDOW_STEPS. cbn [window_match].
    clearbody step.
    change (step + - (1)) with (step - 1). rewrite Z.add_0_r. rewrite Ha. cbn [res_bind]. rewrite Hb. cbn [res_bind]. rewrite Hc. cbn [res_bind].
    eexists. split; [reflexivity|].
    repeat case_bool_decide; subst;
      repeat split; try lia; try (intros k' Hk'); try destruct (Hk k' ltac:(lia)) as [ -> |[ -> | -> ]];
      congruence || lia.
  - eexists. split; [reflexivity|]. cbv beta iota. intros k' _ Hcode.
    apply codeAt_six_digits in Hcode as [? _]. congruence.
Qed.

Lemma acceptedStep_window_witness :
  let step := 1700000000000 / 1000 / 30 in
  exists answer, @acceptedStep sample_platform "MZXW6YTBOI" " 123456 " 1700000000000 = Ok answer /\
    match answer with
    | Some k =>
        step - 1 <= k <= step + 1 /\ @codeAt sample_platform "MZXW6YTBOI" k = Ok (trim " 123456 ") /\
        forall k', k < k' <= step + 1 -> @codeAt sample_platform "MZXW6YTBOI" k' <> Ok (trim " 123456 ")
    | None => forall k', step - 1 <= k' <= step + 1 ->
        @codeAt sample_platform "MZXW6YTBOI" k' <> Ok (trim " 123456 ")
    end.
Proof.
  apply (@acceptedStep_window sample_platform "MZXW6YTBOI" [102; 111; 111; 98; 97; 114]);
    [reflexivity|lia|lia].
Defined.
