(* ===== verification/SignInAttempts.v ===== *)
(** * Sign-in attempts: the ledger that slows guessing down

    Models src/src/infrastructure/persistence/adapters/typeorm_sign_in_attempt_repository.adapter.ts
    (Section [Repository]), src/src/infrastructure/crypto/account_key.ts and
    src/src/application/services/sign_in_attempts.service.ts (Section [Service]). The policy itself
    ([admitAttempt], [delaySecondsAfter]) is in Domain.v.

    Main results: however password attempts on one account interleave with each other, with the
    attempts on challenges, with the sweeper and with lost connections, the number admitted in a
    stretch of time is bounded by the delay table; one sign-in challenge is answered at most
    [ATTEMPTS_PER_CHALLENGE] times. *)

From S2P Require Import Prelude JsString Domain Store Sample.

Local Open Scope string_scope.
Local Open Scope Z_scope.

Section Repository.
Context {P : Platform}.
Local Open Scope prog_scope.

Definition insert_attempt (key : string) (s : AttemptState) (d : Db) : Db :=
  set_account_sign_in_attempts (<[key := s]> (account_sign_in_attempts d)) d.

(** INSERT .. ON CONFLICT DO NOTHING; SELECT .. FOR UPDATE; SELECT clock_timestamp() *)
Definition lockAccount (accountKey : string) : M (AttemptState * Z) :=
  update (fun w =>
    (tt, match account_sign_in_attempts (db w) !! accountKey with
         | Some _ => db w
         | None => insert_attempt accountKey (mkAttempt 0 (pg_ms w) (pg_ms w)) (db w)
         end)) ;;;
  rows <- query (fun w => account_sign_in_attempts (db w) !! accountKey) ;;
  match rows with
  | None => Throw (PlainError "the sign-in attempt row was not there after it was written")
  | Some row => now <- query pg_ms ;; Ret (row, now)
  end.

(** UPDATE .. WHERE accountKey = $1 *)
Definition recordAccountAttempt (accountKey : string) (n until now : Z) : M unit :=
  update (fun w =>
    (tt, match account_sign_in_attempts (db w) !! accountKey with
         | Some _ => insert_attempt accountKey (mkAttempt n now until) (db w)
         | None => db w
         end)).

Definition claimAccountAttempt (accountKey : string)
    (decide : option AttemptState -> Z -> AttemptAdmission) : M AttemptAdmission :=
  transaction (
    ' (row, now) <- lockAccount accountKey ;;
    match decide (Some row) now with
    | AttemptDelayed s => Ret (AttemptDelayed s)
    | AttemptAdmitted n until =>
        recordAccountAttempt accountKey n until now ;;;
        Ret (AttemptAdmitted n until)
    end).

Definition clearAccountAttempts (accountKey : string) : M unit :=
  update (fun w =>
    (tt, set_account_sign_in_attempts (delete accountKey (account_sign_in_attempts (db w))) (db w))).

(** INSERT .. ON CONFLICT DO UPDATE .. WHERE attempts < limit RETURNING attempts *)
Definition count_challenge (c : ChallengeAttempt) (d : Db) : option Z * Db :=
  let rows := two_factor_challenge_attempts d in
  match rows !! challenge_jti c with
  | None =>
      (Some 1, set_two_factor_challenge_attempts
                 (<[challenge_jti c := mkChallengeRow 1 (challenge_expiresAt c)]> rows) d)
  | Some r =>
      if challenge_attempts r <? challenge_limit c
      then (Some (challenge_attempts r + 1),
            set_two_factor_challenge_attempts
              (<[challenge_jti c := mkChallengeRow (challenge_attempts r + 1) (challenge_row_expiresAt r)]> rows)
              d)
      else (None, d)
  end.

Definition used_of (rows : gmap string ChallengeAttemptRow) (jti : string) : Z :=
  match rows !! jti with Some r => challenge_attempts r | None => 0 end.

Definition claimChallengeAttempt (accountKey : string)
    (decide : option AttemptState -> Z -> AttemptAdmission) (c : ChallengeAttempt) : M ChallengeAdmission :=
  transaction (
    ' (row, now) <- lockAccount accountKey ;;
    used <- query (fun w => used_of (two_factor_challenge_attempts (db w)) (challenge_jti c)) ;;
    if challenge_limit c <=? used then Ret ChallengeExhausted
    else
      match decide (Some row) now with
      | AttemptDelayed s => Ret (ChallengeDelayed s)
      | AttemptAdmitted n until =>
          claimed <- update (fun w => count_challenge c (db w)) ;;
          match claimed with
          | None => Ret ChallengeExhausted
          | Some _ =>
              recordAccountAttempt accountKey n until now ;;;
              Ret (ChallengeAdmitted n)
          end
      end).

(** Two statements: the forgotten account rows by the database's clock, the expired challenge
    rows by the process's. *)
Definition sweep_attempts (forgetAfterSeconds : Z) : M Z :=
  forgotten <- update (fun w =>
    let rows := account_sign_in_attempts (db w) in
    let kept := filter (fun '(_, s) =>
      ~ (lastAttemptAt s < pg_ms w - forgetAfterSeconds * 1000 /\ delayedUntil s < pg_ms w)) rows in
    (Z.of_nat (size rows) - Z.of_nat (size kept), set_account_sign_in_attempts kept (db w))) ;;
  now <- Date_now ;;
  expired <- update (fun w =>
    let rows := two_factor_challenge_attempts (db w) in
    let kept := filter (fun '(_, r) => ~ challenge_row_expiresAt r < now) rows in
    (Z.of_nat (size rows) - Z.of_nat (size kept), set_two_factor_challenge_attempts kept (db w))) ;;
  Ret (forgotten + expired).
End Repository.

Section Service.
Context {P : Platform}.
Local Open Scope prog_scope.

Definition accountKeyOf (email : string) : string := sha256_hex (normalisedEmail email).

(** [SignInAttemptsService.admit] *)
Definition signIn_admit (email : string) : M Z :=
  admission <- claimAccountAttempt (accountKeyOf email) admitAttempt ;;
  match admission with
  | AttemptDelayed s => Throw (SignInDelayedError s)
  | AttemptAdmitted n _ => Ret n
  end.

Definition admitChallengeAttempt (email : string) (claims_jti : string) (claims_exp : Z) : M (option Z) :=
  let challenge := mkChallengeAttempt claims_jti (claims_exp * 1000) ATTEMPTS_PER_CHALLENGE in
  admission <- claimChallengeAttempt (accountKeyOf email) admitAttempt challenge ;;
  match admission with
  | ChallengeDelayed s => Throw (SignInDelayedError s)
  | ChallengeExhausted => Ret None
  | ChallengeAdmitted n => Ret (Some n)
  end.

Definition failed (failure : SignInFailure) (context : CallContext) : M unit :=
  let role :=
    match failure_user failure with
    | Some u => match user_role u with Admin => RoleAdmin | _ => RoleOther end
    | None => RoleOther
    end in
  emit (MetricSignInFailure (failure_stage failure) role) ;;;
  emit (LogSignInFailure (requestId context) (failure_stage failure) role (failure_reason failure)
          (accountKeyOf (failure_email failure)) (failure_attempt failure)
          (user_id <$> failure_user failure) (failure_detail failure)).

Definition succeeded (email : string) : M unit := clearAccountAttempts (accountKeyOf email).

Definition sweep_sign_in_attempts : M Z := sweep_attempts FORGET_AFTER_SECONDS.
End Service.

(** ** What a claim does to the tables *)

Lemma insert_attempt_twice key a b d : insert_attempt key b (insert_attempt key a d) = insert_attempt key b d.
Proof. unfold insert_attempt. destruct d. cbn. unfold set_account_sign_in_attempts. cbn. by rewrite insert_insert_eq. Qed.

Lemma insert_attempt_lookup key a d : account_sign_in_attempts (insert_attempt key a d) !! key = Some a.
Proof. unfold insert_attempt. cbn. apply lookup_insert_eq. Qed.

Section ClaimSpecs.
Context {P : Platform}.

Definition row_of (key : string) (w : World) : option AttemptState := account_sign_in_attempts (db w) !! key.

(** The clocks do not move during a database call. *)
Definition same_clocks (w w' : World) : Prop := pg_ms w' = pg_ms w /\ node_ms w' = node_ms w.

Lemma admitAttempt_fresh now : admitAttempt (Some (mkAttempt 0 now now)) now = admitAttempt None now.
Proof.
  unfold admitAttempt, FORGET_AFTER_SECONDS. cbn [delayedUntil lastAttemptAt attempts].
  rewrite Z.gtb_ltb, Z.ltb_irrefl. by rewrite Z.sub_diag.
Qed.

(** [lockAccount]: the row is there afterwards, fresh if it was not, and it is the row answered. *)
Definition locked (key : string) (w : World) : AttemptState :=
  match row_of key w with Some s => s | None => mkAttempt 0 (pg_ms w) (pg_ms w) end.

Definition locked_db (key : string) (w : World) : Db :=
  match row_of key w with Some _ => db w | None => insert_attempt key (locked key w) (db w) end.

Lemma locked_db_row key w : account_sign_in_attempts (locked_db key w) !! key = Some (locked key w).
Proof.
  unfold locked_db, locked. destruct (row_of key w) eqn:E; [done|]. apply insert_attempt_lookup.
Qed.

Lemma admitAttempt_locked key w : admitAttempt (Some (locked key w)) (pg_ms w) = admitAttempt (row_of key w) (pg_ms w).
Proof. unfold locked. destruct (row_of key w); [done|]. apply admitAttempt_fresh. Qed.

Lemma insert_locked key w s : insert_attempt key s (locked_db key w) = insert_attempt key s (db w).
Proof. unfold locked_db. destruct (row_of key w); [done|]. apply insert_attempt_twice. Qed.

Lemma wp_lockAccount key (Q : res exn (AttemptState * Z) -> World -> Prop) w :
  (forall w', same_clocks w w' -> Q (Err ConnectionLost) w') ->
  (forall w', same_clocks w w' -> db w' = locked_db key w -> Q (Ok (locked key w, pg_ms w)) w') ->
  wp (lockAccount key) Q w.
Proof.
  intros Herr Hok. unfold lockAccount. wp_step. wp_step; try (apply Herr; done).
  set (w1 := set_db _ _). assert (db w1 = locked_db key w) as Hdb.
  { unfold w1, locked_db, locked, row_of. cbn.
    by destruct (account_sign_in_attempts (db w) !! key) eqn:E. }
  wp_step. wp_step; [|by apply Herr]. change (db (count_call w1)) with (db w1).
  rewrite Hdb, locked_db_row. wp_step. wp_step; [|by apply Herr]. wp_step. apply Hok; done.
Qed.

(** A claim is admitted exactly when the policy admits it, and then the row holds the attempt it
    admitted; a delayed claim changes nothing; a lost connection leaves one of the two. *)
Lemma wp_claimAccountAttempt key (Q : res exn AttemptAdmission -> World -> Prop) w :
  (forall w', same_clocks w w' -> db w' = db w -> Q (Err ConnectionLost) w') ->
  (forall w' s, same_clocks w w' -> db w' = db w ->
    admitAttempt (row_of key w) (pg_ms w) = AttemptDelayed s -> Q (Ok (AttemptDelayed s)) w') ->
  (forall w' n until, same_clocks w w' ->
    admitAttempt (row_of key w) (pg_ms w) = AttemptAdmitted n until ->
    db w' = insert_attempt key (mkAttempt n (pg_ms w) until) (db w) ->
    Q (Ok (AttemptAdmitted n until)) w' /\ Q (Err ConnectionLost) w') ->
  wp (claimAccountAttempt key admitAttempt) Q w.
Proof.
  intros Hlost Hdelayed Hadm. unfold claimAccountAttempt. wp_step. wp_step.
  apply wp_lockAccount; [intros w1 Hc; by apply Hlost|]. intros w1 [Hpg Hnode] Hdb.
  rewrite admitAttempt_locked. destruct (admitAttempt (row_of key w) (pg_ms w)) as [n until|s] eqn:E.
  - wp_step. unfold recordAccountAttempt. wp_step; try (by apply Hlost).
    wp_step. cbn. rewrite Hdb, locked_db_row, insert_locked.
    split; [|split]; [apply (Hadm _ n until)|apply Hlost|apply (Hadm _ n until)]; done.
  - wp_step. unfold locked_db in Hdb. destruct (row_of key w) eqn:Er.
    + split; [|split]; [apply Hdelayed|apply Hlost|apply Hlost]; done.
    + unfold admitAttempt in E. done.
Qed.

Definition used (jti : string) (w : World) : Z := used_of (two_factor_challenge_attempts (db w)) jti.

Definition counted_row (c : ChallengeAttempt) (d : Db) : ChallengeAttemptRow :=
  match two_factor_challenge_attempts d !! challenge_jti c with
  | Some r => mkChallengeRow (challenge_attempts r + 1) (challenge_row_expiresAt r)
  | None => mkChallengeRow 1 (challenge_expiresAt c)
  end.
Definition count_db (c : ChallengeAttempt) (d : Db) : Db :=
  set_two_factor_challenge_attempts
    (<[challenge_jti c := counted_row c d]> (two_factor_challenge_attempts d)) d.

Lemma locked_db_challenges key w :
  two_factor_challenge_attempts (locked_db key w) = two_factor_challenge_attempts (db w).
Proof. unfold locked_db. by destruct (row_of key w). Qed.

Lemma record_counted key c s w :
  insert_attempt key s (count_db c (locked_db key w)) = insert_attempt key s (count_db c (db w)).
Proof.
  unfold locked_db. destruct (row_of key w); [done|].
  unfold count_db, insert_attempt, counted_row. destruct (db w). cbn.
  unfold set_account_sign_in_attempts, set_two_factor_challenge_attempts. cbn. by rewrite insert_insert_eq.
Qed.

Lemma count_challenge_below c d :
  used_of (two_factor_challenge_attempts d) (challenge_jti c) < challenge_limit c ->
  exists v, count_challenge c d = (Some v, count_db c d).
Proof.
  unfold count_challenge, count_db, counted_row, used_of. intros Hlt.
  destruct (_ !! challenge_jti c) as [r|]; [|eauto].
  destruct (Z.ltb_spec (challenge_attempts r) (challenge_limit c)); [eauto|lia].
Qed.

(** The two outcomes of a challenge claim that write: the exhausted one may open the account's
    row, the admitted one counts the answer and records the attempt. *)
Lemma wp_claimChallengeAttempt key c (Q : res exn ChallengeAdmission -> World -> Prop) w :
  (forall w', same_clocks w w' -> db w' = db w -> Q (Err ConnectionLost) w') ->
  (forall w', same_clocks w w' -> challenge_limit c <= used (challenge_jti c) w ->
    db w' = locked_db key w -> Q (Ok ChallengeExhausted) w' /\ Q (Err ConnectionLost) w') ->
  (forall w' s, same_clocks w w' -> db w' = db w -> used (challenge_jti c) w < challenge_limit c ->
    admitAttempt (row_of key w) (pg_ms w) = AttemptDelayed s -> Q (Ok (ChallengeDelayed s)) w') ->
  (forall w' n until, same_clocks w w' -> used (challenge_jti c) w < challenge_limit c ->
    admitAttempt (row_of key w) (pg_ms w) = AttemptAdmitted n until ->
    db w' = insert_attempt key (mkAttempt n (pg_ms w) until) (count_db c (db w)) ->
    Q (Ok (ChallengeAdmitted n)) w' /\ Q (Err ConnectionLost) w') ->
  wp (claimChallengeAttempt key admitAttempt c) Q w.
Proof.
  intros Hlost Hex Hdelayed Hadm. unfold claimChallengeAttempt. wp_step. wp_step.
  apply wp_lockAccount; [intros w1 Hc; by apply Hlost|]. intros w1 [Hpg Hnode] Hdb.
  wp_step. wp_step; [|by apply Hlost].
  assert (used_of (two_factor_challenge_attempts (db (count_call w1))) (challenge_jti c) =
          used (challenge_jti c) w) as ->.
  { cbn. by rewrite Hdb, locked_db_challenges. }
  destruct (Z.leb_spec (challenge_limit c) (used (challenge_jti c) w)) as [Hle|Hlt].
  { wp_step. split; [|split]; [apply Hex|apply Hlost|apply Hex]; done. }
  rewrite admitAttempt_locked. destruct (admitAttempt (row_of key w) (pg_ms w)) as [n until|s] eqn:E.
  - wp_step. wp_step; try (by apply Hlost).
    destruct (count_challenge_below c (locked_db key w)) as [v Hv];
      [by rewrite locked_db_challenges|].
    replace (db (count_call (count_call w1))) with (locked_db key w) by done. rewrite Hv.
    cbn [fst snd]. wp_step. unfold recordAccountAttempt. wp_step; try (by apply Hlost).
    wp_step. cbn. rewrite locked_db_row, record_counted.
    split; [|split]; [apply (Hadm _ n until)|apply Hlost|apply (Hadm _ n until)]; done.
  - wp_step. unfold locked_db in Hdb. destruct (row_of key w) eqn:Er.
    + split; [|split]; [apply (Hdelayed _ s)|apply Hlost|apply Hlost]; done.
    + unfold admitAttempt in E. done.
Qed.
End ClaimSpecs.

(** ** How an account's row moves *)

Inductive row_move (now : Z) : option AttemptState -> option AttemptState -> Prop :=
| row_same r : row_move now r r
| row_opened : row_move now None (Some (mkAttempt 0 now now))
| row_admitted r n until :
    admitAttempt r now = AttemptAdmitted n until -> row_move now r (Some (mkAttempt n now until))
| row_swept s :
    lastAttemptAt s < now - FORGET_AFTER_SECONDS * 1000 -> delayedUntil s < now -> row_move now (Some s) None.

(** What a row always says: a delay that is the table's for its count, and an instant in the past. *)
Definition row_ok (now : Z) (r : option AttemptState) : Prop :=
  match r with
  | None => True
  | Some s => 0 <= attempts s /\ lastAttemptAt s <= now /\
              delayedUntil s = lastAttemptAt s + delaySecondsAfter (attempts s) * 1000
  end.

(** What admission means: the delay of the last attempt is over. *)
Lemma admitAttempt_admitted r now n until :
  row_ok now r -> admitAttempt r now = AttemptAdmitted n until ->
  until = now + delaySecondsAfter n * 1000 /\
  match r with
  | None => n = 1
  | Some s => lastAttemptAt s + delaySecondsAfter (attempts s) * 1000 <= now /\
              (n = attempts s + 1 \/ n = 1 /\ lastAttemptAt s + 3600000 <= now)
  end.
Proof.
  unfold admitAttempt, FORGET_AFTER_SECONDS. intros Hok. destruct r as [s|]; [|intros [= <- <-]; by split].
  destruct Hok as (Hn & Hlast & Hd). rewrite Hd, Z.gtb_ltb, Z.geb_leb.
  destruct (Z.ltb_spec now (lastAttemptAt s + delaySecondsAfter (attempts s) * 1000)); [done|].
  intros [= <- <-]. split; [done|]. split; [lia|].
  destruct (Z.leb_spec (3600 * 1000) (now - lastAttemptAt s)); lia.
Qed.

Lemma row_move_ok now r r' : row_ok now r -> row_move now r r' -> row_ok now r'.
Proof.
  intros Hok Hm. destruct Hm as [ | |r0 n until Hadm|s Hl Hu]; [done| |..].
  - cbn. change (delaySecondsAfter 0) with 0. lia.
  - destruct (admitAttempt_admitted _ _ _ _ Hok Hadm) as [-> Hn]. cbn. split; [|lia].
    destruct r0 as [s|]; [|lia]. destruct Hok. lia.
  - exact I.
Qed.

Lemma row_ok_later now now' r : now <= now' -> row_ok now r -> row_ok now' r.
Proof. destruct r; cbn; lia. Qed.

(** *** The budget of admissions *)

(** Seconds the first [n] gaps of a fresh ledger save against one attempt a minute. *)
Fixpoint deficit (n : nat) : Z :=
  match n with
  | O => - LONGEST_DELAY_SECONDS
  | S n' => deficit n' + LONGEST_DELAY_SECONDS - delaySecondsAfter (Z.of_nat n')
  end.

Lemma deficit_bound n : - LONGEST_DELAY_SECONDS <= deficit n <= 537.
Proof.
  assert (forall n, - LONGEST_DELAY_SECONDS <= deficit n) as Hlo.
  { clear n. induction n as [|n IH]; cbn [deficit]; [lia|].
    pose proof (delaySecondsAfter_range (Z.of_nat n)). lia. }
  split; [done|]. destruct (Nat.le_gt_cases n 11) as [Hle|Hgt].
  - do 12 (destruct n as [|n]; [vm_compute; congruence|]). lia.
  - replace n with ((n - 11) + 11)%nat by lia. generalize (n - 11)%nat. clear. intros k.
    induction k as [|k IH]; [vm_compute; congruence|]. cbn [deficit Nat.add].
    rewrite delaySecondsAfter_full by lia. lia.
Qed.

Lemma deficit_pos n : 0 <= deficit (S n).
Proof.
  induction n as [|n IH]; [vm_compute; congruence|]. cbn [deficit] in *.
  pose proof (delaySecondsAfter_range (Z.of_nat (S n))). lia.
Qed.

(** [budget T0 k now r]: [k] attempts were admitted since [T0] and the row is [r] at [now]. *)
Definition budget (T0 : Z) (k : nat) (now : Z) (r : option AttemptState) : Prop :=
  T0 <= now /\ row_ok now r /\
  match r with
  | None => 60000 * Z.of_nat k <= now - T0
  | Some s => k = O \/
      60000 * Z.of_nat k - 60000 <= lastAttemptAt s - T0 + 1000 * deficit (Z.to_nat (attempts s))
  end.

Lemma budget_less T0 k now r : budget T0 (S k) now r -> budget T0 k now r.
Proof. intros (H1 & H2 & H3). split; [done|]. split; [done|]. destruct r; lia. Qed.

Lemma budget_later T0 k now now' r : now <= now' -> budget T0 k now r -> budget T0 k now' r.
Proof.
  intros Hle (H1 & H2 & H3). split; [lia|]. split; [by eapply row_ok_later|]. destruct r; lia.
Qed.

(** An admission is paid for by the time since the attempt before it. *)
Lemma budget_admitted T0 k now r n until :
  budget T0 k now r -> admitAttempt r now = AttemptAdmitted n until ->
  budget T0 (S k) now (Some (mkAttempt n now until)).
Proof.
  intros (HT & Hok & Hb) Hadm. pose proof (row_move_ok _ _ _ Hok (row_admitted _ _ _ _ Hadm)) as Hok'.
  destruct (admitAttempt_admitted _ _ _ _ Hok Hadm) as [_ Hn].
  split; [done|]. split; [done|]. right. cbn [attempts lastAttemptAt].
  pose proof (deficit_bound (Z.to_nat n)) as Hd. unfold LONGEST_DELAY_SECONDS in Hd.
  assert (n = 1 -> deficit (Z.to_nat n) = 0) as H1 by (intros ->; reflexivity).
  destruct r as [s|]; [|subst n; rewrite H1 by done; lia].
  destruct Hok as (Hnn & Hlast & _). destruct Hn as [Hgap [-> | [-> Hlong]]].
  - replace (Z.to_nat (attempts s + 1)) with (S (Z.to_nat (attempts s))) in * by lia.
    pose proof (deficit_pos (Z.to_nat (attempts s))).
    destruct Hb as [-> | Hb]; [lia|]. cbn [deficit] in *. rewrite Z2Nat.id in * by lia.
    unfold LONGEST_DELAY_SECONDS in *. lia.
  - rewrite H1 by done. pose proof (deficit_bound (Z.to_nat (attempts s))). lia.
Qed.

Lemma budget_move T0 k now r r' : budget T0 k now r -> row_move now r r' -> budget T0 k now r'.
Proof.
  intros Hb Hm. pose proof Hb as (HT & Hok & H). pose proof (row_move_ok _ _ _ Hok Hm) as Hok'.
  destruct Hm as [r| |r n until Hadm|s Hl Hu]; [done| |by eapply budget_less, budget_admitted|].
  - split; [done|]. split; [done|]. right.
    change (60000 * Z.of_nat k - 60000 <= now - T0 + 1000 * (-60)). lia.
  - split; [done|]. split; [done|]. unfold FORGET_AFTER_SECONDS in Hl.
    pose proof (deficit_bound (Z.to_nat (attempts s))). destruct H as [-> |H]; lia.
Qed.

(** *** The rest of the system *)

Section Traffic.
Context {P : Platform}.

(** One action of the system, seen from one account's row: the database clock does not go back
    and the row moves as the policy and the sweeper move it. *)
Definition ledger_step (key : string) (w w' : World) : Prop :=
  pg_ms w <= pg_ms w' /\ row_move (pg_ms w') (row_of key w) (row_of key w').

Lemma ledger_same key w w' :
  same_clocks w w' -> db w' = db w -> ledger_step key w w'.
Proof. intros [Hp _] Hd. split; [lia|]. unfold row_of. rewrite Hd. constructor. Qed.

Lemma insert_other key key' s d :
  key <> key' -> account_sign_in_attempts (insert_attempt key' s d) !! key = account_sign_in_attempts d !! key.
Proof. intros H. unfold insert_attempt. cbn. by apply lookup_insert_ne. Qed.

(** A claim on [key'] is a ledger step for every account. *)
Lemma ledger_record key key' n until d w w' :
  same_clocks w w' -> admitAttempt (row_of key' w) (pg_ms w) = AttemptAdmitted n until ->
  account_sign_in_attempts d = account_sign_in_attempts (db w) ->
  db w' = insert_attempt key' (mkAttempt n (pg_ms w) until) d -> ledger_step key w w'.
Proof.
  intros [Hp _] Hadm Hd Hdb. split; [lia|]. unfold row_of in *. rewrite Hdb.
  destruct (decide (key = key')) as [->|Hne].
  - rewrite insert_attempt_lookup, Hp. by constructor.
  - rewrite insert_other, Hd by done. constructor.
Qed.

Lemma ledger_opened key key' w w' :
  same_clocks w w' -> db w' = locked_db key' w -> ledger_step key w w'.
Proof.
  intros [Hp Hn] Hdb. unfold locked_db in Hdb. destruct (row_of key' w) eqn:E; [by apply ledger_same|].
  split; [lia|]. unfold row_of at 2. rewrite Hdb. destruct (decide (key = key')) as [->|Hne].
  - rewrite insert_attempt_lookup, E. unfold locked. rewrite E, Hp. constructor.
  - rewrite insert_other by done. constructor.
Qed.

Lemma claimAccountAttempt_ledger key key' : guar (ledger_step key) (claimAccountAttempt key' admitAttempt).
Proof.
  apply guar_call. intros w. apply wp_claimAccountAttempt; intros; try by apply ledger_same.
  split; by eapply ledger_record.
Qed.

Lemma claimChallengeAttempt_ledger key key' c :
  guar (ledger_step key) (claimChallengeAttempt key' admitAttempt c).
Proof.
  apply guar_call. intros w. apply wp_claimChallengeAttempt; intros; try by apply ledger_same.
  - split; by eapply ledger_opened.
  - split; by eapply (ledger_record _ _ _ _ (count_db c (db w))).
Qed.

Lemma sweep_attempts_ledger key : guar (ledger_step key) (sweep_attempts FORGET_AFTER_SECONDS).
Proof.
  unfold sweep_attempts. apply guar_bind; [|intros forgotten; apply guar_bind; [|intros now; apply guar_bind; [|by intros]]].
  - apply guar_update_world; intros w; [by apply ledger_same|]. split; [cbn; lia|].
    unfold row_of; cbn. destruct (account_sign_in_attempts (db w) !! key) as [s|] eqn:E.
    + destruct (decide (lastAttemptAt s < pg_ms w - FORGET_AFTER_SECONDS * 1000 /\ delayedUntil s < pg_ms w)).
      * rewrite map_lookup_filter_None_2 by (right; intros; simplify_eq; tauto). constructor; tauto.
      * rewrite (proj2 (map_lookup_filter_Some _ _ _ s)) by done. constructor.
    + rewrite map_lookup_filter_None_2 by (left; done). constructor.
  - apply guar_atom. intros w. by apply ledger_same.
  - apply guar_update_world; intros w; [by apply ledger_same|]. split; [cbn; lia|constructor].
Qed.
End Traffic.

(** ** Properties *)

Section Bounds.
Context {P : Platform}.

Lemma signIn_admit_paid T0 email key :
  accountKeyOf email = key ->
  paid (fun k w => budget T0 k (pg_ms w) (row_of key w)) (fun _ => true) (signIn_admit email).
Proof.
  intros <-. unfold signIn_admit. apply paid_call. intros w.
  apply wp_claimAccountAttempt.
  - intros w' [Hp _] Hd n. unfold row_of. by rewrite Hd, Hp.
  - intros w' s [Hp _] Hd _. left. split; [|done]. intros n. unfold row_of. by rewrite Hd, Hp.
  - intros w' n until [Hp _] Hadm Hd.
    assert (row_of (accountKeyOf email) w' = Some (mkAttempt n (pg_ms w) until)) as Hr
      by (unfold row_of; rewrite Hd; apply insert_attempt_lookup).
    split; [right; split; [|done]|]; intros k Hk; rewrite Hr, Hp; [|apply budget_less]; by eapply budget_admitted.
Qed.

Lemma ledger_step_keeps T0 key w w' :
  ledger_step key w w' -> keeps (fun k w => budget T0 k (pg_ms w) (row_of key w)) w w'.
Proof. intros [Hp Hm] n Hn. eapply budget_move; [|exact Hm]. by eapply budget_later. Qed.

Lemma budget_total T0 k now r : budget T0 k now r -> 60000 * (Z.of_nat k - 1) <= now - T0 + 537000.
Proof.
  intros (HT & Hok & H). destruct r as [s|]; [|lia]. destruct Hok as (_ & Hl & _).
  pose proof (deficit_bound (Z.to_nat (attempts s))). destruct H as [-> | H]; lia.
Qed.

(** C20: However many password attempts on one account run at once, interleaved in any order with
    each other, with attempts on its challenges, with the sweeper and with lost database
    connections, at most one a minute plus nine are admitted: k admissions take at least
    60 (k - 1) - 537 seconds of the database's clock, as long as no sign-in succeeds. *)
Theorem password_guesses_bounded key emails w w' ps' :
  Forall (fun e => accountKeyOf e = key) emails ->
  row_ok (pg_ms w) (row_of key w) ->
  psteps (ledger_step key) (w, map signIn_admit emails) (w', ps') ->
  60000 * (Z.of_nat (count_good (fun _ => true) ps') - 1) <= pg_ms w' - pg_ms w + 537000.
Proof.
  intros Hkeys Hok Hs.
  edestruct (counted_bound (E := exn) (A := Z) (ledger_step key) (fun k w1 => budget (pg_ms w) k (pg_ms w1) (row_of key w1))
    (fun _ => true)) as (n & Hn & Hc); [..|exact Hs|].
  - apply ledger_step_keeps.
  - split; [done|]. split; [done|]. destruct (row_of key w); [by left|]. lia.
  - apply Forall_map. eapply Forall_impl; [exact Hkeys|]. intros e He. by apply signIn_admit_paid.
  - apply budget_total in Hn. lia.
Qed.

(** Every database action of the ledger, on whatever account (password attempts, attempts on
    challenges, the sweep), moves every account's row only as the policy admits an attempt or the
    sweeper forgets one: nothing but a successful sign-in shortens an account's delay. *)
Theorem ledger_traffic key :
  (forall email, guar (ledger_step key) (signIn_admit email)) /\
  (forall email cjti cexp, guar (ledger_step key) (admitChallengeAttempt email cjti cexp)) /\
  guar (ledger_step key) sweep_sign_in_attempts.
Proof.
  split; [|split].
  - intros email. apply guar_bind; [apply claimAccountAttempt_ledger|]. by intros [].
  - intros email cjti cexp. apply guar_bind; [apply claimChallengeAttempt_ledger|]. by intros [].
  - apply sweep_attempts_ledger.
Qed.

(** *** Answers to one challenge *)

Definition answers_ok (u0 : Z) (cjti : string) (k : nat) (w : World) : Prop :=
  u0 + Z.of_nat k <= used cjti w <= ATTEMPTS_PER_CHALLENGE.

(** The rest of the system never uncounts an answer (the sweeper removes the count only once the
    challenge has expired) and never exceeds the limit. *)
Definition challenge_step (cjti : string) (w w' : World) : Prop :=
  used cjti w <= used cjti w' /\
  (used cjti w <= ATTEMPTS_PER_CHALLENGE -> used cjti w' <= ATTEMPTS_PER_CHALLENGE).

Lemma used_same cjti w w' : db w' = db w -> used cjti w' = used cjti w.
Proof. unfold used. by intros ->. Qed.

Lemma used_locked cjti key w w' : db w' = locked_db key w -> used cjti w' = used cjti w.
Proof. unfold used. intros ->. by rewrite locked_db_challenges. Qed.

Lemma used_counted cjti key s c w w' :
  db w' = insert_attempt key s (count_db c (db w)) ->
  used cjti w' = used cjti w + (if bool_decide (cjti = challenge_jti c) then 1 else 0).
Proof.
  intros Hd. unfold used. rewrite Hd. unfold insert_attempt, count_db, used_of, counted_row. cbn.
  case_bool_decide as Hj.
  - subst cjti. rewrite lookup_insert_eq. by destruct (_ !! challenge_jti c).
  - rewrite lookup_insert_ne by done. lia.
Qed.

Lemma admitChallengeAttempt_paid u0 email cjti cexp :
  paid (answers_ok u0 cjti) (fun o : option Z => bool_decide (o <> None)) (admitChallengeAttempt email cjti cexp).
Proof.
  unfold admitChallengeAttempt. cbv zeta. apply paid_call. intros w.
  assert (forall w', used cjti w' = used cjti w -> keeps (answers_ok u0 cjti) w w') as Hsame
    by (intros w' Hu n; unfold answers_ok; by rewrite Hu).
  apply wp_claimChallengeAttempt; cbn [challenge_jti challenge_limit].
  - intros w' _ Hd. by apply Hsame, used_same.
  - intros w' _ _ Hd. apply (used_locked cjti) in Hd. split; [left; split; [|done]|]; by apply Hsame.
  - intros w' s _ Hd _ _. left. split; [|done]. by apply Hsame, used_same.
  - intros w' n until _ Hlt _ Hd. apply (used_counted cjti) in Hd. cbn [challenge_jti] in Hd.
    rewrite bool_decide_eq_true_2 in Hd by done. unfold keeps, answers_ok.
    split; [right; split; [|done]|]; intros k Hk; lia.
Qed.

(** C21: However the requests that answer one sign-in challenge interleave, and whatever database
    calls are lost, at most five of them (less those already counted) get to have their code
    checked. *)
Theorem challenge_answers_bounded cjti answers w w' ps' :
  0 <= used cjti w <= ATTEMPTS_PER_CHALLENGE ->
  psteps (challenge_step cjti)
    (w, map (fun '(email, cexp) => admitChallengeAttempt email cjti cexp) answers) (w', ps') ->
  Z.of_nat (count_good (fun o : option Z => bool_decide (o <> None)) ps') <=
    ATTEMPTS_PER_CHALLENGE - used cjti w.
Proof.
  intros Hu Hs.
  edestruct (counted_bound (E := exn) (A := option Z) (challenge_step cjti) (answers_ok (used cjti w) cjti)) as (n & Hn & Hc); [..|exact Hs|].
  - intros w1 w2 [H1 H2] k Hk. unfold answers_ok in *. lia.
  - unfold answers_ok. lia.
  - apply Forall_map, Forall_true. intros [email cexp]. apply admitChallengeAttempt_paid.
  - unfold answers_ok in Hn. lia.
Qed.
End Bounds.

(** Two attempts at once on one account, and seven answers to one challenge of another. *)
Lemma password_guesses_bounded_witness :
  let start := world_at 0 empty_db in
  let pool := map (@signIn_admit sample_platform) ["a@x.io"; " A@x.io"] in
  let stop := schedule [0; 1]%nat (start, pool) in
  count_good (fun _ => true) stop.2 = 2%nat /\
  60000 * (Z.of_nat (count_good (fun _ => true) stop.2) - 1) <= pg_ms stop.1 - pg_ms start + 537000.
Proof.
  intros start pool stop. split; [vm_compute; reflexivity|].
  apply (@password_guesses_bounded sample_platform "sha256:a@x.io" ["a@x.io"; " A@x.io"] start stop.1 stop.2).
  - repeat constructor.
  - exact I.
  - rewrite <- surjective_pairing. apply schedule_psteps.
Defined.

Lemma challenge_answers_bounded_witness :
  let start := world_at 0 empty_db in
  let answers := map (fun i => (String_of i ++ "@x.io", 60)) [1; 2; 3; 4; 5; 6; 7] in
  let pool := map (fun '(email, cexp) => @admitChallengeAttempt sample_platform email "c" cexp) answers in
  let stop := schedule [3; 1; 6; 0; 5; 2; 4]%nat (start, pool) in
  count_good (fun o : option Z => bool_decide (o <> None)) stop.2 = 5%nat /\
  Z.of_nat (count_good (fun o : option Z => bool_decide (o <> None)) stop.2) <= 5 - used "c" start.
Proof.
  intros start answers pool stop. split; [vm_compute; reflexivity|].
  apply (@challenge_answers_bounded sample_platform "c" answers start stop.1 stop.2).
  - vm_compute. by split.
  - rewrite <- surjective_pairing. apply schedule_psteps.
Defined.
