(* ===== verification/Keys.v ===== *)
(** * Signing keys and settings

    Models src/src/infrastructure/crypto/jwt_key_provider.ts (the constructor's checks, the previous
    keys, [verificationKey], [jwks]) and src/src/infrastructure/config/required_setting.ts. Node's
    key parsing is the class [KeyMaterial]. *)

From S2P Require Import Prelude JsString Domain Store Sample.
From Stdlib Require Import Ascii String.

Local Open Scope string_scope.
Local Open Scope Z_scope.

(** ** Settings *)

Definition quote : string := String (ascii_of_nat 34) "".

Definition requiredSetting (name : string) (value : option string) : res exn string :=
  match value with
  | Some v =>
      if bool_decide (trim v = "")
      then Err (PlainError (name ++ " is required and has no default. Set it in the environment."))
      else Ok v
  | None => Err (PlainError (name ++ " is required and has no default. Set it in the environment."))
  end.

Definition MAX_SAFE_INTEGER : Z := 2 ^ 53 - 1.

(** [/^[0-9]+$/], [Number.isSafeInteger] and positive. *)
Definition positiveIntegerSetting (name : string) (value : option string) : res exn Z :=
  res_bind (requiredSetting name value) (fun v =>
    let raw := trim v in
    let invalid := Err (PlainError (name ++ " is " ++ quote ++ raw ++ quote ++ ", which is not a positive whole number.")) in
    if negb (forallb is_digit (str_list raw)) || bool_decide (raw = "") then invalid
    else
      match Number raw with
      | Some parsed => if (parsed <=? MAX_SAFE_INTEGER) && (0 <? parsed) then Ok parsed else invalid
      | None => invalid
      end).

(** ** Text search *)

(** What is before and after the first occurrence of [pat]. *)
Fixpoint find_sub (pat l : list ascii) : option (list ascii * list ascii) :=
  if bool_decide (take (List.length pat) l = pat)
  then Some ([], drop (List.length pat) l)
  else
    match l with
    | [] => None
    | c :: l' =>
        match find_sub pat l' with
        | Some (before, after) => Some (c :: before, after)
        | None => None
        end
    end.

(** [s.includes(sub)] *)
Definition includes (sub s : string) : bool :=
  match find_sub (str_list sub) (str_list s) with Some _ => true | None => false end.

Definition BEGIN_PUBLIC_KEY : list ascii := str_list "-----BEGIN PUBLIC KEY-----".
Definition END_PUBLIC_KEY : list ascii := str_list "-----END PUBLIC KEY-----".

(** [pem.match(PUBLIC_KEY_BLOCK)]: from each BEGIN line, at least one character and as few as
    possible up to an END line. Each match consumes text, so the length of the text is enough fuel
    ([pem_blocks_fuel]). *)
Fixpoint pem_blocks (fuel : nat) (l : list ascii) : list string :=
  match fuel with
  | O => []
  | S fuel' =>
      match find_sub BEGIN_PUBLIC_KEY l with
      | None => []
      | Some (_, []) => []
      | Some (_, c :: rest) =>
          match find_sub END_PUBLIC_KEY rest with
          | None => []
          | Some (body, after) =>
              list_str (BEGIN_PUBLIC_KEY ++ c :: body ++ END_PUBLIC_KEY)%list :: pem_blocks fuel' after
          end
      end
  end.

Definition public_key_blocks (pem : string) : list string := pem_blocks (String.length pem) (str_list pem).

(** ** Node's keys *)

Record Jwk := mkJwk { jwk_e : string; jwk_kty : string; jwk_n : string }.

Class KeyMaterial (P : Platform) := {
  (** [Buffer.from(s, "base64").toString("utf8")] *)
  base64_text : string -> string;
  (** [crypto.createPrivateKey], [crypto.createPublicKey] of a PEM text, [None] where they throw. *)
  parse_private : string -> option PrivateKey;
  parse_public : string -> option PublicKey;
  (** A private key has the type and modulus of its public key. *)
  asymmetricKeyType : PublicKey -> string;
  modulusLength : PublicKey -> Z;
  export_jwk : PublicKey -> Jwk;
  (** [createHash("sha256").update(s).digest("base64url")] *)
  sha256_base64url : string -> string
}.

Record JwtKeyProvider {P : Platform} := mkKeys {
  privateKeyObject : PrivateKey;
  publicKeyObject : PublicKey;
  keyId : string;
  previousKeys : list (string * PublicKey)
}.
Arguments JwtKeyProvider P : clear implicits.

Section Keys.
Context {P : Platform} {K : KeyMaterial P}.

(** [JSON.stringify({ e, kty, n })] of members that need no escape. *)
Definition canonical_jwk (j : Jwk) : string :=
  let q s := quote ++ s ++ quote in
  "{" ++ q "e" ++ ":" ++ q (jwk_e j) ++ "," ++ q "kty" ++ ":" ++ q (jwk_kty j) ++ "," ++
  q "n" ++ ":" ++ q (jwk_n j) ++ "}".

Definition thumbprint (key : PublicKey) : string := sha256_base64url (canonical_jwk (export_jwk key)).

(** [map.set(k, v)]: a key already there keeps its place. *)
Fixpoint map_set {V} (k : string) (v : V) (m : list (string * V)) : list (string * V) :=
  match m with
  | [] => [(k, v)]
  | (k', v') :: m' => if decide (k' = k) then (k, v) :: m' else (k', v') :: map_set k v m'
  end.
Fixpoint map_get {V} (k : string) (m : list (string * V)) : option V :=
  match m with
  | [] => None
  | (k', v') :: m' => if decide (k' = k) then Some v' else map_get k m'
  end.

Fixpoint add_previous (blocks : list string) (currentKeyId : string) (keys : list (string * PublicKey))
    : res exn (list (string * PublicKey)) :=
  match blocks with
  | [] => Ok keys
  | block :: rest =>
      match parse_public block with
      | None => Err (PlainError "A previous signing key is not a usable public key")
      | Some key =>
          if negb (bool_decide (asymmetricKeyType key = "rsa")) || (modulusLength key <? 2048)
          then Err (PlainError "A previous signing key must be RSA of at least 2048 bits.")
          else if bool_decide (thumbprint key = currentKeyId)
          then Err (PlainError "A previous signing key is the current one; list only keys that signed before it.")
          else add_previous rest currentKeyId (map_set (thumbprint key) key keys)
      end
  end.

Definition previous (encoded : option string) (currentKeyId : string) : res exn (list (string * PublicKey)) :=
  match encoded with
  | None => Ok []
  | Some e =>
      if bool_decide (trim e = "") then Ok []
      else
        match public_key_blocks (base64_text (trim e)) with
        | [] => Err (PlainError "KINETIX_IDENTITY_JWT_PREVIOUS_PUBLIC_KEYS_B64 holds no PEM public key. It is the base64 of one or more PEM public keys, one after another.")
        | blocks => add_previous blocks currentKeyId []
        end
  end.

(** The constructor, from the two settings it reads. *)
Definition newJwtKeyProvider (privateKeyB64 previousB64 : option string) : res exn (JwtKeyProvider P) :=
  let required := Err (PlainError "KINETIX_IDENTITY_JWT_PRIVATE_KEY_B64 is required and has no default. It is a base64-encoded PKCS#8 RSA private key, held in the SOPS store.") in
  match privateKeyB64 with
  | None => required
  | Some encoded =>
      if bool_decide (trim encoded = "") then required
      else
        let pem := base64_text (trim encoded) in
        if negb (includes "PRIVATE KEY" pem)
        then Err (PlainError "KINETIX_IDENTITY_JWT_PRIVATE_KEY_B64 did not decode to a PEM private key. It must be the whole PEM file, base64-encoded, not the PEM body.")
        else
          match parse_private pem with
          | None => Err (PlainError "KINETIX_IDENTITY_JWT_PRIVATE_KEY_B64 is not a usable private key")
          | Some parsed =>
              let public := createPublicKey parsed in
              if negb (bool_decide (asymmetricKeyType public = "rsa"))
              then Err (PlainError ("The signing key must be RSA for RS256; this one is " ++ asymmetricKeyType public ++ "."))
              else if modulusLength public <? 2048
              then Err (PlainError ("The signing key is " ++ String_of (modulusLength public) ++ "-bit; RS256 requires at least 2048."))
              else
                res_bind (previous previousB64 (thumbprint public)) (fun previousKeys =>
                  Ok (mkKeys _ parsed public (thumbprint public) previousKeys))
          end
  end.

Definition verificationKey (keys : JwtKeyProvider P) (kid : option string) : option PublicKey :=
  match kid with
  | None => None
  | Some k => if bool_decide (k = keyId keys) then Some (publicKeyObject keys) else map_get k (previousKeys keys)
  end.

Record PublishedKey := mkPublished { published_jwk : Jwk; published_kid : string; published_use : string; published_alg : string }.

Definition jwks (keys : JwtKeyProvider P) : list PublishedKey :=
  map (fun '(kid, key) => mkPublished (export_jwk key) kid "sig" "RS256")
      ((keyId keys, publicKeyObject keys) :: previousKeys keys).
End Keys.

(** ** Facts *)

Lemma map_get_set {V} k k' (v : V) m : map_get k (map_set k' v m) = if decide (k' = k) then Some v else map_get k m.
Proof.
  induction m as [|[k1 v1] m IH]; simpl.
  - done.
  - repeat case_decide; subst; simpl; repeat case_decide; subst; try done; by rewrite IH.
Qed.

Lemma map_set_keys {V} k (v : V) m :
  NoDup (map fst m) -> NoDup (map fst (map_set k v m)) /\
  forall k', k' ∈ map fst (map_set k v m) <-> k' = k \/ k' ∈ map fst m.
Proof.
  induction m as [|[k1 v1] m IH]; cbn; intros Hnd.
  - split; [apply NoDup_singleton|]. intros k'. by rewrite !elem_of_cons.
  - apply NoDup_cons in Hnd as [Hn Hnd]. destruct (IH Hnd) as [IH1 IH2].
    case_decide; cbn; subst.
    + split; [by constructor|]. intros k'. rewrite !elem_of_cons. tauto.
    + split; [constructor; [rewrite IH2; naive_solver|done]|].
      intros k'. rewrite !elem_of_cons, IH2. tauto.
Qed.

Lemma map_get_elem {V} k (v : V) m : NoDup (map fst m) -> map_get k m = Some v <-> (k, v) ∈ m.
Proof.
  induction m as [|[k1 v1] m IH]; cbn; intros Hnd; [by rewrite elem_of_nil|].
  apply NoDup_cons in Hnd as [Hn Hnd]. case_decide; subst.
  - split.
    + intros [= ->]. by left.
    + intros [?|Hin]%elem_of_cons; [congruence|]. destruct Hn. apply list_elem_of_fmap. by exists (k, v).
  - rewrite IH by done. split; [by right|]. intros [?|Hin]%elem_of_cons; [congruence|done].
Qed.

(** ** Provider invariant *)

Section KeyFacts.
Context {P : Platform} {K : KeyMaterial P}.

(** A key the service trusts: RSA, at least 2048 bits, under its own thumbprint. *)
Definition trusted (kid : string) (key : PublicKey) : Prop :=
  kid = thumbprint key /\ asymmetricKeyType key = "rsa" /\ 2048 <= modulusLength key.

Definition previous_ok (current : string) (keys : list (string * PublicKey)) : Prop :=
  NoDup (map fst keys) /\ (current ∉ map fst keys) /\ forall kid key, (kid, key) ∈ keys -> trusted kid key.

Definition keys_ok (keys : JwtKeyProvider P) : Prop :=
  publicKeyObject keys = createPublicKey (privateKeyObject keys) /\
  trusted (keyId keys) (publicKeyObject keys) /\ previous_ok (keyId keys) (previousKeys keys).

Lemma map_set_elem {V} k (v : V) m k' v' : (k', v') ∈ map_set k v m -> (k', v') = (k, v) \/ (k', v') ∈ m.
Proof.
  induction m as [|[k1 v1] m IH]; cbn; [rewrite elem_of_cons; naive_solver|].
  case_decide; rewrite !elem_of_cons; naive_solver.
Qed.

Lemma add_previous_ok blocks current keys keys' :
  previous_ok current keys -> add_previous blocks current keys = Ok keys' -> previous_ok current keys'.
Proof.
  revert keys. induction blocks as [|block blocks IH]; simpl; intros keys Hok; [by intros [= <-]|].
  destruct (parse_public block) as [key|]; [|done].
  destruct (negb _ || _) eqn:Hkey; [done|]. apply orb_false_elim in Hkey as [Hrsa Hbits].
  apply negb_false_iff, bool_decide_eq_true in Hrsa. case_bool_decide as Hcur; [done|].
  apply IH. destruct Hok as (Hnd & Hc & Hall).
  destruct (map_set_keys (thumbprint key) key keys Hnd) as [Hnd' Hin].
  split; [done|]. split; [rewrite Hin; naive_solver|].
  intros kid k [[= -> ->]|Hk]%map_set_elem; [|by apply Hall]. split; [done|]. split; [done|]. lia.
Qed.

Lemma newJwtKeyProvider_ok private previous keys :
  newJwtKeyProvider private previous = Ok keys -> keys_ok keys.
Proof.
  unfold newJwtKeyProvider. destruct private as [encoded|]; [|done].
  case_bool_decide; [done|]. destruct (includes _ _); [|done].
  destruct (parse_private _) as [parsed|]; [|done]. cbv zeta. simpl negb.
  case_bool_decide as Hrsa; [|done]. simpl negb. destruct (Z.ltb_spec (modulusLength (createPublicKey parsed)) 2048); [done|].
  destruct (Keys.previous _ _) as [ks|] eqn:Hp; [|done]. cbn [res_bind]. intros [= <-].
  split; [done|]. split; [done|]. cbn.
  assert (previous_ok (thumbprint (createPublicKey parsed)) []) as Hnil
    by (split; [constructor|]; split; [apply not_elem_of_nil|intros ?? []%elem_of_nil]).
  unfold Keys.previous in Hp. destruct previous as [e|]; [|by simplify_eq].
  case_bool_decide; [by simplify_eq|]. destruct (public_key_blocks _); [done|]. by eapply add_previous_ok.
Qed.

(** Every match of a block consumes text: more fuel finds nothing more. *)
Lemma find_sub_length pat l before after :
  find_sub pat l = Some (before, after) ->
  List.length l = (List.length before + List.length pat + List.length after)%nat.
Proof.
  revert before. induction l as [|c l IH]; intros before; cbn [find_sub].
  - case_bool_decide as H; [|done]. intros [= <- <-]. rewrite <- H at 1. rewrite length_drop, length_take. simpl. lia.
  - case_bool_decide as H.
    + intros [= <- <-]. rewrite length_drop. cbn [List.length].
      pose proof (f_equal (@List.length _) H) as Hl. rewrite length_take in Hl. cbn [List.length] in *. lia.
    + destruct (find_sub pat l) as [[b a]|]; [|done]. intros [= <- <-]. specialize (IH b eq_refl). simpl. lia.
Qed.

Lemma pem_blocks_fuel fuel l : (List.length l <= fuel)%nat -> pem_blocks fuel l = pem_blocks (List.length l) l.
Proof.
  revert l. induction fuel as [fuel IH] using lt_wf_ind. intros l Hl.
  destruct l as [|c0 l0] eqn:El; [by destruct fuel|]. rewrite <- El in *.
  assert (List.length l <> O) by (subst; done). clear El.
  destruct fuel as [|fuel]; [lia|]. destruct (List.length l) as [|n] eqn:En; [done|]. cbn [pem_blocks].
  destruct (find_sub BEGIN_PUBLIC_KEY l) as [[b [|c rest]]|] eqn:E1; try done.
  destruct (find_sub END_PUBLIC_KEY rest) as [[body after]|] eqn:E2; [|done]. f_equal.
  apply find_sub_length in E1, E2. simpl in E1. rewrite En in E1.
  rewrite (IH fuel), (IH n) by lia. done.
Qed.

(** C30: A key provider that starts accepts a token's key id exactly for the keys it publishes: the
    key [verificationKey] answers for a key id is RSA of at least 2048 bits, its thumbprint is
    that key id, and the JWKS document lists it once under that id. *)
Theorem published_iff_accepted private previous keys kid key :
  newJwtKeyProvider private previous = Ok keys ->
  (verificationKey keys (Some kid) = Some key ->
     trusted kid key /\ mkPublished (export_jwk key) kid "sig" "RS256" ∈ jwks keys) /\
  NoDup (map published_kid (jwks keys)) /\
  (kid ∈ map published_kid (jwks keys) <-> is_Some (verificationKey keys (Some kid))).
Proof.
  intros (Hpub & Hcur & Hnd & Hnotin & Hall)%newJwtKeyProvider_ok. unfold verificationKey, jwks.
  assert (map published_kid (map (fun '(kid, key) => mkPublished (export_jwk key) kid "sig" "RS256")
    ((keyId keys, publicKeyObject keys) :: previousKeys keys)) = keyId keys :: map fst (previousKeys keys)) as ->.
  { cbn. f_equal. rewrite map_map. apply map_ext. by intros []. }
  split; [|split].
  - case_bool_decide as Hk.
    + intros [= <-]. subst kid. split; [done|]. cbn. apply elem_of_cons. by left.
    + intros Hget%map_get_elem; [|done]. split; [by apply Hall|]. cbn. apply elem_of_cons. right.
      apply list_elem_of_fmap. by exists (kid, key).
  - by constructor.
  - rewrite elem_of_cons. case_bool_decide as Hk; [naive_solver eauto|]. split.
    + intros [?|Hin]; [done|]. apply list_elem_of_fmap in Hin as ([k v] & -> & Hin). exists v. by apply map_get_elem.
    + intros [v Hv%map_get_elem]; [|done]. right. apply list_elem_of_fmap. by exists (kid, v).
Qed.
End KeyFacts.

(** The sample platform's keys are their own PEM texts. *)
Definition sample_keys (faults : nat -> Fault) : KeyMaterial (sample faults) := {|
  base64_text := fun s => s;
  parse_private := fun s => Some s : option (@PrivateKey (sample faults));
  parse_public := fun s => Some s : option (@PublicKey (sample faults));
  asymmetricKeyType := fun _ => "rsa";
  modulusLength := fun _ => 2048;
  export_jwk := fun k => mkJwk "AQAB" "RSA" k;
  sha256_base64url := fun s => s
|}.

Lemma published_iff_accepted_witness :
  let K := sample_keys no_faults in
  let old := "-----BEGIN PUBLIC KEY-----o-----END PUBLIC KEY-----" in
  let key := old : @PublicKey (sample no_faults) in
  let current := "PRIVATE KEY" : @PublicKey (sample no_faults) in
  let keys := mkKeys (sample no_faults) "PRIVATE KEY" current (thumbprint current) [(thumbprint key, key)] in
  newJwtKeyProvider (Some "PRIVATE KEY") (Some old) = Ok keys /\
  trusted (thumbprint key) key /\ NoDup (map published_kid (jwks keys)).
Proof.
  intros K old key current keys. split; [vm_compute; reflexivity|].
  destruct (@published_iff_accepted _ K (Some "PRIVATE KEY") (Some old) keys (thumbprint key) key) as (H1 & H2 & _);
    [vm_compute; reflexivity|].
  split; [|exact H2]. apply H1. vm_compute. reflexivity.
Defined.
