(* ===== verification/Tokens.v ===== *)
(** * Tokens and sessions

    Models src/src/application/services/token.service.ts: access and refresh tokens, their rotation
    and revocation, and the challenge and enrolment tokens of two-factor sign-in. A session is a
    family of rows of [refresh_tokens]; [Rotation] and [Revocation] below are its state machine. *)

From S2P Require Import Prelude JsString Domain Store Sample Keys.

Local Open Scope string_scope.
Local Open Scope Z_scope.

Definition MFA_CHALLENGE_TTL_SECONDS : Z := 300.
Definition MFA_ENROLMENT_TTL_SECONDS : Z := 600.

(** What the constructor of [TokenService] keeps of its settings, and the key provider. *)
Record TokenConfig {P : Platform} := mkTokenConfig {
  issuer : string;
  audience : string;
  accessTtlSeconds : Z;
  refreshTtlSeconds : Z;
  keys : JwtKeyProvider P
}.
Arguments TokenConfig P : clear implicits.

Definition newTokenService {P : Platform} (env : string -> option string) (keys : JwtKeyProvider P)
    : res exn (TokenConfig P) :=
  match env "JWT_ISSUER", env "JWT_AUDIENCE" with
  | None, _ | Some "", _ => Err (PlainError "JWT_ISSUER is required and has no default.")
  | Some _, None | Some _, Some "" => Err (PlainError "JWT_AUDIENCE is required and has no default.")
  | Some issuer, Some audience =>
      res_bind (positiveIntegerSetting "JWT_ACCESS_TTL_SECONDS" (env "JWT_ACCESS_TTL_SECONDS")) (fun access =>
      res_bind (positiveIntegerSetting "JWT_REFRESH_TTL_SECONDS" (env "JWT_REFRESH_TTL_SECONDS")) (fun refresh =>
      if refresh <=? access
      then Err (PlainError "JWT_REFRESH_TTL_SECONDS must be a positive number greater than the access TTL.")
      else Ok (mkTokenConfig _ issuer audience access refresh keys)))
  end.

Record TokenPair := mkPair {
  accessToken : string;
  refreshToken : string;
  expiresIn : Z
}.

Record RotatedPair := mkRotated { pair : TokenPair; bound : bool }.

Inductive RotationOutcome :=
| Rotated (r : RotatedPair)
| RotationRefused (message : string)
| RotationMismatch (sessionClient : option string).

Definition unauthorized (message : string) : exn := HttpException Unauthorized None message.
Definition spentChallenge : exn :=
  HttpException Unauthorized (Some "CHALLENGE_SPENT") "This challenge has already been answered; sign in again".

Section TokenService.
Context {P : Platform} (cfg : TokenConfig P).
Local Open Scope prog_scope.

Definition sign (c : Claims) : string := jwt_sign (privateKeyObject (keys cfg)) (keyId (keys cfg)) c.

Definition seconds_now : M Z := ms <- Date_now ;; Ret (ms / 1000).

(** [repository.save(repository.create(..))] of a new refresh token: the unique [jti] and the
    foreign key to [principals] are checked by the database. *)
Definition insert_refresh (new_jti : string) (row : RefreshTokenRow) : M unit :=
  statement (fun w =>
    match refresh_tokens (db w) !! new_jti with
    | Some _ => (Err (QueryFailedError UNIQUE_VIOLATION), w)
    | None =>
        match principals (db w) !! principalId row with
        | None => (Err (QueryFailedError FOREIGN_KEY_VIOLATION), w)
        | Some _ => (Ok tt, set_db (set_refresh_tokens (<[new_jti := row]> (refresh_tokens (db w))) (db w)) w)
        end
    end).

Definition access_claims (user : TokenSubject) (principal accessJti family : string) (client : option string)
    (now : Z) : Claims :=
  mkClaims principal accessJti (issuer cfg) (audience cfg) now (now + accessTtlSeconds cfg)
    "access" (Some family) client (subject_id user) (Some (subject_email user))
    (Some (role_name (subject_role user))).

Definition refresh_claims (user : TokenSubject) (principal refreshJti family : string) (client : option string)
    (now : Z) : Claims :=
  mkClaims principal refreshJti (issuer cfg) (audience cfg) now (now + refreshTtlSeconds cfg)
    "refresh" (Some family) client (subject_id user) None None.

Definition mintPair (user : TokenSubject) (principal family : string) (client : option string) : M TokenPair :=
  now <- seconds_now ;;
  accessJti <- randomUUID ;;
  refreshJti <- randomUUID ;;
  let access := sign (access_claims user principal accessJti family client now) in
  let refresh := sign (refresh_claims user principal refreshJti family client now) in
  insert_refresh refreshJti
    (mkRefreshRow family principal (subject_id user) client ((now + refreshTtlSeconds cfg) * 1000)
       None None None None) ;;;
  Ret (mkPair access refresh (accessTtlSeconds cfg)).

Definition issuePair (user : TokenSubject) (principal : string) (client : option string) : M TokenPair :=
  family <- randomUUID ;;
  mintPair user principal family client.

Definition verifySignature (token : string) : M Claims :=
  match verificationKey (keys cfg) (jwt_header_kid token) with
  | None => Throw (unauthorized "Invalid token")
  | Some key =>
      now <- seconds_now ;;
      match jwt_verify key (issuer cfg) (audience cfg) now token with
      | Some (JwtObject claims) => Ret claims
      | Some (JwtString _) => Throw (unauthorized "Token payload is not an object")
      | None => Throw (unauthorized "Invalid token")
      end
  end.

Definition find_revoked (j : string) : M (option RevokedTokenRow) :=
  query (fun w => revoked_access_tokens (db w) !! j).

Definition refuseRevoked (claims : Claims) : M unit :=
  revoked <- find_revoked (jti claims) ;;
  match revoked with
  | Some _ => Throw (unauthorized "This token has been revoked")
  | None => Ret tt
  end.

Definition verifyAccess (token : string) : M Claims :=
  claims <- verifySignature token ;;
  if negb (bool_decide (token_use claims = "access"))
  then Throw (unauthorized "This is not an access token")
  else refuseRevoked claims ;;; Ret claims.

Definition verifySession (token : string) : M Claims :=
  claims <- verifySignature token ;;
  if negb (bool_decide (token_use claims = "access")) && negb (bool_decide (token_use claims = "mfa_enrolment"))
  then Throw (unauthorized "This is not an access token")
  else refuseRevoked claims ;;; Ret claims.

Definition issueEnrolment (user : TokenSubject) (principal : string) (client : option string) : M (string * Z) :=
  now <- seconds_now ;;
  j <- randomUUID ;;
  Ret (sign (mkClaims principal j (issuer cfg) (audience cfg) now (now + MFA_ENROLMENT_TTL_SECONDS)
               "mfa_enrolment" None client (subject_id user) None None),
       MFA_ENROLMENT_TTL_SECONDS).

Definition issueMfaChallenge (user : TokenSubject) (principal : string) : M (string * Z) :=
  now <- seconds_now ;;
  j <- randomUUID ;;
  Ret (sign (mkClaims principal j (issuer cfg) (audience cfg) now (now + MFA_CHALLENGE_TTL_SECONDS)
               "mfa_challenge" None None (subject_id user) None None),
       MFA_CHALLENGE_TTL_SECONDS).

(** [revokedRepository.insert]: the primary key [jti] is unique. *)
Definition insert_revoked (j : string) (expires : Z) (reason : string) : M unit :=
  statement (fun w =>
    match revoked_access_tokens (db w) !! j with
    | Some _ => (Err (QueryFailedError UNIQUE_VIOLATION), w)
    | None =>
        (Ok tt, set_db (set_revoked_access_tokens
                          (<[j := mkRevokedRow expires reason]> (revoked_access_tokens (db w))) (db w)) w)
    end).

Definition recordRevokedJti (j : string) (expires : Z) (reason : string) : M bool :=
  catch (insert_revoked j expires reason ;;; Ret true)
    (fun error => if isUniqueViolation error then Ret false else Throw error).

Definition revokeAccessJti (j : string) (expires : Z) (reason : string) : M unit :=
  recordRevokedJti j expires reason ;;; Ret tt.

Definition endEnrolment (claims : Claims) : M unit :=
  recordRevokedJti (jti claims) (exp claims * 1000) "two_factor_enrolled" ;;; Ret tt.

Definition consumeMfaChallenge (claims : Claims) : M unit :=
  consumed <- recordRevokedJti (jti claims) (exp claims * 1000) "mfa_challenge_used" ;;
  if negb consumed then Throw spentChallenge else Ret tt.

Definition refuseSpentMfaChallenge (claims : Claims) : M unit :=
  spent <- find_revoked (jti claims) ;;
  match spent with Some _ => Throw spentChallenge | None => Ret tt end.

Definition peekMfaChallenge (token : string) : M Claims :=
  claims <- catch (verifySignature token) (fun error =>
    match error with
    | HttpException Unauthorized _ message =>
        Throw (HttpException Unauthorized (Some "CHALLENGE_INVALID") message)
    | _ => Throw error
    end) ;;
  if negb (bool_decide (token_use claims = "mfa_challenge"))
  then Throw (HttpException Unauthorized (Some "CHALLENGE_INVALID") "This is not a two-factor challenge")
  else Ret claims.

Definition peekRefresh (token : string) : M Claims :=
  claims <- verifySignature token ;;
  if negb (bool_decide (token_use claims = "refresh"))
  then Throw (unauthorized "This is not a refresh token")
  else Ret claims.

(** [repository.update({ <selection>, revokedAt: IsNull() }, { revokedAt: new Date(), revokedReason })] *)
Definition revoke_row (at_ms : Z) (reason : string) (row : RefreshTokenRow) : RefreshTokenRow :=
  mkRefreshRow (familyId row) (principalId row) (token_userId row) (client row) (expiresAt row)
    (usedAt row) (Some at_ms) (Some reason) (replacedByJti row).

Definition revoke_rows (selected : RefreshTokenRow -> bool) (at_ms : Z) (reason : string)
    (rows : gmap string RefreshTokenRow) : gmap string RefreshTokenRow :=
  (fun row => if selected row && bool_decide (revokedAt row = None) then revoke_row at_ms reason row else row) <$> rows.

Definition revokeWhere (selected : RefreshTokenRow -> bool) (reason : string) : M unit :=
  now <- Date_now ;;
  update (fun w => (tt, set_refresh_tokens (revoke_rows selected now reason (refresh_tokens (db w))) (db w))).

Definition revokeFamily (family reason : string) : M unit :=
  revokeWhere (fun row => bool_decide (familyId row = family)) reason.

Definition revokeAllFamiliesForPrincipal (principal reason : string) : M unit :=
  revokeWhere (fun row => bool_decide (principalId row = principal)) reason.

Definition revokeOtherSessions (principal : string) (keptFamilyId : option string) (reason : string) : M unit :=
  match keptFamilyId with
  | None => revokeAllFamiliesForPrincipal principal reason
  | Some kept =>
      revokeWhere (fun row => bool_decide (principalId row = principal) && negb (bool_decide (familyId row = kept))) reason
  end.

(** [decodeWithoutVerifying(token)?.jti ? String(jti) : null] *)
Definition replacement_jti (token : string) : option string :=
  match jwt_decode token with
  | Some (JwtObject c) => if bool_decide (jti c = "") then None else Some (jti c)
  | _ => None
  end.

(** [stored.usedAt = new Date(); stored.replacedByJti = ..; refreshTokens.save(stored)]: the
    changed columns of the row. *)
Definition mark_used (j : string) (at_ms : Z) (replacement : option string) : M unit :=
  update (fun w =>
    (tt, set_refresh_tokens
           (alter (fun row => mkRefreshRow (familyId row) (principalId row) (token_userId row) (client row)
                                (expiresAt row) (Some at_ms) (revokedAt row) (revokedReason row) replacement)
              j (refresh_tokens (db w))) (db w))).

(** The body of the rotation's transaction. *)
Definition rotation (j : string) (user : TokenSubject) (request : RequestClient) : M RotationOutcome :=
  found <- query (fun w => refresh_tokens (db w) !! j) ;;
  match found with
  | None => Ret (RotationRefused "This refresh token is not recognised")
  | Some stored =>
      if bool_decide (revokedAt stored <> None) then Ret (RotationRefused "This refresh token has been revoked")
      else if bool_decide (usedAt stored <> None) then
        revokeFamily (familyId stored) "rotation_reuse" ;;;
        Ret (RotationRefused "This refresh token has already been used; the session has been revoked")
      else
        now <- Date_now ;;
        if expiresAt stored <=? now then Ret (RotationRefused "This refresh token has expired")
        else
          let decision := sessionClientDecision (client stored) request in
          match decision with
          | Mismatch => Ret (RotationMismatch (client stored))
          | _ =>
              let sessionClient := match client stored with Some c => Some c | None => clientNameOf request end in
              p <- mintPair user (principalId stored) (familyId stored) sessionClient ;;
              used_at <- Date_now ;;
              mark_used j used_at (replacement_jti (refreshToken p)) ;;;
              Ret (Rotated (mkRotated p (bool_decide (decision = Bind))))
          end
  end.

Definition rotate (token : string) (user : TokenSubject) (request : RequestClient) : M RotatedPair :=
  claims <- verifySignature token ;;
  if negb (bool_decide (token_use claims = "refresh"))
  then Throw (unauthorized "This is not a refresh token")
  else
    outcome <- transaction (rotation (jti claims) user request) ;;
    match outcome with
    | RotationRefused message => Throw (unauthorized message)
    | RotationMismatch c => Throw (ClientMismatchError c)
    | Rotated r => Ret r
    end.

(** A falsy (absent or empty) family revokes every session of the principal. *)
Definition logout (accessClaims : Claims) (refreshFamilyId : option string) : M unit :=
  revokeAccessJti (jti accessClaims) (exp accessClaims * 1000) "logout" ;;;
  match refreshFamilyId with
  | Some family =>
      if bool_decide (family = "") then revokeAllFamiliesForPrincipal (sub accessClaims) "logout"
      else revokeFamily family "logout"
  | None => revokeAllFamiliesForPrincipal (sub accessClaims) "logout"
  end.

Definition sweepExpiredRevocations : M Z :=
  now <- Date_now ;;
  update (fun w =>
    let rows := revoked_access_tokens (db w) in
    let kept := filter (fun '(_, r) => ~ revoked_expiresAt r < now) rows in
    (Z.of_nat (size rows) - Z.of_nat (size kept), set_revoked_access_tokens kept (db w))).
End TokenService.

(** ** How sessions evolve *)

(** A refresh row keeps its identity; once used it stays used; once revoked it keeps its
    revocation. *)
Definition row_evolves (r r' : RefreshTokenRow) : Prop :=
  familyId r' = familyId r /\ principalId r' = principalId r /\ token_userId r' = token_userId r /\
  client r' = client r /\ expiresAt r' = expiresAt r /\
  (usedAt r <> None -> usedAt r' <> None) /\
  (revokedAt r <> None -> revokedAt r' = revokedAt r /\ revokedReason r' = revokedReason r).

Definition tokens_evolve (d d' : Db) : Prop :=
  forall j r, refresh_tokens d !! j = Some r ->
    exists r', refresh_tokens d' !! j = Some r' /\ row_evolves r r'.

Lemma row_evolves_refl r : row_evolves r r.
Proof. unfold row_evolves. tauto. Qed.

Lemma row_evolves_trans r1 r2 r3 : row_evolves r1 r2 -> row_evolves r2 r3 -> row_evolves r1 r3.
Proof.
  intros (F & Pr & U & C & X & Us & Re) (F' & Pr' & U' & C' & X' & Us' & Re').
  split_and!; try congruence; [tauto|]. intros H. destruct (Re H) as [E1 E2].
  destruct Re' as [E3 E4]; [congruence|]. split; congruence.
Qed.

#[export] Instance tokens_evolve_preorder : PreOrder tokens_evolve.
Proof.
  split.
  - intros d j r Hr. eauto using row_evolves_refl.
  - intros d1 d2 d3 H12 H23 j r Hr. destruct (H12 j r Hr) as (r2 & Hr2 & E2).
    destruct (H23 j r2 Hr2) as (r3 & Hr3 & E3). exists r3. split; [done|].
    by eapply row_evolves_trans.
Qed.

(** The rows of [revoked_access_tokens] are never changed, and only the sweeper removes them. *)
Definition revocations_kept (d d' : Db) : Prop :=
  forall j r, revoked_access_tokens d !! j = Some r -> revoked_access_tokens d' !! j = Some r.

#[export] Instance revocations_kept_preorder : PreOrder revocations_kept.
Proof. split; [intros d j r; done|intros d1 d2 d3 H12 H23 j r Hr; eauto]. Qed.

Section SessionGuarantees.
Context {P : Platform} (cfg : TokenConfig P).

Lemma tokens_same d d' : refresh_tokens d' = refresh_tokens d -> tokens_evolve d d'.
Proof. intros H j r Hr. rewrite H. eauto using row_evolves_refl. Qed.

Lemma revoke_rows_evolve selected at_ms reason d :
  tokens_evolve d (set_refresh_tokens (revoke_rows selected at_ms reason (refresh_tokens d)) d).
Proof.
  intros j r Hr. cbn. unfold revoke_rows. rewrite lookup_fmap, Hr. cbn. eexists. split; [reflexivity|].
  case_bool_decide as Hn; destruct (selected r); cbn; auto using row_evolves_refl.
  unfold row_evolves, revoke_row. cbn. tauto.
Qed.

Lemma insert_refresh_evolves j row : guar (on_db tokens_evolve) (insert_refresh j row).
Proof.
  apply guar_statement; [typeclasses eauto|]. intros w.
  destruct (refresh_tokens (db w) !! j) eqn:E; [reflexivity|].
  destruct (principals (db w) !! principalId row); [|reflexivity]. intros j' r Hr. cbn.
  destruct (decide (j = j')) as [->|Hne]; [congruence|]. rewrite lookup_insert_ne by done.
  eauto using row_evolves_refl.
Qed.

Lemma revokeWhere_evolves selected reason : guar (on_db tokens_evolve) (revokeWhere selected reason).
Proof.
  unfold revokeWhere. guar_auto. apply guar_update; [typeclasses eauto|]. intros w. apply revoke_rows_evolve.
Qed.

Lemma mark_used_evolves j at_ms replacement : guar (on_db tokens_evolve) (mark_used j at_ms replacement).
Proof.
  apply guar_update; [typeclasses eauto|]. intros w j' r Hr. cbn.
  destruct (decide (j = j')) as [->|Hne].
  - rewrite lookup_alter_eq, Hr. eexists. split; [reflexivity|]. by split_and!.
  - rewrite lookup_alter_ne by done. eauto using row_evolves_refl.
Qed.

Lemma insert_revoked_evolves j expires reason : guar (on_db tokens_evolve) (insert_revoked j expires reason).
Proof.
  apply guar_statement; [typeclasses eauto|]. intros w.
  destruct (revoked_access_tokens (db w) !! j); [reflexivity|]. by apply tokens_same.
Qed.
End SessionGuarantees.

#[export] Hint Resolve insert_refresh_evolves revokeWhere_evolves mark_used_evolves insert_revoked_evolves : guar.

Section EveryOperation.
Context {P : Platform} (cfg : TokenConfig P).

Lemma mintPair_evolves user principal family c : guar (on_db tokens_evolve) (mintPair cfg user principal family c).
Proof. unfold mintPair, seconds_now. guar_auto. Qed.
Hint Resolve mintPair_evolves : guar.

Lemma issuePair_evolves user principal c : guar (on_db tokens_evolve) (issuePair cfg user principal c).
Proof. unfold issuePair. guar_auto. Qed.

Lemma verifySignature_guar R {HR : PreOrder R} token : guar (on_db R) (verifySignature cfg token).
Proof. unfold verifySignature, seconds_now. guar_auto. Qed.
Hint Resolve verifySignature_guar : guar.

Lemma find_revoked_guar R {HR : PreOrder R} j : guar (on_db R) (find_revoked j).
Proof. unfold find_revoked. guar_auto. Qed.
Hint Resolve find_revoked_guar : guar.

Lemma verifyAccess_guar R {HR : PreOrder R} token : guar (on_db R) (verifyAccess cfg token).
Proof. unfold verifyAccess, refuseRevoked. guar_auto. Qed.
Lemma verifySession_guar R {HR : PreOrder R} token : guar (on_db R) (verifySession cfg token).
Proof. unfold verifySession, refuseRevoked. guar_auto. Qed.
Lemma peekMfaChallenge_guar R {HR : PreOrder R} token : guar (on_db R) (peekMfaChallenge cfg token).
Proof. unfold peekMfaChallenge. guar_auto. Qed.
Lemma peekRefresh_guar R {HR : PreOrder R} token : guar (on_db R) (peekRefresh cfg token).
Proof. unfold peekRefresh. guar_auto. Qed.
Lemma issueMfaChallenge_guar R {HR : PreOrder R} user p : guar (on_db R) (issueMfaChallenge cfg user p).
Proof. unfold issueMfaChallenge, seconds_now. guar_auto. Qed.
Lemma issueEnrolment_guar R {HR : PreOrder R} user p c : guar (on_db R) (issueEnrolment cfg user p c).
Proof. unfold issueEnrolment, seconds_now. guar_auto. Qed.
Lemma refuseSpentMfaChallenge_guar R {HR : PreOrder R} claims : guar (on_db R) (refuseSpentMfaChallenge claims).
Proof. unfold refuseSpentMfaChallenge. guar_auto. Qed.

Lemma revokeFamily_evolves family reason : guar (on_db tokens_evolve) (revokeFamily family reason).
Proof. apply revokeWhere_evolves. Qed.
Lemma revokeAllFamilies_evolves principal reason :
  guar (on_db tokens_evolve) (revokeAllFamiliesForPrincipal principal reason).
Proof. apply revokeWhere_evolves. Qed.
Lemma revokeOtherSessions_evolves principal kept reason :
  guar (on_db tokens_evolve) (revokeOtherSessions principal kept reason).
Proof. destruct kept; apply revokeWhere_evolves. Qed.
Hint Resolve revokeFamily_evolves revokeAllFamilies_evolves : guar.

Lemma recordRevokedJti_evolves j expires reason : guar (on_db tokens_evolve) (recordRevokedJti j expires reason).
Proof. unfold recordRevokedJti. guar_auto. Qed.
Hint Resolve recordRevokedJti_evolves : guar.
Lemma consumeMfaChallenge_evolves claims : guar (on_db tokens_evolve) (consumeMfaChallenge claims).
Proof. unfold consumeMfaChallenge. guar_auto. Qed.
Lemma endEnrolment_evolves claims : guar (on_db tokens_evolve) (endEnrolment claims).
Proof. unfold endEnrolment. guar_auto. Qed.
Lemma revokeAccessJti_evolves j expires reason : guar (on_db tokens_evolve) (revokeAccessJti j expires reason).
Proof. unfold revokeAccessJti. guar_auto. Qed.
Hint Resolve revokeAccessJti_evolves : guar.
Lemma logout_evolves claims family : guar (on_db tokens_evolve) (logout claims family).
Proof. unfold logout. guar_auto. Qed.

Lemma rotate_evolves token user request : guar (on_db tokens_evolve) (rotate cfg token user request).
Proof. unfold rotate, rotation. guar_auto. Qed.

Lemma sweepExpiredRevocations_evolves : guar (on_db tokens_evolve) sweepExpiredRevocations.
Proof.
  unfold sweepExpiredRevocations. guar_auto. apply guar_update; [typeclasses eauto|].
  intros w. by apply tokens_same.
Qed.
End EveryOperation.

#[export] Hint Resolve issuePair_evolves verifySignature_guar verifyAccess_guar verifySession_guar
  peekMfaChallenge_guar peekRefresh_guar issueMfaChallenge_guar issueEnrolment_guar refuseSpentMfaChallenge_guar
  revokeFamily_evolves revokeAllFamilies_evolves revokeOtherSessions_evolves consumeMfaChallenge_evolves
  endEnrolment_evolves revokeAccessJti_evolves logout_evolves rotate_evolves sweepExpiredRevocations_evolves : guar.

(** ** The rotation, specified *)

Section RotationSpec.
Context {P : Platform} (cfg : TokenConfig P).

Definition stored_row (j : string) (w : World) : option RefreshTokenRow := refresh_tokens (db w) !! j.

Definition live (r : RefreshTokenRow) : Prop := revokedAt r = None /\ usedAt r = None.

Definition session_client (r : RefreshTokenRow) (request : RequestClient) : option string :=
  match client r with Some c => Some c | None => clientNameOf request end.

Definition used_row (at_ms : Z) (replacement : option string) (row : RefreshTokenRow) : RefreshTokenRow :=
  mkRefreshRow (familyId row) (principalId row) (token_userId row) (client row) (expiresAt row)
    (Some at_ms) (revokedAt row) (revokedReason row) replacement.

(** A reused token took its whole family with it. *)
Definition family_revoked (j : string) (w w' : World) : Prop :=
  exists stored, stored_row j w = Some stored /\ revokedAt stored = None /\ usedAt stored <> None /\
    db w' = set_refresh_tokens
      (revoke_rows (fun row => bool_decide (familyId row = familyId stored)) (node_ms w) "rotation_reuse"
         (refresh_tokens (db w))) (db w).

(** A live token was replaced by a fresh one of the same family, principal and client. *)
Definition rotated (j : string) (user : TokenSubject) (request : RequestClient) (r : RotatedPair) (w w' : World) : Prop :=
  exists stored n,
    stored_row j w = Some stored /\ live stored /\ node_ms w < expiresAt stored /\
    sessionClientDecision (client stored) request <> Mismatch /\
    bound r = bool_decide (sessionClientDecision (client stored) request = Bind) /\
    let family := familyId stored in
    let c := session_client stored request in
    let now := node_ms w / 1000 in
    let fresh := uuid_of (S n) in
    stored_row fresh w = None /\
    pair r = mkPair (sign cfg (access_claims cfg user (principalId stored) (uuid_of n) family c now))
                    (sign cfg (refresh_claims cfg user (principalId stored) fresh family c now))
                    (accessTtlSeconds cfg) /\
    db w' = set_refresh_tokens
      (alter (used_row (node_ms w) (replacement_jti (refreshToken (pair r)))) j
        (<[fresh := mkRefreshRow family (principalId stored) (subject_id user) c
                      ((now + refreshTtlSeconds cfg) * 1000) None None None None]> (refresh_tokens (db w)))) (db w).

(** Why a rotation is refused without a change. *)
Definition refusal (j : string) (w : World) (message : string) : Prop :=
  (stored_row j w = None /\ message = "This refresh token is not recognised") \/
  (exists s, stored_row j w = Some s /\ revokedAt s <> None /\ message = "This refresh token has been revoked") \/
  (exists s, stored_row j w = Some s /\ live s /\ expiresAt s <= node_ms w /\ message = "This refresh token has expired").

Definition REUSED : string := "This refresh token has already been used; the session has been revoked".

Definition rotation_post (j : string) (user : TokenSubject) (request : RequestClient) (w : World)
    (r : res exn RotationOutcome) (w' : World) : Prop :=
  node_ms w' = node_ms w /\
  match r with
  | Ok (RotationRefused m) =>
      (refusal j w m /\ db w' = db w) \/ (m = REUSED /\ family_revoked j w w')
  | Ok (RotationMismatch c) =>
      db w' = db w /\ exists s, stored_row j w = Some s /\ live s /\ client s = c /\
        sessionClientDecision c request = Mismatch
  | Ok (Rotated p) => rotated j user request p w w'
  | Err e =>
      db w' = db w \/ (e = ConnectionLost /\ (family_revoked j w w' \/ exists p, rotated j user request p w w'))
  end.

Definition minted_db (user : TokenSubject) (principal family : string) (c : option string) (w : World) (fresh : string) : Db :=
  set_refresh_tokens
    (<[fresh := mkRefreshRow family principal (subject_id user) c
         ((node_ms w / 1000 + refreshTtlSeconds cfg) * 1000) None None None None]> (refresh_tokens (db w))) (db w).

Lemma wp_mintPair user principal family c (Q : res exn TokenPair -> World -> Prop) w :
  (forall e w', node_ms w' = node_ms w -> db w' = db w -> Q (Err e) w') ->
  (forall w' n, node_ms w' = node_ms w ->
    refresh_tokens (db w) !! uuid_of (S n) = None ->
    db w' = minted_db user principal family c w (uuid_of (S n)) ->
    Q (Ok (mkPair (sign cfg (access_claims cfg user principal (uuid_of n) family c (node_ms w / 1000)))
                  (sign cfg (refresh_claims cfg user principal (uuid_of (S n)) family c (node_ms w / 1000)))
                  (accessTtlSeconds cfg))) w' /\ Q (Err ConnectionLost) w') ->
  wp (mintPair cfg user principal family c) Q w.
Proof.
  intros Herr Hok. unfold mintPair, seconds_now. do 9 wp_step.
  unfold insert_refresh. wp_step; [|by apply Herr|].
  - cbn. destruct (refresh_tokens (db w) !! uuid_of (S (uuid_next w))) eqn:E; [by apply Herr|].
    destruct (principals (db w) !! principal); cbn; [|by apply Herr]. wp_step. by apply Hok.
  - cbn. destruct (refresh_tokens (db w) !! uuid_of (S (uuid_next w))) eqn:E; [by apply Herr|].
    destruct (principals (db w) !! principal); [|by apply Herr]. by apply (Hok _ (uuid_next w)).
Qed.

Lemma wp_rotation j user request w :
  wp (transaction (rotation cfg j user request)) (rotation_post j user request w) w.
Proof.
  assert (forall e w', node_ms w' = node_ms w -> rotation_post j user request w (Err e) (set_db (db w) w')) as Herr
    by (intros e w' Hw; split; [done|by left]).
  assert (forall m w', node_ms w' = node_ms w -> db w' = db w -> refusal j w m ->
    rotation_post j user request w (Ok (RotationRefused m)) w' /\
    rotation_post j user request w (Err ConnectionLost) (set_db (db w) w') /\
    rotation_post j user request w (Err ConnectionLost) w') as Hrefuse.
  { intros m w' Hn Hd Hr. split; [split; [done|]|split]; [by left; split|by apply Herr|].
    split; [done|by left]. }
  wp_step. unfold rotation. wp_step. wp_step; [|by apply Herr].
  change (refresh_tokens (db (count_call w)) !! j) with (stored_row j w).
  destruct (stored_row j w) as [stored|] eqn:E; [|wp_step; apply Hrefuse; [done..|by left]].
  case_bool_decide as Hrev; [wp_step; apply Hrefuse; [done..|right; left; by exists stored]|].
  assert (revokedAt stored = None) as Hnr by (destruct (revokedAt stored); [destruct Hrev|]; done).
  case_bool_decide as Hused.
  { wp_step. unfold revokeFamily, revokeWhere. do 2 wp_step. wp_step; try by apply Herr.
    wp_step. assert (family_revoked j w (count_call (set_db (set_refresh_tokens (revoke_rows
      (fun row => bool_decide (familyId row = familyId stored)) (node_ms w) "rotation_reuse"
      (refresh_tokens (db w))) (db w)) (count_call w)))) as Hf by (exists stored; done).
    split; [|split]; [split; [done|by right]|by apply Herr|]. split; [done|]. right. split; [done|by left]. }
  assert (live stored) as Hlive by (split; [done|destruct (usedAt stored); [destruct Hused|]; done]).
  do 2 wp_step. cbn [node_ms count_call].
  destruct (Z.leb_spec (expiresAt stored) (node_ms w)) as [Hexp|Hexp].
  { wp_step. apply Hrefuse; [done..|]. right; right. by exists stored. }
  destruct (decide (sessionClientDecision (client stored) request = Mismatch)) as [Hm|Hm].
  { rewrite Hm. wp_step. split; [|split]; [|by apply Herr|split; [done|by left]].
    split; [done|]. split; [done|]. by exists stored. }
  replace (match sessionClientDecision (client stored) request with Mismatch => _ | _ => _ end)
    with (p <- mintPair cfg user (principalId stored) (familyId stored) (session_client stored request) ;;
          used_at <- Date_now ;;
          mark_used j used_at (replacement_jti (refreshToken p)) ;;;
          Ret (Rotated (mkRotated p (bool_decide (sessionClientDecision (client stored) request = Bind)))))%prog
    by (by destruct (sessionClientDecision (client stored) request)).
  wp_step. apply wp_mintPair; [by intros; apply Herr|]. intros w1 n Hn Hfresh Hdb.
  split; [|by apply Herr]. do 3 wp_step. unfold mark_used. wp_step; try by apply Herr; cbn in *.
  wp_step. match goal with |- rotation_post _ _ _ _ (Ok (Rotated ?p)) ?w' /\ _ =>
    assert (rotated j user request p w w') as Hrot end.
  { exists stored, n. cbn in Hn. cbn. rewrite Hn, Hdb. by split_and!. }
  split; [|split]; [by split|by apply Herr|]. split; [done|]. right. split; [done|right; by eexists].
Qed.
End RotationSpec.
