(* ===== verification/Sessions.v ===== *)
(** * Sessions: what the token service guarantees

    Theorems about Tokens.v (src/src/application/services/token.service.ts): every operation only
    closes sessions; a refresh token is rotated at most once however requests interleave; reuse
    revokes the whole session; one session has one live token; tokens verify for what they were
    issued for and for nothing else; a two-factor challenge is consumed at most once. *)

From S2P Require Import Prelude JsString Domain Store Sample Keys Tokens.

Local Open Scope string_scope.
Local Open Scope Z_scope.

(** ** Reading a token *)

Section Reading.
Context {P : Platform} {L : PlatformLaws P} (cfg : TokenConfig P).

(** What [verifySignature] accepts at a given instant. *)
Definition verified (token : string) (now_ms : Z) (c : Claims) : Prop :=
  exists key, verificationKey (keys cfg) (jwt_header_kid token) = Some key /\
    jwt_verify key (issuer cfg) (audience cfg) (now_ms / 1000) token = Some (JwtObject c).

Lemma verified_decodes token now_ms c : verified token now_ms c -> jwt_decode token = Some (JwtObject c).
Proof. intros (key & _ & H). by eapply verify_decode. Qed.

(** [verifySignature] reads nothing but the clock. *)
Lemma run_verifySignature token w :
  (exists c, verified token (node_ms w) c /\ run (verifySignature cfg token) w = (Ok c, w)) \/
  (exists m, run (verifySignature cfg token) w = (Err (unauthorized m), w) /\
     forall c, ~ verified token (node_ms w) c).
Proof.
  unfold verifySignature, verified.
  destruct (verificationKey _ _) as [key|].
  - cbn. destruct (jwt_verify _ _ _ _ _) as [[c|s]|] eqn:E; cbn.
    + left. exists c. split; [|done]. by exists key.
    + right. eexists. split; [done|]. intros c (k & ? & ?). simplify_eq.
    + right. eexists. split; [done|]. intros c (k & ? & ?). simplify_eq.
  - right. eexists. split; [done|]. intros c (k & ? & ?). done.
Qed.

Lemma run_verified token w c :
  verified token (node_ms w) c -> run (verifySignature cfg token) w = (Ok c, w).
Proof.
  intros Hv. destruct (run_verifySignature token w) as [(c' & Hv' & ->)|(m & _ & Hn)].
  - apply verified_decodes in Hv, Hv'. by simplify_eq.
  - by apply Hn in Hv.
Qed.

Lemma returns_verifySignature token :
  returns (fun c => jwt_decode token = Some (JwtObject c)) (verifySignature cfg token).
Proof.
  unfold verifySignature. destruct (verificationKey _ _); [|exact I]. intros w. cbn.
  destruct (jwt_verify _ _ _ _ _) as [[c|s]|] eqn:E; cbn; try exact I. by eapply verify_decode.
Qed.

Definition jti_of (token : string) : string :=
  match jwt_decode token with Some (JwtObject c) => jti c | _ => "" end.
End Reading.

(** ** Rotation under interleaving *)

Section Rotation.
Context {P : Platform} {L : PlatformLaws P} (cfg : TokenConfig P).

(** The row of the token can no longer be rotated. *)
Definition spent_token (j : string) (w : World) : Prop :=
  exists r, stored_row j w = Some r /\ ~ live r.

Lemma spent_token_evolves j w w' : on_db tokens_evolve w w' -> spent_token j w -> spent_token j w'.
Proof.
  intros He (r & Hr & Hl). destruct (He j r Hr) as (r' & Hr' & Ev). exists r'. split; [done|].
  unfold live in *. intros [H1 H2]. apply Hl. destruct Ev as (_ & _ & _ & _ & _ & Hu & Hv).
  destruct (revokedAt r); [destruct Hv as [Hv _]; [done|congruence]|].
  destruct (usedAt r); [destruct Hu; done|done].
Qed.

Lemma rotated_spends j user request p w w' :
  rotated cfg j user request p w w' -> ~ spent_token j w /\ spent_token j w'.
Proof.
  intros (stored & n & Hs & Hl & _ & _ & _ & Hfresh & _ & Hdb). split.
  - intros (r & Hr & Hn). by simplify_eq.
  - eexists. unfold stored_row in *. rewrite Hdb. cbn. rewrite lookup_alter_eq, lookup_insert_ne by congruence.
    rewrite Hs. split; [reflexivity|]. intros [_ H]. done.
Qed.

Lemma rotate_gated token user request : gated (spent_token (jti_of token)) (rotate cfg token user request).
Proof.
  unfold rotate. eapply gated_bind_returns; [apply returns_verifySignature|]. intros c Hc. cbv beta.
  destruct (negb _); [exact I|]. apply gated_call. intros w.
  eapply wp_mono; [apply (wp_rotation cfg (jti c) user request w)|].
  intros [[p|m|sc]|e] w' [_ H]; try exact I; [|left; exact I..].
  right. unfold jti_of. rewrite Hc. by eapply rotated_spends.
Qed.

(** Once a refresh token is used or its session revoked, no request that presents it, then or
    later, alone or among others, gets a new pair. *)
Theorem closed_token_never_rotates token requests w w' ps' :
  spent_token (jti_of token) w ->
  psteps (on_db tokens_evolve)
    (w, map (fun '(user, request) => rotate cfg token user request) requests) (w', ps') ->
  spent_token (jti_of token) w' /\ count_good (fun _ => true) ps' = O.
Proof.
  intros Hs. apply gated_spent; [apply spent_token_evolves|done|].
  apply Forall_map, Forall_true. intros [user request]. split; [apply rotate_gated|apply rotate_evolves].
Qed.

(** No operation of the token service ever reopens a session: each of its atomic actions
    leaves every refresh row in place with its family, principal, account, client and expiry, a
    used row used and a revoked row revoked, whatever other requests do in between. *)
Theorem sessions_only_close :
  (forall user p c, guar (on_db tokens_evolve) (issuePair cfg user p c)) /\
  (forall token user c, guar (on_db tokens_evolve) (rotate cfg token user c)) /\
  (forall claims family, guar (on_db tokens_evolve) (logout claims family)) /\
  (forall p kept reason, guar (on_db tokens_evolve) (revokeOtherSessions p kept reason)) /\
  (forall token, guar (on_db tokens_evolve) (verifyAccess cfg token)) /\
  (forall token, guar (on_db tokens_evolve) (verifySession cfg token)) /\
  (forall claims, guar (on_db tokens_evolve) (consumeMfaChallenge claims)) /\
  (forall claims, guar (on_db tokens_evolve) (endEnrolment claims)) /\
  guar (on_db tokens_evolve) sweepExpiredRevocations.
Proof. split_and!; intros; eauto with guar; typeclasses eauto. Qed.
End Rotation.

(** ** The rotation, branch by branch *)

Inductive Verdict := Unrecognised | AlreadyRevoked | Reused | Expired | OtherClient (c : option string) | Renew.

(** The contract of a refresh, as a decision on the stored row. *)
Definition verdict (stored : option RefreshTokenRow) (now_ms : Z) (request : RequestClient) : Verdict :=
  match stored with
  | None => Unrecognised
  | Some r =>
      match revokedAt r, usedAt r with
      | Some _, _ => AlreadyRevoked
      | None, Some _ => Reused
      | None, None =>
          if expiresAt r <=? now_ms then Expired
          else match sessionClientDecision (client r) request with
               | Mismatch => OtherClient (client r)
               | _ => Renew
               end
      end
  end.

Section Refinement.
Context {P : Platform} {L : PlatformLaws P} (cfg : TokenConfig P).

Lemma run_wp {A} (m : M A) (Q : res exn A -> World -> Prop) w : wp m Q w -> Q (run m w).1 (run m w).2.
Proof. done. Qed.

Lemma wp_mintPair_rel (Hrel : reliable) user principal family c (Q : res exn TokenPair -> World -> Prop) w :
  is_Some (principals (db w) !! principal) ->
  refresh_tokens (db w) !! uuid_of (S (uuid_next w)) = None ->
  let now := node_ms w / 1000 in
  let fresh := uuid_of (S (uuid_next w)) in
  (forall w', node_ms w' = node_ms w -> events w' = events w ->
    db w' = set_refresh_tokens
      (<[fresh := mkRefreshRow family principal (subject_id user) c
           ((now + refreshTtlSeconds cfg) * 1000) None None None None]> (refresh_tokens (db w))) (db w) ->
    Q (Ok (mkPair (sign cfg (access_claims cfg user principal (uuid_of (uuid_next w)) family c now))
                  (sign cfg (refresh_claims cfg user principal fresh family c now))
                  (accessTtlSeconds cfg))) w') ->
  wp (mintPair cfg user principal family c) Q w.
Proof.
  intros [pr Hpr] Hfresh now fresh Hok. unfold mintPair, seconds_now, insert_refresh. do 9 wp_step.
  wp_rel Hrel. cbn -[wp]. rewrite Hfresh, Hpr. cbn -[wp]. wp_step. by apply Hok.
Qed.

(** C22: A refresh implements its contract on every branch: an unknown, revoked or expired token, or
    one of another client, is refused with its own error and changes nothing; a used token is
    refused and its whole session revoked; a live one of the same client is replaced by a fresh
    token of the same session, principal and client and marked used. *)
Theorem refresh_answers_its_verdict token c user request w :
  reliable -> verified cfg token (node_ms w) c -> token_use c = "refresh" ->
  (forall r, stored_row (jti c) w = Some r -> is_Some (principals (db w) !! principalId r)) ->
  refresh_tokens (db w) !! uuid_of (S (uuid_next w)) = None ->
  wp (rotate cfg token user request) (fun r w' =>
    match verdict (stored_row (jti c) w) (node_ms w) request with
    | Unrecognised => r = Err (unauthorized "This refresh token is not recognised") /\ db w' = db w
    | AlreadyRevoked => r = Err (unauthorized "This refresh token has been revoked") /\ db w' = db w
    | Reused => r = Err (unauthorized REUSED) /\ family_revoked (jti c) w w'
    | Expired => r = Err (unauthorized "This refresh token has expired") /\ db w' = db w
    | OtherClient sc => r = Err (ClientMismatchError sc) /\ db w' = db w
    | Renew => exists p, r = Ok p /\ rotated cfg (jti c) user request p w w'
    end) w.
Proof.
  intros Hrel Hv Huse Hprin Hfresh. unfold rotate. wp_rel Hrel.
  unfold wp at 1. rewrite (run_verified cfg token w c) by done. cbn [fst snd].
  rewrite (bool_decide_eq_true_2 (token_use c = "refresh")) by done. cbn [negb].
  wp_rel Hrel. wp_rel Hrel. unfold rotation. wp_rel Hrel. wp_rel Hrel.
  change (refresh_tokens (db (count_call w)) !! jti c) with (stored_row (jti c) w).
  unfold verdict. destruct (stored_row (jti c) w) as [s|] eqn:E; [|by repeat wp_rel Hrel].
  destruct (revokedAt s) as [t|] eqn:Er.
  { rewrite bool_decide_eq_true_2 by done. by repeat wp_rel Hrel. }
  rewrite bool_decide_eq_false_2 by (intros H; done).
  destruct (usedAt s) as [t|] eqn:Eu.
  { rewrite bool_decide_eq_true_2 by done. unfold revokeFamily, revokeWhere. repeat wp_rel Hrel.
    split; [done|]. exists s. split_and!; try done. by rewrite Eu. }
  rewrite bool_decide_eq_false_2 by (intros H; done). wp_rel Hrel. wp_rel Hrel. cbn [node_ms count_call].
  destruct (Z.leb_spec (expiresAt s) (node_ms w)) as [Hexp|Hexp]; [by repeat wp_rel Hrel|].
  destruct (Hprin s eq_refl) as [pr Hpr].
  assert (live s) as Hlive by done.
  destruct (sessionClientDecision (client s) request) eqn:Ed; [..|by repeat wp_rel Hrel].
  all: wp_rel Hrel; apply (wp_mintPair_rel Hrel); [done|done|]; cbv zeta; intros w1 Hn _ Hdb.
  all: unfold mark_used; repeat wp_rel Hrel.
  all: eexists; split; [reflexivity|]; exists s, (uuid_next w); cbn in *; rewrite Ed, Hn, Hdb; by split_and!.
Qed.
End Refinement.

(** ** One live token per session *)

Section OneLive.
Context {P : Platform} {L : PlatformLaws P} (cfg : TokenConfig P).

Definition family_ok (d : Db) : Prop :=
  forall j1 j2 r1 r2, refresh_tokens d !! j1 = Some r1 -> refresh_tokens d !! j2 = Some r2 ->
    familyId r1 = familyId r2 -> live r1 -> live r2 -> j1 = j2.

Lemma family_ok_revoke d selected at_ms reason :
  family_ok d -> family_ok (set_refresh_tokens (revoke_rows selected at_ms reason (refresh_tokens d)) d).
Proof.
  intros Hok j1 j2 r1 r2 H1 H2 Hf L1 L2. cbn in *. unfold revoke_rows in *. rewrite lookup_fmap in *.
  destruct (refresh_tokens d !! j1) as [s1|] eqn:E1; [|done].
  destruct (refresh_tokens d !! j2) as [s2|] eqn:E2; [|done]. cbn in *. simplify_eq.
  unfold live in *. eapply (Hok j1 j2 s1 s2); eauto.
  all: repeat case_match; cbn in *; unfold live; naive_solver.
Qed.

(** The replacement is live in place of the token it replaces. *)
Lemma family_ok_rotated j user request p w w' :
  rotated cfg j user request p w w' -> family_ok (db w) -> family_ok (db w').
Proof.
  intros (s & n & Hs & Hlive & _ & _ & _ & Hfresh & _ & Hdb) Hok. cbv zeta in *. unfold stored_row in *.
  set (fresh := uuid_of (S n)) in *. rewrite Hdb. clear Hdb.
  assert (j <> fresh) as Hne by congruence.
  match goal with |- family_ok (set_refresh_tokens (alter ?g j (<[fresh := ?row]> _)) _) =>
    set (used := g); set (new := row) end.
  assert (forall j1 r1, alter used j (<[fresh := new]> (refresh_tokens (db w))) !! j1 = Some r1 -> live r1 ->
    familyId r1 = familyId s -> j1 = fresh) as Hone.
  { intros j1 r1 H1 L1 Hf. destruct (decide (j1 = fresh)) as [|Hn1]; [done|].
    destruct (decide (j1 = j)) as [->|Hn2].
    - rewrite lookup_alter_eq, lookup_insert_ne, Hs in H1 by done. cbn in H1. simplify_eq. by destruct L1.
    - rewrite lookup_alter_ne, lookup_insert_ne in H1 by done. by destruct Hn2; eapply Hok. }
  intros j1 j2 r1 r2 H1 H2 Hf L1 L2. cbn in H1, H2.
  destruct (decide (familyId r1 = familyId s)) as [Heq|Hdiff].
  { rewrite (Hone _ _ H1), (Hone _ _ H2); congruence. }
  assert (forall j1 r1, alter used j (<[fresh := new]> (refresh_tokens (db w))) !! j1 = Some r1 ->
    familyId r1 <> familyId s -> refresh_tokens (db w) !! j1 = Some r1) as Hold.
  { intros i r Hi Hd. destruct (decide (i = j)) as [->|Hn].
    - rewrite lookup_alter_eq, lookup_insert_ne, Hs in Hi by done. cbn in Hi. simplify_eq.
    - rewrite lookup_alter_ne in Hi by done. destruct (decide (i = fresh)) as [->|Hn'].
      + rewrite lookup_insert_eq in Hi. simplify_eq.
      + by rewrite lookup_insert_ne in Hi. }
  eapply (Hok j1 j2 r1 r2); eauto. apply Hold; [done|congruence].
Qed.
End OneLive.

(** *** Reachable worlds *)

Section Reachable.
Context {P : Platform} {L : PlatformLaws P} (cfg : TokenConfig P).

(** The operations that write sessions, run in any order from no session at all, with any faults
    and any movement of the clocks. A new session's family is a UUID no session has. *)
Inductive reachable : World -> Prop :=
| reach_start w : refresh_tokens (db w) = ∅ -> reachable w
| reach_clocks w node pg : reachable w -> reachable (set_clocks node pg w)
| reach_issue w user p c :
    reachable w ->
    (forall j r, refresh_tokens (db w) !! j = Some r -> familyId r <> uuid_of (uuid_next w)) ->
    reachable (run (issuePair cfg user p c) w).2
| reach_rotate w token user c : reachable w -> reachable (run (rotate cfg token user c) w).2
| reach_logout w claims family : reachable w -> reachable (run (logout claims family) w).2
| reach_revoke_others w p kept reason : reachable w -> reachable (run (revokeOtherSessions p kept reason) w).2
| reach_revoke_all w p reason : reachable w -> reachable (run (revokeAllFamiliesForPrincipal p reason) w).2.

Lemma family_ok_same d d' : refresh_tokens d' = refresh_tokens d -> family_ok d -> family_ok d'.
Proof. unfold family_ok. by intros ->. Qed.

Definition family_step (d d' : Db) : Prop := family_ok d -> family_ok d'.
#[local] Instance family_step_preorder : PreOrder family_step.
Proof. split; [intros d H; exact H|intros d1 d2 d3 H12 H23 H; eauto]. Qed.

Lemma revokeWhere_family selected reason : guar (on_db family_step) (revokeWhere selected reason).
Proof.
  unfold revokeWhere. guar_auto. apply guar_update; [typeclasses eauto|]. intros w H. by apply family_ok_revoke.
Qed.
Hint Resolve revokeWhere_family : guar.

Lemma insert_revoked_family j expires reason : guar (on_db family_step) (insert_revoked j expires reason).
Proof.
  apply guar_statement; [typeclasses eauto|]. intros w.
  destruct (revoked_access_tokens (db w) !! j); [reflexivity|]. intros H. by apply (family_ok_same (db w)).
Qed.
Hint Resolve insert_revoked_family : guar.

Lemma logout_family claims family : guar (on_db family_step) (logout claims family).
Proof.
  unfold logout, revokeAccessJti, recordRevokedJti, revokeFamily, revokeAllFamiliesForPrincipal. guar_auto.
Qed.

Lemma rotate_family token user request w : family_ok (db w) -> family_ok (db (run (rotate cfg token user request) w).2).
Proof.
  intros Hok. apply (run_wp _ (fun _ w' => family_ok (db w'))). unfold rotate. wp_step. unfold wp at 1.
  destruct (run_verifySignature cfg token w) as [(c & _ & ->)|(m & -> & _)]; cbn [fst snd]; [|done].
  destruct (bool_decide (token_use c = "refresh")); cbn [negb]; [|done]. wp_step.
  eapply wp_mono; [apply (wp_rotation cfg (jti c) user request w)|].
  assert (forall w', family_revoked (jti c) w w' -> family_ok (db w')) as Hrev
    by (intros w' (s & _ & _ & _ & ->); by apply family_ok_revoke).
  assert (forall w', db w' = db w -> family_ok (db w')) as Hsame by (by intros w' ->).
  assert (forall p w', rotated cfg (jti c) user request p w w' -> family_ok (db w')) as Hrot
    by (intros; by eapply family_ok_rotated).
  intros [[p|m|sc]|e] w' [_ H]; try (wp_step; naive_solver). naive_solver.
Qed.

Lemma issue_family user p c w :
  family_ok (db w) ->
  (forall j r, refresh_tokens (db w) !! j = Some r -> familyId r <> uuid_of (uuid_next w)) ->
  family_ok (db (run (issuePair cfg user p c) w).2).
Proof.
  intros Hok Hnew. apply (run_wp _ (fun _ w' => family_ok (db w'))). unfold issuePair. do 2 wp_step.
  apply wp_mintPair; [by intros e w' _ ->|]. intros w' n _ Hfresh Hdb.
  enough (family_ok (db w')) by done. rewrite Hdb. clear Hdb. cbn in *.
  intros j1 j2 r1 r2. cbn. intros [[<- <-]|[N1 H1]]%lookup_insert_Some [[<- <-]|[N2 H2]]%lookup_insert_Some; cbn.
  - done.
  - intros Hf. by destruct (Hnew _ _ H2).
  - intros Hf. by destruct (Hnew _ _ H1).
  - by eapply Hok.
Qed.

(** C23: In every reachable world a session has at most one refresh token that is neither used nor
    revoked: issuing, rotating, reuse, logout and revocation, with any database calls lost, never
    leave two tokens of one session that could both be rotated. *)
Theorem one_live_token_per_session w j1 j2 r1 r2 :
  reachable w ->
  refresh_tokens (db w) !! j1 = Some r1 -> refresh_tokens (db w) !! j2 = Some r2 ->
  familyId r1 = familyId r2 -> live r1 -> live r2 -> j1 = j2.
Proof.
  intros Hr. assert (family_ok (db w)) as Hok; [|by apply Hok]. clear j1 j2 r1 r2.
  induction Hr as [w He|w node pg _ IH|w user p c _ IH Hnew|w token user c _ IH|w claims family _ IH|w p kept reason _ IH|w p reason _ IH].
  - intros j1 j2 r1 r2 H1. by rewrite He in H1.
  - done.
  - by apply issue_family.
  - by apply rotate_family.
  - revert IH. apply (guar_run _ _ w _ _ (logout_family claims family)).
  - revert IH. destruct kept; apply (guar_run _ _ w _ _ (revokeWhere_family _ _)).
  - revert IH. apply (guar_run _ _ w _ _ (revokeWhere_family _ _)).
Qed.
End Reachable.

(** ** What tokens are good for *)

Section Purposes.
Context {P : Platform} {L : PlatformLaws P} (cfg : TokenConfig P).

(** What each reader of a token answers. *)
Lemma run_refuseRevoked c w r w' :
  run (refuseRevoked c) w = (r, w') ->
  db w' = db w /\ (r = Ok tt -> revoked_access_tokens (db w) !! jti c = None).
Proof.
  unfold refuseRevoked, find_revoked, query, statement. cbn.
  destruct (db_fault _); cbn; [|intros [= <- <-]; done..].
  destruct (revoked_access_tokens (db w) !! jti c); cbn; intros [= <- <-]; done.
Qed.

Lemma run_refuseRevoked_ok c w :
  reliable -> revoked_access_tokens (db w) !! jti c = None -> run (refuseRevoked c) w = (Ok tt, count_call w).
Proof. intros Hrel Hn. unfold refuseRevoked, find_revoked, query, statement. cbn. rewrite Hrel. cbn. by rewrite Hn. Qed.

Lemma run_verifyAccess token w c w' :
  run (verifyAccess cfg token) w = (Ok c, w') ->
  verified cfg token (node_ms w) c /\ token_use c = "access" /\
  revoked_access_tokens (db w) !! jti c = None /\ db w' = db w.
Proof.
  unfold verifyAccess. rewrite run_bind.
  destruct (run_verifySignature cfg token w) as [(c0 & Hv & ->)|(m & -> & _)]; [|done].
  case_bool_decide as Hu; cbn [negb]; [|done]. rewrite run_bind.
  destruct (run (refuseRevoked c0) w) as [[[]|e] w1] eqn:Er; [|done]. cbn. intros [= <- <-].
  apply run_refuseRevoked in Er as [Hd Hn]. auto.
Qed.

Lemma run_verifySession token w c w' :
  run (verifySession cfg token) w = (Ok c, w') ->
  verified cfg token (node_ms w) c /\ (token_use c = "access" \/ token_use c = "mfa_enrolment") /\
  revoked_access_tokens (db w) !! jti c = None /\ db w' = db w.
Proof.
  unfold verifySession. rewrite run_bind.
  destruct (run_verifySignature cfg token w) as [(c0 & Hv & ->)|(m & -> & _)]; [|done].
  destruct (negb _ && negb _) eqn:Eu; [done|]. rewrite run_bind. destruct (run (refuseRevoked c0) w) as [[[]|e] w1] eqn:Er; [|done]. cbn.
  intros [= <- <-]. apply run_refuseRevoked in Er as [Hd Hn]. split_and!; auto.
  repeat case_bool_decide; by auto.
Qed.

(** The four methods that take a token and answer its claims. *)
Inductive Reader := ReadAccess | ReadSession | ReadRefresh | ReadChallenge.
Definition read (r : Reader) : string -> M Claims :=
  match r with
  | ReadAccess => verifyAccess cfg
  | ReadSession => verifySession cfg
  | ReadRefresh => peekRefresh cfg
  | ReadChallenge => peekMfaChallenge cfg
  end.
Definition purposes (r : Reader) : list string :=
  match r with
  | ReadAccess => ["access"] | ReadSession => ["access"; "mfa_enrolment"] | ReadRefresh => ["refresh"] | ReadChallenge => ["mfa_challenge"]
  end.

Lemma run_read r token w c w' :
  run (read r token) w = (Ok c, w') -> verified cfg token (node_ms w) c /\ token_use c ∈ purposes r /\ db w' = db w.
Proof.
  destruct r; cbn [read purposes].
  - intros H%run_verifyAccess. rewrite list_elem_of_singleton. tauto.
  - intros (Hv & Hu & _ & Hd)%run_verifySession. split_and!; [done| |done]. rewrite !elem_of_cons. tauto.
  - unfold peekRefresh. rewrite run_bind, list_elem_of_singleton.
    destruct (run_verifySignature cfg token w) as [(c0 & Hv & ->)|(m & -> & _)]; [|done].
    case_bool_decide; cbn; [|done]. by intros [= <- <-].
  - unfold peekMfaChallenge. rewrite run_bind, run_catch, list_elem_of_singleton.
    destruct (run_verifySignature cfg token w) as [(c0 & Hv & ->)|(m & -> & _)]; [|done].
    case_bool_decide; cbn; [|done]. by intros [= <- <-].
Qed.

(** A token that verifies now, is for the reader's purpose and was not revoked is accepted. *)
Lemma run_read_ok r token w c :
  reliable -> verified cfg token (node_ms w) c -> token_use c ∈ purposes r -> revoked_access_tokens (db w) !! jti c = None ->
  (run (read r token) w).1 = Ok c.
Proof.
  intros Hrel Hv Hu Hr. pose proof (run_verified cfg _ _ _ Hv) as E. pose proof (run_refuseRevoked_ok c w Hrel Hr) as Er.
  destruct r; cbn [read purposes] in *; unfold verifyAccess, verifySession, peekRefresh, peekMfaChallenge;
    rewrite run_bind, ?run_catch, E; repeat (apply elem_of_cons in Hu as [Hu|Hu]); try (by apply elem_of_nil in Hu);
    repeat (case_bool_decide; [|congruence || idtac]); cbn [negb andb];
    try (rewrite run_bind, Er); try done; congruence.
Qed.

(** C24: A token serves one purpose. Whatever the instant, a token that one of the four readers accepts
    (access, session, refresh, two-factor challenge) verifies then under a published key and names one of
    the reader's purposes, and the reader answers the very claims it carries, which are those that were
    signed if this service signed it. No other reader accepts it at any instant, or any other claims,
    except that an access token is one for access and for a session alike; and while it verifies and is
    not revoked, every reader of its purpose answers those claims, if the database answers. *)
Theorem token_has_one_purpose token r w c w' :
  run (read r token) w = (Ok c, w') ->
  (verified cfg token (node_ms w) c /\ token_use c ∈ purposes r /\ jwt_decode token = Some (JwtObject c) /\ db w' = db w) /\
  (forall signed, token = sign cfg signed -> c = signed) /\
  (forall r2 w2 c2 w2', run (read r2 token) w2 = (Ok c2, w2') ->
     c2 = c /\ (r2 = r \/ token_use c = "access" /\ r ∈ [ReadAccess; ReadSession] /\ r2 ∈ [ReadAccess; ReadSession])) /\
  (reliable -> forall r2 w2, verified cfg token (node_ms w2) c -> token_use c ∈ purposes r2 ->
     revoked_access_tokens (db w2) !! jti c = None -> (run (read r2 token) w2).1 = Ok c).
Proof.
  intros (V & U & D)%run_read. pose proof (verified_decodes _ _ _ _ V) as Hd. split; [done|]. split; [|split].
  - intros signed ->. unfold sign in Hd. rewrite sign_decode in Hd. by injection Hd.
  - intros r2 w2 c2 w2' (V2%verified_decodes & U2 & _)%run_read. rewrite Hd in V2. injection V2 as <-. split; [done|].
    destruct r, r2; try (by left); right; cbn [purposes] in U, U2; rewrite !elem_of_cons, ?elem_of_nil in *; intuition congruence.
  - intros. by apply run_read_ok.
Qed.

(** [verifyAccess] answers claims only for a token that verifies now under a key this service
    publishes, was issued as an access token for this issuer and audience, has not expired and is
    not revoked; and it changes no table. *)
Theorem verifyAccess_sound token w c w' :
  run (verifyAccess cfg token) w = (Ok c, w') ->
  verified cfg token (node_ms w) c /\ token_use c = "access" /\ iss c = issuer cfg /\ aud c = audience cfg /\
  node_ms w / 1000 < exp c /\ revoked_access_tokens (db w) !! jti c = None /\ db w' = db w.
Proof.
  intros (Hv & Hu & Hr & Hd)%run_verifyAccess. pose proof Hv as (key & _ & Hj%verify_checks). tauto.
Qed.

Definition keys_match : Prop := publicKeyObject (keys cfg) = createPublicKey (privateKeyObject (keys cfg)).

Lemma sign_verified c now_ms :
  keys_match -> iss c = issuer cfg -> aud c = audience cfg -> now_ms / 1000 < exp c ->
  verified cfg (sign cfg c) now_ms c.
Proof.
  intros Hk Hi Ha He. exists (publicKeyObject (keys cfg)). unfold sign. rewrite sign_kid. split.
  - cbn. by rewrite bool_decide_eq_true_2.
  - rewrite Hk, <- Hi, <- Ha. by apply sign_verify.
Qed.

(** C25: A pair just issued works: its access token is accepted by [verifyAccess], with the
    principal, account, email, role, client and session it was issued for, at every instant
    before its expiry while it is not revoked; its refresh token is read back for the same
    session until its own. *)
Theorem issued_pair_verifies user principal c w p w1 :
  keys_match -> run (issuePair cfg user principal c) w = (Ok p, w1) ->
  let now := node_ms w / 1000 in
  exists ac rc,
    sub ac = principal /\ uid ac = subject_id user /\ claims_email ac = Some (subject_email user) /\
    claims_role ac = Some (role_name (subject_role user)) /\ azp ac = c /\
    sub rc = principal /\ uid rc = subject_id user /\ fam rc = fam ac /\
    (forall w2, reliable -> node_ms w2 / 1000 < now + accessTtlSeconds cfg ->
       revoked_access_tokens (db w2) !! jti ac = None ->
       run (verifyAccess cfg (accessToken p)) w2 = (Ok ac, count_call w2)) /\
    (forall w2, node_ms w2 / 1000 < now + refreshTtlSeconds cfg ->
       run (peekRefresh cfg (refreshToken p)) w2 = (Ok rc, w2)) /\
    exists row, refresh_tokens (db w1) !! jti rc = Some row /\ live row /\ Some (familyId row) = fam rc /\
      principalId row = principal /\ client row = c.
Proof.
  intros Hk. assert (wp (issuePair cfg user principal c) (fun r w1 =>
    match r with
    | Ok p => exists n family, let now := node_ms w / 1000 in
        p = mkPair (sign cfg (access_claims cfg user principal (uuid_of n) family c now))
                   (sign cfg (refresh_claims cfg user principal (uuid_of (S n)) family c now)) (accessTtlSeconds cfg) /\
        refresh_tokens (db w1) !! uuid_of (S n) = Some (mkRefreshRow family principal (subject_id user) c
           ((node_ms w / 1000 + refreshTtlSeconds cfg) * 1000) None None None None)
    | Err _ => True
    end) w) as Hwp.
  { unfold issuePair. do 2 wp_step. apply wp_mintPair; [done|]. intros w' n Hn _ Hd. split; [|done].
    exists n, (uuid_of (uuid_next w)). split; [done|]. rewrite Hd. cbn. apply lookup_insert_eq. }
  intros Hrun. unfold wp in Hwp. rewrite Hrun in Hwp. cbn [fst snd] in Hwp.
  destruct Hwp as (n & family & -> & Hrow). cbv zeta. cbn [accessToken refreshToken].
  set (ac := access_claims cfg user principal (uuid_of n) family c (node_ms w / 1000)).
  set (rc := refresh_claims cfg user principal (uuid_of (S n)) family c (node_ms w / 1000)).
  exists ac, rc.
  do 8 (split; [reflexivity|]). split; [|split].
  - intros w2 Hrel Hexp Hrev. unfold verifyAccess.
    rewrite run_bind, (run_verified cfg _ w2 _ (sign_verified ac (node_ms w2) Hk eq_refl eq_refl Hexp)).
    rewrite bool_decide_eq_true_2 by done. cbn [negb]. by rewrite run_bind, run_refuseRevoked_ok.
  - intros w2 Hexp. unfold peekRefresh.
    rewrite run_bind, (run_verified cfg _ w2 _ (sign_verified rc (node_ms w2) Hk eq_refl eq_refl Hexp)).
    by rewrite bool_decide_eq_true_2.
  - eexists. split; [exact Hrow|]. by split_and!.
Qed.
End Purposes.

(** ** Logout and challenges *)

Section Closing.
Context {P : Platform} {L : PlatformLaws P} (cfg : TokenConfig P).

Definition selected_by_logout (claims : Claims) (family : option string) (r : RefreshTokenRow) : Prop :=
  match family with
  | Some f => if bool_decide (f = "") then principalId r = sub claims else familyId r = f
  | None => principalId r = sub claims
  end.

Lemma revoke_rows_revoked selected at_ms reason rows j r :
  revoke_rows selected at_ms reason rows !! j = Some r -> selected r = true -> 
  (forall r0 : RefreshTokenRow, selected (revoke_row at_ms reason r0) = selected r0) -> revokedAt r <> None.
Proof.
  unfold revoke_rows. rewrite lookup_fmap. intros Hr Hsel Hst.
  destruct (rows !! j) as [r0|]; [|done]. cbn in Hr.
  destruct (selected r0) eqn:E; cbn in Hr.
  - case_bool_decide as Hn; simplify_eq; done.
  - simplify_eq. congruence.
Qed.

(** The rows a revocation selects are all revoked when it answers. *)
Lemma wp_revokeWhere selected reason w :
  (forall at_ms r0, selected (revoke_row at_ms reason r0) = selected r0) ->
  wp (revokeWhere selected reason) (fun r w' =>
    revoked_access_tokens (db w') = revoked_access_tokens (db w) /\
    (r = Ok tt \/ (r = Err ConnectionLost /\ ~ reliable)) /\
    (r = Ok tt -> forall j row, refresh_tokens (db w') !! j = Some row -> selected row = true -> revokedAt row <> None)) w.
Proof.
  intros Hst. unfold revokeWhere. do 2 wp_step. unfold wp, update, statement. cbn.
  destruct (db_fault (db_calls w)) eqn:Ef; cbn.
  - split; [done|]. split; [by left|]. intros _ j row Hj Hsel. by eapply revoke_rows_revoked.
  - split; [done|]. split; [|done]. right. split; [done|]. intros H. congruence.
  - split; [done|]. split; [|done]. right. split; [done|]. intros H. congruence.
Qed.

Lemma wp_revokeAccessJti j expires reason w :
  wp (revokeAccessJti j expires reason) (fun r w' =>
    (r = Ok tt \/ (r = Err ConnectionLost /\ ~ reliable)) /\
    (r = Ok tt -> is_Some (revoked_access_tokens (db w') !! j))) w.
Proof.
  unfold wp, revokeAccessJti, recordRevokedJti, insert_revoked, statement. cbn.
  destruct (db_fault (db_calls w)) eqn:Ef.
  - destruct (revoked_access_tokens (db w) !! j) eqn:E; cbn.
    + split; [by left|]. intros _. rewrite ?E. by eexists.
    + split; [by left|]. intros _. rewrite lookup_insert_eq. by eexists.
  - cbn. split; [|done]. right. split; [done|]. intros H. congruence.
  - cbn. split; [|done]. right. split; [done|]. intros H. congruence.
Qed.

(** When logout answers, the presented access token is on the revocation list and every
    refresh token of the session named (or of the principal, when none is named) is revoked;
    and it always answers unless the database connection is lost. *)
Theorem logout_revokes claims family w r w' :
  run (logout claims family) w = (r, w') ->
  (reliable -> r = Ok tt) /\
  (r = Ok tt ->
    is_Some (revoked_access_tokens (db w') !! jti claims) /\
    forall j row, refresh_tokens (db w') !! j = Some row -> selected_by_logout claims family row -> revokedAt row <> None).
Proof.
  assert (forall fam, wp (logout claims fam) (fun r w' =>
    (r = Ok tt \/ (r = Err ConnectionLost /\ ~ reliable)) /\
    (r = Ok tt -> is_Some (revoked_access_tokens (db w') !! jti claims) /\
      forall j row, refresh_tokens (db w') !! j = Some row -> selected_by_logout claims fam row -> revokedAt row <> None)) w) as Hwp.
  { intros f. unfold logout. wp_step.
    eapply wp_mono; [apply wp_revokeAccessJti|]. intros [[]|e] w1 [Hr Hj]; [|by split].
    destruct (Hj eq_refl) as [v Hv].
    assert (forall sel, (forall at_ms r0, sel (revoke_row at_ms "logout" r0) = sel r0) ->
      (forall row, selected_by_logout claims f row -> sel row = true) ->
      wp (revokeWhere sel "logout") (fun r w' => (r = Ok tt \/ (r = Err ConnectionLost /\ ~ reliable)) /\
       (r = Ok tt -> is_Some (revoked_access_tokens (db w') !! jti claims) /\
        forall j row, refresh_tokens (db w') !! j = Some row -> selected_by_logout claims f row -> revokedAt row <> None)) w1) as Hrev.
    { intros sel Hst Hsel. eapply wp_mono; [by apply wp_revokeWhere|]. cbv beta. intros r' w2 (Hacc & Hr' & Hrows).
      split; [done|]. intros Heq. rewrite Hacc, Hv. split; [by eexists|]. intros j row Hj' Hs.
      eapply Hrows; eauto. }
    unfold revokeAllFamiliesForPrincipal, revokeFamily.
    destruct f as [f|]; [case_bool_decide as Hf|]; apply Hrev; try done; cbn; intros row Hrow;
      apply bool_decide_eq_true; revert Hrow; rewrite ?bool_decide_eq_true_2, ?bool_decide_eq_false_2 by done; done. }
  intros Hrun. specialize (Hwp family). unfold wp in Hwp. rewrite Hrun in Hwp. cbn [fst snd] in Hwp.
  destruct Hwp as [Hr Hok]. split; [|done]. intros Hrel. destruct Hr as [|[_ Hn]]; [done|contradiction].
Qed.

Definition challenge_spent (j : string) (w : World) : Prop := is_Some (revoked_access_tokens (db w) !! j).

Lemma consume_gated claims : gated (challenge_spent (jti claims)) (consumeMfaChallenge claims).
Proof.
  unfold consumeMfaChallenge, recordRevokedJti, insert_revoked, statement, challenge_spent. intros w. cbn.
  destruct (db_fault (db_calls w)); cbn; [|by left..].
  destruct (revoked_access_tokens (db w) !! jti claims) as [v|] eqn:E; cbn; [by left|].
  right. split; [by intros [? ?]|]. rewrite lookup_insert_eq. by eexists.
Qed.

Lemma consume_kept claims : guar (on_db revocations_kept) (consumeMfaChallenge claims).
Proof.
  unfold consumeMfaChallenge, recordRevokedJti. guar_auto. apply guar_statement; [typeclasses eauto|].
  intros w. destruct (revoked_access_tokens (db w) !! jti claims) eqn:E; [reflexivity|].
  intros j r Hr. cbn. rewrite lookup_insert_ne; congruence.
Qed.

End Closing.

(** ** The session theorems on a concrete service *)

Module Witness.

Definition cfg : TokenConfig sample_platform :=
  mkTokenConfig sample_platform "kinetix" "api" 900 86400 (mkKeys sample_platform "key" "key" "kid" []).
Definition alice : TokenSubject := mkSubject 7 "a@x.io" Customer.
Definition start : World := world_at 1000000 (set_principals {["p" := mkPrincipal PRINCIPAL_KIND_CUSTOMER None]} empty_db).
Definition issued := run (issuePair cfg alice "p" (Some "web")) start.
Definition issued_pair : TokenPair := match issued.1 with Ok p => p | Err _ => mkPair "" "" 0 end.
Definition web : RequestClient := Named "web".
Definition renewed := run (rotate cfg (refreshToken issued_pair) alice web) issued.2.
Definition claims_in (token : string) : Claims :=
  match @jwt_decode sample_platform token with
  | Some (JwtObject c) => c
  | _ => mkClaims "" "" "" "" 0 0 "" None None 0 None None
  end.

Definition row_at (j : string) (w : World) : RefreshTokenRow :=
  match stored_row j w with Some r => r | None => mkRefreshRow "" "" 0 None 0 None None None None end.

Lemma closed_token_never_rotates_witness :
  let pool := map (fun '(user, request) => rotate cfg (refreshToken issued_pair) user request) [(alice, web); (alice, web)] in
  let stop := schedule [0; 1; 1; 0]%nat (renewed.2, pool) in
  spent_token (@jti_of sample_platform (refreshToken issued_pair)) stop.1 /\ count_good (fun _ => true) stop.2 = O.
Proof.
  intros pool stop.
  apply (@closed_token_never_rotates _ (sample_laws _) cfg (refreshToken issued_pair)
    [(alice, web); (alice, web)] renewed.2 stop.1).
  - exists (row_at (@jti_of sample_platform (refreshToken issued_pair)) renewed.2).
    split; [vm_compute; reflexivity|]. vm_compute. intros [_ H]. discriminate.
  - rewrite <- surjective_pairing. apply schedule_psteps.
Defined.

(** After a renewal the session has two tokens, one of them live. *)
Lemma one_live_token_per_session_witness :
  exists j r, refresh_tokens (db renewed.2) !! j = Some r /\ live r /\
    size (refresh_tokens (db renewed.2)) = 2%nat /\
    (forall j' r', refresh_tokens (db renewed.2) !! j' = Some r' -> familyId r = familyId r' -> live r' -> j = j').
Proof.
  exists "uuid-4", (row_at "uuid-4" renewed.2).
  assert (refresh_tokens (db renewed.2) !! "uuid-4" = Some (row_at "uuid-4" renewed.2)) as Hrow by (vm_compute; reflexivity).
  assert (live (row_at "uuid-4" renewed.2)) as Hlive by (vm_compute; split; reflexivity).
  split; [exact Hrow|]. split; [exact Hlive|]. split; [vm_compute; reflexivity|].
  intros j' r' Hr Hf Hl.
  refine (@one_live_token_per_session _ cfg renewed.2 "uuid-4" j' _ r' _ Hrow Hr Hf Hlive Hl).
  apply reach_rotate, reach_issue; [by apply reach_start|]. intros j r H. vm_compute in H. by destruct j.
Defined.

Lemma refresh_answers_its_verdict_witness :
  exists p, renewed.1 = Ok p /\
    rotated cfg (jti (claims_in (refreshToken issued_pair))) alice web p issued.2 renewed.2.
Proof.
  exact (@refresh_answers_its_verdict _ (sample_laws _) cfg (refreshToken issued_pair)
    (claims_in (refreshToken issued_pair)) alice web issued.2 (fun _ => eq_refl)
    (ex_intro _ "key" (conj eq_refl eq_refl)) eq_refl
    (fun r H => ltac:(vm_compute in H; injection H as <-; eexists; vm_compute; reflexivity)) eq_refl).
Defined.

Lemma token_has_one_purpose_witness :
  let token := accessToken issued_pair in
  let signed := access_claims cfg alice "p" "uuid-1" "uuid-0" (Some "web") 1000 in
  token = sign cfg signed /\ (run (read cfg ReadAccess token) issued.2).1 = Ok signed /\
  (run (read cfg ReadSession token) issued.2).1 = Ok signed /\
  (forall w2 c2 w2', run (read cfg ReadRefresh token) w2 <> (Ok c2, w2')).
Proof.
  intros token signed. assert (token = sign cfg signed) as Ht by (vm_compute; reflexivity).
  assert (run (read cfg ReadAccess token) issued.2 = (Ok (claims_in token), (run (read cfg ReadAccess token) issued.2).2)) as H
    by (vm_compute; reflexivity).
  destruct (@token_has_one_purpose _ (sample_laws _) cfg token ReadAccess _ _ _ H) as ((Hv & _) & Hs & Hone & Hall).
  split; [exact Ht|]. rewrite <- (Hs signed Ht). split; [by rewrite H|]. split.
  - apply Hall; [intros n; reflexivity|exact Hv|vm_compute; left|vm_compute; reflexivity].
  - intros w2 c2 w2' H2. destruct (Hone ReadRefresh w2 c2 w2' H2) as [_ [E|(_ & _ & E)]]; [discriminate E|].
    rewrite !elem_of_cons, elem_of_nil in E. destruct E as [E|[E|[]]]; discriminate E.
Defined.

Lemma verifyAccess_sound_witness :
  let c := claims_in (accessToken issued_pair) in
  verified cfg (accessToken issued_pair) (node_ms issued.2) c /\ token_use c = "access".
Proof.
  intros c. destruct (@verifyAccess_sound _ (sample_laws _) cfg (accessToken issued_pair) issued.2 c
    (run (verifyAccess cfg (accessToken issued_pair)) issued.2).2) as (H1 & H2 & _); [vm_compute; reflexivity|].
  split; [exact H1|exact H2].
Defined.

Lemma issued_pair_verifies_witness :
  exists ac, sub ac = "p" /\ uid ac = 7 /\
    run (verifyAccess cfg (accessToken issued_pair)) issued.2 = (Ok ac, count_call issued.2).
Proof.
  destruct (@issued_pair_verifies _ (sample_laws _) cfg alice "p" (Some "web") start issued_pair issued.2)
    as (ac & rc & Hsub & Huid & _ & _ & _ & _ & _ & _ & Hver & _ & row & Hrow & _); [reflexivity|vm_compute; reflexivity|].
  exists ac. split; [exact Hsub|]. split; [exact Huid|].
  apply Hver; [done|vm_compute; reflexivity|vm_compute; reflexivity].
Defined.

Lemma logout_revokes_witness :
  let claims := claims_in (accessToken issued_pair) in
  let after := run (@logout sample_platform claims None) renewed.2 in
  after.1 = Ok tt /\ is_Some (revoked_access_tokens (db after.2) !! jti claims).
Proof.
  intros claims after.
  destruct (@logout_revokes sample_platform claims None renewed.2 after.1 after.2) as [H1 H2]; [apply surjective_pairing|].
  assert (after.1 = Ok tt) as Hok by (apply H1; done). split; [exact Hok|]. by apply H2.
Defined.

End Witness.
