(* ===== verification/Accounts.v ===== *)
(** * Accounts and principals

    Models src/src/infrastructure/persistence/adapters/typeorm_user_repository.adapter.ts (Section
    [Users]) and src/src/application/services/principal_resolver.service.ts (Section [Resolver]).

    Main results: no two accounts share an email, whatever the case it is written in; a one-time
    code's step is accepted at most once; requests that resolve the same account at the same time
    all get the same principal, and an alias is never repointed. *)

From S2P Require Import Prelude JsString Domain Store Sample.

Local Open Scope string_scope.
Local Open Scope Z_scope.

Section Users.
Context {P : Platform}.
Local Open Scope prog_scope.

(** The first row, in the order of the table, that a query selects. *)
Definition find_row {K V} `{Countable K} (p : V -> bool) (m : gmap K V) : option V :=
  match List.filter (fun '(_, v) => p v) (map_to_list m) with
  | (_, v) :: _ => Some v
  | [] => None
  end.

Definition findByEmail (email : string) : M (option UserEntity) :=
  record <- query (fun w =>
    find_row (fun row => bool_decide (pg_lower (user_email (row_user row)) = pg_lower email)) (users (db w))) ;;
  Ret (row_user <$> record).

Definition findById (id : Z) : M (option UserEntity) :=
  record <- query (fun w => users (db w) !! id) ;;
  Ret (row_user <$> record).

(** Another account has this email, in any case: the unique index on [lower(email)]. *)
Definition email_taken (id : Z) (email : string) (d : Db) : bool :=
  existsb (fun '(i, row) =>
    negb (i =? id) && bool_decide (pg_lower (user_email (row_user row)) = pg_lower email))
    (map_to_list (users d)).

Definition with_id (id : Z) (u : UserEntity) : UserEntity :=
  mkUser id (user_email u) (passwordHash u) (user_role u) (isTwoFactorEnabled u) (twoFactorSecret u).

(** [repo.save]: a positive id updates the listed columns of its row (and inserts one where there is
    none); otherwise the database numbers a new row. [twoFactorLastStep] is not listed. *)
Definition save_user_row (u : UserEntity) : M UserEntity :=
  statement (fun w =>
    let d := db w in
    if 0 <? user_id u then
      if email_taken (user_id u) (user_email u) d then (Err (QueryFailedError UNIQUE_VIOLATION), w)
      else
        let last := match users d !! user_id u with Some row => twoFactorLastStep row | None => None end in
        (Ok u, set_db (set_users (<[user_id u := mkUserRow u last]> (users d)) d) w)
    else
      let id := users_next d in
      if bool_decide (is_Some (users d !! id)) || email_taken id (user_email u) d
      then (Err (QueryFailedError UNIQUE_VIOLATION), set_db (set_users_next (id + 1) d) w)
      else
        (Ok (with_id id u),
         set_db (set_users_next (id + 1) (set_users (<[id := mkUserRow (with_id id u) None]> (users d)) d)) w)).

Definition save_user (u : UserEntity) : M UserEntity :=
  catch (save_user_row u) (fun error =>
    if isUniqueViolation error then Throw (RecordConflictError "Email address is already registered")
    else Throw error).

Definition step_fresh (last : option Z) (step : Z) : bool :=
  match last with Some l => l <? step | None => true end.

(** UPDATE .. WHERE id AND (twoFactorLastStep IS NULL OR twoFactorLastStep < step) *)
Definition acceptTwoFactorStep (userId step : Z) : M bool :=
  update (fun w =>
    match users (db w) !! userId with
    | Some row =>
        if step_fresh (twoFactorLastStep row) step
        then (true, set_users (<[userId := mkUserRow (row_user row) (Some step)]> (users (db w))) (db w))
        else (false, db w)
    | None => (false, db w)
    end).
End Users.

Section Resolver.
Context {P : Platform}.
Local Open Scope prog_scope.

Definition find_alias (service localId : string) : M (option string) :=
  query (fun w => principal_aliases (db w) !! (service, localId)).

(** A new row of [principals], numbered by the database. *)
Definition insert_principal (kind : PrincipalKind) (name : option string) : M string :=
  statement (fun w =>
    let id := uuid_of (uuid_next w) in
    let w1 := mkWorld (db w) (node_ms w) (pg_ms w) (S (uuid_next w)) (salt_next w) (db_calls w) (events w) (net_calls w) in
    match principals (db w) !! id with
    | Some _ => (Err (QueryFailedError UNIQUE_VIOLATION), w1)
    | None => (Ok id, set_db (set_principals (<[id := mkPrincipal kind name]> (principals (db w))) (db w)) w1)
    end).

(** A new row of [principal_aliases]: unique on (service, localId), its principal must exist. *)
Definition insert_alias (principal service localId : string) : M unit :=
  statement (fun w =>
    match principal_aliases (db w) !! (service, localId) with
    | Some _ => (Err (QueryFailedError UNIQUE_VIOLATION), w)
    | None =>
        match principals (db w) !! principal with
        | None => (Err (QueryFailedError FOREIGN_KEY_VIOLATION), w)
        | Some _ =>
            (Ok tt, set_db (set_principal_aliases (<[(service, localId) := principal]> (principal_aliases (db w))) (db w)) w)
        end
    end).

Definition mint_principal (user : TokenSubject) (localId : string) : M string :=
  transaction (
    principal <- insert_principal (principalKindForRole (subject_role user)) (Some (subject_email user)) ;;
    insert_alias principal "identity" localId ;;;
    Ret principal).

Definition resolveOrMintForUser (user : TokenSubject) : M string :=
  let localId := String_of (subject_id user) in
  existing <- find_alias "identity" localId ;;
  match existing with
  | Some principal => Ret principal
  | None =>
      catch (mint_principal user localId) (fun cause =>
        winner <- find_alias "identity" localId ;;
        match winner with
        | Some principal => Ret principal
        | None => Throw cause
        end)
  end.

Definition principalIdForUser (userId : Z) : M (option string) :=
  find_alias "identity" (String_of userId).

(** The first alias of the service for a principal, in the order of the table. *)
Definition local_id_of (service principal : string) (d : Db) : option string :=
  match List.filter (fun '(key, p) => bool_decide (key.1 = service) && bool_decide (p = principal))
          (map_to_list (principal_aliases d)) with
  | (key, _) :: _ => Some key.2
  | [] => None
  end.

Definition userIdForPrincipal (principal : string) : M (option Z) :=
  alias <- query (fun w => local_id_of "identity" principal (db w)) ;;
  match alias with
  | None => Ret None
  | Some localId => Ret (Number localId)
  end.

Definition registerAlias (principal service localId : string) : M unit :=
  existing <- find_alias service localId ;;
  match existing with
  | Some p =>
      if bool_decide (p = principal) then Ret tt
      else Throw (PlainError (service ++ "/" ++ localId ++ " already resolves to principal " ++ p ++
                              "; refusing to repoint it to " ++ principal))
  | None =>
      catch (insert_alias principal service localId) (fun _ =>
        winner <- find_alias service localId ;;
        match winner with
        | Some p =>
            if bool_decide (p = principal) then Ret tt
            else Throw (PlainError ("could not register alias " ++ service ++ "/" ++ localId))
        | None => Throw (PlainError ("could not register alias " ++ service ++ "/" ++ localId))
        end)
  end.

Definition syncKind (principal : string) (role : UserRole) : M unit :=
  update (fun w =>
    (tt, set_principals
           (alter (fun row => mkPrincipal (principalKindForRole role) (principal_displayName row)) principal
              (principals (db w))) (db w))).
End Resolver.

(** ** Accounts *)

Lemma find_row_Some {K V} `{Countable K} (p : V -> bool) (m : gmap K V) v :
  find_row p m = Some v -> exists k, m !! k = Some v /\ p v = true.
Proof.
  unfold find_row. destruct (List.filter _ _) as [|[k v'] l] eqn:E; [done|]. intros [= ->].
  assert (In (k, v) (List.filter (fun '(_, v) => p v) (map_to_list m))) as Hin by (rewrite E; by left).
  apply filter_In in Hin as [Hin Hp]. exists k. split; [|done]. by apply elem_of_map_to_list, list_elem_of_In.
Qed.

Lemma find_row_None {K V} `{Countable K} (p : V -> bool) (m : gmap K V) k v :
  find_row p m = None -> m !! k = Some v -> p v = false.
Proof.
  unfold find_row. destruct (List.filter _ _) as [|[k' v'] l] eqn:E; [|done]. intros _ Hk.
  destruct (p v) eqn:Hp; [|done]. exfalso.
  assert (In (k, v) (List.filter (fun '(_, v) => p v) (map_to_list m))) as Hin.
  { apply filter_In. split; [|done]. by apply list_elem_of_In, elem_of_map_to_list. }
  by rewrite E in Hin.
Qed.

Section AccountFacts.
Context {P : Platform}.

Definition same_email (a b : UserRow) : Prop :=
  pg_lower (user_email (row_user a)) = pg_lower (user_email (row_user b)).

Definition emails_unique (d : Db) : Prop :=
  forall i j a b, users d !! i = Some a -> users d !! j = Some b -> same_email a b -> i = j.

Lemma email_taken_false id email d i row :
  email_taken id email d = false -> users d !! i = Some row ->
  pg_lower (user_email (row_user row)) = pg_lower email -> i = id.
Proof.
  intros Ht Hi He. destruct (decide (i = id)) as [|Hne]; [done|]. exfalso.
  assert (email_taken id email d = true) as Htrue; [|congruence].
  apply existsb_exists. exists (i, row). split; [by apply list_elem_of_In, elem_of_map_to_list|].
  rewrite bool_decide_eq_true_2 by done. destruct (Z.eqb_spec i id); done.
Qed.

Definition emails_step (d d' : Db) : Prop := emails_unique d -> emails_unique d'.
#[export] Instance emails_step_preorder : PreOrder emails_step.
Proof. split; [intros d H; exact H|intros d1 d2 d3 H12 H23 H; eauto]. Qed.

(** Writing a row whose email no other row has keeps the emails unique. *)
Lemma emails_unique_insert d id row :
  email_taken id (user_email (row_user row)) d = false ->
  emails_unique d -> emails_unique (set_users (<[id := row]> (users d)) d).
Proof.
  intros Ht Hu i j a b. cbn.
  intros [[<- <-]|[Hi Ha]]%lookup_insert_Some [[<- <-]|[Hj Hb]]%lookup_insert_Some He; [done| | |by eapply Hu].
  - symmetry. eapply email_taken_false; eauto.
  - eapply email_taken_false; eauto.
Qed.

Lemma save_user_emails u : guar (on_db emails_step) (save_user u).
Proof.
  unfold save_user. guar_auto. apply guar_statement; [typeclasses eauto|]. intros w. cbv zeta.
  destruct (0 <? user_id u).
  - destruct (email_taken _ _ _) eqn:Et; [reflexivity|]. intros Hu. by apply emails_unique_insert.
  - destruct (_ || _) eqn:Et; [intros Hu; exact Hu|]. apply orb_false_elim in Et as [_ Et].
    intros Hu. by apply emails_unique_insert.
Qed.

Lemma acceptTwoFactorStep_emails userId step : guar (on_db emails_step) (acceptTwoFactorStep userId step).
Proof.
  apply guar_update; [typeclasses eauto|]. intros w. destruct (users (db w) !! userId) as [row|] eqn:E; [|reflexivity].
  destruct (step_fresh (twoFactorLastStep row) step); [|reflexivity].
  intros Hu i j a b. cbn.
  intros [[<- <-]|[Hi Ha]]%lookup_insert_Some [[<- <-]|[Hj Hb]]%lookup_insert_Some He; [done|..]; by eapply Hu.
Qed.

(** ** Steps of one-time codes *)

Definition step_le (a b : option Z) : Prop :=
  match a, b with None, _ => True | Some x, Some y => x <= y | Some _, None => False end.

(** No account disappears and no accepted step is forgotten. *)
Definition steps_evolve (d d' : Db) : Prop :=
  forall id row, users d !! id = Some row ->
    exists row', users d' !! id = Some row' /\ step_le (twoFactorLastStep row) (twoFactorLastStep row').

Lemma step_le_refl a : step_le a a.
Proof. destruct a; simpl; lia. Qed.

#[export] Instance steps_evolve_preorder : PreOrder steps_evolve.
Proof.
  split; [intros d id row Hr; eauto using step_le_refl|].
  intros d1 d2 d3 H12 H23 id row Hr. destruct (H12 id row Hr) as (r2 & Hr2 & L2).
  destruct (H23 id r2 Hr2) as (r3 & Hr3 & L3). exists r3. split; [done|].
  destruct (twoFactorLastStep row), (twoFactorLastStep r2), (twoFactorLastStep r3); simpl in *; try done; lia.
Qed.

Lemma save_user_steps u : guar (on_db steps_evolve) (save_user u).
Proof.
  unfold save_user. guar_auto. apply guar_statement; [typeclasses eauto|]. intros w. cbv zeta.
  destruct (0 <? user_id u).
  - destruct (email_taken _ _ _); [reflexivity|]. intros id row Hr. cbn.
    destruct (decide (user_id u = id)) as [<-|Hne].
    + rewrite lookup_insert_eq, Hr. eexists. split; [done|]. apply step_le_refl.
    + rewrite lookup_insert_ne by done. eauto using step_le_refl.
  - destruct (_ || _) eqn:Et; [intros id row Hr; eauto using step_le_refl|]. apply orb_false_elim in Et as [Et _].
    apply bool_decide_eq_false in Et. intros id row Hr. cbn.
    destruct (decide (users_next (db w) = id)) as [<-|Hne]; [destruct Et; eauto|].
    rewrite lookup_insert_ne by done. eauto using step_le_refl.
Qed.

Lemma acceptTwoFactorStep_steps userId step : guar (on_db steps_evolve) (acceptTwoFactorStep userId step).
Proof.
  apply guar_update; [typeclasses eauto|]. intros w. destruct (users (db w) !! userId) as [row|] eqn:E; [|reflexivity].
  destruct (step_fresh (twoFactorLastStep row) step) eqn:Es; [|reflexivity].
  intros id r Hr. cbn. destruct (decide (userId = id)) as [<-|Hne].
  - rewrite lookup_insert_eq. eexists. split; [done|]. assert (row = r) as -> by congruence. cbn. unfold step_fresh in Es. destruct (twoFactorLastStep r); simpl; [lia|done].
  - rewrite lookup_insert_ne by done. eauto using step_le_refl.
Qed.

Definition step_spent (userId step : Z) (w : World) : Prop :=
  exists row last, users (db w) !! userId = Some row /\ twoFactorLastStep row = Some last /\ step <= last.

Definition step_count (userId step : Z) (n : nat) (w : World) : Prop :=
  n = O \/ (n = 1%nat /\ step_spent userId step w).

Lemma step_spent_evolves userId step w w' : on_db steps_evolve w w' -> step_spent userId step w -> step_spent userId step w'.
Proof.
  intros He (row & last & Hr & Hl & Hle). destruct (He _ _ Hr) as (row' & Hr' & L). rewrite Hl in L.
  destruct (twoFactorLastStep row') as [l'|] eqn:E; [|done]. simpl in L. exists row', l'. split_and!; [done..|lia].
Qed.

Lemma acceptTwoFactorStep_paid userId step : paid (step_count userId step) id (acceptTwoFactorStep userId step).
Proof.
  assert (forall w w', on_db steps_evolve w w' -> keeps (step_count userId step) w w') as Hkeep.
  { intros w w' He n [->|[-> Hs]]; [by left|right]. eauto using step_spent_evolves. }
  assert (forall w : World, on_db steps_evolve w w) as Hrefl by (intros w; reflexivity).
  unfold acceptTwoFactorStep, update, statement. intros w.
  pose proof (acceptTwoFactorStep_steps userId step w) as [Hev _]. unfold acceptTwoFactorStep, update, statement in Hev.
  cbn in *.
  destruct (db_fault (db_calls w)); cbn in *; try (left; split; [by apply Hkeep|exact I]).
  destruct (users (db w) !! userId) as [row|] eqn:E; [|left; split; [apply Hkeep, Hev|done]].
  destruct (step_fresh (twoFactorLastStep row) step) eqn:Es; [|left; split; [apply Hkeep, Hev|done]].
  right. split; [|done]. cbn. intros n [->|[-> (row' & last & Hr & Hl & Hle)]].
  - right. split; [done|]. exists (mkUserRow (row_user row) (Some step)), step. cbn. rewrite lookup_insert_eq. split_and!; [done..|lia].
  - exfalso. simplify_eq. rewrite Hl in Es. unfold step_fresh in Es. lia.
Qed.
End AccountFacts.

#[export] Hint Resolve save_user_emails acceptTwoFactorStep_emails save_user_steps acceptTwoFactorStep_steps : guar.

(** ** Principals *)

Section PrincipalFacts.
Context {P : Platform}.

(** An alias, once registered, is never repointed or removed. *)
Definition aliases_kept (d d' : Db) : Prop :=
  forall key p, principal_aliases d !! key = Some p -> principal_aliases d' !! key = Some p.

#[export] Instance aliases_kept_preorder : PreOrder aliases_kept.
Proof. split; [intros d key p; done|intros d1 d2 d3 H12 H23 key p H; eauto]. Qed.

Lemma insert_principal_aliases kind name : guar (on_db aliases_kept) (insert_principal kind name).
Proof.
  apply guar_statement; [typeclasses eauto|]. intros w. cbv zeta.
  destruct (principals (db w) !! _); cbn; [reflexivity|intros ??; done].
Qed.

Lemma insert_alias_aliases principal service localId :
  guar (on_db aliases_kept) (insert_alias principal service localId).
Proof.
  apply guar_statement; [typeclasses eauto|]. intros w.
  destruct (principal_aliases (db w) !! _) eqn:E; [reflexivity|].
  destruct (principals (db w) !! _); [|reflexivity]. intros key q Hk. cbn.
  rewrite lookup_insert_ne by congruence. done.
Qed.

Lemma find_alias_guar R {HR : PreOrder R} service localId : guar (on_db R) (find_alias service localId).
Proof. unfold find_alias. guar_auto. Qed.
Hint Resolve insert_principal_aliases insert_alias_aliases find_alias_guar : guar.

Lemma resolve_aliases user : guar (on_db aliases_kept) (resolveOrMintForUser user).
Proof. unfold resolveOrMintForUser, mint_principal. guar_auto. Qed.

Lemma registerAlias_aliases principal service localId :
  guar (on_db aliases_kept) (registerAlias principal service localId).
Proof. unfold registerAlias. guar_auto. Qed.

Lemma syncKind_aliases principal role : guar (on_db aliases_kept) (syncKind principal role).
Proof. unfold syncKind. apply guar_update; [typeclasses eauto|]. intros w key p Hk. done. Qed.

Definition resolves_to (localId : string) (p : string) (w : World) : Prop :=
  principal_aliases (db w) !! ("identity", localId) = Some p.

(** A minted principal is the one its alias names. *)
Lemma wp_mint_principal user localId w :
  wp (mint_principal user localId) (fun r w' => match r with Ok p => resolves_to localId p w' | Err _ => True end) w.
Proof.
  unfold mint_principal, insert_principal, insert_alias. wp_step. wp_step. wp_step; [|done|].
  - cbv zeta. destruct (principals (db (count_call w)) !! _); cbn -[wp bind statement]; [done|].
    wp_step. wp_step; [|done|].
    + cbn -[wp bind statement]. destruct (principal_aliases (db w) !! _) eqn:E; cbn -[wp bind statement]; [done|].
      rewrite lookup_insert_eq. cbn -[wp bind statement]. wp_step. split; [|done]. unfold resolves_to. cbn. apply lookup_insert_eq.
    + cbn. done.
  - cbn. done.
Qed.

Lemma resolve_secures user :
  secures (resolves_to (String_of (subject_id user))) (resolveOrMintForUser user).
Proof.
  unfold resolveOrMintForUser. cbv zeta. set (localId := String_of (subject_id user)).
  assert (forall cause, secures (resolves_to localId) (bind (find_alias "identity" localId) (fun winner =>
      match winner with Some principal => Ret principal | None => Throw cause end))) as Hfind.
  { intros cause. apply secures_query. intros w.
    destruct (principal_aliases (db w) !! _) eqn:E; [right; exact E|by left]. }
  apply secures_query. intros w.
  destruct (principal_aliases (db w) !! _) eqn:E; [right; exact E|left].
  apply secures_catch_call. intros w1. eapply wp_mono; [apply (wp_mint_principal user localId)|].
  intros [p|e] w2 H; [exact H|apply Hfind].
Qed.
End PrincipalFacts.

#[export] Hint Resolve resolve_aliases registerAlias_aliases syncKind_aliases find_alias_guar : guar.

(** ** Properties *)

Section AccountProperties.
Context {P : Platform}.

(** However many accounts are created or changed at once, in any interleaving and with any
    database calls lost, no two accounts ever have the same email, in whatever case it is
    written. *)
Theorem accounts_never_share_email us w w' ps' :
  emails_unique (db w) ->
  psteps (on_db emails_step) (w, map save_user us) (w', ps') -> emails_unique (db w').
Proof.
  intros Hu Hs. eapply (psteps_guar (on_db emails_step) (w, map save_user us) (w', ps')) in Hs as [Hs _];
    [by apply Hs|apply _|apply _|].
  apply Forall_map, Forall_true. intros u. apply save_user_emails.
Qed.

(** C26: The step of a one-time code is accepted at most once per account: of any number of requests
    that present the same step at once, interleaved with every other change of accounts and with
    lost database calls, at most one is told it is fresh. *)
Theorem one_time_code_accepted_once userId step n w w' ps' :
  psteps (on_db steps_evolve) (w, repeat (acceptTwoFactorStep userId step) n) (w', ps') ->
  (count_good id ps' <= 1)%nat.
Proof.
  intros Hs. edestruct (counted_bound (E := exn) (A := bool) (on_db steps_evolve) (step_count userId step) id)
    as (k & Hk & Hc); [..|exact Hs|].
  - intros w1 w2 He k [->|[-> Hsp]]; [by left|right]. eauto using step_spent_evolves.
  - by left.
  - clear Hs. induction n as [|n IH]; constructor; [apply acceptTwoFactorStep_paid|done].
  - destruct Hk as [->|[-> _]]; lia.
Qed.

(** C27: Requests that resolve the same account at the same time, racing to mint its principal,
    interleaved with anything that registers aliases and with lost database calls, all get the
    same principal, and it stays the account's. *)
Theorem racing_resolutions_agree localId users w w' ps' i j p q :
  Forall (fun u => String_of (subject_id u) = localId) users ->
  psteps (on_db aliases_kept) (w, map resolveOrMintForUser users) (w', ps') ->
  ps' !! i = Some (Ret p) -> ps' !! j = Some (Ret q) ->
  p = q /\ resolves_to localId p w'.
Proof.
  intros Hall Hs Hi Hj.
  assert (forall k r, ps' !! k = Some (Ret r) -> resolves_to localId r w') as Hres.
  { eapply (secured_pool (on_db aliases_kept) (resolves_to localId)); [..|exact Hs].
    - intros r w1 w2 He. apply He.
    - apply Forall_map. eapply Forall_impl; [exact Hall|]. intros u <-. split; [apply resolve_secures|apply resolve_aliases]. }
  apply Hres in Hi, Hj. split; [|done]. unfold resolves_to in *. congruence.
Qed.

(** [registerAlias] succeeds only when the alias names the given principal: whenever it answers,
    (service, localId) resolves to that principal, and no request ever repoints an alias that
    resolves to another. *)
Theorem alias_never_repointed principal service localId w r w' :
  run (registerAlias principal service localId) w = (r, w') ->
  (r = Ok tt -> principal_aliases (db w') !! (service, localId) = Some principal) /\
  (forall key p, principal_aliases (db w) !! key = Some p -> principal_aliases (db w') !! key = Some p).
Proof.
  intros Hrun. split.
  - intros ->. assert (wp (registerAlias principal service localId) (fun r w' =>
      r = Ok tt -> principal_aliases (db w') !! (service, localId) = Some principal) w) as Hwp.
    { assert (forall cause w1, wp (bind (find_alias service localId) (fun winner =>
          match winner with
          | Some p => if bool_decide (p = principal) then Ret tt else Throw cause
          | None => Throw cause
          end)) (fun r w' => r = Ok tt -> principal_aliases (db w') !! (service, localId) = Some principal) w1) as Hfind.
      { intros cause w1. unfold find_alias. wp_step. wp_step; [|done].
        destruct (principal_aliases _ !! _) as [p|] eqn:E; [|by wp_step].
        case_bool_decide; wp_step; [|done]. by subst. }
      unfold registerAlias, find_alias. wp_step. wp_step; [|done].
      destruct (principal_aliases _ !! _) as [p|] eqn:E.
      - case_bool_decide; wp_step; [|done]. by subst.
      - wp_step. unfold insert_alias. wp_step; [|apply Hfind..]. cbn -[wp bind find_alias] in *.
        rewrite E. destruct (principals (db w) !! principal); cbn -[wp bind find_alias]; [|apply Hfind].
        intros _. apply lookup_insert_eq. }
    unfold wp in Hwp. rewrite Hrun in Hwp. by apply Hwp.
  - pose proof (guar_run _ _ w _ _ (registerAlias_aliases principal service localId)) as Hk.
    rewrite Hrun in Hk. apply Hk.
Qed.
End AccountProperties.

Module Witness.

Definition alice : UserEntity := mkUser 0 "a@x.io" "bcrypt:pw" Customer false None.
Definition ALICE : UserEntity := mkUser 0 "A@X.io" "bcrypt:pw" Customer false None.

(** Two registrations of one email race: one account, one conflict. *)
Lemma accounts_never_share_email_witness :
  let start := world_at 0 empty_db in
  let stop := schedule [0; 1]%nat (start, map (@save_user sample_platform) [alice; ALICE]) in
  count_good (fun _ => true) stop.2 = 1%nat /\ @emails_unique sample_platform (db stop.1).
Proof.
  intros start stop. split; [vm_compute; reflexivity|].
  apply (@accounts_never_share_email sample_platform [alice; ALICE] start stop.1 stop.2).
  - intros i j a b H. vm_compute in H. by destruct i.
  - rewrite <- surjective_pairing. apply schedule_psteps.
Defined.

Definition with_alice : World := (run (@save_user sample_platform alice) (world_at 0 empty_db)).2.

Lemma one_time_code_accepted_once_witness :
  let stop := schedule [1; 0; 2]%nat (with_alice, repeat (@acceptTwoFactorStep sample_platform 1 57) 3) in
  count_good id stop.2 = 1%nat /\ (count_good id stop.2 <= 1)%nat.
Proof.
  intros stop. split; [vm_compute; reflexivity|].
  apply (@one_time_code_accepted_once sample_platform 1 57 3 with_alice stop.1).
  rewrite <- surjective_pairing. apply schedule_psteps.
Defined.

(** Both requests look before either mints; the loser reads the winner's alias. *)
Lemma racing_resolutions_agree_witness :
  let u := mkSubject 7 "a@x.io" Customer in
  let stop := schedule [0; 1; 0; 1; 1; 1]%nat (world_at 0 empty_db, map (@resolveOrMintForUser sample_platform) [u; u]) in
  stop.2 !! 0%nat = Some (Ret "uuid-0") /\ stop.2 !! 1%nat = Some (Ret "uuid-0") /\
  "uuid-0" = "uuid-0" /\ resolves_to "7" "uuid-0" stop.1.
Proof.
  intros u stop.
  assert (stop.2 !! 0%nat = Some (Ret "uuid-0")) as H0 by (vm_compute; reflexivity).
  assert (stop.2 !! 1%nat = Some (Ret "uuid-0")) as H1 by (vm_compute; reflexivity).
  split; [exact H0|]. split; [exact H1|].
  apply (@racing_resolutions_agree sample_platform "7" [u; u] (world_at 0 empty_db) stop.1 stop.2 0 1); try done.
  - repeat constructor.
  - rewrite <- surjective_pairing. apply schedule_psteps.
Defined.

Definition with_principal : World :=
  world_at 0 (set_principals {["p" := mkPrincipal PRINCIPAL_KIND_DRIVER None]} empty_db).

Lemma alias_never_repointed_witness :
  let after := run (@registerAlias sample_platform "p" "fleet" "12") with_principal in
  after.1 = Ok tt /\ principal_aliases (db after.2) !! ("fleet", "12") = Some "p".
Proof.
  intros after. assert (after.1 = Ok tt) as Hok by (vm_compute; reflexivity). split; [exact Hok|].
  destruct (@alias_never_repointed sample_platform "p" "fleet" "12" with_principal after.1 after.2) as [H _];
    [apply surjective_pairing|exact (H Hok)].
Defined.

End Witness.
