(* ===== verification/Clients.v ===== *)
(** * Clients: the registry and the gate

    Models src/src/infrastructure/config/client_registry.ts (Section [Registry]) and
    src/src/application/services/client_gate.service.ts (Section [Gate]). The gate asks its
    verifier through the class [ClientProofVerifierPort]
    (src/src/domain/ports/client_proof_verifier.port.ts), which AppCheck.v implements; it is written
    over any world that keeps a log ([Logs]), so that it runs both in the service's world and in the
    verifier's. *)

From S2P Require Import Prelude JsString Domain Store Keys.
From Stdlib Require Import Ascii String.

Local Open Scope string_scope.
Local Open Scope Z_scope.

(** ** The registry *)

Inductive RegisteredClient :=
| OpenClient (name : string)
| AttestedClient (name : string) (appIds : list string).
Definition client_name (c : RegisteredClient) : string :=
  match c with OpenClient n => n | AttestedClient n _ => n end.

Inductive ClientProofKind := app_check | no_proof.
Inductive UnnamedClientPolicy := allow_unnamed | refuse_unnamed.

Record ClientRegistry := mkRegistry {
  clients : list (string * RegisteredClient);
  unnamed : UnnamedClientPolicy;
  firebaseProjectNumber : option string
}.

Definition LONGEST_CLIENT_NAME : Z := 64.
Definition RESERVED_CLIENT_NAMES : list string := ["unnamed"; "unknown"].

Definition nonempty_of (p : ascii -> bool) (s : string) : bool :=
  forallb p (str_list s) && negb (bool_decide (s = "")).

(** [/^[a-z][a-z0-9]*(-[a-z0-9]+)*$/u]: words of lower-case letters and digits joined by dashes, the
    first beginning with a letter. *)
Definition is_client_name (s : string) : bool :=
  forallb (nonempty_of (fun c => is_lower c || is_digit c)) (split "-" s) &&
  match str_list s with c :: _ => is_lower c | [] => false end.

(** [/^[0-9]+$/u] *)
Definition is_project_number (s : string) : bool := nonempty_of is_digit s.

(** [FIREBASE_APP_ID.exec(appId)]: the project number it captures. *)
Definition firebase_project_of (appId : string) : option string :=
  match split ":" appId with
  | [version; project; platform; hash] =>
      if nonempty_of is_digit version && nonempty_of is_digit project && nonempty_of is_lower platform &&
         nonempty_of (fun c => is_digit c || is_lower c || is_upper c) hash
      then Some project else None
  | _ => None
  end.

Definition quoted (s : string) : string := quote ++ s ++ quote.

Definition unnamedPolicyOf (raw : string) : res exn UnnamedClientPolicy :=
  let policy := trim raw in
  if bool_decide (policy = "allow") then Ok allow_unnamed
  else if bool_decide (policy = "refuse") then Ok refuse_unnamed
  else Err (PlainError ("IDENTITY_UNNAMED_CLIENTS is " ++ quoted policy ++ "; it must be allow or refuse.")).

Definition proof_kind_of (proof : string) : option ClientProofKind :=
  if bool_decide (proof = "app_check") then Some app_check
  else if bool_decide (proof = "none") then Some no_proof
  else None.

Fixpoint declare_clients (entries : list string) (declared : list (string * ClientProofKind))
    : res exn (list (string * ClientProofKind)) :=
  match entries with
  | [] => Ok declared
  | entry :: rest =>
      match map trim (split ":" entry) with
      | [name; proof] =>
          if bool_decide (entry = "")
          then Err (PlainError ("IDENTITY_CLIENTS holds " ++ quoted entry ++ "; every entry is name:proof, separated by commas."))
          else if negb (is_client_name name) || (LONGEST_CLIENT_NAME <? str_length name) ||
                  bool_decide (name ∈ RESERVED_CLIENT_NAMES)
          then Err (PlainError ("IDENTITY_CLIENTS names the client " ++ quoted name ++
                      "; a name is lower-case words joined by " ++ quoted "-" ++ ", at most 64 characters, and neither " ++
                      quoted "unnamed" ++ " nor " ++ quoted "unknown" ++ "."))
          else
            match proof_kind_of proof with
            | None => Err (PlainError ("IDENTITY_CLIENTS gives " ++ quoted name ++ " the proof " ++ quoted proof ++
                             "; a proof is app_check or none."))
            | Some kind =>
                match map_get name declared with
                | Some _ => Err (PlainError ("IDENTITY_CLIENTS names " ++ quoted name ++ " twice."))
                | None => declare_clients rest (map_set name kind declared)
                end
            end
      | _ => Err (PlainError ("IDENTITY_CLIENTS holds " ++ quoted entry ++ "; every entry is name:proof, separated by commas."))
      end
  end.

Definition declaredClientsOf (raw : string) : res exn (list (string * ClientProofKind)) :=
  declare_clients (map trim (split "," raw)) [].

Definition projectNumberOf (raw : option string) : res exn string :=
  res_bind (requiredSetting "FIREBASE_PROJECT_NUMBER" raw) (fun v =>
    let projectNumber := trim v in
    if is_project_number projectNumber then Ok projectNumber
    else Err (PlainError ("FIREBASE_PROJECT_NUMBER is " ++ quoted projectNumber ++
                "; it is the Firebase project's number (digits), not its id."))).

(** [name.toUpperCase().replace(/-/gu, "_")] *)
Definition appIdSettingOf (name : string) : string :=
  "IDENTITY_APP_CHECK_APP_IDS_" ++
  list_str (map (fun c => if Ascii.eqb c "-" then "_"%char else c) (str_list (toUpperCase name))).

(** [set.add(x)] *)
Definition set_add (x : string) (l : list string) : list string :=
  if bool_decide (x ∈ l) then l else (l ++ [x])%list.

Fixpoint add_app_ids (setting projectNumber : string) (ids appIds : list string) : res exn (list string) :=
  match ids with
  | [] => Ok appIds
  | appId :: rest =>
      match firebase_project_of appId with
      | None => Err (PlainError (setting ++ " holds " ++ quoted appId ++
                       ", which is not a Firebase app id (1:<number>:<platform>:<hash>)."))
      | Some project =>
          if bool_decide (project = projectNumber)
          then add_app_ids setting projectNumber rest (set_add appId appIds)
          else Err (PlainError (setting ++ " holds " ++ quoted appId ++
                      ", an app of another project than FIREBASE_PROJECT_NUMBER."))
      end
  end.

Definition appIdsOf (name projectNumber : string) (read : string -> option string) : res exn (list string) :=
  let setting := appIdSettingOf name in
  res_bind (requiredSetting setting (read setting)) (fun v =>
    add_app_ids setting projectNumber (map trim (split "," v)) []).

Fixpoint register_clients (declared : list (string * ClientProofKind)) (read : string -> option string)
    (cs : list (string * RegisteredClient)) (projectNumber : option string)
    : res exn (list (string * RegisteredClient) * option string) :=
  match declared with
  | [] => Ok (cs, projectNumber)
  | (name, no_proof) :: rest => register_clients rest read (map_set name (OpenClient name) cs) projectNumber
  | (name, app_check) :: rest =>
      res_bind (match projectNumber with Some n => Ok n | None => projectNumberOf (read "FIREBASE_PROJECT_NUMBER") end)
        (fun number =>
          res_bind (appIdsOf name number read) (fun ids =>
            register_clients rest read (map_set name (AttestedClient name ids) cs) (Some number)))
  end.

Definition clientRegistryFrom (read : string -> option string) : res exn ClientRegistry :=
  res_bind (requiredSetting "IDENTITY_UNNAMED_CLIENTS" (read "IDENTITY_UNNAMED_CLIENTS")) (fun raw =>
  res_bind (unnamedPolicyOf raw) (fun policy =>
  res_bind (requiredSetting "IDENTITY_CLIENTS" (read "IDENTITY_CLIENTS")) (fun raw =>
  res_bind (declaredClientsOf raw) (fun declared =>
  res_bind (register_clients declared read [] None) (fun '(cs, number) =>
    Ok (mkRegistry cs policy number)))))).

(** ** The gate *)

Inductive ProofVerdict :=
| ProofValid
| ProofInvalid (reason : ProofRefusalReason)
| ProofUnavailable.

(** A header: absent, given once, or given several times. *)
Inductive HeaderValue := HeaderOne (value : string) | HeaderMany (values : list string).
Definition Headers := string -> option HeaderValue.

Class Logs (W : Type) := log_event : Event -> prog W exn unit.
#[export] Instance World_logs : Logs World := emit.

Class ClientProofVerifierPort (W : Type) := {
  verify_proof : string -> list string -> prog W exn ProofVerdict
}.

Definition CLIENT_HEADER : string := "x-kinetix-client".
Definition APP_CHECK_HEADER : string := "x-firebase-appcheck".
Definition UNNAMED : string := "unnamed".
Definition UNKNOWN : string := "unknown".
Definition LONGEST_LOGGED_NAME : nat := 64.

Definition PROOF_REFUSALS : list ProofRefusalReason :=
  [missing; malformed; invalid_signature; expired; not_yet_valid; wrong_project; wrong_app_id; keys_unavailable].

Definition refusalOf (reason : ClientRefusalReason) : exn :=
  match reason with
  | unknown_client => HttpException BadRequest (Some "UNKNOWN_CLIENT") "X-Kinetix-Client names a client identity does not know."
  | client_required => HttpException BadRequest (Some "CLIENT_REQUIRED") "This request must name its client in X-Kinetix-Client."
  | proof_refusal missing =>
      HttpException Unauthorized (Some "CLIENT_PROOF_REQUIRED") "This client must prove it is genuine on every sign-in and renewal, and sent no proof."
  | proof_refusal keys_unavailable =>
      HttpException ServiceUnavailable (Some "CLIENT_PROOF_UNAVAILABLE") "identity could not check the client's proof right now, so it checked nothing. Try again later."
  | client_mismatch =>
      HttpException Unauthorized (Some "CLIENT_MISMATCH") "This session was started by another client, so this one cannot renew it. Nothing was changed; sign in again from this app."
  | proof_refusal _ =>
      HttpException Unauthorized (Some "CLIENT_PROOF_INVALID") "The client's proof was not accepted. Fetch a fresh one and try again."
  end.

Section Gate.
Context {W : Type} {L : Logs W} (registry : ClientRegistry) (verifier : option (ClientProofVerifierPort W)).
Local Open Scope prog_scope.

(** The labels the refusal counter is declared with. *)
Definition refusalSeries : list (string * ClientRefusalReason) :=
  [(UNKNOWN, unknown_client); (UNNAMED, client_required); (UNNAMED, client_mismatch)] ++
  flat_map (fun '(_, c) =>
    (client_name c, client_mismatch) ::
    match c with
    | AttestedClient name _ => map (fun reason => (name, proof_refusal reason)) PROOF_REFUSALS
    | OpenClient _ => []
    end) (clients registry).

Definition is_attested (c : RegisteredClient) : bool :=
  match c with AttestedClient _ _ => true | OpenClient _ => false end.

(** The constructor's check, and the series it declares. *)
Definition newClientGate : res exn (list (string * ClientRefusalReason)) :=
  if existsb (fun '(_, c) => is_attested c) (clients registry) && match verifier with None => true | Some _ => false end
  then Err (PlainError "a client is configured with app_check, and no App Check verifier was given")
  else Ok refusalSeries.

Definition refuse (client : string) (reason : ClientRefusalReason) (request : option string)
    (presented : option string) : prog W exn exn :=
  log_event (MetricClientRefusal client reason) ;;;
  log_event (LogClientRefused request client reason
    ((fun p => list_str (take LONGEST_LOGGED_NAME (str_list p))) <$> presented) None None) ;;;
  Ret (refusalOf reason).

Definition throw_refusal {A} (client : string) (reason : ClientRefusalReason) (request : option string)
    (presented : option string) : prog W exn A :=
  e <- refuse client reason request presented ;; Throw e.

Definition prove (name : string) (appIds : list string) (header : option HeaderValue) (request : option string)
    : prog W exn unit :=
  let proof := match header with Some (HeaderOne h) => trim h | _ => "" end in
  if bool_decide (proof = "") then throw_refusal name (proof_refusal missing) request None
  else
    match verifier with
    | None => Throw (PlainError ("client " ++ name ++ " uses app_check, and no App Check verifier was given"))
    | Some v =>
        verdict <- verify_proof proof appIds ;;
        match verdict with
        | ProofUnavailable => throw_refusal name (proof_refusal keys_unavailable) request None
        | ProofInvalid reason => throw_refusal name (proof_refusal reason) request None
        | ProofValid => Ret tt
        end
    end.

(** [String(presented)] *)
Definition header_text (h : HeaderValue) : string :=
  match h with HeaderOne s => s | HeaderMany l => join "," l end.

(** [ClientGateService.admit] *)
Definition gate_admit (headers : Headers) (request : option string) : prog W exn RequestClient :=
  match headers CLIENT_HEADER with
  | None =>
      match unnamed registry with
      | refuse_unnamed => throw_refusal UNNAMED client_required request None
      | allow_unnamed => Ret Unnamed
      end
  | Some presented =>
      match match presented with HeaderOne s => map_get s (clients registry) | HeaderMany _ => None end with
      | None => throw_refusal UNKNOWN unknown_client request (Some (header_text presented))
      | Some (OpenClient name) => Ret (Named name)
      | Some (AttestedClient name appIds) =>
          prove name appIds (headers APP_CHECK_HEADER) request ;;;
          Ret (Named name)
      end
  end.

(** [mismatch] answers the exception the caller throws. *)
Definition mismatch (sessionClient : option string) (requestClient : RequestClient) (context : CallContext)
    (userId : Z) : prog W exn exn :=
  let label := match requestClient with Named n => n | Unnamed => UNNAMED end in
  log_event (MetricClientRefusal label client_mismatch) ;;;
  log_event (LogClientRefused (requestId context) label client_mismatch None
    (Some (default UNNAMED sessionClient)) (Some userId)) ;;;
  Ret (refusalOf client_mismatch).

Definition gate_bound (name : string) (context : CallContext) (userId : Z) : prog W exn unit :=
  log_event (LogSessionBound (requestId context) name userId).
End Gate.

(** ** The registry is well formed *)

Lemma map_set_in {V} k (v : V) m k' v' : (k', v') ∈ map_set k v m -> (k' = k /\ v' = v) \/ (k', v') ∈ m.
Proof. intros H%map_set_elem. destruct H as [H|H]; [left; by simplify_eq|by right]. Qed.

Definition valid_name (name : string) : Prop :=
  is_client_name name = true /\ str_length name <= LONGEST_CLIENT_NAME /\ ~ name ∈ RESERVED_CLIENT_NAMES.

Lemma declare_clients_ok entries declared declared' :
  (forall n k, (n, k) ∈ declared -> valid_name n) ->
  declare_clients entries declared = Ok declared' ->
  forall n k, (n, k) ∈ declared' -> valid_name n.
Proof.
  revert declared. induction entries as [|entry entries IH]; intros declared Hd; cbn [declare_clients];
    [by intros [= <-]|].
  destruct (map trim (split ":" entry)) as [|name [|proof [|]]]; try done.
  destruct (bool_decide (entry = "")); [done|].
  destruct (negb _ || _ || _) eqn:Hname; [done|].
  apply orb_false_elim in Hname as [[H1 H2]%orb_false_elim H3].
  destruct (proof_kind_of proof) as [kind|]; [|done]. destruct (map_get name declared); [done|].
  apply IH. intros n k [[-> ->]|Hin]%map_set_in; [|by eapply Hd].
  apply negb_false_iff in H1. apply bool_decide_eq_false in H3. split_and!; [done|lia|done].
Qed.

Definition client_ok (number : option string) (key : string) (c : RegisteredClient) : Prop :=
  key = client_name c /\ valid_name key /\
  match c with
  | OpenClient _ => True
  | AttestedClient _ ids => ids <> [] /\ exists n, number = Some n /\ Forall (fun id => firebase_project_of id = Some n) ids
  end.

Lemma add_app_ids_ok setting number ids appIds appIds' :
  Forall (fun id => firebase_project_of id = Some number) appIds ->
  add_app_ids setting number ids appIds = Ok appIds' ->
  Forall (fun id => firebase_project_of id = Some number) appIds' /\ (ids <> [] \/ appIds <> [] -> appIds' <> []).
Proof.
  revert appIds. induction ids as [|id ids IH]; intros appIds Hall; cbn [add_app_ids].
  - intros [= <-]. split; [done|]. intros [?|?]; done.
  - destruct (firebase_project_of id) as [project|] eqn:Ep; [|done]. case_bool_decide as Heq; [|done].
    subst project. intros H. apply IH in H as [H1 H2].
    + split; [done|]. intros _. apply H2. right. unfold set_add. case_bool_decide as Hin.
      * intros ->. by apply elem_of_nil in Hin.
      * by destruct appIds.
    + unfold set_add. case_bool_decide; [done|]. apply Forall_app. split; [done|by repeat constructor].
Qed.

Lemma split_nonempty c s : split c s <> [].
Proof.
  unfold split. destruct (str_list s) as [|a l]; simpl; [done|].
  destruct (Ascii.eqb a c); [done|]. by destruct (split_list c l).
Qed.

Lemma appIdsOf_ok name number read ids :
  appIdsOf name number read = Ok ids ->
  ids <> [] /\ Forall (fun id => firebase_project_of id = Some number) ids.
Proof.
  unfold appIdsOf. destruct (requiredSetting _ _) as [v|]; [|done]. cbn [res_bind]. intros H.
  apply add_app_ids_ok in H as [H1 H2]; [|constructor]. split; [|done]. apply H2. left.
  intros Hnil%map_eq_nil. by apply split_nonempty in Hnil.
Qed.

Lemma register_clients_ok declared read cs number cs' number' :
  (forall n k, (n, k) ∈ declared -> valid_name n) ->
  (forall key c, (key, c) ∈ cs -> client_ok number key c) ->
  register_clients declared read cs number = Ok (cs', number') ->
  forall key c, (key, c) ∈ cs' -> client_ok number' key c.
Proof.
  revert cs number. induction declared as [|[name kind] declared IH]; intros cs number Hd Hcs; cbn [register_clients].
  - by intros [= <- <-].
  - assert (valid_name name) as Hname by (eapply Hd; by left).
    assert (forall n k, (n, k) ∈ declared -> valid_name n) as Hd' by (intros n k Hin; eapply Hd; by right).
    destruct kind.
    + destruct (match number with Some n => Ok n | None => _ end) as [n|] eqn:En; [|done]. cbn [res_bind].
      destruct (appIdsOf name n read) as [ids|] eqn:Ei; [|done]. cbn [res_bind].
      apply IH; [done|]. apply appIdsOf_ok in Ei as [Hne Hids].
      intros key c [[-> ->]|Hin]%map_set_in.
      * split_and!; try done. by exists n.
      * destruct (Hcs _ _ Hin) as (H1 & H2 & H3). split_and!; try done. destruct c; [done|].
        destruct H3 as [Hn (n0 & Hnum & Hall)]. rewrite Hnum in En. simplify_eq. split; [done|]. by exists n.
    + apply IH; [done|]. intros key c [[-> ->]|Hin]%map_set_in; [|by apply Hcs]. by split_and!.
Qed.

Lemma clientRegistryFrom_ok read registry key c :
  clientRegistryFrom read = Ok registry -> (key, c) ∈ clients registry ->
  client_ok (firebaseProjectNumber registry) key c.
Proof.
  unfold clientRegistryFrom. destruct (requiredSetting _ _); [|done]. cbn [res_bind].
  destruct (unnamedPolicyOf _) as [policy|]; [|done]. cbn [res_bind].
  destruct (requiredSetting "IDENTITY_CLIENTS" _) as [raw|]; [|done]. cbn [res_bind].
  destruct (declaredClientsOf raw) as [declared|] eqn:Hd; [|done]. cbn [res_bind].
  destruct (register_clients declared read [] None) as [[cs number]|] eqn:Hr; [|done]. cbn [res_bind].
  intros [= <-] Hin. cbn in *. eapply register_clients_ok; [..|exact Hr|exact Hin].
  - eapply declare_clients_ok; [|exact Hd]. by intros n k []%elem_of_nil.
  - by intros k v []%elem_of_nil.
Qed.

(** A registry that is read from the settings is well formed: every client is under its own name,
    which follows the grammar, fits its 64 characters and is not one of the reserved labels; and an
    attested client has at least one app id, all of the configured Firebase project. *)
Theorem client_registry_well_formed read registry key c :
  clientRegistryFrom read = Ok registry -> (key, c) ∈ clients registry ->
  client_ok (firebaseProjectNumber registry) key c.
Proof. apply clientRegistryFrom_ok. Qed.

Definition sample_settings (name : string) : option string :=
  if bool_decide (name = "IDENTITY_UNNAMED_CLIENTS") then Some "refuse"
  else if bool_decide (name = "IDENTITY_CLIENTS") then Some "web:none, courier-app:app_check"
  else if bool_decide (name = "FIREBASE_PROJECT_NUMBER") then Some "123"
  else if bool_decide (name = "IDENTITY_APP_CHECK_APP_IDS_COURIER_APP") then Some "1:123:android:ab12"
  else None.
Definition sample_registry : ClientRegistry :=
  mkRegistry [("web", OpenClient "web"); ("courier-app", AttestedClient "courier-app" ["1:123:android:ab12"])]
    refuse_unnamed (Some "123").

Lemma client_registry_well_formed_witness :
  clientRegistryFrom sample_settings = Ok sample_registry /\
  client_ok (Some "123") "courier-app" (AttestedClient "courier-app" ["1:123:android:ab12"]).
Proof.
  split; [vm_compute; reflexivity|].
  apply (client_registry_well_formed sample_settings sample_registry); [vm_compute; reflexivity|].
  apply elem_of_cons. right. apply elem_of_cons. by left.
Defined.

(** ** What the gate lets through *)

Lemma map_get_in {V} k (v : V) m : map_get k m = Some v -> (k, v) ∈ m.
Proof.
  induction m as [|[k' v'] m IH]; cbn; [done|]. case_decide; [intros [= ->]; subst; by left|]. intros Hg. right. by apply IH.
Qed.

Section GateFacts.
Context {W : Type} {L : Logs W} (registry : ClientRegistry) (verifier : option (ClientProofVerifierPort W)).

Definition admitted (headers : Headers) (w : W) (c : RequestClient) : Prop :=
  match c with
  | Unnamed => headers CLIENT_HEADER = None /\ unnamed registry = allow_unnamed
  | Named n =>
      exists s client, headers CLIENT_HEADER = Some (HeaderOne s) /\ map_get s (clients registry) = Some client /\
        client_name client = n /\
        match client with
        | OpenClient _ => True
        | AttestedClient _ ids =>
            exists v h, verifier = Some v /\ headers APP_CHECK_HEADER = Some (HeaderOne h) /\
              (run (verify_proof (trim h) ids) w).1 = Ok ProofValid
        end
  end.

Lemma run_throw_refusal {X} client reason request presented w :
  exists e, (run (throw_refusal (A := X) client reason request presented) w).1 = Err e.
Proof.
  unfold throw_refusal. rewrite run_bind. destruct (run (refuse client reason request presented) w) as [[e|e] w']; by eexists.
Qed.

Ltac refused H :=
  exfalso; match type of H with
  | context [throw_refusal (A := ?X) ?c ?r ?q ?p] =>
      match type of H with context [run _ ?w] => destruct (run_throw_refusal (X := X) c r q p w) as [? Hr]; rewrite H in Hr; done end
  end.

Lemma run_prove name ids header request w w' :
  run (prove verifier name ids header request) w = (Ok tt, w') ->
  exists v h, verifier = Some v /\ header = Some (HeaderOne h) /\ (run (verify_proof (trim h) ids) w).1 = Ok ProofValid.
Proof.
  unfold prove. destruct header as [[h|l]|]; [|by rewrite bool_decide_eq_true_2; [intros H; refused H|]..].
  case_bool_decide; [intros H'; refused H'|]. destruct verifier as [v|]; [|done].
  rewrite run_bind. destruct (run (verify_proof (trim h) ids) w) as [[[|r|]|e] w1] eqn:E; try done.
  - intros _. exists v, h. by rewrite E.
  - intros H'. refused H'.
  - intros H'. refused H'.
Qed.

Lemma run_gate_admit headers request w c w' :
  run (gate_admit registry verifier headers request) w = (Ok c, w') -> admitted headers w c.
Proof.
  unfold gate_admit. destruct (headers CLIENT_HEADER) as [presented|] eqn:Eh.
  - destruct presented as [s|l].
    + destruct (map_get s (clients registry)) as [[name|name ids]|] eqn:Ec.
      * intros [= <- <-]. cbn. exists s, (OpenClient name). by rewrite Eh.
      * rewrite run_bind. destruct (run (prove verifier name ids _ request) w) as [[[]|e] w1] eqn:Ep; [|done].
        intros [= <- <-]. cbn. exists s, (AttestedClient name ids). rewrite Eh. split_and!; try done.
        by apply run_prove in Ep.
      * intros H. refused H.
    + intros H. refused H.
  - destruct (unnamed registry) eqn:Eu; [|intros H; refused H]. intros [= <- <-]. by split.
Qed.

(** Every refusal the gate can count has its series declared. *)
Definition label_of (c : RequestClient) : string := match c with Named n => n | Unnamed => UNNAMED end.

Lemma series_client key c :
  (key, c) ∈ clients registry -> (client_name c, client_mismatch) ∈ refusalSeries registry.
Proof.
  intros Hin. unfold refusalSeries. apply elem_of_app. right. apply list_elem_of_In, in_flat_map.
  exists (key, c). split; [by apply list_elem_of_In|by left].
Qed.

Lemma series_proof key name ids reason :
  (key, AttestedClient name ids) ∈ clients registry -> (name, proof_refusal reason) ∈ refusalSeries registry.
Proof.
  intros Hin. unfold refusalSeries. apply elem_of_app. right. apply list_elem_of_In, in_flat_map.
  exists (key, AttestedClient name ids). split; [by apply list_elem_of_In|right].
  apply (in_map (fun reason => (name, proof_refusal reason))). destruct reason; cbn; tauto.
Qed.

Lemma series_admitted headers w c :
  admitted headers w c -> (label_of c, client_mismatch) ∈ refusalSeries registry.
Proof.
  destruct c as [n|]; cbn -[refusalSeries].
  - intros (s & client & _ & Hg%map_get_in & <- & _). by eapply series_client.
  - intros _. unfold refusalSeries. apply elem_of_app. left. do 2 right. by left.
Qed.

(** [declares e]: if [e] counts a refusal, its labels are a declared series. *)
Definition declares (e : Event) : Prop :=
  match e with MetricClientRefusal label reason => (label, reason) ∈ refusalSeries registry | _ => True end.

Context (R : W -> W -> Prop) (log_declared : forall e, declares e -> guar R (log_event e)).
Context (verify_R : forall v, verifier = Some v -> forall proof ids, guar R (verify_proof proof ids)).

Lemma throw_refusal_declared {X} client reason request presented :
  (client, reason) ∈ refusalSeries registry -> guar R (throw_refusal (A := X) client reason request presented).
Proof.
  intros Hd. unfold throw_refusal, refuse. apply guar_bind; [|by intros].
  apply guar_bind; [by apply log_declared|]. intros _. apply guar_bind; [by apply log_declared|by intros].
Qed.

Lemma gate_admit_declared headers request : guar R (gate_admit registry verifier headers request).
Proof.
  unfold gate_admit. destruct (headers CLIENT_HEADER) as [presented|].
  - destruct (match presented with HeaderOne s => map_get s (clients registry) | HeaderMany _ => None end) as [[name|name ids]|] eqn:Ec.
    + exact I.
    + assert (exists key, (key, AttestedClient name ids) ∈ clients registry) as [key Hin].
      { destruct presented; [|done]. eexists. by eapply map_get_in. }
      apply guar_bind; [|by intros]. unfold prove.
      case_bool_decide; [apply throw_refusal_declared; by eapply series_proof|].
      destruct verifier as [v|] eqn:Ev; [|exact I]. apply guar_bind; [by apply (verify_R v)|].
      intros [|reason|]; [exact I|..]; apply throw_refusal_declared; by eapply series_proof.
    + apply throw_refusal_declared. by left.
  - destruct (unnamed registry); [exact I|]. apply throw_refusal_declared. right. by left.
Qed.
End GateFacts.
