(* ===== verification/AppCheck.v ===== *)
(** * App Check: the key set and the verifier

    Models src/src/infrastructure/attestation/app_check_key_set.ts (the cached JWKS, Section
    [KeySet]), src/src/infrastructure/attestation/firebase_app_check_verifier.ts (Section
    [Verifier]) and the composition of src/src/infrastructure/attestation/client_gate.provider.ts.
    The verifier runs in a world of its own: the key set's fields, the clock and the fetches made.
    An HTTP answer, Node's JWK import and jsonwebtoken are the class [AppCheckPlatform]. *)

From S2P Require Import Prelude JsString Domain Store Sample Keys Clients.
From Stdlib Require Import Ascii String.

Local Open Scope string_scope.
Local Open Scope Z_scope.

(** ** JSON, as [response.json()] answers it *)

Inductive Json :=
| JNull | JBool (b : bool) | JNumber (z : Z) | JString (s : string)
| JArray (l : list Json) | JObject (members : list (string * Json)).

Fixpoint member (key : string) (l : list (string * Json)) : option Json :=
  match l with
  | [] => None
  | (k, v) :: l' => if bool_decide (k = key) then Some v else member key l'
  end.

Inductive FetchAnswer := FetchFailed (reason : string) | FetchStatus (status : Z) | FetchBody (document : Json).

(** A proof's header, and the claims [jwt.verify] answers: [None] is an absent member or one of
    another type. [nbf] is compared whatever its type: it is absent or null, or has the number that
    JavaScript reads it as in a comparison, which is none for [NaN]. *)
Record ProofHeader := mkProofHeader { header_alg : option string; header_typ : option string; header_kid : option string }.
Record ProofClaims := mkProofClaims {
  proof_iss : option string; proof_aud : list string; proof_exp : option Z; proof_iat : option Z;
  proof_nbf : option (option Z); proof_sub : option string
}.
Inductive ProofPayload := PayloadObject (c : ProofClaims) | PayloadString.

Class AppCheckPlatform := {
  SigningKey : Type;
  (** [createPublicKey({ kty: "RSA", n, e })] and its modulus; [None] where it throws. *)
  import_jwk : string -> string -> option (SigningKey * Z);
  decode_header : string -> option ProofHeader;
  (** [jwt.verify] with expiry ignored; [None] is a [JsonWebTokenError]. *)
  verify_signature : string -> SigningKey -> option ProofPayload;
  (** The answer of the n-th request of the process. *)
  fetch_answer : nat -> FetchAnswer
}.

Definition KEYS_LIVE_MS : Z := 6 * 60 * 60 * 1000.
Definition REFETCH_INTERVAL_MS : Z := 10 * 1000.
Definition SHORTEST_MODULUS_BITS : Z := 2048.
Definition CLOCK_LEEWAY_SECONDS : Z := 60.
Definition APP_CHECK_ALGORITHM : string := "RS256".
Definition APP_CHECK_TOKEN_TYPE : string := "JWT".
Definition APP_CHECK_ISSUER_PREFIX : string := "https://firebaseappcheck.googleapis.com/".

Section KeySet.
Context {A : AppCheckPlatform}.
Local Open Scope prog_scope.

(** The fields of [AppCheckKeySet], the clock, and (for the theorems) when each fetch started. *)
Record AppWorld := mkAppWorld {
  cached_keys : option (list (string * SigningKey));
  fetchedAtMs : Z;
  lastAttemptAtMs : option Z;
  lastAttemptFailed : bool;
  inFlight : bool;
  app_clock : Z;
  fetch_times : list Z;
  app_events : list Event
}.
Abbreviation AM := (prog AppWorld exn).

#[export] Instance App_logs : Logs AppWorld :=
  fun e => atom (fun w => (tt, mkAppWorld (cached_keys w) (fetchedAtMs w) (lastAttemptAtMs w) (lastAttemptFailed w)
                               (inFlight w) (app_clock w) (fetch_times w) (app_events w ++ [e]))).

(** [signingKeyOf]: [None] for a key of another use, an error for one that cannot be used. *)
Definition string_member (key : string) (l : list (string * Json)) : option string :=
  match member key l with Some (JString s) => Some s | _ => None end.

Definition absent_or (key value : string) (l : list (string * Json)) : bool :=
  match member key l with None => true | Some (JString s) => bool_decide (s = value) | Some _ => false end.

Definition signingKeyOf (entry : Json) : res exn (option (string * SigningKey)) :=
  match entry with
  | JObject jwk =>
      let signs := absent_or "use" "sig" jwk in
      let rs256 := absent_or "alg" APP_CHECK_ALGORITHM jwk in
      match string_member "kid" jwk with
      | Some kid =>
          if negb (bool_decide (string_member "kty" jwk = Some "RSA")) || negb signs || negb rs256 || bool_decide (kid = "")
          then Ok None
          else
            match string_member "n" jwk, string_member "e" jwk with
            | Some n, Some e =>
                match import_jwk n e with
                | None => Err (PlainError "Invalid JWK data")
                | Some (key, bits) =>
                    if bits <? SHORTEST_MODULUS_BITS
                    then Err (PlainError ("the key set's key " ++ kid ++ " is shorter than 2048 bits"))
                    else Ok (Some (kid, key))
                end
            | _, _ => Err (PlainError ("the key set's key " ++ kid ++ " has no modulus or exponent"))
            end
      | None => Ok None
      end
  | JArray _ => Ok None
  | _ => Err (PlainError "the key set holds an entry that is not a key")
  end.

Fixpoint collect_keys (entries : list Json) (keys : list (string * SigningKey)) : res exn (list (string * SigningKey)) :=
  match entries with
  | [] => Ok keys
  | entry :: rest =>
      res_bind (signingKeyOf entry) (fun published =>
        collect_keys rest (match published with Some (kid, key) => map_set kid key keys | None => keys end))
  end.

Definition keysOf (document : Json) : res exn (list (string * SigningKey)) :=
  match document with
  | JObject members =>
      match member "keys" members with
      | Some (JArray entries) =>
          res_bind (collect_keys entries []) (fun keys =>
            match keys with
            | [] => Err (PlainError "the key set holds no RS256 signing key")
            | _ => Ok keys
            end)
      | _ => Err (PlainError "the key set is not a JWKS document")
      end
  | _ => Err (PlainError "the key set is not a JWKS document")
  end.

(** [download], from the answer of the request [refetch] made. *)
Definition download (answer : FetchAnswer) : res exn (list (string * SigningKey)) :=
  match answer with
  | FetchFailed reason => Err (PlainError reason)
  | FetchStatus status => Err (PlainError ("the key set answered HTTP " ++ String_of status))
  | FetchBody document => keysOf document
  end.

Definition fetchKeys (answer : FetchAnswer) : AM unit :=
  catch (
    keys <- of_res (download answer) ;;
    atom (fun w => (tt, mkAppWorld (Some keys) (app_clock w) (lastAttemptAtMs w) false (inFlight w) (app_clock w)
                         (fetch_times w) (app_events w))))
    (fun _ =>
      atom (fun w => (tt, mkAppWorld (cached_keys w) (fetchedAtMs w) (lastAttemptAtMs w) true (inFlight w) (app_clock w)
                           (fetch_times w) (app_events w))) ;;;
      log_event (LogLine None "app_check_keys_unavailable")).

(** The start of a fetch: its time is recorded and the request is made. *)
Definition start_fetch (w : AppWorld) : option FetchAnswer * AppWorld :=
  (Some (fetch_answer (List.length (fetch_times w))),
   mkAppWorld (cached_keys w) (fetchedAtMs w) (Some (app_clock w)) (lastAttemptFailed w) true
     (app_clock w) (fetch_times w ++ [app_clock w]) (app_events w)).

(** The first turn of [refetch]: the test of the fields, their update and the call of [fetch]
    happen together. A request that finds one in flight waits for it; here it may go on at any
    later moment. *)
Definition begin_refetch : AM (option FetchAnswer) :=
  atom (fun w =>
    if inFlight w then (None, w)
    else
      match lastAttemptAtMs w with
      | Some last => if app_clock w - last <? REFETCH_INTERVAL_MS then (None, w) else start_fetch w
      | None => start_fetch w
      end).

Definition end_refetch : AM unit :=
  atom (fun w => (tt, mkAppWorld (cached_keys w) (fetchedAtMs w) (lastAttemptAtMs w) (lastAttemptFailed w) false
                       (app_clock w) (fetch_times w) (app_events w))).

Definition refetch : AM unit :=
  started <- begin_refetch ;;
  match started with
  | Some answer => fetchKeys answer ;;; end_refetch
  | None => Ret tt
  end.

Definition fresh_of (w : AppWorld) : option (list (string * SigningKey)) :=
  match cached_keys w with
  | Some keys => if KEYS_LIVE_MS <=? app_clock w - fetchedAtMs w then None else Some keys
  | None => None
  end.

Definition freshKeys : AM (option (list (string * SigningKey))) := atom (fun w => (fresh_of w, w)).

Inductive SigningKeyLookup := KeyFound (key : SigningKey) | KeyUnknown | KeysUnavailable.

Definition keyFor (kid : string) : AM SigningKeyLookup :=
  cached <- freshKeys ;;
  match match cached with Some keys => map_get kid keys | None => None end with
  | Some key => Ret (KeyFound key)
  | None =>
      refetch ;;;
      keys <- freshKeys ;;
      match keys with
      | None => Ret KeysUnavailable
      | Some ks =>
          match map_get kid ks with
          | Some key => Ret (KeyFound key)
          | None =>
              failed <- atom (fun w => (lastAttemptFailed w, w)) ;;
              Ret (if failed then KeysUnavailable else KeyUnknown)
          end
      end
  end.
End KeySet.

Section Verifier.
Context {A : AppCheckPlatform} (projectNumber : string).
Local Open Scope prog_scope.

Definition proof_issuer : string := APP_CHECK_ISSUER_PREFIX ++ projectNumber.
Definition proof_audience : string := "projects/" ++ projectNumber.

(** [claims.nbf ?? claims.iat] *)
Definition notBefore (claims : ProofClaims) (iat : Z) : option Z := default (Some iat) (proof_nbf claims).

Definition judge (claims : ProofClaims) (appIds : list string) (clock_ms : Z) : ProofVerdict :=
  if negb (bool_decide (proof_iss claims = Some proof_issuer)) || negb (bool_decide (proof_audience ∈ proof_aud claims))
  then ProofInvalid wrong_project
  else
    match proof_exp claims, proof_iat claims with
    | Some exp, Some iat =>
        let now := clock_ms / 1000 in
        if exp <=? now then ProofInvalid expired
        else
          if (now + CLOCK_LEEWAY_SECONDS <? iat) ||
             match notBefore claims iat with Some n => now + CLOCK_LEEWAY_SECONDS <? n | None => false end
          then ProofInvalid not_yet_valid
          else
            match proof_sub claims with
            | Some sub => if bool_decide (sub ∈ appIds) then ProofValid else ProofInvalid wrong_app_id
            | None => ProofInvalid wrong_app_id
            end
    | _, _ => ProofInvalid malformed
    end.

(** The key id of a well-formed header. *)
Definition proof_kid (proof : string) : option string :=
  match decode_header proof with
  | Some h =>
      if negb (bool_decide (header_alg h = Some APP_CHECK_ALGORITHM)) || negb (bool_decide (header_typ h = Some APP_CHECK_TOKEN_TYPE))
      then None
      else match header_kid h with Some kid => if bool_decide (kid = "") then None else Some kid | None => None end
  | None => None
  end.

Definition verify_app_check (proof : string) (appIds : list string) : prog AppWorld exn ProofVerdict :=
  match proof_kid proof with
  | None => Ret (ProofInvalid malformed)
  | Some kid =>
      lookup <- keyFor kid ;;
      match lookup with
      | KeysUnavailable => Ret ProofUnavailable
      | KeyUnknown => Ret (ProofInvalid invalid_signature)
      | KeyFound key =>
          match verify_signature proof key with
          | None => Ret (ProofInvalid invalid_signature)
          | Some PayloadString => Ret (ProofInvalid malformed)
          | Some (PayloadObject claims) =>
              now <- atom (fun w => (app_clock w, w)) ;;
              Ret (judge claims appIds now)
          end
      end
  end.

#[export] Instance FirebaseAppCheckVerifier : ClientProofVerifierPort AppWorld := {
  verify_proof := verify_app_check
}.
End Verifier.

(** [clientGateFrom]: a verifier only when a client is attested. *)
Definition clientGateFrom {A : AppCheckPlatform} (read : string -> option string)
    : res exn (ClientRegistry * option (ClientProofVerifierPort AppWorld)) :=
  res_bind (clientRegistryFrom read) (fun registry =>
    let verifier := FirebaseAppCheckVerifier <$> firebaseProjectNumber registry in
    res_bind (newClientGate registry verifier) (fun _ => Ok (registry, verifier))).

(** ** The key set under load *)

Section KeySetFacts.
Context {A : AppCheckPlatform}.

(** Consecutive elements are at least [REFETCH_INTERVAL_MS] apart. *)
Fixpoint spaced (times : list Z) : Prop :=
  match times with
  | t1 :: (t2 :: _) as rest => t1 + REFETCH_INTERVAL_MS <= t2 /\ spaced rest
  | _ => True
  end.

(** The fetches are spaced, and the last one is the attempt the key set remembers. *)
Definition fetches_ok (w : AppWorld) : Prop := spaced (fetch_times w) /\ last (fetch_times w) = lastAttemptAtMs w.

Lemma spaced_snoc times t :
  spaced times -> (forall l, last times = Some l -> l + REFETCH_INTERVAL_MS <= t) -> spaced (times ++ [t]).
Proof.
  induction times as [|a times IH]; [done|]. intros Hs Hl. destruct times as [|b times].
  - simpl. split; [|done]. by apply Hl.
  - destruct Hs as [H1 H2]. simpl. split; [done|]. apply IH; [done|]. intros l Hlast. by apply Hl.
Qed.

Definition fetches_step (w w' : AppWorld) : Prop := fetches_ok w -> fetches_ok w'.
#[export] Instance fetches_step_preorder : PreOrder fetches_step.
Proof. split; [intros w H; exact H|intros w1 w2 w3 H12 H23 H; apply H23, H12, H]. Qed.

Lemma start_fetch_ok w :
  (forall l, lastAttemptAtMs w = Some l -> l + REFETCH_INTERVAL_MS <= app_clock w) ->
  fetches_step w (start_fetch w).2.
Proof.
  intros Hl [Hs Hlast]. split; cbn.
  - apply spaced_snoc; [done|]. rewrite Hlast. exact Hl.
  - apply last_snoc.
Qed.

Lemma begin_refetch_spaced : guar fetches_step begin_refetch.
Proof.
  apply guar_atom. intros w. destruct (inFlight w); [reflexivity|].
  destruct (lastAttemptAtMs w) as [last|] eqn:El.
  - destruct (Z.ltb_spec (app_clock w - last) REFETCH_INTERVAL_MS); [reflexivity|].
    apply start_fetch_ok. rewrite El. intros l [= <-]. lia.
  - apply start_fetch_ok. by rewrite El.
Qed.

Lemma keyFor_spaced kid : guar fetches_step (keyFor kid).
Proof.
  assert (forall {X} (op : AppWorld -> X * AppWorld),
    (forall w, fetch_times (op w).2 = fetch_times w /\ lastAttemptAtMs (op w).2 = lastAttemptAtMs w) ->
    guar (E := exn) fetches_step (atom op)) as Hpure.
  { intros X op H. apply guar_atom. intros w [H1 H2]. destruct (H w) as [E1 E2]. split; [by rewrite E1|by rewrite E1, E2]. }
  unfold keyFor, freshKeys. apply guar_bind; [by apply Hpure|]. intros cached.
  destruct (match cached with Some keys => map_get kid keys | None => None end); [exact I|]. apply guar_bind.
  - unfold refetch. apply guar_bind; [apply begin_refetch_spaced|]. intros [answer|]; [|exact I].
    apply guar_bind; [|by intros; apply Hpure]. unfold fetchKeys. apply guar_catch.
    + apply guar_bind; [apply guar_of_res|]. intros keys. by apply Hpure.
    + intros e. apply guar_bind; [by apply Hpure|]. intros _. by apply Hpure.
  - intros _. apply guar_bind; [by apply Hpure|]. intros [ks|]; [|exact I].
    destruct (map_get kid ks); [exact I|]. apply guar_bind; [by apply Hpure|]. intros. exact I.
Qed.

(** However many requests present proofs at once, and however their lookups interleave, the key
    server is asked at most once every ten seconds: the starts of the fetches the process makes are
    at least that far apart. *)
Theorem key_fetches_spaced kids w w' ps' :
  fetches_ok w -> psteps fetches_step (w, map keyFor kids) (w', ps') -> spaced (fetch_times w').
Proof.
  intros Hw Hs. eapply (psteps_guar fetches_step (w, map keyFor kids) (w', ps')) in Hs as [Hs _]; [|apply _|apply _|].
  - apply Hs. exact Hw.
  - apply Forall_map, Forall_true. apply keyFor_spaced.
Qed.

(** A key is answered only from a key set read less than six hours before. *)
Definition lookup_fresh (kid : string) (r : SigningKeyLookup) (w : AppWorld) : Prop :=
  match r with
  | KeyFound key =>
      exists keys, cached_keys w = Some keys /\ app_clock w - fetchedAtMs w < KEYS_LIVE_MS /\ map_get kid keys = Some key
  | _ => True
  end.

Lemma fresh_of_found kid key w keys :
  fresh_of w = Some keys -> map_get kid keys = Some key -> lookup_fresh kid (KeyFound key) w.
Proof.
  unfold fresh_of. destruct (cached_keys w) as [ks|] eqn:E; [|done].
  destruct (Z.leb_spec KEYS_LIVE_MS (app_clock w - fetchedAtMs w)); [done|]. intros [= <-] Hg. by exists ks.
Qed.

Lemma keyFor_fresh kid : secures (lookup_fresh kid) (keyFor kid).
Proof.
  unfold keyFor, freshKeys. apply secures_atom. intros w. cbn [fst snd].
  destruct (match fresh_of w with Some keys => map_get kid keys | None => None end) as [key|] eqn:Eg.
  - right. destruct (fresh_of w) as [keys|] eqn:Ef; [|done]. by eapply fresh_of_found.
  - left. apply secures_bind_r. intros _. apply secures_atom. intros w1. cbn [fst snd].
    destruct (fresh_of w1) as [ks|] eqn:Ef1; [|right; exact I].
    destruct (map_get kid ks) as [key|] eqn:Eg1; [right; by eapply fresh_of_found|].
    left. apply secures_atom. intros w2. right. cbn. by destruct (lastAttemptFailed w2).
Qed.
End KeySetFacts.

(** ** What a valid proof proves *)

Section Genuine.
Context {A : AppCheckPlatform}.

(** A proof of one of the given apps of the project, signed by a key of the key set, valid now. *)
Record genuine (number proof : string) (appIds : list string) (w : AppWorld) (sub : string) : Prop := {
  genuine_signed : exists kid key claims,
    proof_kid proof = Some kid /\ lookup_fresh kid (KeyFound key) w /\
    verify_signature proof key = Some (PayloadObject claims) /\
    proof_iss claims = Some (proof_issuer number) /\ proof_audience number ∈ proof_aud claims /\
    (exists exp iat, proof_exp claims = Some exp /\ proof_iat claims = Some iat /\ app_clock w / 1000 < exp /\
       iat <= app_clock w / 1000 + CLOCK_LEEWAY_SECONDS /\
       forall n, notBefore claims iat = Some n -> n <= app_clock w / 1000 + CLOCK_LEEWAY_SECONDS) /\
    proof_sub claims = Some sub;
  genuine_app : sub ∈ appIds
}.

Lemma judge_valid number claims ids ms :
  judge number claims ids ms = ProofValid ->
  proof_iss claims = Some (proof_issuer number) /\ proof_audience number ∈ proof_aud claims /\
  (exists exp iat, proof_exp claims = Some exp /\ proof_iat claims = Some iat /\ ms / 1000 < exp /\
     iat <= ms / 1000 + CLOCK_LEEWAY_SECONDS /\
     forall n, notBefore claims iat = Some n -> n <= ms / 1000 + CLOCK_LEEWAY_SECONDS) /\
  exists sub, proof_sub claims = Some sub /\ sub ∈ ids.
Proof.
  unfold judge. case_bool_decide as Hi; [|done]. case_bool_decide as Ha; [|done]. cbn [negb orb].
  destruct (proof_exp claims) as [exp|]; [|done]. destruct (proof_iat claims) as [iat|]; [|done].
  destruct (Z.leb_spec exp (ms / 1000)); [done|]. destruct (_ || _) eqn:Hnb; [done|].
  apply orb_false_elim in Hnb as [H1 H2]. destruct (proof_sub claims) as [sub|]; [|done].
  case_bool_decide; [|done]. intros _. split_and!; [done..| |by exists sub].
  exists exp, iat. split_and!; [done..|lia|lia|]. intros n Hn. rewrite Hn in H2. lia.
Qed.

Lemma wp_keyFor kid w :
  wp (keyFor kid) (fun r w' => match r with Ok l => lookup_fresh kid l w' | Err _ => True end) w.
Proof.
  unfold keyFor, freshKeys. apply wp_bind, wp_atom. cbn [fst snd].
  destruct (match fresh_of w with Some keys => map_get kid keys | None => None end) as [key|] eqn:Eg.
  - apply wp_ret. destruct (fresh_of w) eqn:Ef; [|done]. by eapply fresh_of_found.
  - apply wp_bind. unfold wp at 1. destruct (run refetch w) as [[[]|e] w1]; cbn [fst snd]; [|done].
    apply wp_bind, wp_atom. cbn [fst snd]. destruct (fresh_of w1) as [ks|] eqn:Ef; [|by apply wp_ret].
    destruct (map_get kid ks) eqn:Eg1; [apply wp_ret; by eapply fresh_of_found|].
    apply wp_bind, wp_atom. cbn [fst snd]. apply wp_ret. by destruct (lastAttemptFailed w1).
Qed.

Lemma run_verify_app_check number proof ids w w' :
  run (verify_app_check number proof ids) w = (Ok ProofValid, w') -> exists sub, genuine number proof ids w' sub.
Proof.
  unfold verify_app_check. destruct (proof_kid proof) as [kid|] eqn:Ek; [|done]. rewrite run_bind.
  pose proof (wp_keyFor kid w) as Hwp. unfold wp in Hwp.
  destruct (run (keyFor kid) w) as [[[key| |]|e] w1]; cbn [fst snd] in *; try done.
  destruct (verify_signature proof key) as [[claims|]|] eqn:Es; try done. cbn.
  intros [= Hj <-]. apply judge_valid in Hj as (H1 & H2 & H3 & sub & H4 & H5).
  exists sub. split; [|done]. exists kid, key, claims. by split_and!.
Qed.

(** Each action's counted refusals are declared series. *)
Definition declared_step (registry : ClientRegistry) (w w' : AppWorld) : Prop :=
  exists new, app_events w' = (app_events w ++ new)%list /\ Forall (declares registry) new.

Lemma declared_atom registry {X} (op : AppWorld -> X * AppWorld) :
  (forall w, app_events (op w).2 = app_events w) -> guar (E := exn) (declared_step registry) (atom op).
Proof. intros H. apply guar_atom. intros w. exists []. by rewrite H, app_nil_r. Qed.

Lemma log_declared registry e : declares registry e -> guar (declared_step registry) (log_event e).
Proof. intros H. apply guar_atom. intros w. exists [e]. cbn. split; [done|]. by repeat constructor. Qed.

Lemma keyFor_declared registry kid : guar (declared_step registry) (keyFor kid).
Proof.
  unfold keyFor, freshKeys. apply guar_bind; [by apply declared_atom|]. intros cached.
  destruct (match cached with Some keys => map_get kid keys | None => None end); [exact I|]. apply guar_bind.
  - unfold refetch, begin_refetch. apply guar_bind.
    { apply declared_atom. intros w. destruct (inFlight w); [done|]. destruct (lastAttemptAtMs w); [|done].
      by destruct (_ <? _). }
    intros [answer|]; [|exact I]. apply guar_bind; [|by intros; apply declared_atom]. unfold fetchKeys. apply guar_catch.
    + apply guar_bind; [apply guar_of_res|]. intros keys. by apply declared_atom.
    + intros e. apply guar_bind; [by apply declared_atom|]. intros _. by apply log_declared.
  - intros _. apply guar_bind; [by apply declared_atom|]. intros [ks|]; [|exact I].
    destruct (map_get kid ks); [exact I|]. apply guar_bind; [by apply declared_atom|]. intros. exact I.
Qed.

Lemma verify_declared registry number proof ids :
  guar (declared_step registry) (verify_app_check number proof ids).
Proof.
  unfold verify_app_check. destruct (proof_kid proof); [|exact I]. apply guar_bind; [apply keyFor_declared|].
  intros [key| |]; [|exact I..]. destruct (verify_signature proof key) as [[|]|]; [|exact I..].
  apply guar_bind; [by apply declared_atom|]. intros. exact I.
Qed.

Lemma clientGateFrom_inv read registry verifier :
  clientGateFrom read = Ok (registry, verifier) ->
  clientRegistryFrom read = Ok registry /\ verifier = FirebaseAppCheckVerifier <$> firebaseProjectNumber registry.
Proof.
  unfold clientGateFrom. destruct (clientRegistryFrom read) as [r|]; [|done]. cbn [res_bind].
  destruct (newClientGate _ _); [|done]. by intros [= -> <-].
Qed.


(** Whatever the gate refuses, it counts under a series it declared at start: every refusal
    counter an admission increments, at whatever point of whatever interleaving, has its labels in
    [refusalSeries], and so has the mismatch of every client it admits. *)
Theorem refusals_counted_under_declared_series read registry verifier :
  clientGateFrom read = Ok (registry, verifier) ->
  (forall headers request, guar (declared_step registry) (gate_admit registry verifier headers request)) /\
  (forall headers request w c w', run (gate_admit registry verifier headers request) w = (Ok c, w') ->
     (label_of c, client_mismatch) ∈ refusalSeries registry).
Proof.
  intros [Hreg Hv]%clientGateFrom_inv. split.
  - intros headers request. apply gate_admit_declared; [apply log_declared|].
    intros v Hsome proof ids. subst verifier. destruct (firebaseProjectNumber registry); simplify_eq/=. apply verify_declared.
  - intros headers request w c w' Hrun%run_gate_admit. by eapply series_admitted.
Qed.
End Genuine.

(** ** A concrete key server *)

Module Witness.

Definition sample_claims : ProofClaims :=
  mkProofClaims (Some "https://firebaseappcheck.googleapis.com/123") ["projects/123"] (Some 2000) (Some 900) None
    (Some "1:123:android:ab12").
Definition sample_jwks : Json :=
  JObject [("keys", JArray [JObject [("kty", JString "RSA"); ("kid", JString "k1"); ("use", JString "sig");
                                     ("n", JString "n"); ("e", JString "AQAB")]])].

Definition app_check_sample : AppCheckPlatform := {|
  SigningKey := string;
  import_jwk := fun n _ => Some (n, 2048);
  decode_header := fun p => if bool_decide (p = "proof") then Some (mkProofHeader (Some "RS256") (Some "JWT") (Some "k1")) else None;
  verify_signature := fun p k => if bool_decide (p = "proof") then Some (PayloadObject sample_claims) else None;
  fetch_answer := fun _ => FetchBody sample_jwks
|}.

Definition at_start (ms : Z) : @AppWorld app_check_sample := mkAppWorld None 0 None false false ms [] [].

Definition courier_headers (name : string) : option HeaderValue :=
  if bool_decide (name = CLIENT_HEADER) then Some (HeaderOne "courier-app")
  else if bool_decide (name = APP_CHECK_HEADER) then Some (HeaderOne " proof ") else None.

Definition sample_verifier : option (ClientProofVerifierPort (@AppWorld app_check_sample)) :=
  Some (@FirebaseAppCheckVerifier app_check_sample "123").

Lemma key_fetches_spaced_witness :
  let stop := schedule [0; 1; 0; 1; 0; 0; 1; 0; 1; 1]%nat
                (at_start 1000000, map (@keyFor app_check_sample) ["k1"; "k9"]) in
  List.length (fetch_times stop.1) = 1%nat /\ spaced (fetch_times stop.1).
Proof.
  intros stop. split; [vm_compute; reflexivity|].
  apply (@key_fetches_spaced app_check_sample ["k1"; "k9"] (at_start 1000000) stop.1 stop.2); [done|].
  rewrite <- surjective_pairing. apply schedule_psteps.
Defined.


Lemma refusals_counted_under_declared_series_witness :
  guar (declared_step sample_registry) (gate_admit sample_registry sample_verifier courier_headers None).
Proof.
  destruct (@refusals_counted_under_declared_series app_check_sample sample_settings sample_registry sample_verifier)
    as [H _]; [vm_compute; reflexivity|]. apply H.
Defined.

End Witness.
