(* ===== verification/PasskeyStore.v ===== *)
(** * Passkeys and passkey challenges in the database

    Models src/src/infrastructure/persistence/adapters/typeorm_passkey_repository.adapter.ts
    (Section [Passkeys]) and typeorm_passkey_challenge_repository.adapter.ts (Section [Challenges]).

    Main results: an account never holds more than the limit however registrations race; a
    challenge is spent at most once; a sign count never goes back. *)

From S2P Require Import Prelude JsString Domain Store Sample.

Local Open Scope string_scope.
Local Open Scope Z_scope.

Record PasskeyCredential := mkCredential {
  cred_id : string;
  cred_publicKey : list Z;
  cred_signCount : Z;
  cred_transports : list string;
  cred_deviceType : PasskeyDeviceType;
  cred_backedUp : bool
}.

Inductive PasskeyAddition :=
| PasskeyAdded (p : PasskeyEntity)
| PasskeyLimit
| PasskeyDuplicate.

(** The next id the database generates. *)
Definition next_uuid {P : Platform} (w : World) : string * World :=
  (uuid_of (uuid_next w),
   mkWorld (db w) (node_ms w) (pg_ms w) (S (uuid_next w)) (salt_next w) (db_calls w) (events w) (net_calls w)).

Section Passkeys.
Context {P : Platform}.
Local Open Scope prog_scope.

(** ORDER BY createdAt ASC, id ASC *)
Definition passkey_before (a b : PasskeyEntity) : bool :=
  (passkey_createdAt a <? passkey_createdAt b) ||
  ((passkey_createdAt a =? passkey_createdAt b) && String.leb (passkey_id a) (passkey_id b)).
Fixpoint insert_sorted (p : PasskeyEntity) (l : list PasskeyEntity) : list PasskeyEntity :=
  match l with
  | [] => [p]
  | q :: l' => if passkey_before p q then p :: l else q :: insert_sorted p l'
  end.
Definition sort_passkeys (l : list PasskeyEntity) : list PasskeyEntity := foldr insert_sorted [] l.

Definition held_by (userId : Z) (d : Db) : gmap string PasskeyEntity :=
  filter (fun '(_, p) => passkey_userId p = userId) (passkeys d).

Definition listForUser (userId : Z) : M (list PasskeyEntity) :=
  query (fun w => sort_passkeys (map snd (map_to_list (held_by userId (db w))))).

Definition existsForUser (userId : Z) : M bool :=
  query (fun w => negb (bool_decide (held_by userId (db w) = ∅))).

(** INSERT .. ON CONFLICT (credentialId) DO NOTHING RETURNING id *)
Definition insert_passkey (userId : Z) (c : PasskeyCredential) (name : string) : M (option string) :=
  statement (fun w =>
    if bool_decide (map_Exists (fun _ p => credentialId p = cred_id c) (passkeys (db w)))
    then (Ok None, w)
    else
      let '(id, w1) := next_uuid w in
      let p := mkPasskey id userId (cred_id c) (cred_publicKey c) (cred_signCount c) (cred_transports c)
                 (cred_deviceType c) (cred_backedUp c) name (pg_ms w) None in
      match passkeys (db w) !! id with
      | Some _ => (Err (QueryFailedError UNIQUE_VIOLATION), w1)
      | None => (Ok (Some id), set_db (set_passkeys (<[id := p]> (passkeys (db w))) (db w)) w1)
      end).

Definition add_passkey (userId : Z) (c : PasskeyCredential) (name : string) (limit : Z) : M PasskeyAddition :=
  transaction (
    owner <- query (fun w => users (db w) !! userId) ;;
    match owner with
    | None => Throw (MissingReferenceError ("User with ID " ++ String_of userId ++ " not found"))
    | Some _ =>
        held <- query (fun w => Z.of_nat (size (held_by userId (db w)))) ;;
        if limit <=? held then Ret PasskeyLimit
        else
          inserted <- insert_passkey userId c name ;;
          match inserted with
          | None => Ret PasskeyDuplicate
          | Some id =>
              found <- query (fun w => passkeys (db w) !! id) ;;
              match found with
              | Some p => Ret (PasskeyAdded p)
              | None => Throw (PlainError "Could not find any entity of type PasskeyTypeormEntity")
              end
          end
    end).

Definition remove_passkey (userId : Z) (id : string) : M bool :=
  update (fun w =>
    match passkeys (db w) !! id with
    | Some p =>
        if bool_decide (passkey_userId p = userId)
        then (true, set_passkeys (delete id (passkeys (db w))) (db w))
        else (false, db w)
    | None => (false, db w)
    end).

Definition sign_count_advances (stored presented : Z) : bool :=
  if presented =? 0 then stored =? 0 else stored <? presented.

Definition recordUse (id : string) (count : Z) (backed : bool) : M bool :=
  update (fun w =>
    match passkeys (db w) !! id with
    | Some p =>
        if sign_count_advances (signCount p) count
        then (true, set_passkeys (<[id := mkPasskey (passkey_id p) (passkey_userId p) (credentialId p) (publicKey p)
                                           count (transports p) (deviceType p) backed (passkey_name p)
                                           (passkey_createdAt p) (Some (pg_ms w))]> (passkeys (db w))) (db w))
        else (false, db w)
    | None => (false, db w)
    end).
End Passkeys.

Section Challenges.
Context {P : Platform}.
Local Open Scope prog_scope.

Definition set_challenge (id : string) (r : PasskeyChallengeRow) (d : Db) : Db :=
  set_passkey_challenges (<[id := r]> (passkey_challenges d)) d.

(** INSERT .. RETURNING id, of a challenge of an account that must exist. *)
Definition issueRegistration (userId : Z) (challenge : string) (lifetimeSeconds : Z) : M string :=
  statement (fun w =>
    match users (db w) !! userId with
    | None => (Err (QueryFailedError FOREIGN_KEY_VIOLATION), w)
    | Some _ =>
        let '(id, w1) := next_uuid w in
        match passkey_challenges (db w) !! id with
        | Some _ => (Err (QueryFailedError UNIQUE_VIOLATION), w1)
        | None =>
            (Ok id, set_db (set_challenge id
               (mkPasskeyChallenge userId purpose_register challenge None (pg_ms w + lifetimeSeconds * 1000) None) (db w)) w1)
        end
    end).

(** The row of a sign-in, by its unique [mfaJti]. *)
Definition find_mfa (j : string) (d : Db) : option (string * PasskeyChallengeRow) :=
  match List.filter (fun '(_, r) => bool_decide (mfaJti r = Some j)) (map_to_list (passkey_challenges d)) with
  | (id, r) :: _ => Some (id, r)
  | [] => None
  end.

(** INSERT .. ON CONFLICT (mfaJti) DO UPDATE .. WHERE open.userId = EXCLUDED.userId *)
Definition issueSignIn (userId : Z) (j challenge : string) (lifetimeSeconds : Z) : M unit :=
  statement (fun w =>
    let expires := pg_ms w + lifetimeSeconds * 1000 in
    match find_mfa j (db w) with
    | Some (id, r) =>
        if bool_decide (pc_userId r = userId)
        then (Ok tt, set_db (set_challenge id (mkPasskeyChallenge userId (purpose r) challenge (Some j) expires None) (db w)) w)
        else (Ok tt, w)
    | None =>
        match users (db w) !! userId with
        | None => (Err (QueryFailedError FOREIGN_KEY_VIOLATION), w)
        | Some _ =>
            let '(id, w1) := next_uuid w in
            match passkey_challenges (db w) !! id with
            | Some _ => (Err (QueryFailedError UNIQUE_VIOLATION), w1)
            | None =>
                (Ok tt, set_db (set_challenge id (mkPasskeyChallenge userId purpose_sign_in challenge (Some j) expires None) (db w)) w1)
            end
        end
    end).

(** UPDATE .. SET usedAt = now() WHERE .. AND userId AND usedAt IS NULL AND expiresAt > now() RETURNING challenge *)
Definition spend (which : Db -> option (string * PasskeyChallengeRow)) (userId : Z) : M (option string) :=
  update (fun w =>
    match which (db w) with
    | Some (id, r) =>
        if bool_decide (pc_userId r = userId) && bool_decide (pc_usedAt r = None) && (pg_ms w <? pc_expiresAt r)
        then (Some (pc_challenge r),
              set_challenge id (mkPasskeyChallenge (pc_userId r) (purpose r) (pc_challenge r) (mfaJti r)
                                  (pc_expiresAt r) (Some (pg_ms w))) (db w))
        else (None, db w)
    | None => (None, db w)
    end).

Definition registration_row (id : string) (d : Db) : option (string * PasskeyChallengeRow) :=
  match passkey_challenges d !! id with
  | Some r => if bool_decide (purpose r = purpose_register) then Some (id, r) else None
  | None => None
  end.

Definition sign_in_row (j : string) (d : Db) : option (string * PasskeyChallengeRow) :=
  match find_mfa j d with
  | Some (id, r) => if bool_decide (purpose r = purpose_sign_in) then Some (id, r) else None
  | None => None
  end.

Definition spendRegistration (id : string) (userId : Z) : M (option string) := spend (registration_row id) userId.
Definition spendSignIn (j : string) (userId : Z) : M (option string) := spend (sign_in_row j) userId.

Definition sweep_challenges : M Z :=
  update (fun w =>
    let rows := passkey_challenges (db w) in
    let kept := filter (fun '(_, r) => ~ pc_expiresAt r < pg_ms w) rows in
    (Z.of_nat (size rows) - Z.of_nat (size kept), set_passkey_challenges kept (db w))).
End Challenges.

(** ** The limit *)

Section PasskeyFacts.
Context {P : Platform}.

Definition within_limit (limit : Z) (d : Db) : Prop := forall u, Z.of_nat (size (held_by u d)) <= limit.

Definition limit_step (limit : Z) (d d' : Db) : Prop := within_limit limit d -> within_limit limit d'.
#[export] Instance limit_step_preorder limit : PreOrder (limit_step limit).
Proof. split; [intros d H; exact H|intros d1 d2 d3 H12 H23 H; apply H23, H12, H]. Qed.

Lemma held_size_insert u d id p :
  (size (held_by u (set_passkeys (<[id := p]> (passkeys d)) d)) <=
   size (held_by u d) + if decide (passkey_userId p = u) then 1 else 0)%nat.
Proof.
  unfold held_by. cbn. case_decide as Hu.
  - rewrite map_filter_insert_True by done. rewrite map_size_insert. case_match; unfold Datatypes.id; lia.
  - rewrite map_filter_insert_False by done. rewrite Nat.add_0_r. apply map_subseteq_size.
    apply map_filter_subseteq_mono, delete_subseteq.
Qed.

(** Rewriting a passkey of the same owner adds none. *)
Lemma held_size_update u d id p p' :
  passkeys d !! id = Some p -> passkey_userId p' = passkey_userId p ->
  (size (held_by u (set_passkeys (<[id := p']> (passkeys d)) d)) <= size (held_by u d))%nat.
Proof.
  intros Hp Hu. unfold held_by. cbn. destruct (decide (passkey_userId p = u)) as [He|Hne].
  - rewrite map_filter_insert_True by congruence. rewrite map_size_insert.
    rewrite (proj2 (map_lookup_filter_Some _ _ _ p)); [done|]. by split.
  - rewrite map_filter_insert_False by congruence. apply map_subseteq_size.
    apply map_filter_subseteq_mono, delete_subseteq.
Qed.

(** What an addition leaves in the table. *)
Definition added_to (d : Db) (userId limit : Z) (d' : Db) : Prop :=
  exists id p, Z.of_nat (size (held_by userId d)) < limit /\ passkeys d !! id = None /\ passkey_userId p = userId /\
    map_Forall (fun _ q => credentialId q <> credentialId p) (passkeys d) /\
    d' = set_passkeys (<[id := p]> (passkeys d)) d.

Lemma wp_add_passkey userId c name limit w :
  wp (add_passkey userId c name limit) (fun r w' =>
    match r with
    | Ok (PasskeyAdded p) => added_to (db w) userId limit (db w') /\ passkey_userId p = userId /\ credentialId p = cred_id c
    | Ok PasskeyLimit => db w' = db w /\ limit <= Z.of_nat (size (held_by userId (db w)))
    | Ok PasskeyDuplicate => db w' = db w
    | Err _ => db w' = db w \/ added_to (db w) userId limit (db w')
    end) w.
Proof.
  unfold add_passkey. wp_step. wp_step. wp_step; [|by left].
  destruct (users _ !! userId); [|wp_step; by left]. wp_step. wp_step; [|by left].
  cbn [db count_call]. destruct (Z.leb_spec limit (Z.of_nat (size (held_by userId (db w))))) as [Hle|Hlt].
  { wp_step. split_and!; auto. }
  wp_step. unfold insert_passkey. wp_step; [|by left|by left].
  case_bool_decide as Hdup; [cbn [fst snd]; wp_step; split_and!; auto|]. cbn -[wp bind query].
  destruct (passkeys (db w) !! uuid_of (uuid_next w)) eqn:Eid; [by left|]. cbn -[wp bind query].
  wp_step. wp_step; [|by left]. cbn -[wp]. rewrite lookup_insert_eq. wp_step.
  match goal with |- (added_to _ _ _ ?d /\ _) /\ _ => assert (added_to (db w) userId limit d) as Hadd end.
  { eexists _, _. cbn. split_and!; [done|exact Eid| | |reflexivity]; [done|].
    intros k q Hq Heq. apply Hdup. exists k, q. done. }
  split_and!; auto.
Qed.

Lemma add_passkey_limit userId c name limit : guar (on_db (limit_step limit)) (add_passkey userId c name limit).
Proof.
  apply guar_call. intros w. unfold on_db.
  assert (forall d', added_to (db w) userId limit d' -> limit_step limit (db w) d') as Hadd.
  { intros d' (id & p & Hlt & _ & Hu & _ & ->) Hw u. pose proof (held_size_insert u (db w) id p) as Hs. specialize (Hw u).
    case_decide; [|lia]. assert (u = userId) as -> by congruence. lia. }
  eapply wp_mono; [apply wp_add_passkey|]. cbv beta. intros [[p| |]|e] w'; [|intros [-> _]; reflexivity|intros ->; reflexivity|].
  - intros [H _]. by apply Hadd.
  - intros [->|H]; [reflexivity|by apply Hadd].
Qed.

Lemma remove_passkey_limit userId id limit : guar (on_db (limit_step limit)) (remove_passkey userId id).
Proof.
  apply guar_update; [typeclasses eauto|]. intros w. destruct (passkeys (db w) !! id); [|reflexivity].
  case_bool_decide; [|reflexivity]. intros Hw u. specialize (Hw u). cbn.
  assert (size (held_by u (set_passkeys (delete id (passkeys (db w))) (db w))) <= size (held_by u (db w)))%nat; [|lia].
  apply map_subseteq_size. apply map_filter_subseteq_mono, delete_subseteq.
Qed.

Lemma recordUse_limit id count backed limit : guar (on_db (limit_step limit)) (recordUse id count backed).
Proof.
  apply guar_update; [typeclasses eauto|]. intros w. destruct (passkeys (db w) !! id) as [p|] eqn:E; [|reflexivity].
  destruct (sign_count_advances _ _); [|reflexivity]. intros Hw u. specialize (Hw u). cbn [snd].
  match goal with |- context [<[id := ?q]> _] => pose proof (held_size_update u (db w) id p q E eq_refl) end. lia.
Qed.
End PasskeyFacts.

(** ** Challenges are spent once, sign counts advance *)

Section SpendFacts.
Context {P : Platform}.

(** The check constraint of the table. *)
Definition challenges_ok (d : Db) : Prop :=
  map_Forall (fun _ r => purpose r = purpose_sign_in <-> mfaJti r <> None) (passkey_challenges d).

Definition spent_registration (id : string) (d : Db) : Prop :=
  exists r, passkey_challenges d !! id = Some r /\ purpose r = purpose_register /\ pc_usedAt r <> None.

(** The table keeps its constraint, and a used registration challenge stays used until it is swept. *)
Definition challenges_evolve (d d' : Db) : Prop :=
  challenges_ok d -> challenges_ok d' /\ forall id, spent_registration id d -> spent_registration id d'.
#[export] Instance challenges_evolve_preorder : PreOrder challenges_evolve.
Proof.
  split; [intros d H; auto|]. intros d1 d2 d3 H12 H23 H1. destruct (H12 H1) as [H2 S2]. destruct (H23 H2) as [H3 S3]. auto.
Qed.

Lemma challenges_evolve_insert id r d :
  (purpose r = purpose_sign_in <-> mfaJti r <> None) ->
  (forall r0, passkey_challenges d !! id = Some r0 -> purpose r0 = purpose_register -> pc_usedAt r0 <> None ->
     purpose r = purpose_register /\ pc_usedAt r <> None) ->
  challenges_evolve d (set_challenge id r d).
Proof.
  intros Hr Hold Hok. split.
  - apply map_Forall_insert_2; done.
  - intros id' (r0 & H0 & Hp & Hu). unfold spent_registration. cbn.
    destruct (decide (id = id')) as [<-|Hne].
    + destruct (Hold r0 H0 Hp Hu). exists r. by rewrite lookup_insert_eq.
    + exists r0. by rewrite lookup_insert_ne.
Qed.

Lemma find_mfa_Some j d id r :
  find_mfa j d = Some (id, r) -> passkey_challenges d !! id = Some r /\ mfaJti r = Some j.
Proof.
  unfold find_mfa. destruct (List.filter _ _) as [|[id' r'] l] eqn:E; [done|]. intros [= -> ->].
  assert (In (id, r) (List.filter (fun '(_, r) => bool_decide (mfaJti r = Some j)) (map_to_list (passkey_challenges d)))) as Hin
    by (rewrite E; by left).
  apply filter_In in Hin as [Hin Hj]. apply bool_decide_eq_true in Hj. split; [|done].
  by apply elem_of_map_to_list, list_elem_of_In.
Qed.

Lemma issueRegistration_evolves userId challenge secs :
  guar (on_db challenges_evolve) (issueRegistration userId challenge secs).
Proof.
  apply guar_statement; [typeclasses eauto|]. intros w. destruct (users (db w) !! userId); [|reflexivity].
  cbn -[set_challenge]. destruct (passkey_challenges (db w) !! _) eqn:E; [reflexivity|].
  cbn -[set_challenge]. apply challenges_evolve_insert; [done|]. congruence.
Qed.

Lemma issueSignIn_evolves userId j challenge secs :
  guar (on_db challenges_evolve) (issueSignIn userId j challenge secs).
Proof.
  apply guar_statement; [typeclasses eauto|]. intros w. cbv zeta. destruct (find_mfa j (db w)) as [[id r]|] eqn:Ef.
  - case_bool_decide; [|reflexivity]. apply find_mfa_Some in Ef as [Hr Hj]. cbn -[set_challenge].
    intros Hok. assert (purpose r = purpose_sign_in <-> mfaJti r <> None) as Hc by exact (Hok id r Hr). revert Hok. apply challenges_evolve_insert; cbn.
    + rewrite Hc, Hj. done.
    + intros r0 H0 Hp. assert (r0 = r) as -> by congruence. rewrite Hp in Hc. destruct Hc as [_ Hc]. rewrite Hj in Hc. by discriminate Hc.
  - destruct (users (db w) !! userId); [|reflexivity]. cbn -[set_challenge].
    destruct (passkey_challenges (db w) !! _) eqn:E; [reflexivity|].
    cbn -[set_challenge]. apply challenges_evolve_insert; [done|]. congruence.
Qed.

Lemma spend_evolves which userId :
  (forall d id r, which d = Some (id, r) -> passkey_challenges d !! id = Some r) ->
  guar (on_db challenges_evolve) (spend which userId).
Proof.
  intros Hw. apply guar_update; [typeclasses eauto|]. intros w.
  destruct (which (db w)) as [[id r]|] eqn:E; [|reflexivity]. apply Hw in E.
  destruct (_ && _ && _); [|reflexivity]. cbn -[set_challenge]. intros Hok. assert (purpose r = purpose_sign_in <-> mfaJti r <> None) as Hc by exact (Hok id r E). revert Hok.
  apply challenges_evolve_insert; cbn; [done|]. intros r0 H0 Hp Hu. by simplify_eq.
Qed.

Lemma registration_row_Some i d id r : registration_row i d = Some (id, r) -> i = id /\ passkey_challenges d !! id = Some r /\ purpose r = purpose_register.
Proof.
  unfold registration_row. destruct (passkey_challenges d !! i) eqn:E; [|done]. case_bool_decide; [|done].
  intros [= -> ->]. done.
Qed.

Lemma sign_in_row_Some j d id r : sign_in_row j d = Some (id, r) -> passkey_challenges d !! id = Some r /\ mfaJti r = Some j.
Proof.
  unfold sign_in_row. destruct (find_mfa j d) as [[i r']|] eqn:E; [|done]. case_bool_decide; [|done].
  intros [= -> ->]. by apply find_mfa_Some.
Qed.

Definition registration_count (id : string) (n : nat) (w : World) : Prop :=
  challenges_ok (db w) /\ (n = O \/ (n = 1%nat /\ spent_registration id (db w))).

Lemma registration_count_keeps id w w' : on_db challenges_evolve w w' -> keeps (registration_count id) w w'.
Proof.
  intros He n [Hok Hn]. destruct (He Hok) as [Hok' Hs]. split; [done|]. destruct Hn as [->|[-> Hsp]]; [by left|right; auto].
Qed.

Lemma spendRegistration_paid id userId :
  paid (registration_count id) (fun o : option string => bool_decide (o <> None)) (spendRegistration id userId).
Proof.
  intros w. destruct (spend_evolves (registration_row id) userId) with (w := w) as [Hev _];
    [intros d i r H; apply registration_row_Some in H; tauto|].
  unfold spendRegistration, spend, update, statement in *. cbn in Hev |- *.
  destruct (db_fault (db_calls w)); cbn in Hev |- *; try (left; split; [by apply registration_count_keeps|exact I]).
  - revert Hev. destruct (registration_row id (db w)) as [[i r]|] eqn:E;
      [|intros Hev; left; split; [by apply registration_count_keeps|done]].
    destruct (bool_decide (pc_userId r = userId) && bool_decide (pc_usedAt r = None) && (pg_ms w <? pc_expiresAt r)) eqn:Eb;
      intros Hev; [|left; split; [by apply registration_count_keeps|done]].
    right. split; [|done]. cbn in Hev |- *. apply registration_row_Some in E as (<- & Hr & Hp).
    apply andb_prop in Eb as [[_ Hu]%andb_prop _]. apply bool_decide_eq_true in Hu.
    intros n [Hok [->|[-> (r0 & H0 & _ & Hu0)]]]; [|congruence].
    destruct (Hev Hok) as [Hok' _]. split; [done|]. right. split; [done|].
    eexists. cbn. rewrite lookup_insert_eq. by split_and!.
Qed.

(** *** Sign counts *)

(** A passkey's count never goes back, and its id is never taken by another passkey. *)
Definition count_step (id : string) (d d' : Db) : Prop :=
  match passkeys d !! id with
  | None => passkeys d' !! id = None
  | Some p => match passkeys d' !! id with Some p' => signCount p <= signCount p' | None => True end
  end.

Lemma recordUse_count id id' count backed w :
  (forall n p, passkeys (db w) !! n = Some p -> 0 <= signCount p) ->
  count_step id (db w) (db (run (recordUse id' count backed) w).2).
Proof.
  intros Hnn. assert (count_step id (db w) (db w)) as Hrefl by (unfold count_step; destruct (_ !! id); lia || done).
  apply (run_wp_any (recordUse id' count backed) (fun _ w' => count_step id (db w) (db w'))).
  unfold recordUse. apply wp_update; try done; cbn.
  all: destruct (passkeys (db w) !! id') as [p|] eqn:E; [|done].
  all: destruct (sign_count_advances (signCount p) count) eqn:Ea; [|done]; cbn.
  all: unfold count_step; cbn; destruct (decide (id' = id)) as [<-|Hne]; [|by rewrite lookup_insert_ne].
  all: rewrite E, lookup_insert_eq; cbn; unfold sign_count_advances in Ea; specialize (Hnn _ _ E).
  all: destruct (Z.eqb_spec count 0); lia.
Qed.
End SpendFacts.

(** ** Properties *)

Section PasskeyProperties.
Context {P : Platform}.

(** However many registrations run at once, interleaved with removals and sign-ins and with any
    database calls lost, no account ever holds more passkeys than the limit. *)
Theorem passkeys_never_exceed_limit limit additions w w' ps' :
  within_limit limit (db w) ->
  psteps (on_db (limit_step limit))
    (w, map (fun '(userId, c, name) => add_passkey userId c name limit) additions) (w', ps') ->
  within_limit limit (db w').
Proof.
  intros Hw Hs. eapply (psteps_guar (on_db (limit_step limit)) (w, _) (w', ps')) in Hs as [Hs _];
    [by apply Hs|apply _|apply _|].
  apply Forall_map, Forall_true. intros [[userId c] name]. apply add_passkey_limit.
Qed.

(** Removing a passkey and recording its use never raise the number an account holds, and a use
    is recorded only with a sign count that advances: no passkey's stored count ever goes back. *)
Theorem passkey_use_keeps_limit_and_count limit id count backed userId w :
  (forall n p, passkeys (db w) !! n = Some p -> 0 <= signCount p) ->
  guar (on_db (limit_step limit)) (recordUse id count backed) /\
  guar (on_db (limit_step limit)) (remove_passkey userId id) /\
  (forall other, count_step other (db w) (db (run (recordUse id count backed) w).2)).
Proof.
  intros Hnn. split; [apply recordUse_limit|]. split; [apply remove_passkey_limit|].
  intros other. by apply recordUse_count.
Qed.

End PasskeyProperties.

Module Witness.

Definition user_row (id : Z) : UserRow := mkUserRow (mkUser id "a@x.io" "bcrypt:pw" Customer true (Some "MZXW6YTBOI")) None.
Definition start : World := world_at 1000 (set_users {[7 := user_row 7]} empty_db).
Definition credential (id : string) : PasskeyCredential := mkCredential id [1; 2; 3] 0 ["usb"] multiDevice true.

Lemma start_within limit : 0 <= limit -> within_limit limit (db start).
Proof. intros H u. assert (held_by u (db start) = ∅) as -> by apply map_filter_empty. by rewrite map_size_empty. Qed.

Lemma passkeys_never_exceed_limit_witness :
  let additions := [(7, credential "a", "phone"); (7, credential "b", "key"); (7, credential "c", "pad")] in
  let stop := schedule [0; 1; 2]%nat
    (start, map (fun '(userId, c, name) => @add_passkey sample_platform userId c name 2) additions) in
  size (passkeys (db stop.1)) = 2%nat /\ within_limit 2 (db stop.1).
Proof.
  intros additions stop. split; [vm_compute; reflexivity|].
  apply (@passkeys_never_exceed_limit sample_platform 2 additions start stop.1 stop.2);
    [by apply start_within|]. rewrite <- surjective_pairing. apply schedule_psteps.
Defined.

Lemma passkey_use_keeps_limit_and_count_witness :
  guar (on_db (limit_step 10)) (@recordUse sample_platform "uuid-0" 5 true) /\
  count_step "uuid-0" (db start) (db (run (@recordUse sample_platform "uuid-0" 5 true) start).2).
Proof.
  destruct (@passkey_use_keeps_limit_and_count sample_platform 10 "uuid-0" 5 true 7 start) as (H1 & _ & H3).
  - intros n p H. vm_compute in H. by destruct n.
  - split; [exact H1|apply H3].
Defined.

Definition with_challenge : World := (run (@issueRegistration sample_platform 7 "nonce" 300) start).2.

End Witness.
