(* ===== verification/Auth.v ===== *)
(** * Signing in, the second factor and sign-out

    Models src/src/application/services/auth_usecase.service.ts, every handler with its guards in
    the order of the code, over the user repository and the principal resolver (Accounts.v), the
    attempt ledger (SignInAttempts.v), the token service (Tokens.v) and the client gate's
    [mismatch] and [bound] (Clients.v). *)

From S2P Require Import Prelude JsString Domain Store Totp SignInAttempts Tokens Accounts Clients PasskeyStore.

Local Open Scope string_scope.
Local Open Scope Z_scope.

Record AuthTokenOutput := mkAuthToken {
  out_accessToken : string;
  out_refreshToken : string;
  out_expiresIn : Z;
  out_user : UserEntity;
  out_principalId : string
}.

Inductive LoginOutcome :=
| SessionStarted (session : AuthTokenOutput)
| ChallengeIssued (token : string) (expires : Z) (passkeys : bool)
| EnrolmentIssued (token : string) (expires : Z) (userId : Z).

Definition UNKNOWN_ACCOUNT_HASH : string := "$2b$10$invalidinvalidinvalidinvalidinvalidinvalidinvalidinvalidinv".
Definition bad_credentials : exn := unauthorized "Invalid email or password credentials".

Definition challenge_error (code message : string) : exn := HttpException Unauthorized (Some code) message.

Section Auth.
Context {P : Platform} (cfg : TokenConfig P).
Local Open Scope prog_scope.

Definition checkPassword (user : UserEntity) (password : string) (attempt : Z) (context : CallContext) : M unit :=
  if negb (bcrypt_compare password (passwordHash user)) then
    failed (mkFailure StagePassword wrong_password (user_email user) (Some user) attempt None) context ;;;
    Throw bad_credentials
  else Ret tt.

Definition verifyPassword (email0 password : string) (context : CallContext) : M UserEntity :=
  let email := normalisedEmail email0 in
  attempt <- signIn_admit email ;;
  found <- findByEmail email ;;
  match found with
  | None =>
      _ <- Ret (bcrypt_compare password UNKNOWN_ACCOUNT_HASH) ;;
      failed (mkFailure StagePassword unknown_account email None attempt None) context ;;;
      Throw bad_credentials
  | Some user =>
      checkPassword user password attempt context ;;;
      Ret user
  end.

Definition session_output (user : UserEntity) (principal : string) (p : TokenPair) : AuthTokenOutput :=
  mkAuthToken (accessToken p) (refreshToken p) (expiresIn p) user principal.

Definition startSession (user : UserEntity) (context : CallContext) : M AuthTokenOutput :=
  if requiresTwoFactor (user_role user) && negb (isTwoFactorEnabled user)
  then Throw (PlainError ("refusing to start a full session for admin account " ++ String_of (user_id user) ++
                          ", which has no second factor"))
  else
    client <- of_res (checkedClient (context_client context)) ;;
    principal <- resolveOrMintForUser (subject_of user) ;;
    syncKind principal (user_role user) ;;;
    succeeded (user_email user) ;;;
    p <- issuePair cfg (subject_of user) principal (clientNameOf client) ;;
    Ret (session_output user principal p).

Definition startEnrolment (user : UserEntity) (context : CallContext) : M LoginOutcome :=
  client <- of_res (checkedClient (context_client context)) ;;
  principal <- resolveOrMintForUser (subject_of user) ;;
  syncKind principal (user_role user) ;;;
  succeeded (user_email user) ;;;
  ' (token, expires) <- issueEnrolment cfg (subject_of user) principal (clientNameOf client) ;;
  Ret (EnrolmentIssued token expires (user_id user)).

Definition login (email password : string) (context : CallContext) : M LoginOutcome :=
  user <- verifyPassword email password context ;;
  if isTwoFactorEnabled user then
    principal <- resolveOrMintForUser (subject_of user) ;;
    ' (token, expires) <- issueMfaChallenge cfg (subject_of user) principal ;;
    passkeys <- existsForUser (user_id user) ;;
    Ret (ChallengeIssued token expires passkeys)
  else if requiresTwoFactor (user_role user) then startEnrolment user context
  else
    session <- startSession user context ;;
    Ret (SessionStarted session).

(** An open challenge: its claims, its account and the account's secret. *)
Definition openChallenge (challengeToken : string) : M (Claims * UserEntity * string) :=
  claims <- peekMfaChallenge cfg challengeToken ;;
  refuseSpentMfaChallenge claims ;;;
  found <- findById (uid claims) ;;
  match found with
  | None => Throw (challenge_error "CHALLENGE_INVALID" "The account behind this challenge no longer exists")
  | Some user =>
      match isTwoFactorEnabled user, twoFactorSecret user with
      | true, Some secret =>
          if bool_decide (secret = "")
          then Throw (challenge_error "CHALLENGE_INVALID" "This account does not have two-factor authentication enabled")
          else Ret (claims, user, secret)
      | _, _ => Throw (challenge_error "CHALLENGE_INVALID" "This account does not have two-factor authentication enabled")
      end
  end.

Definition admitAnswer (user : UserEntity) (claims : Claims) : M Z :=
  attempt <- admitChallengeAttempt (user_email user) (jti claims) (exp claims) ;;
  match attempt with
  | None => Throw (challenge_error "CHALLENGE_EXHAUSTED" "This challenge allows no more attempts; sign in again")
  | Some n => Ret n
  end.

(** [acceptedStep(secret, code)] at [Date.now()]. *)
Definition acceptedStep_now (secret code : string) : M (option Z) :=
  now <- Date_now ;;
  of_res (acceptedStep secret code now).

Definition verifyTwoFactor (challengeToken code : string) (context : CallContext) : M AuthTokenOutput :=
  ' (claims, user, secret) <- openChallenge challengeToken ;;
  attempt <- admitAnswer user claims ;;
  step <- acceptedStep_now secret code ;;
  match step with
  | None =>
      failed (mkFailure StageTwoFactor wrong_code (user_email user) (Some user) attempt None) context ;;;
      Throw (challenge_error "WRONG_CODE" "That code is not valid")
  | Some step =>
      consumeMfaChallenge claims ;;;
      fresh <- acceptTwoFactorStep (user_id user) step ;;
      if negb fresh then
        failed (mkFailure StageTwoFactor code_reused (user_email user) (Some user) attempt None) context ;;;
        Throw (challenge_error "CHALLENGE_SPENT" "That code has already been used; sign in again with the next one")
      else startSession user context
  end.

Definition confirmPassword (user : UserEntity) (password : string) (context : CallContext) : M Z :=
  attempt <- signIn_admit (user_email user) ;;
  checkPassword user password attempt context ;;;
  Ret attempt.

Definition register_account (email0 password : string) (context : CallContext) : M AuthTokenOutput :=
  of_res (checkedClient (context_client context)) ;;;
  let email := normalisedEmail email0 in
  existing <- findByEmail email ;;
  match existing with
  | Some _ => Throw (HttpException Conflict None "Email address is already registered")
  | None =>
      salt <- next_random ;;
      saved <- save_user (mkUser 0 email (bcrypt_hash salt password) Customer false None) ;;
      startSession saved context
  end.

Definition TWO_FACTOR_REQUIRED : exn :=
  HttpException Unauthorized (Some "TWO_FACTOR_REQUIRED")
    "An admin account must use two-factor authentication, so this session has ended. Sign in again to set it up.".

(** Every refresh token carries its family. *)
Definition family_of (claims : Claims) : string := default "" (fam claims).

Definition refresh (token : string) (context : CallContext) : M AuthTokenOutput :=
  claims <- peekRefresh cfg token ;;
  client <- of_res (checkedClient (context_client context)) ;;
  if bool_decide (sessionClientDecision (azp claims) client = Mismatch) then
    e <- mismatch (azp claims) client context (uid claims) ;; Throw e
  else
    found <- findById (uid claims) ;;
    match found with
    | None => Throw (unauthorized "The account behind this token no longer exists")
    | Some user =>
        if requiresTwoFactor (user_role user) && negb (isTwoFactorEnabled user) then
          revokeFamily (family_of claims) "two_factor_required" ;;;
          Throw TWO_FACTOR_REQUIRED
        else
          principal <- resolveOrMintForUser (subject_of user) ;;
          r <- catch (rotate cfg token (subject_of user) client) (fun error =>
            match error with
            | ClientMismatchError sessionClient =>
                e <- mismatch sessionClient client context (user_id user) ;; Throw e
            | _ => Throw error
            end) ;;
          match bound r, client with
          | true, Named name => gate_bound name context (user_id user)
          | _, _ => Ret tt
          end ;;;
          Ret (session_output user principal (pair r))
    end.

Definition auth_logout (claims : Claims) (token : option string) : M unit :=
  family <- match token with
            | None => Ret None
            | Some t =>
                r <- peekRefresh cfg t ;;
                if bool_decide (sub r = sub claims) then Ret (fam r)
                else Throw (HttpException Forbidden None "That refresh token belongs to another account")
            end ;;
  logout claims family.

Definition ownAccount (claims : Claims) (userId : Z) : M UserEntity :=
  if negb (uid claims =? userId)
  then Throw (HttpException Forbidden None "This account may only act on its own second factor")
  else
    found <- findById userId ;;
    match found with
    | None => Throw (HttpException NotFound None ("User with ID " ++ String_of userId ++ " not found"))
    | Some user => Ret user
    end.

Definition passwordToConfirm (claims : Claims) (password : option string) : M (option string) :=
  if bool_decide (token_use claims = "mfa_enrolment") then Ret None
  else
    match password with
    | None => Throw (HttpException BadRequest (Some "PASSWORD_REQUIRED")
                "Changing the second factor from a signed-in session needs the account's current password.")
    | Some p => Ret (Some p)
    end.

Definition unprocessable (message : string) : exn := HttpException UnprocessableEntity None message.

Definition acceptCode (user : UserEntity) (secret code : string) (attempt : Z) (context : CallContext) : M unit :=
  step <- acceptedStep_now secret code ;;
  match step with
  | None =>
      failed (mkFailure StageTwoFactor wrong_code (user_email user) (Some user) attempt None) context ;;;
      Throw (unprocessable "That code is not valid")
  | Some step =>
      fresh <- acceptTwoFactorStep (user_id user) step ;;
      if negb fresh then
        failed (mkFailure StageTwoFactor code_reused (user_email user) (Some user) attempt None) context ;;;
        Throw (unprocessable "That code has already been used; wait for the next one")
      else Ret tt
  end.

Definition with_second_factor (enabled : bool) (secret : option string) (u : UserEntity) : UserEntity :=
  mkUser (user_id u) (user_email u) (passwordHash u) (user_role u) enabled secret.

Definition setupTwoFactor (claims : Claims) (userId : Z) (password : option string) (context : CallContext)
    : M (string * string) :=
  user <- ownAccount claims userId ;;
  confirm <- passwordToConfirm claims password ;;
  match confirm with
  | Some p =>
      attempt <- signIn_admit (user_email user) ;;
      checkPassword user p attempt context
  | None => Ret tt
  end ;;;
  if isTwoFactorEnabled user
  then Throw (HttpException Conflict None "Two-factor authentication is already enabled for this account")
  else
    secret <- generateSecret ;;
    save_user (with_second_factor false (Some secret) user) ;;;
    Ret (secret, otpauthUrl (user_email user) secret).

Definition present_secret (user : UserEntity) : option string :=
  match twoFactorSecret user with
  | Some s => if bool_decide (s = "") then None else Some s
  | None => None
  end.

Definition enableTwoFactor (claims : Claims) (userId : Z) (code : string) (password : option string)
    (context : CallContext) : M unit :=
  user <- ownAccount claims userId ;;
  confirm <- passwordToConfirm claims password ;;
  attempt <- signIn_admit (user_email user) ;;
  match confirm with
  | Some p => checkPassword user p attempt context
  | None => Ret tt
  end ;;;
  match present_secret user with
  | None => Throw (HttpException BadRequest None "Request a two-factor secret before enabling it")
  | Some secret =>
      acceptCode user secret code attempt context ;;;
      (if bool_decide (token_use claims = "mfa_enrolment") then
         revokeAllFamiliesForPrincipal (sub claims) "two_factor_enabled" ;;;
         endEnrolment claims
       else revokeOtherSessions (sub claims) (fam claims) "two_factor_enabled") ;;;
      save_user (with_second_factor true (twoFactorSecret user) user) ;;;
      Ret tt
  end.

Definition disableTwoFactor (claims : Claims) (userId : Z) (code password : string) (context : CallContext) : M unit :=
  user <- ownAccount claims userId ;;
  attempt <- signIn_admit (user_email user) ;;
  checkPassword user password attempt context ;;;
  match (if isTwoFactorEnabled user then present_secret user else None) with
  | None => Throw (HttpException Conflict None "Two-factor authentication is not enabled for this account")
  | Some secret =>
      acceptCode user secret code attempt context ;;;
      (if requiresTwoFactor (user_role user) then
         revokeAllFamiliesForPrincipal (sub claims) "two_factor_disabled" ;;;
         revokeAccessJti (jti claims) (exp claims * 1000) "two_factor_disabled"
       else revokeOtherSessions (sub claims) (fam claims) "two_factor_disabled") ;;;
      save_user (with_second_factor false None user) ;;;
      Ret tt
  end.
End Auth.
