(* ===== verification/Handlers.v ===== *)
(** * What every sign-in handler preserves

    The handlers of Auth.v are written over a few database primitives. The class
    [SessionPrimitives R] states what those that start and renew sessions promise of a relation [R]
    on the tables, and [Primitives R] adds the saving of an account; the handlers' guarantees are
    proved once against them, and each relation of the components discharges them. *)

From S2P Require Import Prelude JsString Domain Store Totp SignInAttempts Tokens Accounts Clients PasskeyStore Auth.

Local Open Scope string_scope.
Local Open Scope Z_scope.

Class SessionPrimitives {P : Platform} (R : Db -> Db -> Prop) := {
  prim_preorder :: PreOrder R;
  prim_claim : forall key, guar (on_db R) (claimAccountAttempt key admitAttempt);
  prim_claim_challenge : forall key c, guar (on_db R) (claimChallengeAttempt key admitAttempt c);
  prim_clear : forall key, guar (on_db R) (clearAccountAttempts key);
  prim_new_user : forall u, user_id u = 0 -> guar (on_db R) (save_user u);
  prim_step : forall id step, guar (on_db R) (acceptTwoFactorStep id step);
  prim_principal : forall k n, guar (on_db R) (insert_principal k n);
  prim_alias : forall p s l, guar (on_db R) (insert_alias p s l);
  prim_kind : forall p r, guar (on_db R) (syncKind p r);
  prim_insert_refresh : forall j row, guar (on_db R) (insert_refresh j row);
  prim_mark_used : forall j t r, guar (on_db R) (mark_used j t r);
  prim_revoke : forall sel reason, guar (on_db R) (revokeWhere sel reason);
  prim_insert_revoked : forall j e reason, guar (on_db R) (insert_revoked j e reason)
}.

Class Primitives {P : Platform} (R : Db -> Db -> Prop) := {
  prim_session :: SessionPrimitives R;
  prim_save_user : forall u, guar (on_db R) (save_user u)
}.

#[export] Hint Resolve prim_claim prim_claim_challenge prim_clear prim_save_user prim_new_user prim_step prim_principal prim_alias
  prim_kind prim_insert_refresh prim_mark_used prim_revoke prim_insert_revoked : guar.

#[export] Hint Extern 1 (SessionPrimitives _) => typeclasses eauto : guar.
#[export] Hint Extern 1 (Primitives _) => typeclasses eauto : guar.
#[export] Hint Extern 1 (user_id _ = 0) => reflexivity : guar.

Section Handlers.
Context {P : Platform} (cfg : TokenConfig P) (R : Db -> Db -> Prop) {HS : SessionPrimitives R}.

Lemma signIn_admit_guar email : guar (on_db R) (signIn_admit email).
Proof. unfold signIn_admit. guar_auto. Qed.
Lemma failed_guar f c : guar (on_db R) (failed f c).
Proof. unfold failed. guar_auto. Qed.
Lemma findByEmail_guar email : guar (on_db R) (findByEmail email).
Proof. unfold findByEmail. guar_auto. Qed.
Lemma findById_guar id : guar (on_db R) (findById id).
Proof. unfold findById. guar_auto. Qed.
Hint Resolve signIn_admit_guar failed_guar findByEmail_guar findById_guar : guar.

Lemma resolveOrMint_guar user : guar (on_db R) (resolveOrMintForUser user).
Proof. unfold resolveOrMintForUser, mint_principal. guar_auto. Qed.
Lemma mintPair_guar user p f c : guar (on_db R) (mintPair cfg user p f c).
Proof. unfold mintPair, seconds_now. guar_auto. Qed.
Hint Resolve resolveOrMint_guar mintPair_guar : guar.
Lemma issuePair_guar user p c : guar (on_db R) (issuePair cfg user p c).
Proof. unfold issuePair. guar_auto. Qed.
Lemma checkPassword_guar user p a c : guar (on_db R) (checkPassword user p a c).
Proof. unfold checkPassword. guar_auto. Qed.
Lemma succeeded_guar email : guar (on_db R) (succeeded email).
Proof. unfold succeeded. guar_auto. Qed.
Hint Resolve issuePair_guar checkPassword_guar succeeded_guar : guar.

Lemma startSession_guar user c : guar (on_db R) (startSession cfg user c).
Proof. unfold startSession. guar_auto. Qed.
Lemma startEnrolment_guar user c : guar (on_db R) (startEnrolment cfg user c).
Proof. unfold startEnrolment. guar_auto. Qed.
Lemma verifyPassword_guar e p c : guar (on_db R) (verifyPassword e p c).
Proof. unfold verifyPassword. guar_auto. Qed.
Lemma existsForUser_guar id : guar (on_db R) (existsForUser id).
Proof. unfold existsForUser. guar_auto. Qed.
Hint Resolve startSession_guar startEnrolment_guar verifyPassword_guar existsForUser_guar : guar.

Lemma login_guar e p c : guar (on_db R) (login cfg e p c).
Proof. unfold login. guar_auto. Qed.

Lemma recordRevokedJti_guar j e r : guar (on_db R) (recordRevokedJti j e r).
Proof. unfold recordRevokedJti. guar_auto. Qed.
Hint Resolve recordRevokedJti_guar : guar.
Lemma consume_guar claims : guar (on_db R) (consumeMfaChallenge claims).
Proof. unfold consumeMfaChallenge. guar_auto. Qed.
Lemma openChallenge_guar t : guar (on_db R) (openChallenge cfg t).
Proof. unfold openChallenge. guar_auto. Qed.
Lemma admitAnswer_guar u c : guar (on_db R) (admitAnswer u c).
Proof. unfold admitAnswer, admitChallengeAttempt. guar_auto. Qed.
Lemma acceptedStep_now_guar s c : guar (on_db R) (acceptedStep_now s c).
Proof. unfold acceptedStep_now. guar_auto. Qed.
Hint Resolve consume_guar openChallenge_guar admitAnswer_guar acceptedStep_now_guar : guar.

Lemma verifyTwoFactor_guar t code c : guar (on_db R) (verifyTwoFactor cfg t code c).
Proof. unfold verifyTwoFactor. guar_auto. Qed.
Lemma register_account_guar e p c : guar (on_db R) (register_account cfg e p c).
Proof. unfold register_account. guar_auto. Qed.
Lemma rotate_guar t u c : guar (on_db R) (rotate cfg t u c).
Proof. unfold rotate, rotation, revokeFamily. guar_auto. Qed.
Lemma log_event_guar e : guar (on_db R) (log_event (W := World) e).
Proof. apply guar_emit. typeclasses eauto. Qed.
Hint Resolve rotate_guar log_event_guar : guar.
Lemma refresh_guar t c : guar (on_db R) (refresh cfg t c).
Proof. unfold refresh, mismatch, gate_bound, revokeFamily. guar_auto. Qed.

Lemma logout_guar claims f : guar (on_db R) (logout claims f).
Proof. unfold logout, revokeAccessJti, revokeFamily, revokeAllFamiliesForPrincipal. guar_auto. Qed.
Hint Resolve logout_guar : guar.
Lemma auth_logout_guar claims t : guar (on_db R) (auth_logout cfg claims t).
Proof. unfold auth_logout. guar_auto. Qed.

Lemma ownAccount_guar claims id : guar (on_db R) (ownAccount claims id).
Proof. unfold ownAccount. guar_auto. Qed.
Lemma passwordToConfirm_guar claims p : guar (on_db R) (passwordToConfirm claims p).
Proof. unfold passwordToConfirm. guar_auto. Qed.
Lemma acceptCode_guar u s code a c : guar (on_db R) (acceptCode u s code a c).
Proof. unfold acceptCode. guar_auto. Qed.
Hint Resolve ownAccount_guar passwordToConfirm_guar acceptCode_guar : guar.

Lemma generateSecret_guar : guar (on_db R) generateSecret.
Proof. unfold generateSecret. guar_auto. Qed.
Hint Resolve generateSecret_guar : guar.
Lemma revokeOtherSessions_guar p k r : guar (on_db R) (revokeOtherSessions p k r).
Proof. unfold revokeOtherSessions, revokeAllFamiliesForPrincipal. guar_auto. Qed.
Lemma revokeAll_guar p r : guar (on_db R) (revokeAllFamiliesForPrincipal p r).
Proof. unfold revokeAllFamiliesForPrincipal. guar_auto. Qed.
Lemma revokeAccessJti_guar j e r : guar (on_db R) (revokeAccessJti j e r).
Proof. unfold revokeAccessJti. guar_auto. Qed.
Lemma endEnrolment_guar claims : guar (on_db R) (endEnrolment claims).
Proof. unfold endEnrolment. guar_auto. Qed.
Hint Resolve revokeOtherSessions_guar revokeAll_guar revokeAccessJti_guar endEnrolment_guar : guar.
End Handlers.

Section SecondFactorHandlers.
Context {P : Platform} (R : Db -> Db -> Prop) {HR : Primitives R}.
Hint Resolve signIn_admit_guar checkPassword_guar ownAccount_guar passwordToConfirm_guar acceptCode_guar generateSecret_guar
  revokeOtherSessions_guar revokeAll_guar revokeAccessJti_guar endEnrolment_guar : guar.
Lemma setupTwoFactor_guar claims id p c : guar (on_db R) (setupTwoFactor claims id p c).
Proof. unfold setupTwoFactor. guar_auto. Qed.
Lemma enableTwoFactor_guar claims id code p c : guar (on_db R) (enableTwoFactor claims id code p c).
Proof. unfold enableTwoFactor. guar_auto. Qed.
Lemma disableTwoFactor_guar claims id code p c : guar (on_db R) (disableTwoFactor claims id code p c).
Proof. unfold disableTwoFactor. guar_auto. Qed.
End SecondFactorHandlers.

(** ** Discharging the class

    A relation that says nothing of a table holds of every primitive that writes only that table. *)

Section Frames.
Context {P : Platform} (R : Db -> Db -> Prop) {HR : PreOrder R}.

Definition ignores {V} (set : V -> Db -> Db) : Prop := forall v d, R d (set v d).

Lemma lockAccount_frame key : ignores set_account_sign_in_attempts -> guar (on_db R) (lockAccount key).
Proof.
  intros Hf. unfold lockAccount. guar_auto. apply guar_update; [done|]. intros w. cbn.
  destruct (account_sign_in_attempts (db w) !! key); [reflexivity|apply Hf].
Qed.
Lemma recordAccountAttempt_frame key n u now :
  ignores set_account_sign_in_attempts -> guar (on_db R) (recordAccountAttempt key n u now).
Proof.
  intros Hf. apply guar_update; [done|]. intros w. cbn.
  destruct (account_sign_in_attempts (db w) !! key); [apply Hf|reflexivity].
Qed.
Hint Resolve lockAccount_frame recordAccountAttempt_frame : guar.

Lemma claim_frame key : ignores set_account_sign_in_attempts -> guar (on_db R) (claimAccountAttempt key admitAttempt).
Proof. intros Hf. unfold claimAccountAttempt. guar_auto. Qed.
Lemma claim_challenge_frame key c :
  ignores set_account_sign_in_attempts -> ignores set_two_factor_challenge_attempts ->
  guar (on_db R) (claimChallengeAttempt key admitAttempt c).
Proof.
  intros Ha Hc. unfold claimChallengeAttempt. guar_auto. apply guar_update; [done|]. intros w.
  unfold count_challenge. cbn.
  destruct (_ !! challenge_jti c); [destruct (_ <? _)|]; first [reflexivity|apply Hc].
Qed.
Lemma clear_frame key : ignores set_account_sign_in_attempts -> guar (on_db R) (clearAccountAttempts key).
Proof. intros Hf. apply guar_update; [done|]. intros w. apply Hf. Qed.

Lemma save_user_frame u : ignores set_users -> ignores set_users_next -> guar (on_db R) (save_user u).
Proof.
  intros Hu Hn. unfold save_user. guar_auto. apply guar_statement; [done|]. intros w. cbv zeta.
  destruct (0 <? user_id u); [destruct (email_taken _ _ _); [reflexivity|apply Hu]|].
  destruct (_ || _); [apply Hn|]. cbn. etrans; [apply Hu|apply Hn].
Qed.
Lemma step_frame id step : ignores set_users -> guar (on_db R) (acceptTwoFactorStep id step).
Proof.
  intros Hu. apply guar_update; [done|]. intros w. destruct (users (db w) !! id) as [row|]; [|reflexivity].
  destruct (step_fresh _ _); [apply Hu|reflexivity].
Qed.
Lemma principal_frame k n : ignores set_principals -> guar (on_db R) (insert_principal k n).
Proof.
  intros Hf. apply guar_statement; [done|]. intros w. cbv zeta.
  destruct (principals (db w) !! _); [reflexivity|apply Hf].
Qed.
Lemma alias_frame p s l : ignores set_principal_aliases -> guar (on_db R) (insert_alias p s l).
Proof.
  intros Hf. apply guar_statement; [done|]. intros w.
  destruct (principal_aliases (db w) !! _); [reflexivity|]. destruct (principals (db w) !! _); [apply Hf|reflexivity].
Qed.
Lemma kind_frame p r : ignores set_principals -> guar (on_db R) (syncKind p r).
Proof. intros Hf. apply guar_update; [done|]. intros w. apply Hf. Qed.
Lemma insert_refresh_frame j row : ignores set_refresh_tokens -> guar (on_db R) (insert_refresh j row).
Proof.
  intros Hf. apply guar_statement; [done|]. intros w.
  destruct (refresh_tokens (db w) !! j); [reflexivity|]. destruct (principals (db w) !! _); [apply Hf|reflexivity].
Qed.
Lemma mark_used_frame j t r : ignores set_refresh_tokens -> guar (on_db R) (mark_used j t r).
Proof. intros Hf. apply guar_update; [done|]. intros w. apply Hf. Qed.
Lemma revokeWhere_frame sel reason : ignores set_refresh_tokens -> guar (on_db R) (revokeWhere sel reason).
Proof. intros Hf. unfold revokeWhere. guar_auto. apply guar_update; [done|]. intros w. apply Hf. Qed.
Lemma insert_revoked_frame j e reason : ignores set_revoked_access_tokens -> guar (on_db R) (insert_revoked j e reason).
Proof.
  intros Hf. apply guar_statement; [done|]. intros w. destruct (revoked_access_tokens (db w) !! j); [reflexivity|apply Hf].
Qed.
End Frames.

Ltac frame :=
  first [ apply claim_frame | apply claim_challenge_frame | apply clear_frame | apply save_user_frame | apply step_frame
        | apply principal_frame | apply alias_frame | apply kind_frame | apply insert_refresh_frame | apply mark_used_frame
        | apply revokeWhere_frame | apply insert_revoked_frame ]; [typeclasses eauto|..].

(** The goals of [Primitives R], the handlers' hints and frames to be tried on each. *)
Ltac primitives :=
  split; [split; [typeclasses eauto|..]|]; intros; try match goal with H : user_id _ = 0 |- _ => rename H into Hnew end.

Section Instances.
Context {P : Platform}.

#[export] Instance tokens_primitives : Primitives tokens_evolve.
Proof. primitives; first [solve [auto with guar]|frame; intros ??; by apply tokens_same]. Qed.

#[export] Instance emails_primitives : Primitives emails_step.
Proof. primitives; first [solve [auto with guar]|frame; intros ?? H; exact H]. Qed.

Lemma steps_same d d' : users d' = users d -> steps_evolve d d'.
Proof. intros H id row Hr. exists row. rewrite H. split; [exact Hr|apply step_le_refl]. Qed.

#[export] Instance steps_primitives : Primitives steps_evolve.
Proof. primitives; first [solve [auto with guar]|frame; intros ??; by apply steps_same]. Qed.

#[export] Instance aliases_primitives : Primitives aliases_kept.
Proof.
  primitives;
    first [solve [auto using insert_principal_aliases, insert_alias_aliases with guar]|frame; intros ?? ?? H; exact H].
Qed.

#[export] Instance revocations_primitives : Primitives revocations_kept.
Proof.
  primitives; try (frame; intros ?? ?? H; exact H).
  apply guar_statement; [typeclasses eauto|]. intros w.
  destruct (revoked_access_tokens (db w) !! j) eqn:E; [reflexivity|]. intros j' r' Hr. cbn.
  rewrite lookup_insert_ne by congruence. done.
Qed.

#[export] Instance limit_primitives limit : Primitives (limit_step limit).
Proof. primitives; frame; intros ?? H; exact H. Qed.
End Instances.
