(* ===== verification/SignIn.v ===== *)
(** * Signing in: what the handlers answer

    Theorems about Auth.v (src/src/application/services/auth_usecase.service.ts): when a session, a
    challenge or an enrolment is answered and for which account, whatever other requests do in
    between; that a refresh token renews at most once. *)

From S2P Require Import Prelude JsString Domain Store Sample Keys Totp SignInAttempts Tokens Sessions Accounts Clients PasskeyStore Auth Handlers.

Local Open Scope string_scope.
Local Open Scope Z_scope.

(** Follow a program to the values it returns. *)
Ltac returns_step :=
  lazymatch goal with
  | |- returns _ (bind _ _) => eapply returns_bind; [apply returns_true|intros ? _]
  | |- returns _ (match ?x with _ => _ end) => destruct x eqn:?
  | |- returns _ (Throw _) => exact I
  | |- returns _ (Ret _) => cbn [returns]
  end.

Section Answers.
Context {P : Platform} {L : PlatformLaws P} (cfg : TokenConfig P).

Lemma startSession_returns user context : returns (fun s => out_user s = user /\
  (user_role user = Admin -> isTwoFactorEnabled user = true)) (startSession cfg user context).
Proof.
  unfold startSession. destruct (requiresTwoFactor (user_role user) && _) eqn:E; [exact I|].
  repeat returns_step. split; [done|]. intros Hr. rewrite Hr in E. by destruct (isTwoFactorEnabled user).
Qed.

Lemma startEnrolment_returns user context :
  returns (fun o => exists t e, o = EnrolmentIssued t e (user_id user)) (startEnrolment cfg user context).
Proof. unfold startEnrolment. repeat returns_step. eauto. Qed.

Lemma checkPassword_returns user password attempt context :
  returns (fun _ => bcrypt_compare password (passwordHash user) = true) (checkPassword user password attempt context).
Proof. unfold checkPassword. destruct (bcrypt_compare _ _); cbn [negb]; [done|]. repeat returns_step. Qed.

(** The account the stored row holds, with this email in whatever case and this password. *)
Definition holds_credentials (email password : string) (u : UserEntity) (w : World) : Prop :=
  (exists id row, users (db w) !! id = Some row /\ row_user row = u) /\
  pg_lower (user_email u) = pg_lower (normalisedEmail email) /\
  bcrypt_compare password (passwordHash u) = true.

Definition login_answer (email password : string) (o : LoginOutcome) (w : World) : Prop :=
  match o with
  | SessionStarted s =>
      holds_credentials email password (out_user s) w /\
      isTwoFactorEnabled (out_user s) = false /\ user_role (out_user s) <> Admin
  | ChallengeIssued _ _ _ => exists u, holds_credentials email password u w /\ isTwoFactorEnabled u = true
  | EnrolmentIssued _ _ id => exists u, holds_credentials email password u w /\ user_id u = id /\
      isTwoFactorEnabled u = false /\ user_role u = Admin
  end.

Lemma verifyPassword_secures email password context :
  secures (holds_credentials email password) (verifyPassword email password context).
Proof.
  unfold verifyPassword, findByEmail. apply secures_bind_r. intros attempt.
  apply secures_bind_assoc, secures_query. intros w. right. cbn [bind].
  destruct (find_row _ _) as [row|] eqn:Ef; cbn [fmap option_fmap option_map].
  2: { by repeat returns_step. }
  apply find_row_Some in Ef as (id & Hrow & He). apply bool_decide_eq_true in He.
  eapply returns_bind; [apply checkPassword_returns|]. intros ? Hpw. split_and!; eauto.
Qed.

(** C1: Whatever other requests do between its steps, a login answers with a session only for an
    account that, when it was read, had that email and password, no second factor and a role other
    than admin; with a challenge only for one with a second factor; with an enrolment only for an
    admin without one. *)
Theorem login_answers_the_account email password context :
  secures (login_answer email password) (login cfg email password context).
Proof.
  unfold login. eapply secures_bind; [apply verifyPassword_secures|]. intros user w Hc.
  destruct (isTwoFactorEnabled user) eqn:E2; [repeat returns_step; by exists user|].
  destruct (requiresTwoFactor (user_role user)) eqn:Er.
  - eapply returns_mono; [|apply startEnrolment_returns]. intros o (t & e & ->).
    exists user. apply requiresTwoFactor_Admin in Er. done.
  - eapply returns_bind; [apply startSession_returns|]. intros s [Hs _]. cbn. rewrite Hs.
    split_and!; [done|done|]. intros Ha. by rewrite Ha in Er.
Qed.

(** *** The second factor *)

Lemma peekMfaChallenge_returns token :
  returns (fun c => jwt_decode token = Some (JwtObject c) /\ token_use c = "mfa_challenge") (peekMfaChallenge cfg token).
Proof.
  unfold peekMfaChallenge. eapply returns_bind.
  - apply returns_catch; [apply (returns_verifySignature cfg)|]. by intros [[] | | | | | | | |].
  - intros c Hc. cbv beta in *. destruct (bool_decide _) eqn:E; [|exact I]. apply bool_decide_eq_true in E. done.
Qed.

Lemma peekRefresh_returns token :
  returns (fun c => jwt_decode token = Some (JwtObject c) /\ token_use c = "refresh") (peekRefresh cfg token).
Proof.
  unfold peekRefresh. eapply returns_bind; [apply (returns_verifySignature cfg)|].
  intros c Hc. cbv beta in *. destruct (bool_decide _) eqn:E; [|exact I]. apply bool_decide_eq_true in E. done.
Qed.

Lemma acceptedStep_now_returns secret code :
  returns (fun step => exists now, acceptedStep secret code now = Ok step) (acceptedStep_now secret code).
Proof.
  unfold acceptedStep_now. intros w. cbn. destruct (acceptedStep secret code (node_ms w)) eqn:E; [|exact I].
  cbn. eauto.
Qed.

Definition answered_challenge (token code : string) (s : AuthTokenOutput) (w : World) : Prop :=
  exists claims row secret now step,
    jwt_decode token = Some (JwtObject claims) /\ token_use claims = "mfa_challenge" /\
    users (db w) !! uid claims = Some row /\ row_user row = out_user s /\
    isTwoFactorEnabled (out_user s) = true /\ twoFactorSecret (out_user s) = Some secret /\ secret <> "" /\
    acceptedStep secret code now = Ok (Some step).

Lemma verifyTwoFactor_secures token code context :
  secures (answered_challenge token code) (verifyTwoFactor cfg token code context).
Proof.
  unfold verifyTwoFactor, openChallenge, findById. apply secures_bind_assoc.
  eapply secures_bind_returns; [apply peekMfaChallenge_returns|]. intros claims [Hd Hu].
  apply secures_bind_assoc, secures_bind_r. intros _. apply secures_bind_assoc, secures_bind_assoc, secures_query.
  intros w. cbn [bind]. destruct (users (db w) !! uid claims) as [row|] eqn:Er; cbn [fmap option_fmap option_map]; [right|by left].
  destruct (isTwoFactorEnabled (row_user row)) eqn:E2; [|exact I].
  destruct (twoFactorSecret (row_user row)) as [secret|] eqn:Es; [|exact I].
  destruct (bool_decide (secret = "")) eqn:Ee; [exact I|]. apply bool_decide_eq_false in Ee. cbn [bind].
  returns_step. eapply returns_bind; [apply acceptedStep_now_returns|]. intros [step|] [now Hnow]; [|by repeat returns_step].
  returns_step. returns_step. destruct (negb _); [by repeat returns_step|].
  eapply returns_mono; [|apply startSession_returns]. intros s [Hs _]. exists claims, row, secret, now, step.
  rewrite Hs. by split_and!.
Qed.

Lemma verifyTwoFactor_gated token code context :
  gated (challenge_spent (jti_of token)) (verifyTwoFactor cfg token code context).
Proof.
  unfold verifyTwoFactor, openChallenge. apply gated_bind_assoc.
  eapply gated_bind_returns; [apply peekMfaChallenge_returns|]. intros claims [Hd _].
  apply gated_bind_assoc, gated_bind_r. intros _. apply gated_bind_assoc, gated_bind_r. intros [user|]; [|exact I].
  destruct (isTwoFactorEnabled user); [|exact I]. destruct (twoFactorSecret user) as [secret|]; [|exact I].
  destruct (bool_decide _); [exact I|]. cbn [bind]. apply gated_bind_r. intros attempt. apply gated_bind_r.
  intros [step|]; [|apply gated_bind_r; intros; exact I]. apply gated_bind_l. unfold jti_of. rewrite Hd. apply consume_gated.
Qed.

(** *** Renewal *)

Definition renewed_for (token : string) (client : option RequestClient) (s : AuthTokenOutput) (w : World) : Prop :=
  exists claims row c,
    jwt_decode token = Some (JwtObject claims) /\ token_use claims = "refresh" /\
    client = Some c /\ sessionClientDecision (azp claims) c <> Mismatch /\
    users (db w) !! uid claims = Some row /\ row_user row = out_user s /\
    (user_role (out_user s) = Admin -> isTwoFactorEnabled (out_user s) = true).

Lemma refresh_secures token context :
  secures (renewed_for token (context_client context)) (refresh cfg token context).
Proof.
  unfold refresh, findById. eapply secures_bind_returns; [apply peekRefresh_returns|]. intros claims [Hd Hu].
  destruct (context_client context) as [c|]; [|exact I]. cbn [checkedClient of_res bind].
  case_bool_decide as Hm; [apply secures_bind_r; intros; exact I|].
  apply secures_bind_assoc, secures_query. intros w. cbn [bind].
  destruct (users (db w) !! uid claims) as [row|] eqn:Er; cbn [fmap option_fmap option_map]; [right|by left].
  destruct (requiresTwoFactor (user_role (row_user row)) && _) eqn:E; [by repeat returns_step|].
  repeat returns_step. exists claims, row, c. cbn. split_and!; try done.
  all: intros Ha; rewrite Ha in E; by destruct (isTwoFactorEnabled (row_user row)).
Qed.

Lemma gated_catch_throw {A} spent (m : M A) (h : exn -> M A) :
  gated spent m -> (forall e, gated spent (h e)) -> gated spent (catch m h).
Proof. intros Hm Hh. induction m as [| |X op k IH]; simpl in *; auto. intros w. destruct (Hm w); auto. Qed.

Lemma refresh_gated token context : gated (spent_token (jti_of token)) (refresh cfg token context).
Proof.
  unfold refresh. apply gated_bind_r. intros claims. destruct (context_client context) as [c|]; [|exact I].
  cbn [checkedClient of_res bind]. destruct (bool_decide _); [apply gated_bind_r; intros; exact I|].
  apply gated_bind_r. intros [user|]; [|exact I].
  destruct (_ && _); [apply gated_bind_r; intros; exact I|]. apply gated_bind_r. intros p.
  apply gated_bind_l, gated_catch_throw; [apply (rotate_gated cfg)|].
  intros []; try exact I. apply gated_bind_r. intros; exact I.
Qed.

(** C3: The refresh handler renews a session only for a client the token's session is bound to (or
    may be bound to), for the account the token names, and never for an admin without a second
    factor; and of any number of refreshes with one token, interleaved with every other request and
    with lost database calls, at most one is answered with new tokens. *)
Theorem refresh_renews_once token contexts :
  (forall context, secures (renewed_for token (context_client context)) (refresh cfg token context)) /\
  forall w w' ps',
    psteps (on_db tokens_evolve) (w, map (refresh cfg token) contexts) (w', ps') ->
    (count_good (fun _ => true) ps' <= 1)%nat.
Proof.
  split; [intros; apply refresh_secures|]. intros w w' ps'.
  apply gated_count with (spent := spent_token (jti_of token)); [apply spent_token_evolves|].
  apply Forall_map, Forall_true. intros context. split; [apply refresh_gated|]. apply refresh_guar. typeclasses eauto.
Qed.
End Answers.

(** ** On a concrete service *)

Module Witness.

Abbreviation cfg := Sessions.Witness.cfg.
Definition secret : string := base32Encode (repeat 7 20).
Definition bob_row : UserRow := mkUserRow (mkUser 1 "bob@x.io" "bcrypt:pw" Admin true (Some secret)) None.
Definition carol_row : UserRow := mkUserRow (mkUser 2 "carol@x.io" "bcrypt:pw" Customer false None) None.
Definition start : World := world_at 1000000000 (set_users {[1 := bob_row; 2 := carol_row]} empty_db).
Definition web : CallContext := mkContext None (Some (Named "web")).

(** Bob's challenge, and the code his authenticator shows. *)
Definition asked := run (login cfg "Bob@x.io " "pw" web) start.
Definition challenge : string := match asked.1 with Ok (ChallengeIssued t _ _) => t | _ => "" end.
Definition code : string :=
  match @codeAt sample_platform secret (1000000 / 30) with Ok c => c | Err _ => "" end.

Definition opened := run (login cfg "carol@x.io" "pw" web) start.
Definition token : string := match opened.1 with Ok (SessionStarted s) => out_refreshToken s | _ => "" end.

Lemma refresh_renews_once_witness :
  let stop := schedule (flat_map (fun '(i, n) => repeat i n) [(0, 4); (1, 12); (0, 12)]%nat) (opened.2, map (refresh cfg token) [web; web]) in
  count_good (fun _ => true) stop.2 = 1%nat /\ (count_good (fun _ => true) stop.2 <= 1)%nat.
Proof.
  intros stop. split; [vm_compute; reflexivity|].
  apply (proj2 (@refresh_renews_once _ (sample_laws _) cfg token [web; web]) opened.2 stop.1).
  rewrite <- surjective_pairing. apply schedule_psteps.
Defined.
End Witness.
