(* ===== verification/Login.v ===== *)
(** * The login, branch by branch

    When the database answers every call, [login] (src/src/application/services/auth_usecase.service.ts)
    implements a decision on the ledger's row and the stored account, and what an unauthenticated
    caller sees and leaves behind does not depend on whether the account exists. *)

From S2P Require Import Prelude JsString Domain Store Sample Keys Totp SignInAttempts Tokens Sessions Accounts Clients PasskeyStore Auth Handlers SignIn.

Local Open Scope string_scope.
Local Open Scope Z_scope.

(** What a call leaves alone besides the tables. *)
Definition still (w w' : World) : Prop :=
  node_ms w' = node_ms w /\ pg_ms w' = pg_ms w /\ uuid_next w' = uuid_next w /\ events w' = events w.

#[export] Instance still_preorder : PreOrder still.
Proof. split; [done|]. intros a b c (?&?&?&?) (?&?&?&?). unfold still. split_and!; congruence. Qed.

Section Calls.
Context {P : Platform} {L : PlatformLaws P} (Hrel : reliable).

Lemma wp_lockAccount_rel key (Q : res exn (AttemptState * Z) -> World -> Prop) w :
  (forall w', still w w' -> db w' = locked_db key w -> Q (Ok (locked key w, pg_ms w)) w') ->
  wp (lockAccount key) Q w.
Proof.
  intros Hok. unfold lockAccount. wp_rel Hrel. wp_rel Hrel.
  set (w1 := set_db _ _). assert (db w1 = locked_db key w) as Hdb.
  { unfold w1, locked_db, locked, row_of. cbn. by destruct (account_sign_in_attempts (db w) !! key) eqn:E. }
  wp_rel Hrel. wp_rel Hrel. change (db (count_call w1)) with (db w1). rewrite Hdb, locked_db_row.
  wp_rel Hrel. wp_rel Hrel. wp_rel Hrel. by apply Hok.
Qed.

(** The ledger's answer is the policy's, and an admitted attempt is what it records. *)
Lemma wp_admit_rel email (Q : res exn Z -> World -> Prop) w :
  let key := accountKeyOf email in
  (forall w' s, still w w' -> db w' = db w ->
     admitAttempt (row_of key w) (pg_ms w) = AttemptDelayed s -> Q (Err (SignInDelayedError s)) w') ->
  (forall w' n until, still w w' -> admitAttempt (row_of key w) (pg_ms w) = AttemptAdmitted n until ->
     db w' = insert_attempt key (mkAttempt n (pg_ms w) until) (db w) -> Q (Ok n) w') ->
  wp (signIn_admit email) Q w.
Proof.
  intros key Hd Ha. unfold signIn_admit, claimAccountAttempt. wp_rel Hrel. wp_rel Hrel. wp_rel Hrel.
  apply wp_lockAccount_rel. intros w1 Hs Hdb. fold key in Hdb |- *. rewrite admitAttempt_locked.
  destruct (admitAttempt (row_of key w) (pg_ms w)) as [n until|s] eqn:E.
  - wp_rel Hrel. unfold recordAccountAttempt. wp_rel Hrel. wp_rel Hrel. wp_rel Hrel. eapply Ha; [exact Hs|reflexivity|].
    cbn. by rewrite Hdb, locked_db_row, insert_locked.
  - wp_rel Hrel. wp_rel Hrel. eapply Hd; [exact Hs| |reflexivity]. cbn. rewrite Hdb. unfold locked_db.
    destruct (row_of key w) eqn:Er; [done|]. unfold admitAttempt in E. done.
Qed.

Lemma wp_findByEmail_rel email (Q : res exn (option UserEntity) -> World -> Prop) w :
  (forall w', still w w' -> db w' = db w ->
     Q (Ok (row_user <$> find_row (fun row => bool_decide (pg_lower (user_email (row_user row)) = pg_lower email))
                           (users (db w)))) w') ->
  wp (findByEmail email) Q w.
Proof. intros H. unfold findByEmail. repeat wp_rel Hrel. by apply H. Qed.

(** The identifiers the database and the process draw next are new, and aliases name principals. *)
Definition ids_fresh (w : World) : Prop :=
  (forall n, (uuid_next w <= n)%nat -> principals (db w) !! uuid_of n = None /\ refresh_tokens (db w) !! uuid_of n = None) /\
  (forall key p, principal_aliases (db w) !! key = Some p -> is_Some (principals (db w) !! p)).

(** [resolveOrMintForUser] finds the account's principal or mints one, and touches nothing else. *)
Definition resolved (localId p : string) (w w' : World) : Prop :=
  node_ms w' = node_ms w /\ pg_ms w' = pg_ms w /\ events w' = events w /\ (uuid_next w <= uuid_next w')%nat /\
  resolves_to localId p w' /\ is_Some (principals (db w') !! p) /\
  (resolves_to localId p w \/ principal_aliases (db w) !! ("identity", localId) = None) /\
  exists ps al, db w' = set_principals ps (set_principal_aliases al (db w)).

Lemma wp_resolve_rel user (Q : res exn string -> World -> Prop) w :
  ids_fresh w ->
  (forall p w', resolved (String_of (subject_id user)) p w w' -> ids_fresh w' -> Q (Ok p) w') ->
  wp (resolveOrMintForUser user) Q w.
Proof.
  intros [Hfresh Hal] HQ. unfold resolveOrMintForUser, find_alias. cbv zeta. wp_rel Hrel. wp_rel Hrel.
  set (localId := String_of (subject_id user)) in *. cbn [db count_call].
  destruct (principal_aliases (db w) !! ("identity", localId)) as [p|] eqn:Ea.
  { wp_rel Hrel. apply HQ; [|by split]. unfold resolved. cbn. split_and!; try done; [by eapply Hal|by left|].
    exists (principals (db w)), (principal_aliases (db w)). by destruct (db w). }
  wp_rel Hrel. unfold mint_principal, insert_principal, insert_alias. wp_rel Hrel. wp_rel Hrel. wp_rel Hrel.
  destruct (Hfresh (uuid_next w) ltac:(lia)) as [Hn _].
  cbn -[wp bind statement]. rewrite Hn. cbn -[wp bind statement]. wp_rel Hrel. wp_rel Hrel. cbn -[wp bind statement].
  rewrite Ea, lookup_insert_eq. cbn -[wp bind statement]. wp_rel Hrel. apply HQ.
  - unfold resolved, resolves_to. cbn. rewrite !lookup_insert_eq. split_and!; try done; [lia|by right|by eexists _, _].
  - split; cbn.
    + intros n Hle. destruct (Hfresh n ltac:(lia)) as [H1 H2]. split; [|done].
      destruct (decide (uuid_of (uuid_next w) = uuid_of n)) as [He|Hne].
      * exfalso. apply uuid_inj in He; lia.
      * by rewrite lookup_insert_ne.
    + intros key p Hp. apply lookup_insert_Some in Hp as [[<- <-]|[_ Hp]]; [by rewrite lookup_insert_eq|].
      destruct (Hal _ _ Hp) as [r Hr]. rewrite lookup_insert_is_Some. right. split; [congruence|by exists r].
Qed.

Lemma wp_syncKind_rel p role (Q : res exn unit -> World -> Prop) w :
  ids_fresh w -> is_Some (principals (db w) !! p) ->
  (forall w' ps, still w w' -> db w' = set_principals ps (db w) -> is_Some (ps !! p) -> ids_fresh w' -> Q (Ok tt) w') ->
  wp (syncKind p role) Q w.
Proof.
  intros [Hf Ha] Hp HQ. unfold syncKind. wp_rel Hrel. eapply HQ; [done|reflexivity|by rewrite lookup_alter_is_Some|].
  split; cbn.
  - intros n Hn. destruct (Hf n Hn) as [H1 H2]. split; [|done].
    destruct (decide (p = uuid_of n)) as [->|Hne]; [rewrite lookup_alter_eq, H1|rewrite lookup_alter_ne]; done.
  - intros key q Hq. rewrite lookup_alter_is_Some. by eapply Ha.
Qed.
End Calls.

(** ** What a started session leaves *)

Section Session.
Context {P : Platform} {L : PlatformLaws P} (Hrel : reliable) (cfg : TokenConfig P).

(** A new live session of the account's principal, for the request's client; the ledger forgets
    the account's attempts; no account changes. *)
Definition session_opened (user : UserEntity) (c : RequestClient) (s : AuthTokenOutput) (w w' : World) : Prop :=
  out_user s = user /\ resolves_to (String_of (user_id user)) (out_principalId s) w' /\
  row_of (accountKeyOf (user_email user)) w' = None /\ users (db w') = users (db w) /\ events w' = events w /\
  exists j row, refresh_tokens (db w) !! j = None /\ refresh_tokens (db w') = <[j := row]> (refresh_tokens (db w)) /\
    live row /\ principalId row = out_principalId s /\ token_userId row = user_id user /\ client row = clientNameOf c.

Lemma wp_startSession_rel user request c (Q : res exn AuthTokenOutput -> World -> Prop) w :
  ids_fresh w -> (user_role user = Admin -> isTwoFactorEnabled user = true) ->
  (forall s w', session_opened user c s w w' -> Q (Ok s) w') ->
  wp (startSession cfg user (mkContext request (Some c))) Q w.
Proof.
  intros Hf Hadm HQ. unfold startSession.
  replace (requiresTwoFactor (user_role user) && negb (isTwoFactorEnabled user)) with false
    by (destruct (user_role user); try done; by rewrite Hadm).
  cbn [context_client checkedClient of_res bind]. wp_rel Hrel. apply (wp_resolve_rel Hrel); [done|].
  intros p w1 (Hn1 & Hp1 & He1 & Hu1 & Hr1 & Hs1 & _ & ps & al & Hd1) Hf1.
  wp_rel Hrel. apply (wp_syncKind_rel Hrel); [done|done|]. intros w2 ps' (Hn2 & Hp2 & Hu2 & He2) Hd2 Hs2 Hf2.
  wp_rel Hrel. unfold succeeded, clearAccountAttempts. wp_rel Hrel.
  wp_rel Hrel. unfold issuePair. wp_rel Hrel. wp_rel Hrel. cbn [fst snd].
  apply (wp_mintPair_rel cfg Hrel).
  - cbn. by rewrite Hd2.
  - cbn. destruct Hf2 as [Hf2 _]. apply (Hf2 (S (S (uuid_next w2)))). lia.
  - cbv zeta. intros w3 Hn3 He3 Hd3. wp_rel Hrel. apply HQ. unfold session_opened, session_output, resolves_to, row_of.
    rewrite Hd3. cbn. rewrite Hd2. cbn. rewrite lookup_delete_eq. unfold resolves_to in Hr1.
    split_and!; try done; [by rewrite Hd1|by rewrite He3; cbn; congruence|]. rewrite Hd1. cbn.
    eexists _, _. split_and!; [|reflexivity|done..].
    destruct Hf2 as [Hf2 _]. rewrite Hd2, Hd1 in Hf2. apply (Hf2 (S (S (uuid_next w2)))). lia.
Qed.

(** ** The contract of a login *)

Inductive LoginVerdict := Delayed (seconds : Z) | Refuse | AskSecondFactor (u : UserEntity) | Enrol (u : UserEntity)
  | StartSession (u : UserEntity).

Definition login_verdict (admission : AttemptAdmission) (account : option UserEntity) (password : string) : LoginVerdict :=
  match admission with
  | AttemptDelayed s => Delayed s
  | AttemptAdmitted _ _ =>
      match account with
      | None => Refuse
      | Some u =>
          if negb (bcrypt_compare password (passwordHash u)) then Refuse
          else if isTwoFactorEnabled u then AskSecondFactor u
          else match user_role u with Admin => Enrol u | _ => StartSession u end
      end
  end.

Definition account_of (email : string) (w : World) : option UserEntity :=
  row_user <$> find_row (fun row => bool_decide (pg_lower (user_email (row_user row)) = pg_lower (normalisedEmail email)))
                 (users (db w)).
Definition admission_of (email : string) (w : World) : AttemptAdmission :=
  admitAttempt (row_of (accountKeyOf (normalisedEmail email)) w) (pg_ms w).

(** The tables once the attempt is recorded. *)
Definition attempted (email : string) (w : World) : Db :=
  match admission_of email w with
  | AttemptAdmitted n until =>
      insert_attempt (accountKeyOf (normalisedEmail email)) (mkAttempt n (pg_ms w) until) (db w)
  | AttemptDelayed _ => db w
  end.

Definition login_post (email password : string) (c : RequestClient) (w : World) (r : res exn LoginOutcome) (w' : World) : Prop :=
  match login_verdict (admission_of email w) (account_of email w) password with
  | Delayed s => r = Err (SignInDelayedError s) /\ db w' = db w
  | Refuse => r = Err bad_credentials /\ db w' = attempted email w
  | AskSecondFactor u => exists t b, r = Ok (ChallengeIssued t MFA_CHALLENGE_TTL_SECONDS b) /\
      refresh_tokens (db w') = refresh_tokens (db w) /\ users (db w') = users (db w)
  | Enrol u => exists t, r = Ok (EnrolmentIssued t MFA_ENROLMENT_TTL_SECONDS (user_id u)) /\
      refresh_tokens (db w') = refresh_tokens (db w) /\ users (db w') = users (db w)
  | StartSession u => exists s w1, r = Ok (SessionStarted s) /\ db w1 = attempted email w /\ session_opened u c s w1 w'
  end.

Lemma wp_failed failure context (Q : res exn unit -> World -> Prop) w :
  (forall w', db w' = db w -> Q (Ok tt) w') -> wp (failed failure context) Q w.
Proof. intros HQ. unfold failed. repeat wp_step. by apply HQ. Qed.

Lemma wp_login_rel email password request c w :
  ids_fresh w -> wp (login cfg email password (mkContext request (Some c))) (login_post email password c w) w.
Proof.
  intros Hf. unfold login, verifyPassword, login_post, admission_of, account_of, attempted.
  wp_rel Hrel. wp_rel Hrel. apply (wp_admit_rel Hrel).
  { intros w1 s _ Hdb Ha. unfold admission_of. rewrite Ha. done. }
  intros w1 n until (Hn & Hp & Hu & He) Ha Hd. unfold admission_of. rewrite Ha. cbn [login_verdict].
  assert (ids_fresh w1) as Hf1 by (destruct Hf as [Hf1 Hf2]; split; rewrite Hd, ?Hu; done).
  assert (users (db w1) = users (db w)) as Hus by (by rewrite Hd).
  wp_rel Hrel. apply (wp_findByEmail_rel Hrel). intros w2 (Hn2 & Hp2 & Hu2 & He2) Hd2. rewrite Hus.
  assert (ids_fresh w2) as Hf2 by (destruct Hf1 as [Hfa Hfb]; split; rewrite Hd2, ?Hu2; done).
  destruct (find_row _ _) as [row|]; cbn [fmap option_fmap option_map bind].
  2: { wp_rel Hrel. apply wp_failed. intros w3 Hd3. wp_step. split; [done|]. congruence. }
  wp_rel Hrel. unfold checkPassword. destruct (negb _).
  { wp_rel Hrel. apply wp_failed. intros w3 Hd3. wp_step. split; [done|]. congruence. }
  wp_rel Hrel. wp_rel Hrel. destruct (isTwoFactorEnabled (row_user row)) eqn:E2.
  - wp_rel Hrel. apply (wp_resolve_rel Hrel); [done|]. intros p w3 (_ & _ & _ & _ & _ & _ & _ & ps & al & Hd3) _.
    unfold issueMfaChallenge, seconds_now, existsForUser. repeat wp_rel Hrel. cbn. eexists _, _. split; [done|].
    rewrite Hd3, Hd2, Hd. done.
  - destruct (requiresTwoFactor (user_role (row_user row))) eqn:Er.
    + assert (user_role (row_user row) = Admin) as -> by by apply requiresTwoFactor_Admin.
      unfold startEnrolment. cbn [context_client checkedClient of_res bind]. wp_rel Hrel. apply (wp_resolve_rel Hrel); [done|].
      intros p w3 (_ & _ & _ & _ & _ & Hs3 & _ & ps & al & Hd3) Hf3. wp_rel Hrel. apply (wp_syncKind_rel Hrel); [done..|].
      intros w4 ps' _ Hd4 _ _. unfold succeeded, clearAccountAttempts, issueEnrolment, seconds_now. repeat wp_rel Hrel. cbn.
      eexists. split; [done|]. rewrite Hd4, Hd3, Hd2, Hd. done.
    + wp_rel Hrel. apply wp_startSession_rel; [done| |].
      * intros Hadm. by rewrite Hadm in Er.
      * intros s w3 Hs. wp_rel Hrel. destruct (user_role (row_user row)); try done.
        all: exists s, w2; split; [done|]; split; [congruence|done].
Qed.

(** C10: When the database answers, a login implements its contract on every branch: an attempt the
    ledger delays is refused with the seconds to wait, before the password is looked at, and changes
    nothing; an unknown account or a wrong password gets one and the same refusal and costs one
    attempt; the right password gets a challenge where there is a second factor, an enrolment for an
    admin without one, and otherwise one new live session of the account's principal for the
    request's client, with the account's attempts forgotten. *)
Theorem login_follows_its_verdict email password request c w r w' :
  ids_fresh w -> run (login cfg email password (mkContext request (Some c))) w = (r, w') ->
  login_post email password c w r w'.
Proof. intros Hf Hr. pose proof (wp_login_rel email password request c w Hf) as Hw. unfold wp in Hw. by rewrite Hr in Hw. Qed.

(** C11: An unauthenticated caller cannot tell an unknown account from a wrong password: from two
    databases that differ in whether the account exists (and agree on the ledger and the clock), a
    login with a wrong password answers the same and leaves the same ledger. *)
Theorem unknown_account_indistinguishable email password request c w1 w2 u :
  ids_fresh w1 -> ids_fresh w2 ->
  account_sign_in_attempts (db w1) = account_sign_in_attempts (db w2) -> pg_ms w1 = pg_ms w2 ->
  account_of email w1 = None -> account_of email w2 = Some u -> bcrypt_compare password (passwordHash u) = false ->
  let r1 := run (login cfg email password (mkContext request (Some c))) w1 in
  let r2 := run (login cfg email password (mkContext request (Some c))) w2 in
  r1.1 = r2.1 /\ account_sign_in_attempts (db r1.2) = account_sign_in_attempts (db r2.2).
Proof.
  intros Hf1 Hf2 Hsame Hpg Hnone Hsome Hpw r1 r2.
  assert (admission_of email w1 = admission_of email w2) as Hadm by (unfold admission_of, row_of; by rewrite Hsame, Hpg).
  pose proof (run_wp_any _ _ _ (wp_login_rel email password request c w1 Hf1)) as H1.
  pose proof (run_wp_any _ _ _ (wp_login_rel email password request c w2 Hf2)) as H2.
  fold r1 in H1. fold r2 in H2. unfold login_post in H1, H2. rewrite Hnone, Hadm in H1. rewrite Hsome in H2.
  unfold login_verdict in *. rewrite Hpw in H2. cbn [negb] in H2. unfold attempted in *. rewrite Hadm in H1.
  destruct (admission_of email w2); destruct H1 as [-> ->], H2 as [-> ->]; [|done].
  split; [done|]. cbn. by rewrite Hsame, Hpg.
Qed.
End Session.

(** ** On a concrete service *)

Module Witness.

Abbreviation cfg := Sessions.Witness.cfg.
Abbreviation start := SignIn.Witness.start.
Definition web : RequestClient := Named "web".
Definition deserted : World := world_at 1000000000 empty_db.

Lemma reliable_sample : @reliable sample_platform.
Proof. done. Defined.

Lemma start_fresh : @ids_fresh sample_platform start.
Proof. split; [done|]. intros key p H. cbn in H. by rewrite lookup_empty in H. Defined.
Lemma deserted_fresh : @ids_fresh sample_platform deserted.
Proof. split; [done|]. intros key p H. cbn in H. by rewrite lookup_empty in H. Defined.

Lemma login_follows_its_verdict_witness :
  let entered := run (login cfg "Carol@X.io" "pw" (mkContext None (Some web))) start in
  (exists s, entered.1 = Ok (SessionStarted s)) /\ @login_post sample_platform "Carol@X.io" "pw" web start entered.1 entered.2.
Proof.
  intros entered. split; [eexists; vm_compute; reflexivity|].
  apply (@login_follows_its_verdict sample_platform (sample_laws _) reliable_sample cfg "Carol@X.io" "pw" None web start
    entered.1 entered.2 start_fresh). apply surjective_pairing.
Defined.

Lemma unknown_account_indistinguishable_witness :
  let r1 := run (login cfg "carol@x.io" "guess" (mkContext None (Some web))) deserted in
  let r2 := run (login cfg "carol@x.io" "guess" (mkContext None (Some web))) start in
  r1.1 = r2.1 /\ account_sign_in_attempts (db r1.2) = account_sign_in_attempts (db r2.2).
Proof.
  apply (@unknown_account_indistinguishable sample_platform (sample_laws _) reliable_sample cfg "carol@x.io" "guess" None web
    deserted start (row_user SignIn.Witness.carol_row) deserted_fresh start_fresh); vm_compute; reflexivity.
Defined.
End Witness.
