(* ===== verification/SecondFactor.v ===== *)
(** * Changing the second factor

    Theorems about [enableTwoFactor], [disableTwoFactor] and [setupTwoFactor] of
    src/src/application/services/auth_usecase.service.ts: the second factor of an account changes
    only after the account's other sessions are closed, whichever database calls are lost. *)

From S2P Require Import Prelude JsString Domain Store Sample Keys Totp SignInAttempts Tokens Sessions Accounts Clients PasskeyStore Auth Handlers SignIn.

Local Open Scope string_scope.
Local Open Scope Z_scope.

Section SecondFactor.
Context {P : Platform} {L : PlatformLaws P}.

Lemma wp_guar {A} (R : World -> World -> Prop) {HR : PreOrder R} (m : M A) (Q : res exn A -> World -> Prop) w :
  guar R m -> (forall r w', R w w' -> Q r w') -> wp m Q w.
Proof. intros Hg HQ. unfold wp. apply HQ. apply guar_run; [typeclasses eauto..|done]. Qed.

(** The stored accounts, without the last accepted step, and the sessions that are closed stay. *)
Definition same_accounts (d d' : Db) : Prop := row_user <$> users d' = row_user <$> users d.
#[export] Instance same_accounts_preorder : PreOrder same_accounts.
Proof. unfold same_accounts. split; [done|]. intros a b c H1 H2. congruence. Qed.

Lemma step_same_accounts id step : guar (on_db same_accounts) (acceptTwoFactorStep id step).
Proof.
  apply guar_update; [typeclasses eauto|]. intros w. destruct (users (db w) !! id) as [row|] eqn:E; [|reflexivity].
  destruct (step_fresh _ _); [|reflexivity]. unfold same_accounts. cbn. rewrite fmap_insert. cbn.
  apply insert_id. by rewrite lookup_fmap, E.
Qed.
Lemma admit_same_accounts email : guar (on_db same_accounts) (signIn_admit email).
Proof. unfold signIn_admit. guar_auto. by frame. Qed.
Lemma check_same_accounts user p a c : guar (on_db same_accounts) (checkPassword user p a c).
Proof. unfold checkPassword, failed. guar_auto. Qed.
Lemma findById_same_accounts id : guar (on_db same_accounts) (findById id).
Proof. unfold findById. guar_auto. Qed.
Lemma acceptCode_same_accounts u s code a c : guar (on_db same_accounts) (acceptCode u s code a c).
Proof. unfold acceptCode, acceptedStep_now, failed. guar_auto. apply step_same_accounts. Qed.
Lemma revokeWhere_same_accounts sel reason : guar (on_db same_accounts) (revokeWhere sel reason).
Proof. by frame. Qed.
Lemma recordRevoked_same_accounts j e reason : guar (on_db same_accounts) (recordRevokedJti j e reason).
Proof. unfold recordRevokedJti. guar_auto. by frame. Qed.

(** Every session of the principal other than the kept one is closed. *)
Definition others_closed (principal : string) (kept : option string) (d : Db) : Prop :=
  forall j row, refresh_tokens d !! j = Some row -> principalId row = principal ->
    kept <> Some (familyId row) -> revokedAt row <> None.

Lemma others_closed_same principal kept d d' :
  refresh_tokens d' = refresh_tokens d -> others_closed principal kept d -> others_closed principal kept d'.
Proof. intros He H j row Hr. rewrite He in Hr. by eapply H. Qed.

Lemma wp_revokeOtherSessions principal kept reason w :
  wp (revokeOtherSessions principal kept reason) (fun r w' =>
    same_accounts (db w) (db w') /\ (r = Ok tt -> others_closed principal kept (db w'))) w.
Proof.
  assert (forall sel, (forall t r0, sel (revoke_row t reason r0) = sel r0) ->
    (forall row, principalId row = principal -> kept <> Some (familyId row) -> sel row = true) ->
    wp (revokeWhere sel reason) (fun r w' =>
      same_accounts (db w) (db w') /\ (r = Ok tt -> others_closed principal kept (db w'))) w) as Hw.
  { intros sel Hst Hsel. unfold wp. split.
    - pose proof (guar_run _ _ w _ _ (revokeWhere_same_accounts sel reason)) as Hg. exact Hg.
    - pose proof (run_wp_any _ _ _ (wp_revokeWhere sel reason w Hst)) as (_ & _ & Hc).
      intros Hr j row Hj Hp Hk. eapply Hc; eauto. }
  unfold revokeOtherSessions, revokeAllFamiliesForPrincipal. destruct kept as [kept|]; apply Hw; try done.
  - intros row Hp Hk. rewrite bool_decide_eq_true_2, bool_decide_eq_false_2 by congruence. done.
  - intros row Hp _. by apply bool_decide_eq_true.
Qed.

(** The revocation list does not open a session. *)
Lemma wp_recordRevoked_tail {A} j e reason (k : M A) (Q : res exn A -> World -> Prop) w :
  (forall err w', same_accounts (db w) (db w') -> Q (Err err) w') ->
  (forall w', same_accounts (db w) (db w') -> refresh_tokens (db w') = refresh_tokens (db w) ->
     challenge_spent j w' -> wp k Q w') ->
  wp (bind (recordRevokedJti j e reason) (fun _ => k)) Q w.
Proof.
  intros Herr Hok. wp_step. unfold wp. set (R := fun d d' => same_accounts d d' /\ refresh_tokens d' = refresh_tokens d).
  assert (PreOrder R) as HR.
  { split; [done|]. intros a b c [H1 E1] [H2 E2]. split; [by etrans|congruence]. }
  assert (guar (on_db R) (recordRevokedJti j e reason)) as Hg by (unfold recordRevokedJti; guar_auto; by frame).
  pose proof (guar_run _ _ w _ _ Hg) as [H1 H2].
  pose proof (run_wp_any _ _ _ (wp_revokeAccessJti j e reason w)) as [_ Hj]. unfold revokeAccessJti in Hj.
  rewrite run_bind in Hj. destruct (run (recordRevokedJti j e reason) w) as [[b|err] w']; [|by apply Herr].
  apply Hok; [done..|]. by apply Hj.
Qed.

(** [save_user] writes the account it is given, or nothing. *)
Lemma wp_save_user u w :
  0 < user_id u ->
  wp (save_user u) (fun r w' =>
    (refresh_tokens (db w') = refresh_tokens (db w) /\ revoked_access_tokens (db w') = revoked_access_tokens (db w)) /\
    match r with
    | Ok v => v = u /\ row_user <$> users (db w') !! user_id u = Some u
    | Err _ => db w' = db w \/ row_user <$> users (db w') !! user_id u = Some u
    end) w.
Proof.
  intros Hid. unfold save_user, save_user_row. wp_step. apply Z.ltb_lt in Hid.
  wp_step; cbv zeta; rewrite ?Hid.
  - destruct (email_taken _ _ _); cbn -[wp]; [repeat wp_step; auto|by rewrite lookup_insert_eq].
  - repeat wp_step; auto.
  - destruct (email_taken _ _ _); cbn -[wp]; repeat wp_step; auto. all: cbn; rewrite lookup_insert_eq; auto.
Qed.

(** Rows are numbered by the database, from one. *)
Definition keyed (d : Db) : Prop := forall id row, users d !! id = Some row -> user_id (row_user row) = id /\ 0 < id.

Lemma wp_prefix {A B} (m : M A) (k : A -> M B) (Q : res exn B -> World -> Prop) w0 w :
  same_accounts (db w0) (db w) -> guar (on_db same_accounts) m ->
  (forall e w', same_accounts (db w0) (db w') -> Q (Err e) w') ->
  (forall a w', same_accounts (db w0) (db w') -> wp (k a) Q w') -> wp (bind m k) Q w.
Proof.
  intros Hs Hg Herr Hok. wp_step. eapply (wp_guar (on_db same_accounts)); [exact Hg|].
  intros [a|e] w' Hs'; [apply Hok|apply Herr]; by etrans.
Qed.

Lemma wp_ownAccount claims userId (Q : res exn UserEntity -> World -> Prop) w :
  (forall e w', db w' = db w -> Q (Err e) w') ->
  (forall row w', db w' = db w -> uid claims = userId -> users (db w) !! userId = Some row -> Q (Ok (row_user row)) w') ->
  wp (ownAccount claims userId) Q w.
Proof.
  intros Herr Hok. unfold ownAccount, findById. destruct (Z.eqb_spec (uid claims) userId); cbn [negb]; [|by wp_step; apply Herr].
  wp_step. wp_step. wp_step; [|by apply Herr]. wp_step.
  destruct (users (db (count_call w)) !! userId) as [row|] eqn:E; cbn -[wp]; wp_step; [by apply Hok|by apply Herr].
Qed.

Definition second_factor (id : Z) (d : Db) : option (bool * option string) :=
  (fun u => (isTwoFactorEnabled u, twoFactorSecret u)) <$> (row_user <$> users d !! id).

(** What a change of the second factor leaves: answered, the account has the new factor, the other
    sessions are closed and, where the change ends the token that asked for it ([all]), so is that
    token; not answered, no account has changed or the other sessions are closed. *)
Definition factor_changed (userId : Z) (factor : bool * option string -> Prop) (claims : Claims) (all : bool)
    (w : World) (r : res exn unit) (w' : World) : Prop :=
  let kept := if all then None else fam claims in
  match r with
  | Ok _ => (exists f, second_factor userId (db w') = Some f /\ factor f) /\
            others_closed (sub claims) kept (db w') /\ (all = true -> challenge_spent (jti claims) w')
  | Err _ => same_accounts (db w) (db w') \/ others_closed (sub claims) kept (db w')
  end.

(** The last steps of both handlers: the sessions are closed, then the account is saved. *)
Lemma wp_close_and_save userId (factor : bool * option string -> Prop) claims (all : bool) e reason reason' u w0 w :
  same_accounts (db w0) (db w) -> user_id u = userId -> 0 < userId -> factor (isTwoFactorEnabled u, twoFactorSecret u) ->
  wp (bind (if all then
              bind (revokeAllFamiliesForPrincipal (sub claims) reason) (fun _ =>
              bind (recordRevokedJti (jti claims) e reason') (fun _ => Ret tt))
            else revokeOtherSessions (sub claims) (fam claims) reason)
       (fun _ => bind (save_user u) (fun _ => Ret tt))) (factor_changed userId factor claims all w0) w.
Proof.
  intros Hs Hid Hpos Hfac. set (kept := if all then None else fam claims).
  assert (forall w1, others_closed (sub claims) kept (db w1) -> (all = true -> challenge_spent (jti claims) w1) ->
    wp (bind (save_user u) (fun _ => Ret tt)) (factor_changed userId factor claims all w0) w1) as Hsave.
  { intros w1 Hc Hx. wp_step. eapply wp_mono; [apply wp_save_user; lia|].
    intros [v|err] w2 [[Hr Hv] H]; cbv beta iota in H.
    - wp_step. split; [|split; [by eapply others_closed_same|unfold challenge_spent in *; by rewrite Hv]].
      eexists. unfold second_factor. rewrite Hid in H. destruct H as [_ ->]. done.
    - right. by eapply others_closed_same. }
  wp_step. destruct all.
  - wp_step. eapply wp_mono; [apply (wp_revokeOtherSessions (sub claims) None)|].
    intros [[]|err] w1 [Hs1 Hc1]; [|left; by etrans]. apply wp_recordRevoked_tail.
    + intros err w2 Hs2. left. by etrans; [exact Hs|]; etrans.
    + intros w2 Hs2 Hr2 Hsp. wp_step. apply Hsave; [|done]. eapply others_closed_same; [exact Hr2|by apply Hc1].
  - eapply wp_mono; [apply wp_revokeOtherSessions|]. intros [[]|err] w1 [Hs1 Hc1]; [|left; by etrans].
    apply Hsave; [by apply Hc1|done].
Qed.

Definition enrolling (claims : Claims) : bool := bool_decide (token_use claims = "mfa_enrolment").

(** C9: The second factor of an account is switched on only after the account's other sessions are
    closed: whichever database calls are lost, either no stored account has changed or every
    session of the principal but the one that asked is revoked; and when the handler answers, the
    factor is on, those sessions are closed, and an enrolment token can not be used again. *)
Theorem enabling_closes_other_sessions_first claims userId code password context w r w' :
  keyed (db w) -> run (enableTwoFactor claims userId code password context) w = (r, w') ->
  factor_changed userId (fun f => f.1 = true /\ f.2 <> None) claims (enrolling claims) w r w'.
Proof.
  intros Hkey Hrun. enough (wp (enableTwoFactor claims userId code password context)
    (factor_changed userId (fun f => f.1 = true /\ f.2 <> None) claims (enrolling claims) w) w) as Hw
    by (unfold wp in Hw; by rewrite Hrun in Hw).
  clear Hrun. unfold enableTwoFactor. wp_step. apply wp_ownAccount; [intros e w1 Hd; left; by rewrite Hd|].
  intros row w1 Hd1 Huid Hrow. destruct (Hkey _ _ Hrow) as [Hid Hpos].
  assert (same_accounts (db w) (db w1)) as Hs1 by by rewrite Hd1.
  eapply (wp_prefix _ _ _ w); [exact Hs1|unfold passwordToConfirm; guar_auto|by left|]. intros confirm w2 Hs2.
  eapply (wp_prefix _ _ _ w); [exact Hs2|apply admit_same_accounts|by left|]. intros attempt w3 Hs3.
  eapply (wp_prefix _ _ _ w); [exact Hs3|destruct confirm; [apply check_same_accounts|exact I]|by left|]. intros _ w4 Hs4.
  unfold present_secret. destruct (twoFactorSecret (row_user row)) as [secret|] eqn:Es; [|wp_step; by left].
  destruct (bool_decide (secret = "")); [wp_step; by left|].
  eapply (wp_prefix _ _ _ w); [exact Hs4|apply acceptCode_same_accounts|by left|]. intros _ w5 Hs5.
  by apply (wp_close_and_save userId _ claims (enrolling claims)).
Qed.

(** The second factor is removed only after the account's other sessions are closed (for an
    admin every session, with the access token that asked): whichever database calls are lost,
    either no stored account has changed or those sessions are revoked; and when the handler
    answers, the factor and its secret are gone. *)
Theorem disabling_closes_other_sessions_first claims userId code password context w row r w' :
  keyed (db w) -> users (db w) !! userId = Some row ->
  run (disableTwoFactor claims userId code password context) w = (r, w') ->
  factor_changed userId (fun f => f = (false, None)) claims (requiresTwoFactor (user_role (row_user row))) w r w'.
Proof.
  intros Hkey Hrow Hrun. enough (wp (disableTwoFactor claims userId code password context)
    (factor_changed userId (fun f => f = (false, None)) claims (requiresTwoFactor (user_role (row_user row))) w) w) as Hw
    by (unfold wp in Hw; by rewrite Hrun in Hw).
  clear Hrun. unfold disableTwoFactor. wp_step. apply wp_ownAccount; [intros e w1 Hd; left; by rewrite Hd|].
  intros row' w1 Hd1 Huid Hrow'. assert (row' = row) as -> by congruence. destruct (Hkey _ _ Hrow) as [Hid Hpos].
  assert (same_accounts (db w) (db w1)) as Hs1 by by rewrite Hd1.
  eapply (wp_prefix _ _ _ w); [exact Hs1|apply admit_same_accounts|by left|]. intros attempt w2 Hs2.
  eapply (wp_prefix _ _ _ w); [exact Hs2|apply check_same_accounts|by left|]. intros _ w3 Hs3.
  destruct (if isTwoFactorEnabled _ then _ else None) as [secret|]; [|wp_step; by left].
  eapply (wp_prefix _ _ _ w); [exact Hs3|apply acceptCode_same_accounts|by left|]. intros _ w4 Hs4.
  by apply (wp_close_and_save userId _ claims (requiresTwoFactor (user_role (row_user row)))).
Qed.
End SecondFactor.

(** ** On a concrete service *)

Module Witness.

Abbreviation code := SignIn.Witness.code.
Abbreviation secret := SignIn.Witness.secret.
Abbreviation web := SignIn.Witness.web.

(** An admin with a pending secret and two open sessions; an admin with the factor on. *)
Definition session (family : string) : RefreshTokenRow := mkRefreshRow family "p" 1 None 2000000000 None None None None.
Definition account (enabled : bool) : UserRow := mkUserRow (mkUser 1 "bob@x.io" "bcrypt:pw" Admin enabled (Some secret)) None.
Definition start (enabled : bool) : World :=
  world_at 1000000000 (set_refresh_tokens {["j1" := session "f1"; "j2" := session "f2"]}
    (set_users {[1 := account enabled]} empty_db)).
Definition claims (use : string) : Claims :=
  mkClaims "p" "t" "kinetix" "api" 999000 1000900 use (Some "f1") None 1 None None.

Lemma start_keyed enabled : keyed (db (start enabled)).
Proof. intros id row H. cbn in H. apply lookup_singleton_Some in H as [<- <-]. done. Defined.

Lemma enabling_closes_other_sessions_first_witness :
  let after := run (@enableTwoFactor sample_platform (claims "access") 1 code (Some "pw") web) (start false) in
  after.1 = Ok tt /\
  factor_changed 1 (fun f => f.1 = true /\ f.2 <> None) (claims "access") (enrolling (claims "access")) (start false) after.1 after.2.
Proof.
  intros after. split; [vm_compute; reflexivity|].
  apply (@enabling_closes_other_sessions_first sample_platform (claims "access") 1 code (Some "pw") web (start false));
    [apply start_keyed|apply surjective_pairing].
Defined.

Lemma disabling_closes_other_sessions_first_witness :
  let after := run (@disableTwoFactor sample_platform (claims "access") 1 code "pw" web) (start true) in
  after.1 = Ok tt /\
  factor_changed 1 (fun f => f = (false, None)) (claims "access") true (start true) after.1 after.2.
Proof.
  intros after. split; [vm_compute; reflexivity|].
  apply (@disabling_closes_other_sessions_first sample_platform (claims "access") 1 code "pw" web (start true) (account true));
    [apply start_keyed|vm_compute; reflexivity|apply surjective_pairing].
Defined.
End Witness.
