(* ===== verification/Passkeys.v ===== *)
(** * Passkeys

    Models src/src/application/services/passkey_usecase.service.ts (Section [Usecase]) against the
    interface [PasskeyCeremonyPort] (src/src/domain/ports/passkey_ceremony.port.ts), and
    src/src/infrastructure/webauthn/simple_webauthn_ceremony.adapter.ts (Section [Adapter]), which
    discharges the interface over the @simplewebauthn/server library (the class [WebAuthn]).

    Main results: a two-factor challenge, answered by codes and passkeys in any number and any
    interleaving, starts at most one session; a passkey starts one only when it is among those the
    account holds and its assertion verifies against the challenge that was stored for that
    sign-in; a registration challenge adds at most one passkey. *)

From S2P Require Import Prelude JsString Dates Domain Store Sample Keys Totp SignInAttempts Tokens Sessions Accounts Clients PasskeyStore Auth Handlers SignIn.
From Stdlib Require Import Ascii String.

Local Open Scope string_scope.
Local Open Scope Z_scope.

Record PasskeyAccount := mkPasskeyAccount { userHandle : string; userName : string }.

Inductive PasskeyRegistrationOutcome :=
| RegistrationVerified (c : PasskeyCredential)
| RegistrationRefused (detail : string).

Inductive PasskeyAssertionOutcome :=
| AssertionVerified (p : PasskeyEntity) (count : Z) (backed : bool)
| AssertionRefused (reason : SignInFailureReason) (detail : string).

(** The port. What an authenticator sends is a [Credential]; the options carry a challenge drawn
    from the n-th draw of the process's random bytes. *)
Class PasskeyCeremonyPort := {
  Credential : Type;
  CreationOptions : Type;
  RequestOptions : Type;
  creation_challenge : CreationOptions -> string;
  request_challenge : RequestOptions -> string;
  registrationOptions : PasskeyAccount -> list PasskeyEntity -> Z -> nat -> CreationOptions;
  verifyRegistration : Credential -> string -> PasskeyRegistrationOutcome;
  signInOptions : list PasskeyEntity -> Z -> nat -> RequestOptions;
  verifySignIn : Credential -> string -> list PasskeyEntity -> PasskeyAssertionOutcome
}.

Record PasskeyView := mkPasskeyView {
  view_id : string;
  view_credentialId : string;
  view_name : string;
  view_createdAt : string;
  view_lastUsedAt : option string;
  view_deviceType : PasskeyDeviceType;
  view_backedUp : bool
}.

Definition viewOf (p : PasskeyEntity) : PasskeyView :=
  mkPasskeyView (passkey_id p) (credentialId p) (passkey_name p) (toISOString (passkey_createdAt p))
    (toISOString <$> lastUsedAt p) (deviceType p) (backedUp p).

(** ** The adapter *)

Record RelyingParty := mkRelyingParty { rp_id : string; rp_origin : string; rp_name : string }.

Definition COSE_ES256 : Z := -7.
Definition COSE_RS256 : Z := -257.
Definition PASSKEY_ALGORITHMS : list Z := [COSE_ES256; COSE_RS256].

(** What the adapter asks of the library. *)
Record RegistrationArgs := mkRegistrationArgs {
  ra_rpName : string; ra_rpID : string; ra_userName : string; ra_userID : string; ra_userDisplayName : string;
  ra_timeout : Z; ra_attestationType : string; ra_excludeCredentials : list (string * list string);
  ra_residentKey : string; ra_userVerification : string; ra_supportedAlgorithmIDs : list Z
}.
Record RegistrationCheck := mkRegistrationCheck {
  rc_expectedChallenge : string; rc_expectedOrigin : string; rc_expectedRPID : string;
  rc_requireUserPresence : bool; rc_requireUserVerification : bool; rc_supportedAlgorithmIDs : list Z
}.
Record RegistrationInfo := mkRegistrationInfo {
  ri_id : string; ri_publicKey : list Z; ri_counter : Z; ri_transports : option (list string);
  ri_deviceType : PasskeyDeviceType; ri_backedUp : bool
}.
Record AuthenticationArgs := mkAuthenticationArgs {
  aa_rpID : string; aa_allowCredentials : list (string * list string); aa_userVerification : string; aa_timeout : Z
}.
Record AuthenticationCheck := mkAuthenticationCheck {
  ac_expectedChallenge : string; ac_expectedOrigin : string; ac_expectedRPID : string;
  ac_id : string; ac_publicKey : list Z; ac_counter : Z; ac_transports : list string;
  ac_requireUserVerification : bool
}.
Record AuthenticationInfo := mkAuthenticationInfo { ai_newCounter : Z; ai_backedUp : bool }.

(** The library: [Err] where it throws (with the error's message), [None] where it answers that
    the response is not verified. *)
Class WebAuthn := {
  Response : Type;
  response_id : Response -> option string;
  CreationJSON : Type;
  RequestJSON : Type;
  creation_json_challenge : CreationJSON -> string;
  request_json_challenge : RequestJSON -> string;
  generateRegistrationOptions : RegistrationArgs -> nat -> CreationJSON;
  verifyRegistrationResponse : RegistrationCheck -> Response -> res string (option RegistrationInfo);
  generateAuthenticationOptions : AuthenticationArgs -> nat -> RequestJSON;
  verifyAuthenticationResponse : AuthenticationCheck -> Response -> res string (option AuthenticationInfo)
}.

Section Adapter.
Context {L : WebAuthn} (rp : RelyingParty).

Definition descriptorOf (p : PasskeyEntity) : string * list string := (credentialId p, transports p).

Definition adapter_registrationOptions (account : PasskeyAccount) (held : list PasskeyEntity) (lifetimeSeconds : Z)
    (draw : nat) : CreationJSON :=
  generateRegistrationOptions
    (mkRegistrationArgs (rp_name rp) (rp_id rp) (userName account) (userHandle account) (userName account)
       (lifetimeSeconds * 1000) "none" (map descriptorOf held) "preferred" "required" PASSKEY_ALGORITHMS) draw.

Definition adapter_verifyRegistration (credential : Response) (expectedChallenge : string) : PasskeyRegistrationOutcome :=
  match verifyRegistrationResponse
          (mkRegistrationCheck expectedChallenge (rp_origin rp) (rp_id rp) true true PASSKEY_ALGORITHMS) credential with
  | Err detail => RegistrationRefused detail
  | Ok None => RegistrationRefused "the attestation did not verify"
  | Ok (Some info) =>
      RegistrationVerified
        (mkCredential (ri_id info) (ri_publicKey info) (ri_counter info) (default [] (ri_transports info))
           (ri_deviceType info) (ri_backedUp info))
  end.

Definition adapter_signInOptions (held : list PasskeyEntity) (lifetimeSeconds : Z) (draw : nat) : RequestJSON :=
  generateAuthenticationOptions
    (mkAuthenticationArgs (rp_id rp) (map descriptorOf held) "required" (lifetimeSeconds * 1000)) draw.

Definition adapter_verifySignIn (credential : Response) (expectedChallenge : string) (held : list PasskeyEntity)
    : PasskeyAssertionOutcome :=
  match List.find (fun candidate => bool_decide (response_id credential = Some (credentialId candidate))) held with
  | None => AssertionRefused unknown_passkey "the credential is none of the account's passkeys"
  | Some passkey =>
      match verifyAuthenticationResponse
              (mkAuthenticationCheck expectedChallenge (rp_origin rp) (rp_id rp) (credentialId passkey) (publicKey passkey)
                 (signCount passkey) (transports passkey) true) credential with
      | Err detail => AssertionRefused passkey_refused detail
      | Ok None => AssertionRefused passkey_refused "the signature did not verify"
      | Ok (Some info) => AssertionVerified passkey (ai_newCounter info) (ai_backedUp info)
      end
  end.

Definition SimpleWebAuthnCeremonyAdapter : PasskeyCeremonyPort := {|
  Credential := Response;
  CreationOptions := CreationJSON;
  RequestOptions := RequestJSON;
  creation_challenge := creation_json_challenge;
  request_challenge := request_json_challenge;
  registrationOptions := adapter_registrationOptions;
  verifyRegistration := adapter_verifyRegistration;
  signInOptions := adapter_signInOptions;
  verifySignIn := adapter_verifySignIn
|}.
End Adapter.

(** ** The use case *)

Section Usecase.
Context {P : Platform} {C : PasskeyCeremonyPort} (cfg : TokenConfig P).
Local Open Scope prog_scope.

Definition passkey_ownAccount (claims : Claims) (userId : Z) : M UserEntity :=
  if negb (uid claims =? userId)
  then Throw (HttpException Forbidden None "This account may only act on its own second factor")
  else
    found <- findById userId ;;
    match found with
    | None => Throw (HttpException NotFound None ("User with ID " ++ String_of userId ++ " not found"))
    | Some user => Ret user
    end.

Definition requireTwoFactor (user : UserEntity) : M unit :=
  if negb (isTwoFactorEnabled user)
  then Throw (HttpException Conflict (Some "TWO_FACTOR_REQUIRED")
         "A passkey is added only to an account whose authenticator code is on, so the code is always there.")
  else Ret tt.

Definition limitReached : exn :=
  HttpException Conflict (Some "PASSKEY_LIMIT")
    ("An account holds at most " ++ String_of PASSKEYS_PER_ACCOUNT ++ " passkeys; remove one first.").

Definition passkey_list (claims : Claims) (userId : Z) : M (list PasskeyView) :=
  user <- passkey_ownAccount claims userId ;;
  held <- listForUser (user_id user) ;;
  Ret (map viewOf held).

Definition passkey_registrationOptions (claims : Claims) (userId : Z) (password : string) (context : CallContext)
    : M (string * CreationOptions) :=
  user <- passkey_ownAccount claims userId ;;
  confirmPassword user password context ;;;
  requireTwoFactor user ;;;
  held <- listForUser (user_id user) ;;
  if PASSKEYS_PER_ACCOUNT <=? Z.of_nat (List.length held) then Throw limitReached
  else
    draw <- next_random ;;
    let options := registrationOptions (mkPasskeyAccount (sub claims) (user_email user)) held
                     REGISTRATION_CHALLENGE_SECONDS draw in
    challengeId <- issueRegistration (user_id user) (creation_challenge options) REGISTRATION_CHALLENGE_SECONDS ;;
    Ret (challengeId, options).

Definition passkey_register (claims : Claims) (userId : Z) (challengeId : string) (credential : Credential)
    (name : string) (context : CallContext) : M PasskeyView :=
  user <- passkey_ownAccount claims userId ;;
  requireTwoFactor user ;;;
  expected <- spendRegistration challengeId (user_id user) ;;
  match expected with
  | None => Throw (HttpException BadRequest (Some "PASSKEY_CHALLENGE_INVALID")
              "That passkey challenge is unknown, expired or already used; ask for new options.")
  | Some expectedChallenge =>
      match verifyRegistration credential expectedChallenge with
      | RegistrationRefused detail =>
          emit (LogLine (requestId context) ("passkey_registration_refused: " ++ detail)) ;;;
          Throw (HttpException BadRequest (Some "PASSKEY_INVALID")
            "The authenticator's answer could not be verified, so no passkey was added.")
      | RegistrationVerified c =>
          added <- add_passkey (user_id user) c (trim name) PASSKEYS_PER_ACCOUNT ;;
          match added with
          | PasskeyLimit => Throw limitReached
          | PasskeyDuplicate =>
              Throw (HttpException Conflict (Some "PASSKEY_EXISTS") "That passkey is already registered.")
          | PasskeyAdded p => Ret (viewOf p)
          end
      end
  end.

Definition passkey_remove (claims : Claims) (userId : Z) (passkeyId password : string) (context : CallContext) : M unit :=
  user <- passkey_ownAccount claims userId ;;
  confirmPassword user password context ;;;
  removed <- remove_passkey (user_id user) passkeyId ;;
  if negb removed
  then Throw (HttpException NotFound (Some "PASSKEY_NOT_FOUND") "This account has no passkey with that id.")
  else Ret tt.

Definition passkey_signInOptions (challengeToken : string) : M RequestOptions :=
  ' (claims, user, _) <- openChallenge cfg challengeToken ;;
  held <- listForUser (user_id user) ;;
  match held with
  | [] => Throw (HttpException Conflict (Some "NO_PASSKEYS")
            "This account has no passkey; answer the challenge with the code.")
  | _ =>
      draw <- next_random ;;
      let options := signInOptions held SIGN_IN_CHALLENGE_SECONDS draw in
      issueSignIn (user_id user) (jti claims) (request_challenge options) SIGN_IN_CHALLENGE_SECONDS ;;;
      Ret options
  end.

Definition refused_passkey {A} (user : UserEntity) (attempt : Z) (reason : SignInFailureReason) (detail : string)
    (context : CallContext) : M A :=
  failed (mkFailure StagePasskey reason (user_email user) (Some user) attempt (Some detail)) context ;;;
  Throw (HttpException Unauthorized (Some "PASSKEY_REFUSED")
    "That passkey was not accepted. Ask for new passkey options and try again, or answer with the code.").

Definition passkey_verifySignIn (challengeToken : string) (credential : Credential) (context : CallContext)
    : M AuthTokenOutput :=
  ' (claims, user, _) <- openChallenge cfg challengeToken ;;
  attempt <- admitAnswer user claims ;;
  expected <- spendSignIn (jti claims) (user_id user) ;;
  match expected with
  | None =>
      refused_passkey user attempt no_passkey_challenge "no passkey options are open for this challenge" context
  | Some expectedChallenge =>
      held <- listForUser (user_id user) ;;
      match verifySignIn credential expectedChallenge held with
      | AssertionRefused reason detail => refused_passkey user attempt reason detail context
      | AssertionVerified passkey count backed =>
          consumeMfaChallenge claims ;;;
          advanced <- recordUse (passkey_id passkey) count backed ;;
          if negb advanced then
            failed (mkFailure StagePasskey sign_count_regressed (user_email user) (Some user) attempt None) context ;;;
            Throw (HttpException Unauthorized (Some "CHALLENGE_SPENT")
              "That passkey signed another sign-in at the same moment; sign in again")
          else startSession cfg user context
      end
  end.
End Usecase.

(** ** What the handlers preserve *)

Class PasskeySessionPrimitives {P : Platform} (R : Db -> Db -> Prop) := {
  passkey_session :: SessionPrimitives R;
  prim_use : forall id n b, guar (on_db R) (recordUse id n b);
  prim_issue_sign_in : forall u j c s, guar (on_db R) (issueSignIn u j c s);
  prim_spend_sign_in : forall j u, guar (on_db R) (spendSignIn j u)
}.

Class PasskeyPrimitives {P : Platform} (R : Db -> Db -> Prop) := {
  passkey_sign_in :: PasskeySessionPrimitives R;
  passkey_primitives :: Primitives R;
  prim_add : forall u c name, guar (on_db R) (add_passkey u c name PASSKEYS_PER_ACCOUNT);
  prim_remove : forall u id, guar (on_db R) (remove_passkey u id);
  prim_issue_registration : forall u c s, guar (on_db R) (issueRegistration u c s);
  prim_spend_registration : forall id u, guar (on_db R) (spendRegistration id u)
}.

#[export] Hint Resolve prim_add prim_remove prim_use prim_issue_registration prim_issue_sign_in prim_spend_registration
  prim_spend_sign_in : guar.

#[export] Hint Extern 1 (PasskeySessionPrimitives _) => typeclasses eauto : guar.
#[export] Hint Extern 1 (PasskeyPrimitives _) => typeclasses eauto : guar.

Section PasskeyHandlers.
Context {P : Platform} (R : Db -> Db -> Prop) {HS : SessionPrimitives R}.
Hint Resolve findById_guar signIn_admit_guar checkPassword_guar openChallenge_guar admitAnswer_guar failed_guar
  consume_guar startSession_guar : guar.

Lemma listForUser_guar id : guar (on_db R) (listForUser id).
Proof. unfold listForUser. guar_auto. Qed.
Lemma passkey_ownAccount_guar claims id : guar (on_db R) (passkey_ownAccount claims id).
Proof. unfold passkey_ownAccount. guar_auto. Qed.
Lemma confirmPassword_guar u p c : guar (on_db R) (confirmPassword u p c).
Proof. unfold confirmPassword. guar_auto. Qed.
Lemma requireTwoFactor_guar u : guar (on_db R) (requireTwoFactor u).
Proof. unfold requireTwoFactor. guar_auto. Qed.
Lemma refused_passkey_guar {A} u a r d c : guar (on_db R) (@refused_passkey P A u a r d c).
Proof. unfold refused_passkey. guar_auto. Qed.
Hint Resolve listForUser_guar passkey_ownAccount_guar confirmPassword_guar requireTwoFactor_guar refused_passkey_guar : guar.

Lemma passkey_list_guar claims id : guar (on_db R) (passkey_list claims id).
Proof. unfold passkey_list. guar_auto. Qed.
End PasskeyHandlers.

Section PasskeySignIn.
Context {P : Platform} {C : PasskeyCeremonyPort} (cfg : TokenConfig P) (R : Db -> Db -> Prop) {HR : PasskeySessionPrimitives R}.
Hint Resolve findById_guar signIn_admit_guar checkPassword_guar openChallenge_guar admitAnswer_guar failed_guar
  consume_guar startSession_guar listForUser_guar passkey_ownAccount_guar confirmPassword_guar requireTwoFactor_guar
  refused_passkey_guar : guar.
Lemma passkey_signInOptions_guar t : guar (on_db R) (passkey_signInOptions cfg t).
Proof. unfold passkey_signInOptions. guar_auto. Qed.
Lemma passkey_verifySignIn_guar t cr c : guar (on_db R) (passkey_verifySignIn cfg t cr c).
Proof. unfold passkey_verifySignIn. guar_auto. Qed.
End PasskeySignIn.

Section PasskeyOwner.
Context {P : Platform} {C : PasskeyCeremonyPort} (R : Db -> Db -> Prop) {HR : PasskeyPrimitives R}.
Hint Resolve findById_guar signIn_admit_guar checkPassword_guar openChallenge_guar admitAnswer_guar failed_guar
  consume_guar startSession_guar listForUser_guar passkey_ownAccount_guar confirmPassword_guar requireTwoFactor_guar
  refused_passkey_guar : guar.
Lemma passkey_registrationOptions_guar claims id p c : guar (on_db R) (passkey_registrationOptions claims id p c).
Proof. unfold passkey_registrationOptions. guar_auto. Qed.
Lemma passkey_register_guar claims id ch cr n c : guar (on_db R) (passkey_register claims id ch cr n c).
Proof. unfold passkey_register. guar_auto. Qed.
Lemma passkey_remove_guar claims id pid p c : guar (on_db R) (passkey_remove claims id pid p c).
Proof. unfold passkey_remove. guar_auto. Qed.
End PasskeyOwner.

(** *** Discharging the class *)

Section PasskeyFrames.
Context {P : Platform} (R : Db -> Db -> Prop) {HR : PreOrder R}.

Lemma remove_passkey_frame u id : ignores R set_passkeys -> guar (on_db R) (remove_passkey u id).
Proof.
  intros Hf. apply guar_update; [done|]. intros w. destruct (passkeys (db w) !! id); [|reflexivity].
  case_bool_decide; [apply Hf|reflexivity].
Qed.
Lemma recordUse_frame id n b : ignores R set_passkeys -> guar (on_db R) (recordUse id n b).
Proof.
  intros Hf. apply guar_update; [done|]. intros w. destruct (passkeys (db w) !! id); [|reflexivity].
  destruct (sign_count_advances _ _); [apply Hf|reflexivity].
Qed.
Lemma add_passkey_frame u c n limit : ignores R set_passkeys -> guar (on_db R) (add_passkey u c n limit).
Proof.
  intros Hf. unfold add_passkey, insert_passkey. guar_auto. apply guar_statement; [done|]. intros w.
  case_bool_decide; [reflexivity|]. cbn. destruct (passkeys (db w) !! _); [reflexivity|apply Hf].
Qed.
Lemma issueRegistration_frame u c s : ignores R set_passkey_challenges -> guar (on_db R) (issueRegistration u c s).
Proof.
  intros Hf. apply guar_statement; [done|]. intros w. destruct (users (db w) !! u); [|reflexivity]. cbn.
  destruct (passkey_challenges (db w) !! _); [reflexivity|apply Hf].
Qed.
Lemma issueSignIn_frame u j c s : ignores R set_passkey_challenges -> guar (on_db R) (issueSignIn u j c s).
Proof.
  intros Hf. apply guar_statement; [done|]. intros w. cbv zeta. destruct (find_mfa j (db w)) as [[id r]|].
  - case_bool_decide; [apply Hf|reflexivity].
  - destruct (users (db w) !! u); [|reflexivity]. cbn. destruct (passkey_challenges (db w) !! _); [reflexivity|apply Hf].
Qed.
Lemma spend_frame which u : ignores R set_passkey_challenges -> guar (on_db R) (spend which u).
Proof.
  intros Hf. apply guar_update; [done|]. intros w. destruct (which (db w)) as [[id r]|]; [|reflexivity].
  destruct (_ && _ && _); [apply Hf|reflexivity].
Qed.
End PasskeyFrames.

Ltac passkey_frame :=
  first [ apply remove_passkey_frame | apply recordUse_frame | apply add_passkey_frame | apply issueRegistration_frame
        | apply issueSignIn_frame | apply spend_frame ]; [typeclasses eauto|..].

(** The goals of [PasskeyPrimitives R]. *)
Ltac passkey_primitives := split; [split; [typeclasses eauto|..]|typeclasses eauto|..]; intros.

Section PasskeyInstances.
Context {P : Platform}.

#[export] Instance passkey_tokens : PasskeyPrimitives tokens_evolve.
Proof. passkey_primitives; passkey_frame; intros ??; by apply tokens_same. Qed.
#[export] Instance passkey_emails : PasskeyPrimitives emails_step.
Proof. passkey_primitives; passkey_frame; intros ?? H; exact H. Qed.
#[export] Instance passkey_steps : PasskeyPrimitives steps_evolve.
Proof. passkey_primitives; passkey_frame; intros ??; by apply steps_same. Qed.
#[export] Instance passkey_aliases : PasskeyPrimitives aliases_kept.
Proof. passkey_primitives; passkey_frame; intros ?? ?? H; exact H. Qed.
#[export] Instance passkey_revocations : PasskeyPrimitives revocations_kept.
Proof. passkey_primitives; passkey_frame; intros ?? ?? H; exact H. Qed.

#[export] Instance passkey_limit : PasskeyPrimitives (limit_step PASSKEYS_PER_ACCOUNT).
Proof.
  passkey_primitives;
    first [apply add_passkey_limit|apply remove_passkey_limit|apply recordUse_limit|passkey_frame; intros ?? H; exact H].
Qed.

#[export] Instance challenges_primitives : Primitives challenges_evolve.
Proof. primitives; frame; intros ?? H; auto. Qed.
#[export] Instance passkey_challenges_kept : PasskeyPrimitives challenges_evolve.
Proof.
  passkey_primitives; try (passkey_frame; intros ?? H; auto; fail).
  - apply issueSignIn_evolves.
  - apply spend_evolves. intros d i r H. apply sign_in_row_Some in H. tauto.
  - apply issueRegistration_evolves.
  - apply spend_evolves. intros d i r H. apply registration_row_Some in H. tauto.
Qed.
End PasskeyInstances.

(** ** Answers to a challenge *)

Section Answers.
Context {P : Platform} {PL : PlatformLaws P} {C : PasskeyCeremonyPort} (cfg : TokenConfig P).

Inductive Answer := CodeAnswer (code : string) | PasskeyAnswer (credential : Credential).

Definition answer (token : string) (a : Answer) (context : CallContext) : M AuthTokenOutput :=
  match a with
  | CodeAnswer code => verifyTwoFactor cfg token code context
  | PasskeyAnswer credential => passkey_verifySignIn cfg token credential context
  end.

Lemma openChallenge_returns token :
  returns (fun '(claims, user, secret) =>
    jwt_decode token = Some (JwtObject claims) /\ token_use claims = "mfa_challenge" /\ isTwoFactorEnabled user = true)
    (openChallenge cfg token).
Proof.
  unfold openChallenge. eapply returns_bind; [apply peekMfaChallenge_returns|]. intros claims [Hd Hu].
  returns_step. returns_step. destruct a0 as [user|]; [|exact I].
  destruct (isTwoFactorEnabled user) eqn:E; [|exact I]. destruct (twoFactorSecret user); [|exact I].
  destruct (bool_decide _); [exact I|]. done.
Qed.

Lemma verifySignIn_gated token credential context :
  gated (challenge_spent (jti_of token)) (passkey_verifySignIn cfg token credential context).
Proof.
  unfold passkey_verifySignIn. eapply gated_bind_returns; [apply openChallenge_returns|].
  intros [[claims user] secret] (Hd & _). apply gated_bind_r. intros attempt. apply gated_bind_r.
  intros [expected|]; [|apply gated_bind_r; intros; exact I]. apply gated_bind_r. intros held.
  destruct (verifySignIn credential expected held); [|apply gated_bind_r; intros; exact I].
  apply gated_bind_l. unfold jti_of. rewrite Hd. apply consume_gated.
Qed.

(** C2: Of any number of answers to one two-factor challenge, by code or by passkey, right or wrong,
    interleaved with each other and with every other request and with lost database calls, at most
    one starts a session; and a code starts one only for the account the challenge names, with the
    second factor on, when it is the code of that account's secret. *)
Theorem challenge_starts_one_session token answers :
  (forall code context, secures (answered_challenge token code) (answer token (CodeAnswer code) context)) /\
  forall w w' ps',
    psteps (on_db revocations_kept) (w, map (fun '(a, context) => answer token a context) answers) (w', ps') ->
    (count_good (fun _ => true) ps' <= 1)%nat.
Proof.
  split; [intros; apply verifyTwoFactor_secures; typeclasses eauto|]. intros w w' ps'.
  apply gated_count with (spent := challenge_spent (jti_of token)).
  - intros w1 w2 Hk [r Hr]. exists r. by apply Hk.
  - apply Forall_map, Forall_true. intros [[code|credential] context]; split.
    + apply verifyTwoFactor_gated.
    + apply verifyTwoFactor_guar. typeclasses eauto.
    + apply verifySignIn_gated.
    + apply passkey_verifySignIn_guar. typeclasses eauto.
Qed.

(** Of any number of registrations that present one registration challenge at once, whoever
    presents it and with whatever credential, interleaved with every other request and with lost
    database calls, at most one adds a passkey. *)
Theorem registration_challenge_adds_one_passkey challengeId requests w w' ps' :
  challenges_ok (db w) ->
  psteps (on_db challenges_evolve)
    (w, map (fun '(claims, userId, credential, name, context) =>
               passkey_register claims userId challengeId credential name context) requests) (w', ps') ->
  (count_good (fun _ => true) ps' <= 1)%nat.
Proof.
  intros Hok Hs.
  edestruct (counted_bound (E := exn) (A := PasskeyView) (on_db challenges_evolve) (registration_count challengeId)
    (fun _ => true)) as (k & Hk & Hc); [..|exact Hs|].
  - apply registration_count_keeps.
  - split; [done|by left].
  - apply Forall_map, Forall_true. intros [[[[claims userId] credential] name] context].
    assert (forall A (m : M A), guar (on_db challenges_evolve) m -> guar (keeps (registration_count challengeId)) m) as Hkeep.
    { intros A m. apply guar_mono. apply registration_count_keeps. }
    unfold passkey_register. apply paid_bind_guar; [apply Hkeep, passkey_ownAccount_guar; typeclasses eauto|]. intros user.
    apply paid_bind_guar; [apply Hkeep, requireTwoFactor_guar|]. intros _.
    eapply paid_bind; [apply spendRegistration_paid| |].
    + intros expected. apply Hkeep. guar_auto.
    + intros [expected|] Hg; [done|exact I].
  - destruct Hk as [_ [->|[-> _]]]; lia.
Qed.
End Answers.

(** ** Sign-in with a passkey *)

Section Assertion.
Context {P : Platform} {PL : PlatformLaws P} {L : WebAuthn} (rp : RelyingParty) (cfg : TokenConfig P).

(** The library verified the response, user verification required, against this challenge, the
    service's origin and relying party, and the passkey's stored key and count. *)
Definition asserted (credential : Response) (expected : string) (p : PasskeyEntity) : Prop :=
  response_id credential = Some (credentialId p) /\
  exists info, verifyAuthenticationResponse
    (mkAuthenticationCheck expected (rp_origin rp) (rp_id rp) (credentialId p) (publicKey p) (signCount p) (transports p) true)
    credential = Ok (Some info).

Lemma adapter_verifySignIn_sound credential expected held p n b :
  adapter_verifySignIn rp credential expected held = AssertionVerified p n b -> p ∈ held /\ asserted credential expected p.
Proof.
  unfold adapter_verifySignIn, asserted. destruct (List.find _ held) as [q|] eqn:Ef; [|done].
  apply find_some in Ef as [Hin Hid]. apply bool_decide_eq_true in Hid.
  destruct (verifyAuthenticationResponse _ _) as [[info|]|] eqn:Ev; try done. intros [= <- _ _].
  split; [by apply list_elem_of_In|]. eauto.
Qed.

Lemma insert_sorted_elem p q l : p ∈ insert_sorted q l <-> p = q \/ p ∈ l.
Proof.
  induction l as [|x l IH]; simpl; [by rewrite elem_of_cons|].
  destruct (passkey_before q x); rewrite ?elem_of_cons, ?IH, ?elem_of_cons; tauto.
Qed.

Lemma sort_passkeys_elem p l : p ∈ sort_passkeys l <-> p ∈ l.
Proof. induction l as [|q l IH]; simpl; [done|]. rewrite insert_sorted_elem, IH, elem_of_cons. done. Qed.

Lemma listed_held userId d p :
  p ∈ sort_passkeys (map snd (map_to_list (held_by userId d))) ->
  exists id, passkeys d !! id = Some p /\ passkey_userId p = userId.
Proof.
  rewrite sort_passkeys_elem. intros ([id q] & -> & Hq)%list_elem_of_fmap. apply elem_of_map_to_list in Hq.
  apply map_lookup_filter_Some in Hq as [Hq Hu]. eauto.
Qed.

Definition of_challenge (token : string) (claims : Claims) (s : AuthTokenOutput) : Prop :=
  jwt_decode token = Some (JwtObject claims) /\ token_use claims = "mfa_challenge" /\ isTwoFactorEnabled (out_user s) = true.

(** The challenge the assertion answers is the one stored for this sign-in, and it is spent now. *)
Definition stored_challenge_asserted (token : string) (credential : Response) (s : AuthTokenOutput) (w : World) : Prop :=
  exists claims id r p, of_challenge token claims s /\
    passkey_challenges (db w) !! id = Some r /\ mfaJti r = Some (jti claims) /\ pc_userId r = user_id (out_user s) /\
    pc_usedAt r <> None /\ asserted credential (pc_challenge r) p.

(** The passkey is one the account holds. *)
Definition held_passkey_asserted (credential : Response) (s : AuthTokenOutput) (w : World) : Prop :=
  exists id p expected, passkeys (db w) !! id = Some p /\ passkey_userId p = user_id (out_user s) /\
    asserted credential expected p.

Let C : PasskeyCeremonyPort := SimpleWebAuthnCeremonyAdapter rp.

(** After the assertion is verified, whatever is returned is a session of the account. *)
Lemma verified_returns claims user attempt p n b context :
  returns (fun s => out_user s = user)
    (bind (consumeMfaChallenge claims) (fun _ => bind (recordUse (passkey_id p) n b) (fun advanced =>
       if negb advanced then
         bind (failed (mkFailure StagePasskey sign_count_regressed (user_email user) (Some user) attempt None) context) (fun _ =>
         Throw (HttpException Unauthorized (Some "CHALLENGE_SPENT")
           "That passkey signed another sign-in at the same moment; sign in again"))
       else startSession cfg user context))).
Proof.
  returns_step. returns_step. destruct (negb _); [by repeat returns_step|].
  eapply returns_mono; [|apply startSession_returns]. by intros s [-> _].
Qed.

Lemma spendSignIn_secures {B} (Phi : B -> World -> Prop) j userId (k : option string -> M B) :
  secures Phi (k None) ->
  (forall w id r, passkey_challenges (db w) !! id = Some r -> mfaJti r = Some j -> pc_userId r = userId ->
     pc_usedAt r <> None -> returns (fun b => Phi b w) (k (Some (pc_challenge r)))) ->
  secures Phi (bind (spendSignIn j userId) k).
Proof.
  intros Hnone Hsome. apply secures_update. intros w.
  destruct (sign_in_row j _) as [[id r]|] eqn:E; [|by left]. apply sign_in_row_Some in E as [Hr Hj].
  destruct (bool_decide _ && _ && _) eqn:Eb; [right|by left].
  apply andb_prop in Eb as [[Hu _]%andb_prop _]. apply bool_decide_eq_true in Hu. cbn [fst snd].
  eapply (Hsome _ id (mkPasskeyChallenge _ _ _ _ _ _)); [cbn; apply lookup_insert_eq|done..].
Qed.

(** C4: A passkey starts a session only when the library verified its assertion, with user
    verification, for the service's own origin and relying party: against the challenge stored for
    exactly this sign-in and this account, which the request itself marked used; with the stored
    key of a passkey the account held when it was read; and only on a two-factor challenge of an
    account whose second factor is on. It holds whatever other requests do in between. *)
Theorem passkey_session_needs_assertion token credential context :
  secures (stored_challenge_asserted token credential) (passkey_verifySignIn (C := C) cfg token credential context) /\
  secures (held_passkey_asserted credential) (passkey_verifySignIn (C := C) cfg token credential context).
Proof.
  split; unfold passkey_verifySignIn; (eapply secures_bind_returns; [apply openChallenge_returns|]);
    intros [[claims user] secret] (Hd & Huse & H2); apply secures_bind_r; intros attempt.
  - apply spendSignIn_secures; [apply secures_bind_r; intros; exact I|]. intros w id r Hr Hj Hu Hused.
    returns_step. destruct (verifySignIn _ _ _) as [p n b|reason detail] eqn:Ev; [|unfold refused_passkey; returns_step; exact I].
    apply adapter_verifySignIn_sound in Ev as [_ Ha]. eapply returns_mono; [|apply verified_returns].
    cbv beta. intros s <-. by exists claims, id, r, p.
  - apply secures_bind_r. intros [expected|]; [|apply secures_bind_r; intros; exact I].
    apply secures_query. intros w. destruct (verifySignIn _ _ _) as [p n b|reason detail] eqn:Ev.
    2: { left. apply secures_bind_r. intros; exact I. }
    right. apply adapter_verifySignIn_sound in Ev as [Hin Ha]. apply listed_held in Hin as (id & Hp & Hu).
    eapply returns_mono; [|apply verified_returns]. cbv beta. intros s <-. by exists id, p, expected.
Qed.
End Assertion.

(** ** On a concrete service *)

Module Witness.

(** A library whose responses are a credential id and the challenge it signed. *)
Definition sample_webauthn : WebAuthn := {|
  Response := string * string;
  response_id := fun r => Some r.1;
  CreationJSON := string;
  RequestJSON := string;
  creation_json_challenge := fun c => c;
  request_json_challenge := fun c => c;
  generateRegistrationOptions := fun _ n => "creation-" ++ String_of (Z.of_nat n);
  verifyRegistrationResponse := fun check r =>
    if bool_decide (r.2 = rc_expectedChallenge check)
    then Ok (Some (mkRegistrationInfo r.1 [1; 2; 3] 0 None multiDevice true)) else Ok None;
  generateAuthenticationOptions := fun _ n => "request-" ++ String_of (Z.of_nat n);
  verifyAuthenticationResponse := fun check r =>
    if bool_decide (r.2 = ac_expectedChallenge check)
    then Ok (Some (mkAuthenticationInfo (ac_counter check + 1) true)) else Err "signature"
|}.
Definition rp : RelyingParty := mkRelyingParty "x.io" "https://x.io" "X".
Definition ceremony : PasskeyCeremonyPort := @SimpleWebAuthnCeremonyAdapter sample_webauthn rp.

Abbreviation cfg := Sessions.Witness.cfg.
Abbreviation web := SignIn.Witness.web.
Abbreviation code := SignIn.Witness.code.
Abbreviation challenge := SignIn.Witness.challenge.

(** Bob, asked for his second factor, holds a passkey and asks for its options. *)
Definition bobs_key : PasskeyEntity := mkPasskey "k" 1 "cred" [1; 2; 3] 4 ["usb"] singleDevice false "key" 0 None.
Definition holding : World :=
  set_db (set_passkeys {["k" := bobs_key]} (db SignIn.Witness.asked.2)) SignIn.Witness.asked.2.
Definition offered := run (@passkey_signInOptions _ ceremony cfg challenge) holding.
Definition signed : @Credential ceremony :=
  ("cred", match offered.1 with Ok o => @request_challenge ceremony o | Err _ => "" end).

(** A code and a passkey race: both are right, one starts the session. *)
Lemma challenge_starts_one_session_witness :
  let answers := [(CodeAnswer code, web); (PasskeyAnswer signed, web); (CodeAnswer "000000", web)] in
  let stop := schedule (flat_map (fun '(i, n) => repeat i n) [(0, 4); (1, 4); (2, 9); (1, 16); (0, 16)]%nat)
    (offered.2, map (fun '(a, context) => @answer sample_platform ceremony cfg challenge a context) answers) in
  count_good (fun _ => true) stop.2 = 1%nat /\ (count_good (fun _ => true) stop.2 <= 1)%nat.
Proof.
  intros answers stop. split; [vm_compute; reflexivity|].
  apply (proj2 (@challenge_starts_one_session _ (sample_laws _) ceremony cfg challenge answers) offered.2 stop.1).
  rewrite <- surjective_pairing. apply schedule_psteps.
Defined.

Lemma passkey_session_needs_assertion_witness :
  is_ok (run (@passkey_verifySignIn _ ceremony cfg challenge signed web) offered.2).1 = true /\
  secures (@held_passkey_asserted sample_webauthn rp signed) (@passkey_verifySignIn _ ceremony cfg challenge signed web).
Proof.
  split; [vm_compute; reflexivity|].
  exact (proj2 (@passkey_session_needs_assertion _ (sample_laws _) sample_webauthn rp cfg challenge signed web)).
Defined.

Definition bobs_claims : Claims := mkClaims "p" "t" "kinetix" "api" 999000 1000900 "access" (Some "f") None 1 None None.
Definition enrolling_key := run (@passkey_registrationOptions sample_platform ceremony bobs_claims 1 "pw" web) holding.
Definition opened : string * string :=
  match enrolling_key.1 with Ok o => (o.1, @creation_challenge ceremony o.2) | Err _ => ("", "") end.

Lemma registration_challenge_adds_one_passkey_witness :
  let requests := repeat (bobs_claims, 1, ("new", opened.2) : @Credential ceremony, "phone", web) 3 in
  let stop := schedule (flat_map (fun '(i, n) => repeat i n) [(0, 1); (1, 6); (2, 6); (0, 6)]%nat)
    (enrolling_key.2, map (fun '(claims, userId, credential, name, context) =>
       @passkey_register sample_platform ceremony claims userId opened.1 credential name context) requests) in
  count_good (fun _ => true) stop.2 = 1%nat /\ (count_good (fun _ => true) stop.2 <= 1)%nat.
Proof.
  intros requests stop. split; [vm_compute; reflexivity|].
  apply (@registration_challenge_adds_one_passkey sample_platform ceremony opened.1 requests enrolling_key.2 stop.1 stop.2).
  - unfold challenges_ok. replace (passkey_challenges (db enrolling_key.2)) with
      ({[opened.1 := mkPasskeyChallenge 1 purpose_register opened.2 None 1000300000 None]} : gmap string PasskeyChallengeRow)
      by (vm_compute; reflexivity).
    apply map_Forall_singleton. by split.
  - rewrite <- surjective_pairing. apply schedule_psteps.
Defined.
End Witness.
