(* ===== verification/Records.v ===== *)
(** * Numbered records

    [repo.save(repo.create(..))] of the TypeORM adapters whose table has a generated id, one row per
    account and a check on its values: src/src/infrastructure/persistence/adapters
    typeorm_profile_repository, typeorm_merchant_repository and
    typeorm_merchant_verification_repository. A record with a positive id updates its row (and
    inserts one where there is none), another is numbered by the database; the database refuses a
    value its check excludes, a second row where a column is unique, and an account that does not
    exist. *)

From S2P Require Import Prelude JsString Domain Store Accounts.

Local Open Scope string_scope.
Local Open Scope Z_scope.

Definition CHECK_VIOLATION : string := "23514".

Record Table (V : Type) := mkTable {
  rows : Db -> gmap Z V;
  next_id : Db -> Z;
  put : gmap Z V -> Db -> Db;
  put_next : Z -> Db -> Db;
  row_id : V -> Z;
  number : Z -> V -> V;
  owner : V -> Z;
  same_key : V -> V -> bool;
  valid : V -> bool
}.
Arguments mkTable {V}.
Arguments rows {V}. Arguments next_id {V}. Arguments put {V}. Arguments put_next {V}. Arguments row_id {V}.
Arguments number {V}. Arguments owner {V}. Arguments same_key {V}. Arguments valid {V}.

Section Save.
Context {P : Platform} {V : Type} (t : Table V).

(** Another row has the key of this one. *)
Definition key_taken (id : Z) (v : V) (d : Db) : bool :=
  existsb (fun '(i, row) => negb (i =? id) && same_key t row v) (map_to_list (rows t d)).

Definition save_row (v : V) : M V :=
  statement (fun w =>
    let d := db w in
    let stored := 0 <? row_id t v in
    let id := if stored then row_id t v else next_id t d in
    let d1 := if stored then d else put_next t (id + 1) d in
    if negb (valid t v) then (Err (QueryFailedError CHECK_VIOLATION), set_db d1 w)
    else if (negb stored && bool_decide (is_Some (rows t d !! id))) || key_taken id v d
    then (Err (QueryFailedError UNIQUE_VIOLATION), set_db d1 w)
    else if bool_decide (users d !! owner t v = None) then (Err (QueryFailedError FOREIGN_KEY_VIOLATION), set_db d1 w)
    else (Ok (number t id v), set_db (put t (<[id := number t id v]> (rows t d)) d1) w)).

(** The errors the adapters translate: a missing account, a row written at the same time. *)
Definition save_record (missing conflict : string) (v : V) : M V :=
  catch (save_row v) (fun error =>
    if isForeignKeyViolation error then Throw (MissingReferenceError missing)
    else if isUniqueViolation error then Throw (RecordConflictError conflict)
    else Throw error).

(** [repo.findOne({ where: { userId } })] *)
Definition find_owned (userId : Z) : M (option V) :=
  query (fun w => find_row (fun v => bool_decide (owner t v = userId)) (rows t (db w))).
End Save.

(** ** What saving preserves *)

Section SaveFacts.
Context {P : Platform} {V : Type} (t : Table V) (R : Db -> Db -> Prop) {HR : PreOrder R}.

Lemma save_row_guar v :
  (forall n d, R d (put_next t n d)) ->
  (forall d id, R d (put t (<[id := number t id v]> (rows t d)) d) /\
                R d (put t (<[id := number t id v]> (rows t d)) (put_next t (id + 1) d))) ->
  guar (on_db R) (save_row t v).
Proof.
  intros Hn Hp. apply guar_statement; [done|]. intros w. cbv zeta.
  destruct (0 <? row_id t v); repeat case_match; cbn; first [reflexivity|apply Hn|apply Hp].
Qed.

Lemma save_record_guar m c v :
  (forall n d, R d (put_next t n d)) -> (forall rows d, R d (put t rows d)) -> guar (on_db R) (save_record t m c v).
Proof.
  intros Hn Hp. unfold save_record. guar_auto. apply save_row_guar; [done|]. intros d id. split; [done|].
  etrans; [apply Hn|apply Hp].
Qed.

Lemma find_owned_guar u : guar (on_db R) (find_owned t u).
Proof. unfold find_owned. guar_auto. Qed.
End SaveFacts.

#[export] Hint Resolve find_owned_guar : guar.

(** What is answered is stored, under the number it was given. *)
Lemma wp_save_record {P : Platform} {V} (t : Table V) missing conflict v w :
  (forall m d, rows t (put t m d) = m) ->
  wp (save_record t missing conflict v) (fun r w' =>
    match r with
    | Ok q => exists id, q = number t id v /\ rows t (db w') !! id = Some q
    | Err _ => True
    end) w.
Proof.
  intros Hput. unfold save_record, save_row. wp_step. wp_step; [|by repeat wp_step..].
  cbv zeta. destruct (0 <? row_id _ _);
    (destruct (negb (valid _ _)); [cbn -[wp]; by repeat wp_step|]); (destruct (_ || _); [cbn -[wp]; by repeat wp_step|]);
    (destruct (bool_decide (users _ !! _ = None)); [cbn -[wp]; by repeat wp_step|]); eexists; (split; [reflexivity|]);
    cbn; by rewrite Hput, lookup_insert_eq.
Qed.

(** *** One row per account *)

Section OneRow.
Context {P : Platform} {V : Type} (t : Table V).

(** The table is the one its operations say it is. *)
Record table_laws : Prop := {
  rows_put : forall m d, rows t (put t m d) = m;
  rows_next : forall n d, rows t (put_next t n d) = rows t d;
  owner_number : forall id v, owner t (number t id v) = owner t v;
  same_owner : forall a b, owner t a = owner t b -> same_key t a b = true
}.

Definition one_per_account (d : Db) : Prop :=
  forall i j a b, rows t d !! i = Some a -> rows t d !! j = Some b -> owner t a = owner t b -> i = j.

Lemma key_taken_false id v d i row :
  key_taken t id v d = false -> rows t d !! i = Some row -> same_key t row v = true -> i = id.
Proof.
  intros Ht Hi Hk. destruct (decide (i = id)) as [|Hne]; [done|]. exfalso.
  assert (key_taken t id v d = true) as Htrue; [|congruence].
  apply existsb_exists. exists (i, row). split; [by apply list_elem_of_In, elem_of_map_to_list|].
  rewrite Hk. destruct (Z.eqb_spec i id); done.
Qed.

Lemma save_row_one_per_account (L : table_laws) v :
  guar (on_db (fun d d' => one_per_account d -> one_per_account d')) (save_row t v).
Proof.
  assert (PreOrder (fun d d' => one_per_account d -> one_per_account d')) as HR by (split; [intros d H; exact H|intros d1 d2 d3 H12 H23 H; auto]).
  destruct L as [Lp Ln Lo Ls]. apply guar_statement; [done|]. intros w. cbv zeta.
  assert (forall id d1, rows t d1 = rows t (db w) -> key_taken t id v (db w) = false -> one_per_account (db w) ->
    one_per_account (put t (<[id := number t id v]> (rows t (db w))) d1)) as Hput.
  { intros id d1 _ Hk H1 i j a b. rewrite Lp.
    intros [[<- <-]|[Hi Ha]]%lookup_insert_Some [[<- <-]|[Hj Hb]]%lookup_insert_Some Ho; [done| | |by eapply H1].
    - symmetry. eapply key_taken_false; [exact Hk|exact Hb|]. apply Ls. by rewrite <- Ho, Lo.
    - eapply key_taken_false; [exact Hk|exact Ha|]. apply Ls. by rewrite Ho, Lo. }
  assert (forall n, one_per_account (db w) -> one_per_account (put_next t n (db w))) as Hn
    by (intros n H1 i j a b; rewrite Ln; by apply H1).
  destruct (0 <? row_id t v); (destruct (negb (valid t v)); [cbn; by auto|]);
    (destruct (_ || _) eqn:Et; [cbn; by auto|]); (destruct (bool_decide (users (db w) !! owner t v = None)); [cbn; by auto|]);
    apply orb_false_elim in Et as [_ Et]; intros H1; apply Hput; auto.
Qed.
End OneRow.
