(* ===== verification/Geocoding.v ===== *)
(** * Geocoding

    Models src/src/application/services/geocoding_usecase.service.ts against the interface
    [GeocodingProviderPort] (src/src/domain/ports/geocoding_provider.port.ts), and the cache of
    src/src/infrastructure/persistence/adapters/typeorm_geocoded_address_repository.adapter.ts.

    Main result: an address is looked up once; every later spelling of it, in any case and with any
    spacing, gets the remembered point without asking the provider. *)

From S2P Require Import Prelude JsString Domain Store Sample Keys.
From Stdlib Require Import Ascii String QArith_base.

Local Open Scope string_scope.
Local Open Scope Z_scope.

Record GeocodeQuery := mkQuery {
  query_streetAddress : string;
  query_city : option string;
  query_postalCode : option string
}.

Inductive GeocodeOutcome :=
| Geocoded (lat lon : Q) (p : GeocodePrecision) (name : option string)
| NotGeocoded (failure : GeocodeFailure) (detail : string).

(** The provider: its name, and what it answers to its n-th call, or what it throws. *)
Class GeocodingProviderPort := {
  provider_name : string;
  provider_lookup : nat -> string -> res exn (ProviderPoint + GeocodeFailure)
}.

(** [JSON.stringify] of a string. *)
Definition json_char (c : ascii) : list ascii :=
  let hex (i : Z) := match String.get (Z.to_nat i) "0123456789abcdef" with Some h => h | None => "0"%char end in
  let z := code c in
  if z =? 34 then ["\"%char; c]
  else if z =? 92 then ["\"%char; c]
  else if z =? 8 then ["\"%char; "b"%char]
  else if z =? 9 then ["\"%char; "t"%char]
  else if z =? 10 then ["\"%char; "n"%char]
  else if z =? 12 then ["\"%char; "f"%char]
  else if z =? 13 then ["\"%char; "r"%char]
  else if z <? 32 then ["\"%char; "u"%char; "0"%char; "0"%char; hex (z / 16); hex (z mod 16)]
  else [c].
Definition json_string (s : string) : string := quote ++ list_str (flat_map json_char (str_list s)) ++ quote.

Definition blank (s : string) : bool := bool_decide (trim s = "").

(** The parts that are there and not blank, joined by a comma and a space. *)
Definition address_text (parts : list (option string)) : string :=
  join ", " (List.filter (fun s => negb (blank s)) (omap id parts)).

(** [.replace(/\s+/gu, space)]: each run of white space is one space. *)
Fixpoint collapse (in_space : bool) (l : list ascii) : list ascii :=
  match l with
  | [] => []
  | c :: l' =>
      if is_space c then if in_space then collapse true l' else " "%char :: collapse true l'
      else c :: collapse false l'
  end.
Definition collapse_spaces (s : string) : string := list_str (collapse false (str_list s)).

Definition normalise (q : GeocodeQuery) : string :=
  collapse_spaces (toLowerCase (trim (address_text [Some (query_streetAddress q); query_city q; query_postalCode q]))).

Section Cache.
Context {P : Platform}.

Definition findByQuery (q : string) : M (option ProviderPoint) :=
  query (fun w => option_map geocoded_point (geocoded_addresses (db w) !! q)).

(** INSERT .. ON CONFLICT DO NOTHING, of a point on Earth. *)
Definition on_earth (p : ProviderPoint) : bool :=
  (Qle_bool (-90 # 1) (latitude p) && Qle_bool (latitude p) (90 # 1)) &&
  (Qle_bool (-180 # 1) (longitude p) && Qle_bool (longitude p) (180 # 1)).

Definition remember (q provider : string) (p : ProviderPoint) : M unit :=
  statement (fun w =>
    if negb (on_earth p) then (Err (QueryFailedError "23514"), w)
    else
      match geocoded_addresses (db w) !! q with
      | Some _ => (Ok tt, w)
      | None => (Ok tt, set_db (set_geocoded_addresses (<[q := mkGeocoded p provider]> (geocoded_addresses (db w))) (db w)) w)
      end).

Definition forget_query (q : string) : M unit :=
  update (fun w => (tt, set_geocoded_addresses (delete q (geocoded_addresses (db w))) (db w))).
End Cache.

Section Usecase.
Context {P : Platform} {G : GeocodingProviderPort}.
Local Open Scope prog_scope.

Definition success (p : ProviderPoint) : GeocodeOutcome :=
  Geocoded (latitude p) (longitude p) (precision p) (displayName p).

Definition geocode (q : GeocodeQuery) : M GeocodeOutcome :=
  let normalised := normalise q in
  if bool_decide (normalised = "")
  then Ret (NotGeocoded INSUFFICIENT_ADDRESS "the address was empty once normalised, so there is nothing to look up")
  else
    remembered <- findByQuery normalised ;;
    match remembered with
    | Some p => Ret (success p)
    | None =>
        n <- next_call ;;
        answer <- of_res (provider_lookup n normalised) ;;
        match answer with
        | inr failure => Ret (NotGeocoded failure ("the geocoder did not place " ++ json_string normalised))
        | inl p =>
            remember normalised provider_name p ;;;
            Ret (success p)
        end
    end.

Definition forget (q : GeocodeQuery) : M unit := forget_query (normalise q).
End Usecase.

(** ** Facts *)

Section GeocodingFacts.
Context {P : Platform} {G : GeocodingProviderPort} (R : Db -> Db -> Prop) {HR : PreOrder R}.

Lemma geocode_guar q : (forall v d, R d (set_geocoded_addresses v d)) -> guar (on_db R) (geocode q).
Proof.
  intros Hf. unfold geocode, findByQuery. guar_auto. apply guar_statement; [done|]. intros w.
  destruct (negb _); [reflexivity|]. destruct (geocoded_addresses (db w) !! _); [reflexivity|apply Hf].
Qed.
Lemma forget_guar q : (forall v d, R d (set_geocoded_addresses v d)) -> guar (on_db R) (forget q).
Proof. intros Hf. apply guar_update; [done|]. intros w. apply Hf. Qed.
End GeocodingFacts.

#[local] Arguments normalise : simpl never.

Section Remembered.
Context {P : Platform} {G : GeocodingProviderPort}.

(** An address that was placed is never looked up again: once [geocode] has answered with a
    point, a query of the same normal form (whatever its case and spacing) gets that same point
    from the cache, asks the provider nothing and changes nothing, for as long as the row is kept. *)
Theorem geocode_remembers (Hrel : reliable) q q' w lat lon p name w1 w2 :
  run (geocode q) w = (Ok (Geocoded lat lon p name), w1) ->
  normalise q' = normalise q ->
  geocoded_addresses (db w2) !! normalise q = geocoded_addresses (db w1) !! normalise q ->
  exists w3, run (geocode q') w2 = (Ok (Geocoded lat lon p name), w3) /\ net_calls w3 = net_calls w2 /\ db w3 = db w2.
Proof.
  intros Hrun Hsame Hkept. assert (wp (geocode q) (fun r w' => forall a b c d, r = Ok (Geocoded a b c d) ->
    exists row, geocoded_addresses (db w') !! normalise q = Some row /\ success (geocoded_point row) = Geocoded a b c d) w) as Hw.
  { unfold geocode, findByQuery. cbv zeta. case_bool_decide; [wp_step; done|]. wp_rel Hrel. wp_rel Hrel. cbn [db count_call].
    destruct (geocoded_addresses (db w) !! normalise q) as [row|] eqn:Er; cbn [fmap option_fmap option_map].
    { wp_rel Hrel. intros a b c d [= <- <- <- <-]. cbn. exists row. by rewrite Er. }
    do 3 wp_rel Hrel. destruct (provider_lookup _ _) as [[pt|f]|e]; [|by wp_step; wp_step|by wp_step]. wp_step.
    wp_rel Hrel. unfold remember. wp_rel Hrel. cbn -[wp]. destruct (negb (on_earth pt)); [by cbn|]. cbn -[wp]. rewrite Er.
    cbn -[wp]. wp_rel Hrel. intros a b c d [= <- <- <- <-]. cbn. rewrite lookup_insert_eq. by eexists. }
  unfold wp in Hw. rewrite Hrun in Hw. destruct (Hw _ _ _ _ eq_refl) as (row & Hrow & Hs). cbn in Hrow.
  assert (normalise q <> "") as Hne.
  { intros He. unfold geocode in Hrun. cbv zeta in Hrun. rewrite bool_decide_eq_true_2 in Hrun by done. done. }
  assert (wp (geocode q') (fun r w' => r = Ok (Geocoded lat lon p name) /\ net_calls w' = net_calls w2 /\ db w' = db w2) w2) as Hw2.
  { unfold geocode, findByQuery. cbv zeta. rewrite Hsame, bool_decide_eq_false_2 by done. wp_rel Hrel. wp_rel Hrel. cbn [db count_call].
    rewrite Hkept, Hrow. cbn [fmap option_fmap option_map]. wp_rel Hrel. by rewrite Hs. }
  unfold wp in Hw2. destruct (run (geocode q') w2) as [r w3]. destruct Hw2 as (Hr & Hn & Hd). cbn in Hr. rewrite Hr. by exists w3.
Qed.
End Remembered.

Module Witness.

Definition sample_provider : GeocodingProviderPort := {|
  provider_name := "Sample";
  provider_lookup := fun n q => if String.eqb q "jl. sudirman 1, jakarta" then Ok (inl (mkPoint (-6 # 1) (107 # 1) STREET None)) else Ok (inr NOT_FOUND)
|}.

Lemma geocode_remembers_witness :
  let asked := run (@geocode sample_platform sample_provider (mkQuery "Jl. Sudirman  1" (Some "Jakarta") None)) (world_at 0 empty_db) in
  exists w3, run (@geocode sample_platform sample_provider (mkQuery " JL. SUDIRMAN 1" (Some "jakarta") (Some " "))) asked.2 =
    (Ok (Geocoded (-6 # 1) (107 # 1) STREET None), w3) /\ net_calls w3 = net_calls asked.2 /\ db w3 = db asked.2.
Proof.
  intros asked.
  apply (@geocode_remembers sample_platform sample_provider (fun _ => eq_refl) (mkQuery "Jl. Sudirman  1" (Some "Jakarta") None)
    (mkQuery " JL. SUDIRMAN 1" (Some "jakarta") (Some " ")) (world_at 0 empty_db) (-6 # 1) (107 # 1) STREET None asked.2 asked.2);
    vm_compute; reflexivity.
Defined.
End Witness.
