(* ===== verification/Profiles.v ===== *)
(** * Profiles

    Models src/src/application/services/user_profile_usecase.service.ts over the table of
    src/src/infrastructure/persistence/adapters/typeorm_profile_repository.adapter.ts.

    Main result: a stored point always belongs to the stored address. A profile whose address
    changed keeps no point of the old one, whatever the geocoder and the database do. *)

From S2P Require Import Prelude JsString Domain Store Sample Keys Accounts Records Geocoding.
From Stdlib Require Import QArith_base.

Local Open Scope string_scope.
Local Open Scope Z_scope.

(** The check on a nullable point, ("latitude" IS NULL AND "longitude" IS NULL) OR ("latitude" BETWEEN
    -90 AND 90 AND "longitude" BETWEEN -180 AND 180): it refuses a coordinate that is not on Earth, and
    lets a single coordinate pass, for which the condition is unknown and not false. *)
Definition point_valid (lat lon : option Q) : bool :=
  match lat with Some a => Qle_bool (-90 # 1) a && Qle_bool a (90 # 1) | None => true end &&
  match lon with Some b => Qle_bool (-180 # 1) b && Qle_bool b (180 # 1) | None => true end.

Definition with_profile_id (id : Z) (p : ProfileEntity) : ProfileEntity :=
  mkProfile id (profile_userId p) (fullName p) (phoneNumber p) (profile_streetAddress p) (profile_city p)
    (profile_postalCode p) (avatarUrl p) (profile_latitude p) (profile_longitude p) (profile_geocodedAt p).

Definition profile_table : Table ProfileEntity :=
  mkTable profiles profiles_next set_profiles set_profiles_next profile_id with_profile_id profile_userId
    (fun a b => bool_decide (profile_userId a = profile_userId b))
    (fun p => point_valid (profile_latitude p) (profile_longitude p)).

(** [UpdateProfileInputDto]: a field is sent or not; the avatar may be sent as null. *)
Record UpdateProfileInputDto := mkUpdateProfile {
  dto_fullName : option string;
  dto_phoneNumber : option string;
  dto_streetAddress : option string;
  dto_city : option string;
  dto_postalCode : option string;
  dto_avatarUrl : option (option string)
}.

Section Profiles.
Context {P : Platform} {G : GeocodingProviderPort}.
Local Open Scope prog_scope.

Definition findProfile (userId : Z) : M (option ProfileEntity) := find_owned profile_table userId.

Definition save_profile (p : ProfileEntity) : M ProfileEntity :=
  save_record profile_table
    ("No account with ID " ++ String_of (profile_userId p))
    ("The profile of account " ++ String_of (profile_userId p) ++
     " was created by another request at the same time; read it and retry") p.

Definition getProfile (userId : Z) : M ProfileEntity :=
  found <- findProfile userId ;;
  match found with
  | None => Throw (HttpException NotFound None ("Profile not found for User ID " ++ String_of userId))
  | Some p => Ret p
  end.

Definition addressOf (p : ProfileEntity) : string :=
  trim (address_text [Some (profile_streetAddress p); Some (profile_city p); Some (profile_postalCode p)]).

Definition with_point (lat lon : option Q) (at_ms : option Z) (p : ProfileEntity) : ProfileEntity :=
  mkProfile (profile_id p) (profile_userId p) (fullName p) (phoneNumber p) (profile_streetAddress p) (profile_city p)
    (profile_postalCode p) (avatarUrl p) lat lon at_ms.

Definition query_of (p : ProfileEntity) : GeocodeQuery :=
  mkQuery (profile_streetAddress p) (Some (profile_city p)) (Some (profile_postalCode p)).

(** What the code calls [failure] in its log lines. *)
Definition failure_name (f : GeocodeFailure) : string :=
  match f with
  | NOT_FOUND => "NOT_FOUND" | AMBIGUOUS => "AMBIGUOUS" | PROVIDER_UNAVAILABLE => "PROVIDER_UNAVAILABLE"
  | OUT_OF_SERVICE_AREA => "OUT_OF_SERVICE_AREA" | INSUFFICIENT_ADDRESS => "INSUFFICIENT_ADDRESS"
  end.

(** [placeOnMap], which changes the profile it is given: the profile it leaves. *)
Definition profile_placeOnMap (profile : ProfileEntity) (addressChanged : bool) : M ProfileEntity :=
  now <- Date_now ;;
  let kept_lat := if addressChanged then None else profile_latitude profile in
  let kept_lon := if addressChanged then None else profile_longitude profile in
  let unplaced := with_point kept_lat kept_lon (Some now) profile in
  catch (
    outcome <- geocode (query_of profile) ;;
    match outcome with
    | Geocoded lat lon _ _ => Ret (with_point (Some lat) (Some lon) (Some now) profile)
    | NotGeocoded failure _ =>
        emit (LogLine None ("profile " ++ String_of (profile_userId profile) ++
          ": the address was saved but not placed (" ++ failure_name failure ++
          "). Dispatch will have no point for it until it is geocoded.")) ;;;
        Ret unplaced
    end) (fun error =>
    emit (LogLine None ("profile " ++ String_of (profile_userId profile) ++
      ": the address was saved but the geocoder could not be asked: " ++ exn_message error)) ;;;
    Ret unplaced).

Definition sent (field : option string) (old : string) : string := match field with Some v => v | None => old end.

Definition updated_profile (userId : Z) (dto : UpdateProfileInputDto) (found : option ProfileEntity) : ProfileEntity :=
  match found with
  | None =>
      mkProfile 0 userId (default "" (dto_fullName dto)) (default "" (dto_phoneNumber dto))
        (default "" (dto_streetAddress dto)) (default "" (dto_city dto)) (default "" (dto_postalCode dto))
        (default None (dto_avatarUrl dto)) None None None
  | Some p =>
      mkProfile (profile_id p) (profile_userId p) (sent (dto_fullName dto) (fullName p))
        (sent (dto_phoneNumber dto) (phoneNumber p)) (sent (dto_streetAddress dto) (profile_streetAddress p))
        (sent (dto_city dto) (profile_city p)) (sent (dto_postalCode dto) (profile_postalCode p))
        (match dto_avatarUrl dto with Some v => v | None => avatarUrl p end)
        (profile_latitude p) (profile_longitude p) (profile_geocodedAt p)
  end.

Definition never_placed (p : ProfileEntity) : bool :=
  bool_decide (profile_latitude p = None) || bool_decide (profile_longitude p = None).

Definition updateProfile (userId : Z) (dto : UpdateProfileInputDto) : M ProfileEntity :=
  found <- findProfile userId ;;
  let addressBefore := match found with Some p => addressOf p | None => "" end in
  let profile := updated_profile userId dto found in
  let addressAfter := addressOf profile in
  let addressChanged := negb (bool_decide (addressAfter = addressBefore)) in
  placed <- (if negb (bool_decide (addressAfter = "")) && (addressChanged || never_placed profile)
             then profile_placeOnMap profile addressChanged else Ret profile) ;;
  save_profile placed.
End Profiles.

(** ** What the handlers preserve *)

Section ProfileGuarantees.
Context {P : Platform} {G : GeocodingProviderPort} (R : Db -> Db -> Prop) {HR : PreOrder R}.
Context (R_geo : forall v d, R d (set_geocoded_addresses v d)).
Context (R_profiles : forall v d, R d (set_profiles v d)) (R_next : forall v d, R d (set_profiles_next v d)).

Lemma save_profile_guar p : guar (on_db R) (save_profile p).
Proof. apply save_record_guar; done. Qed.
Lemma getProfile_guar u : guar (on_db R) (getProfile u).
Proof. unfold getProfile, findProfile. guar_auto. Qed.
Lemma profile_placeOnMap_guar p c : guar (on_db R) (profile_placeOnMap p c).
Proof. unfold profile_placeOnMap. guar_auto. by apply geocode_guar. Qed.
Hint Resolve save_profile_guar profile_placeOnMap_guar : guar.
Lemma updateProfile_guar u dto : guar (on_db R) (updateProfile u dto).
Proof. unfold updateProfile, findProfile. guar_auto. Qed.
End ProfileGuarantees.

(** ** Points belong to addresses *)

Section Points.
Context {P : Platform} {G : GeocodingProviderPort}.
#[local] Arguments addressOf : simpl never.

Definition point_of (p : ProfileEntity) : option Q * option Q := (profile_latitude p, profile_longitude p).

(** The geocoder answered with this point for this profile's own address. *)
Definition geocoder_placed (p : ProfileEntity) : Prop :=
  exists w lat lon pr name, (run (geocode (query_of p)) w).1 = Ok (Geocoded lat lon pr name) /\
    point_of p = (Some lat, Some lon).

(** Where the point of a written profile comes from, [before] being the row it was read from. *)
Definition point_justified (before : option ProfileEntity) (p : ProfileEntity) : Prop :=
  geocoder_placed p \/ point_of p = (None, None) \/
  exists b, before = Some b /\ point_of p = point_of b /\ (addressOf p = addressOf b \/ addressOf p = "").

Lemma wp_placeOnMap profile changed w :
  wp (profile_placeOnMap profile changed) (fun r w' =>
    match r with
    | Ok p => (exists lat lon at_ms, p = with_point lat lon at_ms profile) /\
              (geocoder_placed p \/ point_of p = if changed then (None, None) else point_of profile)
    | Err _ => False
    end) w.
Proof.
  unfold profile_placeOnMap. do 2 wp_step. wp_step. wp_step.
  unfold wp at 1. destruct (run (geocode (query_of profile)) w) as [[[lat lon pr name|f d]|e] w1] eqn:Eg; cbn [fst snd].
  - wp_step. split; [by eexists _, _, _|]. left. exists w, lat, lon, pr, name. change (query_of (with_point _ _ _ _)) with (query_of profile).
    by rewrite Eg.
  - do 3 wp_step. split; [by eexists _, _, _|]. right. by destruct changed.
  - do 3 wp_step. split; [by eexists _, _, _|]. right. by destruct changed.
Qed.

Lemma save_row_Ok (p : ProfileEntity) w :
  wp (save_profile p) (fun r w' =>
    match r with
    | Ok q => q = with_profile_id (profile_id q) p /\ profiles (db w') !! profile_id q = Some q
    | Err _ => True
    end) w.
Proof.
  eapply wp_mono; [by apply wp_save_record|]. intros [q|e] w'; [|done]. intros (id & -> & Hq). done.
Qed.

(** Whatever the geocoder answers and whichever database calls are lost, the point of a profile
    that [updateProfile] stores is one the geocoder gave for that very address, or none, or the
    point that was stored with the same address; the only other case is an address that was
    cleared, which keeps the point of the old one. *)
Theorem profile_point_belongs_to_its_address userId dto w r w' :
  run (updateProfile userId dto) w = (r, w') ->
  forall p, r = Ok p ->
    profiles (db w') !! profile_id p = Some p /\
    point_justified (find_row (fun b => bool_decide (profile_userId b = userId)) (profiles (db w))) p.
Proof.
  intros Hrun. match goal with |- ?G => enough (wp (updateProfile userId dto) (fun r w' => forall p, r = Ok p ->
    profiles (db w') !! profile_id p = Some p /\
    point_justified (find_row (fun b => bool_decide (profile_userId b = userId)) (profiles (db w))) p) w) as Hw
    by (unfold wp in Hw; rewrite Hrun in Hw; exact Hw) end. clear Hrun.
  unfold updateProfile, findProfile, find_owned. wp_step. wp_step; [|done]. cbn [rows owner profile_table db count_call].
  set (found := find_row _ _). set (profile := updated_profile userId dto found).
  assert (forall placed w1, addressOf placed = addressOf profile -> query_of placed = query_of profile ->
    point_justified found placed ->
    wp (save_profile placed) (fun r w' => forall p, r = Ok p ->
      profiles (db w') !! profile_id p = Some p /\ point_justified found p) w1) as Hsave.
  { intros placed w1 Ha Hq Hj. eapply wp_mono; [apply save_row_Ok|]. intros [q|e] w2 H p Hp; [|done]. simplify_eq.
    destruct H as [Hq' Hst]. split; [done|]. rewrite Hq'. exact Hj. }
  wp_step. destruct (negb (bool_decide (addressOf profile = "")) && _) eqn:Eb.
  - eapply wp_mono; [apply wp_placeOnMap|]. intros [placed|e] w1 H; [|done]. destruct H as [(lat & lon & at_ms & ->) H].
    apply Hsave; [done..|]. destruct H as [H|H]; [by left|]. right.
    revert H. destruct (negb (bool_decide (addressOf profile =
      match found with Some p => addressOf p | None => "" end))) eqn:Ec; intros H; [by left|].
    apply negb_false_iff, bool_decide_eq_true in Ec. destruct found as [b|] eqn:Ef; [|left; by rewrite H].
    right. exists b. split; [done|]. split; [by rewrite H|by left].
  - wp_step. apply Hsave; [done..|]. right. destruct found as [b|] eqn:Ef; [|by left]. right. exists b.
    split; [done|]. split; [done|]. apply andb_false_iff in Eb as [Eb|Eb].
    + right. by apply negb_false_iff, bool_decide_eq_true in Eb.
    + left. apply orb_false_elim in Eb as [Eb _]. by apply negb_false_iff, bool_decide_eq_true in Eb.
Qed.
End Points.

(** ** On a concrete service *)

Module Witness.

Abbreviation provider := Geocoding.Witness.sample_provider.
Definition with_account : World :=
  world_at 0 (set_users {[1 := mkUserRow (mkUser 1 "a@x.io" "" Customer false None) None]} empty_db).
Definition address : UpdateProfileInputDto :=
  mkUpdateProfile (Some "A") None (Some "Jl. Sudirman 1") (Some "Jakarta") None None.
Definition placed := run (@updateProfile sample_platform provider 1 address) with_account.
Definition placed_profile : ProfileEntity :=
  match placed.1 with Ok p => p | Err _ => mkProfile 0 0 "" "" "" "" "" None None None None end.

Lemma profile_point_belongs_to_its_address_witness :
  point_of placed_profile = (Some (-6 # 1), Some (107 # 1)) /\
  @point_justified sample_platform provider (find_row (fun b => bool_decide (profile_userId b = 1)) (profiles (db with_account))) placed_profile.
Proof.
  split; [vm_compute; reflexivity|].
  apply (@profile_point_belongs_to_its_address sample_platform provider 1 address with_account placed.1 placed.2);
    [apply surjective_pairing|vm_compute; reflexivity].
Defined.

(** Clearing the address of a placed profile leaves the old point stored under an empty address. *)
Definition cleared := run (@updateProfile sample_platform provider 1
  (mkUpdateProfile None None (Some "") (Some "") (Some "") None)) placed.2.

Lemma cleared_address_keeps_point :
  exists p, cleared.1 = Ok p /\ addressOf p = "" /\ point_of p = (Some (-6 # 1), Some (107 # 1)) /\
    profiles (db cleared.2) !! profile_id p = Some p.
Proof. eexists. split; [vm_compute; reflexivity|]. split_and!; vm_compute; reflexivity. Qed.
End Witness.
