(* ===== verification/Fleet.v ===== *)
(** * The fleet registry

    The interface [FleetRegistryPort] (src/src/domain/ports/fleet_registry.port.ts), with what its
    clients rely on, and src/src/infrastructure/mesh/fleet_registry_grpc.adapter.ts, which discharges
    it over a gRPC transport. A failure says whether the fleet certainly did nothing ([refused],
    [fault]) or may have acted ([unknown]); couriers are promoted and demoted by it. *)

From S2P Require Import Prelude JsString Domain Store Sample.

Local Open Scope string_scope.
Local Open Scope Z_scope.

Record RegisterDriverCommand := mkCommand { command_principalId : string; vehiclePlate : string; capacityKg : Z }.
Record FleetRegistration := mkRegistration { registration_driverId : Z; alreadyRegistered : bool }.
Record FleetActivation := mkActivation { activation_driverId : Z; alreadyActive : bool }.

(** The fleet keeps its own records: a call to it leaves identity's tables alone. *)
Class FleetRegistryPort {P : Platform} := {
  registerDriver : RegisterDriverCommand -> M FleetRegistration;
  activateDriver : string -> M FleetActivation;
  register_keeps_tables : forall c R, PreOrder R -> guar (on_db R) (registerDriver c);
  activate_keeps_tables : forall p R, PreOrder R -> guar (on_db R) (activateDriver p)
}.

#[export] Hint Resolve register_keeps_tables activate_keeps_tables : guar.

(** ** The gRPC adapter *)

Inductive FleetRequest :=
| RegisterDriverRequest (principal_id vehicle_plate : string) (capacity_kg : Z)
| ActivateDriverRequest (principal_id : string).

(** A reply of either method; an id is a 64-bit integer, and [Number] reads it exactly below 2^53. *)
Record FleetReply := mkReply {
  reply_success : bool;
  reply_driver_id : Z;
  reply_already : bool;
  reply_error : option (option string * option string)
}.

Inductive GrpcAnswer := GrpcError (status_code : Z) (details message : string) | GrpcReply (r : FleetReply).

(** The transport: why the contract or the service's identity does not load, which methods the
    contract has, and the answer to the n-th call. *)
Class FleetTransport := {
  contract_fault : option string;
  identity_fault : option string;
  has_method : string -> bool;
  grpc_call : nat -> string -> FleetRequest -> GrpcAnswer
}.

(** [status[code]] of @grpc/grpc-js *)
Definition status_name (c : Z) : option string :=
  nth_error ["OK"; "CANCELLED"; "UNKNOWN"; "INVALID_ARGUMENT"; "DEADLINE_EXCEEDED"; "NOT_FOUND"; "ALREADY_EXISTS";
    "PERMISSION_DENIED"; "RESOURCE_EXHAUSTED"; "FAILED_PRECONDITION"; "ABORTED"; "OUT_OF_RANGE"; "UNIMPLEMENTED";
    "INTERNAL"; "UNAVAILABLE"; "DATA_LOSS"; "UNAUTHENTICATED"] (Z.to_nat c).
Definition INVALID_ARGUMENT : Z := 3.
Definition PERMISSION_DENIED : Z := 7.
Definition UNIMPLEMENTED : Z := 12.
Definition UNAUTHENTICATED : Z := 16.
Definition certainlyUntouched : list Z := [INVALID_ARGUMENT; PERMISSION_DENIED; UNAUTHENTICATED; UNIMPLEMENTED].

Section Adapter.
Context {T : FleetTransport}.
Local Open Scope prog_scope.

Definition refusal (error : option (option string * option string)) : FleetFailure :=
  mkFleetFailure refused
    (default "FLEET_REFUSED" (error ≫= fst))
    (default "the fleet refused the request and gave no reason" (error ≫= snd)).

Definition transport_kind (c : Z) : FleetFailureKind := if existsb (Z.eqb c) certainlyUntouched then fault else unknown.

Definition transportFailure (method : string) (c : Z) (details message : string) : M FleetFailure :=
  let kind := transport_kind c in
  emit (LogLine None ("fleet " ++ method ++ " failed: grpc_code " ++ String_of c ++ ", grpc_details " ++ details ++
    ", compensation " ++ match kind with fault => "safe to undo the account" | _ => "must not undo the account" end)) ;;;
  Ret (mkFleetFailure kind ("FLEET_" ++ default "UNKNOWN" (if c <? 0 then None else status_name c))
         (if bool_decide (details = "") then message else details)).

Definition connect : M unit :=
  match contract_fault with
  | Some cause =>
      Throw (FleetRegistryError (mkFleetFailure fault "FLEET_CONTRACT_MISSING"
        ("fleet/v1/registry.proto is not in the installed kinetix-contracts. Bump the package to a " ++
         "version that publishes it rather than working around this (" ++ cause ++ ")")))
  | None => match identity_fault with Some m => Throw (PlainError m) | None => Ret tt end
  end.

Definition fleet_call (method : string) (request : FleetRequest) : M FleetReply :=
  connect ;;;
  if negb (has_method method)
  then Throw (FleetRegistryError (mkFleetFailure fault "FLEET_METHOD_MISSING"
    ("fleet.v1.FleetRegistryService has no " ++ method ++ " in the installed kinetix-contracts. " ++
     "The package is older than this code; bump it rather than working around this.")))
  else
    n <- next_call ;;
    match grpc_call n method request with
    | GrpcError c details message => f <- transportFailure method c details message ;; Throw (FleetRegistryError f)
    | GrpcReply reply => Ret reply
    end.

Definition adapter_registerDriver (c : RegisterDriverCommand) : M FleetRegistration :=
  reply <- fleet_call "RegisterDriver" (RegisterDriverRequest (command_principalId c) (vehiclePlate c) (capacityKg c)) ;;
  if negb (reply_success reply) then Throw (FleetRegistryError (refusal (reply_error reply)))
  else Ret (mkRegistration (reply_driver_id reply) (reply_already reply)).

Definition adapter_activateDriver (principalId : string) : M FleetActivation :=
  reply <- fleet_call "ActivateDriver" (ActivateDriverRequest principalId) ;;
  if negb (reply_success reply) then Throw (FleetRegistryError (refusal (reply_error reply)))
  else Ret (mkActivation (reply_driver_id reply) (reply_already reply)).

Lemma fleet_call_guar R {HR : PreOrder R} method request : guar (on_db R) (fleet_call method request).
Proof. unfold fleet_call, connect, transportFailure. guar_auto. Qed.
Hint Resolve fleet_call_guar : guar.

Lemma adapter_register_keeps c R : PreOrder R -> guar (on_db R) (adapter_registerDriver c).
Proof. intros HR. unfold adapter_registerDriver. guar_auto. Qed.
Lemma adapter_activate_keeps p R : PreOrder R -> guar (on_db R) (adapter_activateDriver p).
Proof. intros HR. unfold adapter_activateDriver. guar_auto. Qed.

#[export] Instance FleetRegistryGrpcAdapter {P : Platform} : FleetRegistryPort := {|
  registerDriver := adapter_registerDriver;
  activateDriver := adapter_activateDriver;
  register_keeps_tables := adapter_register_keeps;
  activate_keeps_tables := adapter_activate_keeps
|}.
End Adapter.

(** What the fleet actually did is told apart by the answer: [Acted] replies in the affirmative. *)
Definition acted (a : GrpcAnswer) : bool := match a with GrpcReply r => reply_success r | GrpcError _ _ _ => false end.

Section AdapterFacts.
Context {T : FleetTransport}.

(** A failure that says the fleet did nothing is one where the fleet was not asked, answered that
    it refused, or never let the call reach its handler. *)
Lemma activate_did_nothing principalId w f w' :
  run (adapter_activateDriver principalId) w = (Err (FleetRegistryError f), w') -> definitelyDidNothing f = true ->
  contract_fault <> None \/ has_method "ActivateDriver" = false \/
  match grpc_call (net_calls w) "ActivateDriver" (ActivateDriverRequest principalId) with
  | GrpcReply r => reply_success r = false
  | GrpcError c _ _ => c ∈ certainlyUntouched
  end.
Proof.
  unfold adapter_activateDriver, fleet_call, connect. destruct contract_fault; [by left|].
  destruct identity_fault; [done|]. cbn. destruct (has_method "ActivateDriver"); cbn; [|by auto].
  destruct (grpc_call _ _ _) as [c details message|r]; cbn.
  - intros [= <- _]. unfold definitelyDidNothing. cbn. rewrite bool_decide_eq_true. unfold transport_kind.
    destruct (existsb (Z.eqb c) certainlyUntouched) eqn:E; [|done]. intros _. right. right.
    apply existsb_exists in E as (x & Hx & ->%Z.eqb_eq). by apply list_elem_of_In.
  - destruct (reply_success r) eqn:E; cbn; [done|]. auto.
Qed.
End AdapterFacts.
