(* ===== verification/Couriers.v ===== *)
(** * Couriers

    Models src/src/infrastructure/persistence/adapters/typeorm_courier_application_repository.adapter.ts
    (Section [Repository]), src/src/application/services/courier_registration_usecase.service.ts
    (Section [Registration]) and src/src/application/services/courier_onboarding_usecase.service.ts
    (Section [Onboarding]), against the fleet's interface of Fleet.v.

    Main results: an approval promotes the account, asks the fleet and, when the fleet certainly did
    nothing, leaves account and principal as they were; a registration resumed for an existing
    account starts a session only with its password, for a customer or courier without a second
    factor. *)

From S2P Require Import Prelude JsString Dates Domain Store Sample Keys Totp SignInAttempts Tokens Sessions Accounts Clients PasskeyStore Auth Handlers SignIn Login SecondFactor Records Geocoding Profiles Fleet.

Local Open Scope string_scope.
Local Open Scope Z_scope.

Record CourierApplicationView := mkCourierView {
  cv_applicationId : Z;
  cv_principalId : string;
  cv_userId : Z;
  cv_email : string;
  cv_driverId : option Z;
  cv_status : CourierApplicationStatus;
  cv_filedAt : string;
  cv_approvedAt : option string;
  cv_rejectedAt : option string
}.

Record ApplicationQuery (S : Type) := mkApplicationQuery { q_status : option S; q_afterId : Z; q_limit : Z }.
Arguments mkApplicationQuery {S}. Arguments q_status {S}. Arguments q_afterId {S}. Arguments q_limit {S}.
Record ApplicationPage (V : Type) := mkApplicationPage { page_applications : list V; page_nextAfterId : option Z }.
Arguments mkApplicationPage {V}. Arguments page_applications {V}. Arguments page_nextAfterId {V}.
Record ApplicationTally := mkTally { tally_since : string; tally_approved : Z; tally_rejected : Z }.

Section Repository.
Context {P : Platform}.
Local Open Scope prog_scope.

(** The row is of this account; [courier_applications] is keyed by it. *)
Definition filed_row (filing : CourierFiling) (now id : Z) (found : option CourierApplicationRow) : CourierApplicationRow :=
  match found with
  | None => mkCourierRow id (filing_principalId filing) (Some (filing_driverId filing)) c_pending now None None
  | Some r =>
      let again := bool_decide (courier_status r = c_rejected) in
      mkCourierRow (courier_id r) (filing_principalId filing) (Some (filing_driverId filing))
        (if again then c_pending else courier_status r) (if again then now else filedAt r)
        (approvedAt r) (if again then None else courier_rejectedAt r)
  end.

Definition approved_row (filing : CourierFiling) (now id : Z) (found : option CourierApplicationRow) : CourierApplicationRow :=
  match found with
  | None => mkCourierRow id (filing_principalId filing) (Some (filing_driverId filing)) c_approved now (Some now) None
  | Some r =>
      mkCourierRow (courier_id r) (filing_principalId filing) (Some (filing_driverId filing)) c_approved (filedAt r)
        (Some (default now (approvedAt r))) None
  end.

(** [write]: INSERT .. ON CONFLICT ("userId") DO UPDATE .., the account and the principal existing. *)
Definition write_application (row : Z -> Z -> option CourierApplicationRow -> CourierApplicationRow) (filing : CourierFiling)
    : M unit :=
  catch (statement (fun w =>
    let d := db w in
    let id := courier_applications_next d in
    let d1 := set_courier_applications_next (id + 1) d in
    if bool_decide (users d !! filing_userId filing = None) || bool_decide (principals d !! filing_principalId filing = None)
    then (Err (QueryFailedError FOREIGN_KEY_VIOLATION), set_db d1 w)
    else
      let found := courier_applications d !! filing_userId filing in
      (Ok tt, set_db (set_courier_applications
                        (<[filing_userId filing := row (pg_ms w) id found]> (courier_applications d)) d1) w)))
    (fun error =>
      if isForeignKeyViolation error
      then Throw (MissingReferenceError ("No account " ++ String_of (filing_userId filing) ++ " with principal " ++
             filing_principalId filing ++ " to file a courier application for"))
      else Throw error).

Definition recordFiled (filing : CourierFiling) : M unit := write_application (filed_row filing) filing.
Definition recordApproved (filing : CourierFiling) : M unit := write_application (approved_row filing) filing.

(** UPDATE .. WHERE "userId" AND "status" = 'pending' *)
Definition recordRejected (userId : Z) : M bool :=
  update (fun w =>
    match courier_applications (db w) !! userId with
    | Some r =>
        if bool_decide (courier_status r = c_pending)
        then (true, set_courier_applications
                      (<[userId := mkCourierRow (courier_id r) (courier_principalId r) (courier_driverId r) c_rejected
                                     (filedAt r) (approvedAt r) (Some (pg_ms w))]> (courier_applications (db w))) (db w))
        else (false, db w)
    | None => (false, db w)
    end).

Definition courier_view (userId : Z) (r : CourierApplicationRow) (u : UserEntity) : CourierApplicationView :=
  mkCourierView (courier_id r) (courier_principalId r) userId (user_email u) (courier_driverId r) (courier_status r)
    (toISOString (filedAt r)) (toISOString <$> approvedAt r) (toISOString <$> courier_rejectedAt r).

(** The row joined with its account. *)
Definition joined (userId : Z) (d : Db) : option CourierApplicationView :=
  match courier_applications d !! userId, users d !! userId with
  | Some r, Some u => Some (courier_view userId r (row_user u))
  | _, _ => None
  end.

Definition findCourierApplication (userId : Z) : M (option CourierApplicationView) :=
  query (fun w => joined userId (db w)).

(** ORDER BY id *)
Fixpoint insert_by_id {V} (id : V -> Z) (v : V) (l : list V) : list V :=
  match l with
  | [] => [v]
  | x :: l' => if id v <=? id x then v :: l else x :: insert_by_id id v l'
  end.
Definition sort_by_id {V} (id : V -> Z) (l : list V) : list V := foldr (insert_by_id id) [] l.

(** A page of rows in the order of their ids: [limit + 1] rows read, [limit] of them answered, and
    the id to go on after when there are more. *)
Definition page_of {V} (id : V -> Z) (limit : Z) (sorted : list V) : ApplicationPage V :=
  let records := take (Z.to_nat (limit + 1)) sorted in
  let hasMore := limit <? Z.of_nat (List.length records) in
  let page := if hasMore then take (Z.to_nat limit) records else records in
  mkApplicationPage page (if hasMore then id <$> last page else None).

Definition list_applications (q : ApplicationQuery CourierApplicationStatus) : M (ApplicationPage CourierApplicationView) :=
  query (fun w =>
    let selected := List.filter (fun v =>
        (q_afterId q <? cv_applicationId v) &&
        match q_status q with Some s => bool_decide (cv_status v = s) | None => true end)
      (omap (fun '(u, _) => joined u (db w)) (map_to_list (courier_applications (db w)))) in
    page_of cv_applicationId (q_limit q) (sort_by_id cv_applicationId selected)).

Definition count_rows {K V} `{Countable K} (p : V -> bool) (m : gmap K V) : Z :=
  Z.of_nat (List.length (List.filter (fun '(_, v) => p v) (map_to_list m))).
Definition decided_since (since : Z) (at_ms : option Z) : bool := match at_ms with Some t => since <=? t | None => false end.

Definition courier_tally (since : Z) : M ApplicationTally :=
  query (fun w =>
    let rows := courier_applications (db w) in
    mkTally (toISOString since)
      (count_rows (fun r => bool_decide (courier_status r = c_approved) && decided_since since (approvedAt r)) rows)
      (count_rows (fun r => bool_decide (courier_status r = c_rejected) && decided_since since (courier_rejectedAt r)) rows)).
End Repository.

(** ** Registration *)

Record RegisterCourierInputDto := mkRegisterCourier {
  rc_email : string; rc_password : string; rc_fullName : string; rc_phoneNumber : string;
  rc_vehiclePlate : string; rc_capacityKg : Z
}.

Record RegisterCourierOutputDto := mkRegisteredCourier { registered_session : AuthTokenOutput; registered_driverId : Z }.

Definition ROLES_THAT_MAY_DRIVE : list UserRole := [Customer; Courier].
Definition ROLE_WITH_ARTICLE (r : UserRole) : string :=
  match r with Customer => "a customer" | Seller => "a seller" | Courier => "a courier" | Admin => "an admin" end.

Section Registration.
Context {P : Platform} {G : GeocodingProviderPort} {F : FleetRegistryPort} (cfg : TokenConfig P).
Local Open Scope prog_scope.

(** [explain]: what the caller is told of a failure of the fleet. *)
Definition explain (error : exn) : M exn :=
  match error with
  | FleetRegistryError failure =>
      if isFault failure then
        emit (LogLine None ("the fleet could not be asked to file a courier's vehicle: " ++ exn_message error)) ;;;
        Ret (HttpException BadGateway (Some "FLEET_FAULT")
          ("Your account exists, but identity could not file your vehicle because of a fault on its own " ++
           "side. Nothing was filed. Submit the same details again later with the same email and " ++
           "password; the account will be reused."))
      else if definitelyDidNothing failure then
        Ret (HttpException BadRequest (Some (fleet_code failure))
          ("Your account exists, but the fleet refused the vehicle: " ++ fleet_message failure ++ ". " ++
           "Correct the vehicle details and submit again with the same email and password; " ++
           "the account will be reused."))
      else
        Ret (HttpException ServiceUnavailable (Some (fleet_code failure))
          ("Your account exists, but the fleet could not be reached to file your vehicle. " ++
           "Submit the same details again to finish — nothing will be duplicated."))
  | _ => Ret error
  end.

Definition fileVehicle (session : AuthTokenOutput) (dto : RegisterCourierInputDto) : M Z :=
  catch (
    registration <- registerDriver (mkCommand (out_principalId session) (rc_vehiclePlate dto) (rc_capacityKg dto)) ;;
    (if alreadyRegistered registration
     then emit (LogLine None ("the vehicle was already filed for this principal: driver_id " ++
                  String_of (registration_driverId registration)))
     else Ret tt) ;;;
    Ret (registration_driverId registration))
    (fun error => e <- explain error ;; Throw e).

Definition resume (dto : RegisterCourierInputDto) (context : CallContext) : M AuthTokenOutput :=
  account <- catch (verifyPassword (rc_email dto) (rc_password dto) context) (fun error =>
    if isUnauthorized error
    then Throw (HttpException Conflict None "An account with that email address already exists")
    else Throw error) ;;
  if negb (bool_decide (user_role account ∈ ROLES_THAT_MAY_DRIVE))
  then Throw (HttpException Conflict None
    ("That account is " ++ ROLE_WITH_ARTICLE (user_role account) ++
     ", and filing a vehicle under it would make it a courier. A courier registers with an account of its own."))
  else if isTwoFactorEnabled account
  then Throw (HttpException Conflict None
    ("That account has two-factor authentication enabled, so registration cannot be resumed " ++
     "here. Sign in normally and file the vehicle from the app."))
  else
    emit (LogLine (requestId context) ("resuming a courier registration for an account that already exists: user_id " ++
      String_of (user_id account))) ;;;
    startSession cfg account context.

Definition sessionFor (dto : RegisterCourierInputDto) (context : CallContext) : M AuthTokenOutput :=
  existing <- findByEmail (normalisedEmail (rc_email dto)) ;;
  match existing with
  | None => register_account cfg (rc_email dto) (rc_password dto) context
  | Some _ => resume dto context
  end.

Definition register_courier (dto : RegisterCourierInputDto) (context : CallContext) : M RegisterCourierOutputDto :=
  session <- sessionFor dto context ;;
  updateProfile (user_id (out_user session))
    (mkUpdateProfile (Some (rc_fullName dto)) (Some (rc_phoneNumber dto)) None None None None) ;;;
  driverId <- fileVehicle session dto ;;
  recordFiled (mkFiling (user_id (out_user session)) (out_principalId session) driverId) ;;;
  Ret (mkRegisteredCourier session driverId).
End Registration.

(** ** Onboarding *)

Record ApproveCourierOutputDto := mkApprovedCourier {
  approved_principalId : string; approved_email : string; approved_role : UserRole; approved_driverId : Z; approved_active : bool
}.

Definition NO_VEHICLE : string := "NO_DRIVER_RECORD".

Definition with_role (r : UserRole) (u : UserEntity) : UserEntity :=
  mkUser (user_id u) (user_email u) (passwordHash u) r (isTwoFactorEnabled u) (twoFactorSecret u).

Section Onboarding.
Context {P : Platform} {F : FleetRegistryPort}.
Local Open Scope prog_scope.

Definition courier_refusalOf (error : exn) : M exn :=
  match error with
  | FleetRegistryError failure =>
      if bool_decide (fleet_code failure = NO_VEHICLE) then
        Ret (HttpException Conflict (Some NO_VEHICLE)
          ("This account has filed no vehicle, so it cannot be approved as a courier. Nothing was " ++
           "changed; it must register a vehicle first."))
      else if isFault failure then
        emit (LogLine None ("the fleet could not be asked to activate a driver: " ++ exn_message error)) ;;;
        Ret (HttpException BadGateway (Some (fleet_code failure))
          ("identity could not ask the fleet to activate this driver (" ++ fleet_code failure ++ "); the fault " ++
           "lies between identity and the fleet, not with the account. Nothing was changed."))
      else if definitelyDidNothing failure then
        Ret (HttpException BadGateway (Some (fleet_code failure))
          ("The fleet refused to activate this driver (" ++ fleet_code failure ++ ": " ++ fleet_message failure ++ "). " ++
           "Nothing was changed."))
      else
        Ret (HttpException ServiceUnavailable (Some (fleet_code failure))
          ("The account is now a courier, but the fleet could not be told to activate the driver. " ++
           "Approve again once the fleet is reachable; nothing will be duplicated."))
  | _ => Ret error
  end.

Definition restoreCustomer (user : UserEntity) (principalId : string) : M unit :=
  save_user (with_role Customer user) ;;;
  syncKind principalId Customer ;;;
  emit (LogLine None ("the fleet refused the activation, so the account was returned to customer: principal_id " ++ principalId)).

Definition did_nothing (error : exn) : bool :=
  match error with FleetRegistryError failure => definitelyDidNothing failure | _ => false end.

Definition activateInFleet (user : UserEntity) (principalId : string) (promoted : bool) : M FleetActivation :=
  catch (activateDriver principalId) (fun error =>
    (if promoted && did_nothing error then restoreCustomer user principalId else Ret tt) ;;;
    e <- courier_refusalOf error ;; Throw e).

Definition approved (user : UserEntity) (principalId : string) (activation : FleetActivation) : M ApproveCourierOutputDto :=
  recordApproved (mkFiling (user_id user) principalId (activation_driverId activation)) ;;;
  Ret (mkApprovedCourier principalId (user_email user) (user_role user) (activation_driverId activation) true).

Definition no_account (principalId : string) : exn :=
  HttpException NotFound None ("No account is registered under principal " ++ principalId).

Definition approveCourier (principalId : string) : M ApproveCourierOutputDto :=
  userId <- userIdForPrincipal principalId ;;
  match userId with
  | None => Throw (no_account principalId)
  | Some userId =>
      found <- findById userId ;;
      match found with
      | None => Throw (no_account principalId)
      | Some user =>
          application <- findCourierApplication userId ;;
          if match application with Some a => bool_decide (cv_status a = c_rejected) | None => false end
          then Throw (HttpException Conflict None
            ("The courier application of principal " ++ principalId ++ " was rejected; it can be approved only after " ++
             "the courier registers the vehicle again"))
          else
            match user_role user with
            | Courier =>
                repeated <- activateInFleet user principalId false ;;
                approved user principalId repeated
            | Customer =>
                let promoted := with_role Courier user in
                save_user promoted ;;;
                syncKind principalId Courier ;;;
                activation <- activateInFleet promoted principalId true ;;
                approved promoted principalId activation
            | role =>
                Throw (HttpException Conflict None
                  ("Account " ++ principalId ++ " is a " ++ role_name role ++ "; promoting it to courier would revoke that role"))
            end
      end
  end.

Definition pendingCourierApplication (userId : Z) (principalId : string) : M CourierApplicationView :=
  application <- findCourierApplication userId ;;
  match application with
  | None => Throw (HttpException NotFound None ("No courier application is filed under principal " ++ principalId))
  | Some a =>
      if negb (bool_decide (cv_status a = c_pending))
      then Throw (HttpException Conflict None
        ("The courier application of principal " ++ principalId ++ " is " ++ courier_status_name (cv_status a) ++ ", not pending"))
      else Ret a
  end.

Definition rejectCourier (principalId : string) : M CourierApplicationView :=
  userId <- userIdForPrincipal principalId ;;
  match userId with
  | None => Throw (no_account principalId)
  | Some userId =>
      found <- findById userId ;;
      match found with
      | None => Throw (no_account principalId)
      | Some user =>
          pendingCourierApplication userId principalId ;;;
          if bool_decide (user_role user = Courier)
          then Throw (HttpException Conflict None
            ("Account " ++ principalId ++ " is already a courier: an approval began and did not finish. Approve it " ++
             "again to finish it; a rejection would leave the courier role in place"))
          else
            rejected <- recordRejected userId ;;
            (if negb rejected then
               pendingCourierApplication userId principalId ;;;
               Throw (PlainError ("the courier application of principal " ++ principalId ++ " stayed pending through a rejection"))
             else Ret tt) ;;;
            after <- findCourierApplication userId ;;
            match after with
            | None => Throw (HttpException NotFound None ("No courier application is filed under principal " ++ principalId))
            | Some a => Ret a
            end
      end
  end.
End Onboarding.

(** ** A registration that is resumed *)

Section RegistrationFacts.
Context {P : Platform} (cfg : TokenConfig P).

Definition may_resume (dto : RegisterCourierInputDto) (s : AuthTokenOutput) (w : World) : Prop :=
  holds_credentials (rc_email dto) (rc_password dto) (out_user s) w /\
  user_role (out_user s) ∈ ROLES_THAT_MAY_DRIVE /\ isTwoFactorEnabled (out_user s) = false.

(** Whatever other requests do between its steps, a courier registration resumed for an email that
    is already registered starts a session only for an account that, when it was read, had that email
    and the password sent, is a customer or a courier, and has no second factor. *)
Theorem resumed_registration_needs_password dto context :
  secures (may_resume dto) (resume cfg dto context).
Proof.
  unfold resume. eapply secures_bind.
  - apply secures_catch; [|apply verifyPassword_secures]. intros e. destruct (isUnauthorized e); eauto.
  - intros user w Hc. destruct (bool_decide _) eqn:Er; cbn [negb]; [|exact I].
    apply bool_decide_eq_true in Er. destruct (isTwoFactorEnabled user) eqn:E2; [exact I|]. returns_step.
    eapply returns_mono; [|apply startSession_returns]. intros s [Hs _]. unfold may_resume. by rewrite Hs.
Qed.
End RegistrationFacts.

(** ** Applications *)

(** The dates of a row follow its status. *)
Definition application_ok (r : CourierApplicationRow) : Prop :=
  match courier_status r with
  | c_pending => approvedAt r = None /\ courier_rejectedAt r = None
  | c_approved => courier_rejectedAt r = None
  | c_rejected => approvedAt r = None /\ is_Some (courier_rejectedAt r)
  end.
Definition applications_ok (d : Db) : Prop := forall u r, courier_applications d !! u = Some r -> application_ok r.

(** No application disappears or is renumbered, and an approval stands, with its date if it has one. *)
Definition application_kept (r r' : CourierApplicationRow) : Prop :=
  courier_id r' = courier_id r /\
  (courier_status r = c_approved -> courier_status r' = c_approved /\ forall t, approvedAt r = Some t -> approvedAt r' = Some t).
Definition applications_step (d d' : Db) : Prop :=
  applications_ok d -> applications_ok d' /\
  forall u r, courier_applications d !! u = Some r ->
    exists r', courier_applications d' !! u = Some r' /\ application_kept r r'.

Section Applications.
Context {P : Platform}.

Lemma application_kept_refl r : application_kept r r.
Proof. done. Qed.

#[export] Instance applications_step_preorder : PreOrder applications_step.
Proof.
  split; [intros d Hok; eauto using application_kept_refl|].
  intros d1 d2 d3 H12 H23 Hok. destruct (H12 Hok) as [Hok2 K12], (H23 Hok2) as [Hok3 K23]. split; [done|].
  intros u r Hr. destruct (K12 u r Hr) as (r2 & Hr2 & I2 & A2), (K23 u r2 Hr2) as (r3 & Hr3 & I3 & A3).
  exists r3. split; [done|]. split; [congruence|]. intros Ha. destruct (A2 Ha) as [Ha2 E2], (A3 Ha2) as [Ha3 E3]. split; auto.
Qed.

Lemma applications_same d d' : courier_applications d' = courier_applications d -> applications_step d d'.
Proof. intros H Hok. split; [intros u r; rewrite H; by apply Hok|]. intros u r. rewrite H. eauto using application_kept_refl. Qed.

(** A row replaced by one that keeps it, or inserted where there was none. *)
Lemma applications_insert d d' u r' :
  courier_applications d' = <[u := r']> (courier_applications d) ->
  (applications_ok d -> match courier_applications d !! u with
                        | Some r => application_ok r -> application_ok r' /\ application_kept r r'
                        | None => application_ok r' end) ->
  applications_step d d'.
Proof.
  intros He Hr' Hok. specialize (Hr' Hok). split.
  - intros v r. rewrite He. intros [[<- <-]|[_ Hr]]%lookup_insert_Some; [|by eapply Hok].
    destruct (courier_applications d !! u) as [r0|] eqn:E; [|done]. apply Hr'. by eapply Hok.
  - intros v r Hr. rewrite He. destruct (decide (u = v)) as [<-|Hne].
    + rewrite lookup_insert_eq. rewrite Hr in Hr'. exists r'. split; [done|]. apply Hr'. by eapply Hok.
    + rewrite lookup_insert_ne by done. eauto using application_kept_refl.
Qed.

Lemma filed_row_ok filing now id : application_ok (filed_row filing now id None).
Proof. done. Qed.
Lemma filed_row_kept filing now id r :
  application_ok r -> application_ok (filed_row filing now id (Some r)) /\ application_kept r (filed_row filing now id (Some r)).
Proof. destruct r as [? ? ? [] ? ? ?]; cbn; intros H; unfold application_ok, application_kept; cbn; naive_solver. Qed.
Lemma approved_row_ok filing now id : application_ok (approved_row filing now id None).
Proof. done. Qed.
Lemma approved_row_kept filing now id r :
  application_ok r -> application_ok (approved_row filing now id (Some r)) /\ application_kept r (approved_row filing now id (Some r)).
Proof. destruct r as [? ? ? [] ? [] ?]; cbn; intros H; unfold application_ok, application_kept; cbn; naive_solver. Qed.

Lemma write_application_guar row filing :
  (forall now id, application_ok (row now id None)) ->
  (forall now id r, application_ok r -> application_ok (row now id (Some r)) /\ application_kept r (row now id (Some r))) ->
  guar (on_db applications_step) (write_application row filing).
Proof.
  intros Hn Hs. unfold write_application. guar_auto. apply guar_statement; [typeclasses eauto|]. intros w. cbv zeta.
  destruct (_ || _); [by apply applications_same|]. cbn. eapply applications_insert; [reflexivity|]. intros _.
  destruct (courier_applications (db w) !! filing_userId filing); [apply Hs|apply Hn].
Qed.

Lemma recordFiled_guar filing : guar (on_db applications_step) (recordFiled filing).
Proof. apply write_application_guar; [apply filed_row_ok|apply filed_row_kept]. Qed.
Lemma recordApproved_guar filing : guar (on_db applications_step) (recordApproved filing).
Proof. apply write_application_guar; [apply approved_row_ok|apply approved_row_kept]. Qed.
Lemma recordRejected_guar userId : guar (on_db applications_step) (recordRejected userId).
Proof.
  apply guar_update; [typeclasses eauto|]. intros w.
  destruct (courier_applications (db w) !! userId) as [r|] eqn:E; [|reflexivity].
  destruct (bool_decide (courier_status r = c_pending)) eqn:Ep; [|reflexivity]. apply bool_decide_eq_true in Ep.
  eapply applications_insert; [reflexivity|]. rewrite E. intros _. unfold application_ok at 1. rewrite Ep.
  intros [Ha Hj]. unfold application_ok, application_kept. cbn. rewrite Ep. split_and!; eauto; done.
Qed.

#[export] Instance applications_primitives : Primitives applications_step.
Proof. primitives; frame; intros ??; by apply applications_same. Qed.
End Applications.
#[export] Hint Resolve recordFiled_guar recordApproved_guar recordRejected_guar : guar.

#[export] Hint Resolve findByEmail_guar findById_guar verifyPassword_guar startSession_guar register_account_guar : guar.

Section Pool.
Context {P : Platform} {G : GeocodingProviderPort} {F : FleetRegistryPort} (cfg : TokenConfig P).

Inductive CourierRequest :=
| RegisterRequest (dto : RegisterCourierInputDto) (context : CallContext)
| ApproveRequest (principalId : string)
| RejectRequest (principalId : string).

Definition serve (r : CourierRequest) : M unit :=
  match r with
  | RegisterRequest dto context => bind (register_courier cfg dto context) (fun _ => Ret tt)
  | ApproveRequest p => bind (approveCourier p) (fun _ => Ret tt)
  | RejectRequest p => bind (rejectCourier p) (fun _ => Ret tt)
  end.

Lemma register_courier_guar dto context : guar (on_db applications_step) (register_courier cfg dto context).
Proof.
  unfold register_courier, sessionFor, resume, fileVehicle, explain. guar_auto.
  apply updateProfile_guar; [typeclasses eauto|intros; by apply applications_same..].
Qed.
Lemma approveCourier_guar p : guar (on_db applications_step) (approveCourier p).
Proof.
  unfold approveCourier, userIdForPrincipal, findCourierApplication, activateInFleet, restoreCustomer, courier_refusalOf, approved.
  guar_auto.
Qed.
Lemma rejectCourier_guar p : guar (on_db applications_step) (rejectCourier p).
Proof. unfold rejectCourier, userIdForPrincipal, pendingCourierApplication, findCourierApplication. guar_auto. Qed.

(** However registrations, approvals and rejections interleave, and whichever database calls are
    lost, every courier application keeps dates that agree with its status (one that is not approved has
    no date of approval, exactly a rejected one has a date of rejection; the couriers that were there
    before there were applications are approved without a date), none disappears or is renumbered, and
    an approved one stays approved with the date it was approved on, if it has one. *)
Theorem courier_applications_evolve requests w w' ps' :
  applications_ok (db w) ->
  psteps (on_db applications_step) (w, map serve requests) (w', ps') ->
  applications_ok (db w') /\
  forall u r, courier_applications (db w) !! u = Some r ->
    exists r', courier_applications (db w') !! u = Some r' /\ application_kept r r'.
Proof.
  intros Hok Hs. eapply psteps_guar in Hs as [Hs _]; [by apply Hs|typeclasses eauto..|].
  apply Forall_map, Forall_true. intros []; cbn [serve]; (apply guar_bind; [|intros; exact I]);
    auto using register_courier_guar, approveCourier_guar, rejectCourier_guar.
Qed.
End Pool.

(** ** An approval *)

Section ApprovalFacts.
Context {P : Platform} {F : FleetRegistryPort}.

Definition account_role (id : Z) (d : Db) : option UserRole := (fun row => user_role (row_user row)) <$> users d !! id.
Definition principal_kind (p : string) (d : Db) : option PrincipalKind := kind <$> principals d !! p.
Definition is_courier (id : Z) (p : string) (d : Db) : Prop :=
  account_role id d = Some Courier /\ principal_kind p d = Some (principalKindForRole Courier).

(** What the administrator is told of a failure of the fleet. *)
Definition refusal_status (f : FleetFailure) : HttpStatus :=
  if bool_decide (fleet_code f = NO_VEHICLE) then Conflict
  else if definitelyDidNothing f then BadGateway else ServiceUnavailable.
Definition told (error answer : exn) : Prop :=
  match error with
  | FleetRegistryError f => exists c m, answer = HttpException (refusal_status f) c m
  | _ => answer = error
  end.

Lemma wp_refusalOf error w : wp (courier_refusalOf error) (fun r w' => db w' = db w /\ exists e, r = Ok e /\ told error e) w.
Proof.
  unfold courier_refusalOf, told, refusal_status, isFault, definitelyDidNothing. destruct error as [| | |f| | | | |];
    try (by repeat wp_step; eauto).
  destruct (bool_decide (fleet_code f = NO_VEHICLE)); [by repeat wp_step; eauto 6|].
  destruct (fleet_kind f); repeat wp_step;
    try (match goal with H : bool_decide _ = _ |- _ => by vm_compute in H end); split; eauto 6.
Qed.

Lemma wp_activateDriver p (Q : res exn FleetActivation -> World -> Prop) w :
  (forall r w', run (activateDriver p) w = (r, w') -> db w' = db w -> Q r w') -> wp (activateDriver p) Q w.
Proof.
  intros H. unfold wp. apply H; [by destruct (run _ _)|]. symmetry.
  apply (guar_run (on_db eq) _ w _ _ (activate_keeps_tables p eq _)).
Qed.

(** A row changed and changed back. *)
Lemma alter_back {K V} `{Countable K} (f g : V -> V) (m : gmap K V) i x :
  m !! i = Some x -> f (g x) = x -> alter f i (alter g i m) = m.
Proof.
  intros Hx Hfg. apply map_eq. intros j. destruct (decide (i = j)) as [<-|Hne].
  - by rewrite !lookup_alter_eq, Hx; cbn; rewrite Hfg.
  - by rewrite !lookup_alter_ne.
Qed.

Lemma with_role_id u r : with_role (user_role u) (with_role r u) = u.
Proof. by destruct u. Qed.

Definition with_kind (r : UserRole) (pr : PrincipalRow) : PrincipalRow := mkPrincipal (principalKindForRole r) (principal_displayName pr).

(** The tables once the account has a role and its principal the kind of the role. *)
Definition in_role (id : Z) (p : string) (r : UserRole) (d : Db) : Db :=
  set_principals (alter (with_kind r) p (principals d))
    (set_users (alter (fun row => mkUserRow (with_role r (row_user row)) (twoFactorLastStep row)) id (users d)) d).

Lemma in_role_courier id p d row pr :
  users d !! id = Some row -> principals d !! p = Some pr -> is_courier id p (in_role id p Courier d).
Proof. intros Hr Hp. unfold is_courier, account_role, principal_kind. cbn. by rewrite !lookup_alter_eq, Hr, Hp. Qed.

Lemma in_role_back id p d row pr :
  users d !! id = Some row -> user_role (row_user row) = Customer ->
  principals d !! p = Some pr -> kind pr = principalKindForRole Customer ->
  in_role id p Customer (in_role id p Courier d) = d.
Proof.
  intros Hr Hrole Hp Hk. unfold in_role. cbn. rewrite (alter_back _ _ _ _ _ Hp), (alter_back _ _ _ _ _ Hr); [by destruct d|..].
  - destruct row as [u last]; cbn in *. f_equal. rewrite <- Hrole. apply with_role_id.
  - unfold with_kind. rewrite <- Hk. by destruct pr.
Qed.

Context (Hrel : reliable).

Lemma own_email_free d id row : emails_unique d -> users d !! id = Some row -> email_taken id (user_email (row_user row)) d = false.
Proof.
  intros Hu Hr. destruct (email_taken _ _ _) eqn:E; [|done]. apply existsb_exists in E as ([i r'] & Hi & Hc).
  apply list_elem_of_In, elem_of_map_to_list in Hi. apply andb_true_iff in Hc as [Hne He].
  apply bool_decide_eq_true in He. assert (i = id) by (eapply Hu; eauto). lia.
Qed.

(** Saving an account in another role, then its principal's kind. *)
Lemma wp_change_role {A} id p r u row (k : M A) (Q : res exn A -> World -> Prop) w :
  users (db w) !! id = Some row -> 0 < id -> user_id u = id -> user_email u = user_email (row_user row) ->
  with_role r u = with_role r (row_user row) -> emails_unique (db w) ->
  (forall w', db w' = in_role id p r (db w) -> wp k Q w') ->
  wp (bind (save_user (with_role r u)) (fun _ => bind (syncKind p r) (fun _ => k))) Q w.
Proof.
  intros Hr Hid Hu He Hw Huniq Hk. unfold save_user, save_user_row. wp_step. wp_step. wp_rel Hrel. cbv zeta.
  cbn -[wp bind syncKind]. rewrite Hu. assert ((0 <? id) = true) as -> by lia. rewrite He, (own_email_free _ _ _ Huniq Hr), Hr.
  cbn -[wp bind syncKind]. wp_step. unfold syncKind. wp_rel Hrel. cbn -[wp]. apply Hk. cbn. unfold in_role. f_equal.
  f_equal. apply map_eq. intros i. rewrite Hw. destruct (decide (id = i)) as [<-|Hne].
  - by rewrite lookup_insert_eq, lookup_alter_eq, Hr.
  - by rewrite lookup_insert_ne, lookup_alter_ne.
Qed.

Lemma emails_in_role id p r d : emails_unique d -> emails_unique (in_role id p r d).
Proof.
  intros Hu i j a b. cbn.
  assert (forall n x, alter (fun row => mkUserRow (with_role r (row_user row)) (twoFactorLastStep row)) id (users d) !! n = Some x ->
    exists y, users d !! n = Some y /\ user_email (row_user y) = user_email (row_user x)) as Hsame.
  { intros n x. rewrite lookup_alter. destruct (decide (id = n)) as [<-|_]; [|by eauto].
    destruct (users d !! id) as [y|]; [|done]. intros [= <-]. by exists y. }
  intros (a' & Ha & Ea)%Hsame (b' & Hb & Eb)%Hsame He. eapply Hu; eauto. unfold same_email in *. congruence.
Qed.

(** What an approval leaves, given what the fleet answered when it was asked. *)
Definition approval_outcome (id : Z) (p email : string) (d : Db) (answer : res exn FleetActivation)
    (r : res exn ApproveCourierOutputDto) (d' : Db) : Prop :=
  match answer with
  | Ok a =>
      r = Ok (mkApprovedCourier p email Courier (activation_driverId a) true) /\ is_courier id p d' /\
      exists row, courier_applications d' !! id = Some row /\ courier_status row = c_approved /\
        courier_principalId row = p /\ courier_driverId row = Some (activation_driverId a)
  | Err e =>
      (exists e', r = Err e' /\ told e e') /\
      if did_nothing e then d' = d
      else is_courier id p d' /\ courier_applications d' = courier_applications d
  end.

Lemma wp_approved id p u a w row pr :
  users (db w) !! id = Some row -> principals (db w) !! p = Some pr -> user_id u = id -> user_role u = Courier ->
  is_courier id p (db w) ->
  wp (approved u p a) (fun r w' => approval_outcome id p (user_email u) (db w) (Ok a) r (db w')) w.
Proof.
  intros Hr Hp Hu Hrole Hc. unfold approved, recordApproved, write_application. wp_step. wp_step. wp_rel Hrel.
  cbv zeta. cbn -[wp]. rewrite Hu, Hr, Hp, !bool_decide_eq_false_2 by done. cbn -[wp]. repeat wp_step.
  split_and!; [by rewrite Hrole|by apply Hc..|]. cbn. rewrite lookup_insert_eq. eexists. split; [done|].
  unfold approved_row. by destruct (courier_applications (db w) !! id).
Qed.

(** The refused account returns to the tables it had. *)
Lemma wp_activateInFleet id p u row pr w d :
  db w = in_role id p Courier d -> emails_unique d -> 0 < id -> user_id u = id -> u = row_user row ->
  users d !! id = Some row -> user_role u = Customer -> principals d !! p = Some pr ->
  kind pr = principalKindForRole Customer ->
  wp (activateInFleet (with_role Courier u) p true) (fun r w' =>
    exists answer w1, run (activateDriver p) w = (answer, w1) /\
      match answer with
      | Ok a => r = Ok a /\ db w' = db w
      | Err e => (exists e', r = Err e' /\ told e e') /\ if did_nothing e then db w' = d else db w' = db w
      end) w.
Proof.
  intros Hw Hu Hid Huid -> Hr Hrole Hp Hk. unfold activateInFleet. wp_step. apply wp_activateDriver.
  intros [a|e] w1 Hrun Hdb; [by exists (Ok a), w1|].
  assert (forall w2, wp (e0 <- courier_refusalOf e ;; Throw e0)%prog (fun r w' =>
    db w' = db w2 /\ exists e', r = Err (A := FleetActivation) e' /\ told e e') w2) as Htail.
  { intros w2. wp_step. eapply wp_mono; [apply wp_refusalOf|]. cbn beta. intros r w3 (Hd & e' & -> & Ht). wp_step. eauto. }
  destruct (did_nothing e) eqn:En; cbn [andb].
  - unfold restoreCustomer. wp_step.
    eapply wp_change_role with (row := mkUserRow (with_role Courier (row_user row)) (twoFactorLastStep row)) (id := id).
    all: rewrite ?Hdb, ?Hw. all: try done. all: [> cbn; by rewrite lookup_alter_eq, Hr|by apply emails_in_role|].
    intros w2 Hd2. wp_step. eapply wp_mono; [apply Htail|]. cbn beta. intros r w3 (Hd & He). exists (Err e), w1. split_and!; [done..|].
    rewrite En, Hd. etrans; [exact Hd2|]. by eapply in_role_back.
  - wp_step. wp_step. eapply wp_mono; [apply Htail|]. cbn beta. intros r w2 (Hd & He). exists (Err e), w1.
    split_and!; [done..|]. rewrite En. congruence.
Qed.

(** C12: Approving a customer's courier application, no database call being lost: the account is a
    courier, and its principal a driver, when the fleet is asked to activate it. When the fleet
    activates it the application is recorded as approved with the fleet's driver id; when the fleet
    certainly did nothing, the tables are exactly what they were before; when it may have acted, the
    account stays a courier, the application is left as it was and the administrator is told to
    approve again. *)
Theorem approval_follows_the_fleet p l id row pr w :
  local_id_of "identity" p (db w) = Some l -> Number l = Some id -> users (db w) !! id = Some row ->
  user_id (row_user row) = id -> 0 < id -> emails_unique (db w) -> user_role (row_user row) = Customer ->
  principals (db w) !! p = Some pr -> kind pr = principalKindForRole Customer ->
  (forall r, courier_applications (db w) !! id = Some r -> courier_status r <> c_rejected) ->
  wp (approveCourier p) (fun r w' =>
    exists asked answer w1, run (activateDriver p) asked = (answer, w1) /\ is_courier id p (db asked) /\
      approval_outcome id p (user_email (row_user row)) (db w) answer r (db w')) w.
Proof.
  intros Hl Hn Hr Huid Hid Hu Hrole Hp Hk Happ.
  unfold approveCourier, userIdForPrincipal, findById, findCourierApplication.
  wp_step. wp_step. wp_rel Hrel. cbn [db count_call]. rewrite Hl. wp_step. rewrite Hn. wp_step. wp_step. wp_rel Hrel.
  cbn [db count_call]. rewrite Hr. wp_step. cbn [fmap option_fmap option_map]. wp_step. wp_rel Hrel.
  unfold joined. cbn [db count_call]. rewrite Hr.
  assert ((if match courier_applications (db w) !! id with Some r => Some (courier_view id r (row_user row)) | None => None end
    is Some a then bool_decide (cv_status a = c_rejected) else false) = false) as ->.
  { destruct (courier_applications (db w) !! id) as [r|]; [|done]. apply bool_decide_eq_false. by apply Happ. }
  rewrite Hrole. eapply wp_change_role; [exact Hr|done..|]. intros w1 Hw1. cbn in Hw1.
  wp_step. eapply wp_mono; [by eapply wp_activateInFleet|]. cbn beta.
  pose proof (in_role_courier id p (db w) row pr Hr Hp) as Hc.
  intros r w2 ([a|e] & w3 & Hrun & H).
  - destruct H as [-> Hd]. eapply wp_mono.
    + eapply wp_approved; rewrite ?Hd, ?Hw1; [cbn; by rewrite lookup_alter_eq, Hr|cbn; by rewrite lookup_alter_eq, Hp|done..].
    + cbn beta. intros r' w' Ho. exists w1, (Ok a), w3. rewrite Hw1. done.
  - destruct H as [(e' & -> & Ht) Hd]. exists w1, (Err e), w3. rewrite Hw1. split_and!; [done..|]. split; [by eauto|].
    destruct (did_nothing e); [done|]. by rewrite Hd, Hw1.
Qed.
End ApprovalFacts.

(** ** On a concrete service *)

Module Witness.

Abbreviation cfg := Sessions.Witness.cfg.
Abbreviation provider := Geocoding.Witness.sample_provider.

(** A fleet that files the vehicle, then turns the first activation away, loses the second and
    performs the third. *)
Definition transport : FleetTransport := {|
  contract_fault := None;
  identity_fault := None;
  has_method := fun _ => true;
  grpc_call := fun n _ _ => nth n
    [GrpcReply (mkReply true 7 false None); GrpcError 7 "not an admin" ""; GrpcError 14 "no route" "";
     GrpcReply (mkReply true 7 false None)] (GrpcError 2 "" "")
|}.
Definition fleet : @FleetRegistryPort sample_platform := @FleetRegistryGrpcAdapter transport sample_platform.

Definition dto : RegisterCourierInputDto := mkRegisterCourier "Dewi@x.io" "pw" "Dewi" "+62" "B 1 KX" 20.
Definition web : CallContext := mkContext None (Some (Named "web")).
Definition register := run (@register_courier sample_platform provider fleet cfg dto web) (world_at 1000000000 empty_db).
Definition filed : World := register.2.
Definition p : string := match register.1 with Ok o => out_principalId (registered_session o) | Err _ => "" end.
Definition approve_in (w : World) := run (@approveCourier sample_platform fleet p) w.
Definition refused_once : World := (approve_in filed).2.
Definition lost_once : World := (approve_in refused_once).2.

Lemma resumed_registration_needs_password_witness :
  (exists s, (run (resume cfg dto web) filed).1 = Ok s) /\ secures (@may_resume sample_platform dto) (resume cfg dto web).
Proof.
  split; [eexists; vm_compute; reflexivity|].
  apply (@resumed_registration_needs_password sample_platform cfg dto web).
Defined.

Lemma filed_ok : applications_ok (db filed).
Proof.
  intros u r Hr.
  assert (courier_applications (db filed) = {[1 := mkCourierRow 1 p (Some 7) c_pending 1000000000 None None]}) as E
    by (vm_compute; reflexivity).
  rewrite E in Hr. apply lookup_singleton_Some in Hr as [_ <-]. exact (conj eq_refl eq_refl).
Defined.

(** An approval and a rejection, interleaved: the rejection is recorded, then the approval. *)
Lemma courier_applications_evolve_witness :
  let requests := [ApproveRequest p; RejectRequest p] in
  let c := schedule (flat_map (fun '(i, n) => repeat i n) [(0, 3); (1, 12); (0, 12)]%nat)
             (lost_once, map (@serve sample_platform provider fleet cfg) requests) in
  courier_status <$> courier_applications (db c.1) !! 1 = Some c_approved /\ applications_ok (db c.1).
Proof.
  intros requests c. split; [vm_compute; reflexivity|].
  apply (@courier_applications_evolve sample_platform provider fleet cfg requests lost_once c.1 c.2).
  - intros u r Hr.
    assert (courier_applications (db lost_once) = courier_applications (db filed)) as E by (vm_compute; reflexivity).
    rewrite E in Hr. exact (filed_ok u r Hr).
  - rewrite <- surjective_pairing. apply schedule_psteps.
Defined.

Lemma approval_follows_the_fleet_witness :
  let d := db filed in let after := approve_in filed in
  exists asked answer w1, run (@activateDriver sample_platform fleet p) asked = (answer, w1) /\ is_courier 1 p (db asked) /\
    approval_outcome 1 p "dewi@x.io" d answer after.1 (db after.2).
Proof.
  assert (users (db filed) = {[1 := mkUserRow (mkUser 1 "dewi@x.io" "bcrypt:pw" Customer false None) None]}) as Eu
    by (vm_compute; reflexivity).
  assert (courier_applications (db filed) = {[1 := mkCourierRow 1 p (Some 7) c_pending 1000000000 None None]}) as Ea
    by (vm_compute; reflexivity).
  refine (@approval_follows_the_fleet sample_platform fleet Login.Witness.reliable_sample p "1" 1
    (mkUserRow (mkUser 1 "dewi@x.io" "bcrypt:pw" Customer false None) None)
    (mkPrincipal PRINCIPAL_KIND_CUSTOMER (Some "dewi@x.io")) filed _ _ _ _ _ _ _ _ _ _); try (vm_compute; reflexivity).
  - intros i j a b. rewrite Eu. intros [<- _]%lookup_singleton_Some [<- _]%lookup_singleton_Some _. exact eq_refl.
  - intros r. rewrite Ea. intros [_ <-]%lookup_singleton_Some. cbn [courier_status]. discriminate.
Defined.

(** Refused: nothing changed. Lost: a courier, still pending. Performed: approved. *)
Example approvals :
  db refused_once = db filed /\
  account_role 1 (db lost_once) = Some Courier /\
  courier_applications (db lost_once) = courier_applications (db filed) /\
  (approve_in lost_once).1 = Ok (mkApprovedCourier p "dewi@x.io" Courier 7 true).
Proof. split_and!; vm_compute; reflexivity. Qed.
End Witness.
