(* ===== verification/Sellers.v ===== *)
(** * Sellers

    Models src/src/application/services/seller_onboarding_usecase.service.ts (Section [Onboarding])
    over the tables of src/src/infrastructure/persistence/adapters/typeorm_merchant_repository.adapter.ts
    and typeorm_merchant_verification_repository.adapter.ts (Section [Repository]). The feed of
    changed merchants of the first adapter is in Feed.v.

    Main results: an application is marked as verified only after its merchant, the account's role,
    the principal's kind and the merchant's alias are stored, whichever database calls are lost; a
    slug is made of lower-case words joined by single hyphens. *)

From S2P Require Import Prelude JsString Dates Domain Store Sample Keys Tokens Sessions Accounts Auth Handlers SignIn SecondFactor Records Geocoding Profiles Fleet Couriers.
From Stdlib Require Import Ascii String QArith_base.

Local Open Scope string_scope.
Local Open Scope Z_scope.

Record SellerApplicationView := mkSellerView {
  sv_applicationId : Z;
  sv_userId : Z;
  sv_principalId : option string;
  sv_email : string;
  sv_storeName : string;
  sv_businessRegistrationNumber : string;
  sv_taxId : string;
  sv_streetAddress : string;
  sv_city : string;
  sv_postalCode : string;
  sv_status : SellerApplicationStatus;
  sv_verifiedAt : option string;
  sv_rejectedAt : option string
}.

Record OnboardSellerInputDto := mkOnboardSeller {
  os_storeName : string; os_businessRegistrationNumber : string; os_taxId : string;
  os_streetAddress : string; os_city : string; os_postalCode : string
}.

Definition with_verification_id (id : Z) (v : MerchantVerificationEntity) : MerchantVerificationEntity :=
  mkVerification id (verification_userId v) (storeName v) (businessRegistrationNumber v) (taxId v) (verification_status v)
    (verifiedAt v) (verification_streetAddress v) (verification_city v) (verification_postalCode v) (rejectedAt v).

Definition verification_table : Table MerchantVerificationEntity :=
  mkTable merchant_verifications merchant_verifications_next set_merchant_verifications set_merchant_verifications_next
    verification_id with_verification_id verification_userId
    (fun a b => bool_decide (verification_userId a = verification_userId b)) (fun _ => true).

Definition with_merchant_id (id : Z) (m : MerchantEntity) : MerchantEntity :=
  mkMerchant id (merchant_userId m) (merchant_storeName m) (slug m) (merchant_description m)
    (merchant_businessRegistrationNumber m) (merchant_taxId m) (merchant_status m) (merchant_verifiedAt m)
    (merchant_streetAddress m) (merchant_city m) (merchant_postalCode m) (merchant_latitude m) (merchant_longitude m)
    (merchant_geocodedAt m).

(** Unique on the account, and on the slug. *)
Definition merchant_table : Table MerchantEntity :=
  mkTable merchants merchants_next set_merchants set_merchants_next merchant_id with_merchant_id merchant_userId
    (fun a b => bool_decide (merchant_userId a = merchant_userId b) || bool_decide (slug a = slug b))
    (fun m => point_valid (merchant_latitude m) (merchant_longitude m)).

(** ** Slugs *)

Definition is_slug_char (c : ascii) : bool := is_lower c || is_digit c.

(** [.replace(/[^a-z0-9]+/g, hyphen)]: each run of other characters is one hyphen. *)
Fixpoint hyphenate (in_run : bool) (l : list ascii) : list ascii :=
  match l with
  | [] => []
  | c :: l' =>
      if is_slug_char c then c :: hyphenate false l'
      else if in_run then hyphenate true l' else "-"%char :: hyphenate true l'
  end.

(** [.replace(/^-|-$/g, empty)] *)
Definition strip_head (l : list ascii) : list ascii :=
  match l with c :: l' => if Ascii.eqb c "-"%char then l' else l | [] => [] end.
Definition strip_hyphens (l : list ascii) : list ascii := rev (strip_head (rev (strip_head l))).

Definition slug_base (store : string) : string :=
  let s := list_str (strip_hyphens (hyphenate false (str_list (toLowerCase store)))) in
  if bool_decide (s = "") then "merchant" else s.

Section Repository.
Context {P : Platform}.
Local Open Scope prog_scope.

Definition findVerification (userId : Z) : M (option MerchantVerificationEntity) := find_owned verification_table userId.
Definition findMerchantById (id : Z) : M (option MerchantEntity) := query (fun w => merchants (db w) !! id).
Definition findMerchant (userId : Z) : M (option MerchantEntity) := find_owned merchant_table userId.
Definition findBySlug (s : string) : M (option MerchantEntity) :=
  query (fun w => find_row (fun m => bool_decide (slug m = s)) (merchants (db w))).

Definition save_verification (v : MerchantVerificationEntity) : M MerchantVerificationEntity :=
  save_record verification_table
    ("No account with ID " ++ String_of (verification_userId v))
    ("A seller application for account " ++ String_of (verification_userId v) ++
     " was filed by another request at the same time; read it and retry") v.

Definition save_merchant (m : MerchantEntity) : M MerchantEntity :=
  save_record merchant_table
    ("No account with ID " ++ String_of (merchant_userId m))
    ("The merchant of account " ++ String_of (merchant_userId m) ++
     " or its store slug was written by another request at the same time; retry the approval") m.

(** The row and the email of its account. *)
Definition seller_joined (d : Db) (v : MerchantVerificationEntity) : option (MerchantVerificationEntity * string) :=
  (fun row => (v, user_email (row_user row))) <$> users d !! verification_userId v.

(** The principals of the accounts: no query for no account. *)
Definition principalsOf (userIds : list Z) : M (Z -> option string) :=
  match userIds with
  | [] => Ret (fun _ => None)
  | _ => query (fun w u => if bool_decide (u ∈ userIds) then principal_aliases (db w) !! ("identity", String_of u) else None)
  end.

Definition seller_view (principals : Z -> option string) (found : MerchantVerificationEntity * string) : SellerApplicationView :=
  let v := found.1 in
  mkSellerView (verification_id v) (verification_userId v) (principals (verification_userId v)) found.2 (storeName v)
    (businessRegistrationNumber v) (taxId v) (verification_streetAddress v) (verification_city v)
    (verification_postalCode v) (verification_status v) (toISOString <$> verifiedAt v) (toISOString <$> rejectedAt v).

Definition list_seller_applications (q : ApplicationQuery SellerApplicationStatus) : M (ApplicationPage SellerApplicationView) :=
  page <- query (fun w =>
    let selected := List.filter (fun found =>
        (q_afterId q <? verification_id found.1) &&
        match q_status q with Some s => bool_decide (verification_status found.1 = s) | None => true end)
      (omap (fun '(_, v) => seller_joined (db w) v) (map_to_list (merchant_verifications (db w)))) in
    page_of (fun found => verification_id found.1) (q_limit q) (sort_by_id (fun found => verification_id found.1) selected)) ;;
  principals <- principalsOf (map (fun found => verification_userId found.1) (page_applications page)) ;;
  Ret (mkApplicationPage (map (seller_view principals) (page_applications page)) (page_nextAfterId page)).

Definition seller_tally (since : Z) : M ApplicationTally :=
  query (fun w =>
    let rows := merchant_verifications (db w) in
    mkTally (toISOString since)
      (count_rows (fun v => bool_decide (verification_status v = s_verified) && decided_since since (verifiedAt v)) rows)
      (count_rows (fun v => bool_decide (verification_status v = s_rejected) && decided_since since (rejectedAt v)) rows)).
End Repository.

(** ** The use case *)

Definition MERCHANT_ALIAS_SERVICE : string := "identity-merchant".
Definition UNTOUCHED_BY_APPROVAL : list MerchantState := [m_active; m_suspended].

Section Onboarding.
Context {P : Platform} {G : GeocodingProviderPort}.
Local Open Scope prog_scope.

Definition requireMayBecomeSeller (user : UserEntity) : M unit :=
  match user_role user with
  | Customer | Seller => Ret tt
  | role => Throw (HttpException Conflict None
      ("Account " ++ String_of (user_id user) ++ " is a " ++ role_name role ++ "; making it a seller would revoke that role"))
  end.

Definition no_user (userId : Z) : exn := HttpException NotFound None ("User with ID " ++ String_of userId ++ " not found").

(** The application with what was sent, pending again. *)
Definition refiled (dto : OnboardSellerInputDto) (v : MerchantVerificationEntity) : MerchantVerificationEntity :=
  mkVerification (verification_id v) (verification_userId v) (os_storeName dto) (os_businessRegistrationNumber dto)
    (os_taxId dto) s_pending (verifiedAt v) (os_streetAddress dto) (os_city dto) (os_postalCode dto) None.

Definition onboardSeller (userId : Z) (dto : OnboardSellerInputDto) : M MerchantVerificationEntity :=
  found <- findById userId ;;
  match found with
  | None => Throw (no_user userId)
  | Some user =>
      requireMayBecomeSeller user ;;;
      existing <- findVerification userId ;;
      match existing with
      | Some v =>
          if bool_decide (verification_status v = s_verified)
          then Throw (HttpException Conflict None "This account is already a verified merchant")
          else save_verification (refiled dto v)
      | None =>
          save_verification (mkVerification 0 userId (os_storeName dto) (os_businessRegistrationNumber dto) (os_taxId dto)
            s_pending None (os_streetAddress dto) (os_city dto) (os_postalCode dto) None)
      end
  end.

Definition with_merchant_point (lat lon : option Q) (at_ms : Z) (m : MerchantEntity) : MerchantEntity :=
  mkMerchant (merchant_id m) (merchant_userId m) (merchant_storeName m) (slug m) (merchant_description m)
    (merchant_businessRegistrationNumber m) (merchant_taxId m) (merchant_status m) (merchant_verifiedAt m)
    (merchant_streetAddress m) (merchant_city m) (merchant_postalCode m) lat lon (Some at_ms).

(** [placeOnMap], which changes the merchant it is given: the merchant it leaves. *)
Definition merchant_placeOnMap (m : MerchantEntity) : M MerchantEntity :=
  now <- Date_now ;;
  let unplaced := with_merchant_point None None now m in
  if bool_decide (trim (merchant_streetAddress m) = "") then Ret unplaced
  else
    catch (
      outcome <- geocode (mkQuery (merchant_streetAddress m) (Some (merchant_city m)) (Some (merchant_postalCode m))) ;;
      match outcome with
      | Geocoded lat lon _ _ => Ret (with_merchant_point (Some lat) (Some lon) now m)
      | NotGeocoded failure _ =>
          emit (LogLine None ("merchant " ++ String_of (merchant_userId m) ++
            ": the store address was approved but not placed (" ++ failure_name failure ++
            "). No courier can be dispatched to it until it is geocoded.")) ;;;
          Ret unplaced
      end) (fun error =>
        emit (LogLine None ("merchant " ++ String_of (merchant_userId m) ++
          ": the store address was approved but the geocoder could not be asked: " ++ exn_message error)) ;;;
        Ret unplaced).

Definition findApplication (userId : Z) : M MerchantVerificationEntity :=
  found <- findVerification userId ;;
  match found with
  | None => Throw (HttpException NotFound None ("No seller application found for User ID " ++ String_of userId))
  | Some v => Ret v
  end.

Definition withPrincipal (v : MerchantVerificationEntity) : M (MerchantVerificationEntity * option string) :=
  p <- principalIdForUser (verification_userId v) ;;
  Ret (v, p).

Definition applicationOf (userId : Z) : M (MerchantVerificationEntity * option string) :=
  v <- findApplication userId ;;
  withPrincipal v.

Definition pendingSellerApplication (userId : Z) : M MerchantVerificationEntity :=
  v <- findApplication userId ;;
  if negb (bool_decide (verification_status v = s_pending))
  then Throw (HttpException Conflict None
    ("The seller application of account " ++ String_of userId ++ " is " ++ seller_status_name (verification_status v) ++ ", not pending"))
  else Ret v.

Definition decided (status : SellerApplicationStatus) (verified rejected : option Z) (v : MerchantVerificationEntity)
    : MerchantVerificationEntity :=
  mkVerification (verification_id v) (verification_userId v) (storeName v) (businessRegistrationNumber v) (taxId v) status
    verified (verification_streetAddress v) (verification_city v) (verification_postalCode v) rejected.

Definition rejectVerification (userId : Z) : M (MerchantVerificationEntity * option string) :=
  v <- pendingSellerApplication userId ;;
  now <- Date_now ;;
  saved <- save_verification (decided s_rejected (verifiedAt v) (Some now) v) ;;
  withPrincipal saved.

Definition uniqueSlug (store : string) (userId : Z) : M string :=
  let base := slug_base store in
  taken <- findBySlug base ;;
  match taken with
  | Some m => if bool_decide (merchant_userId m = userId) then Ret base else Ret (base ++ "-" ++ String_of userId)
  | None => Ret base
  end.

(** The merchant of an approval: a new one, or the one there is with the application's address. *)
Definition approved_merchant (userId verified : Z) (v : MerchantVerificationEntity) (found : option MerchantEntity)
    : M MerchantEntity :=
  match found with
  | None =>
      s <- uniqueSlug (storeName v) userId ;;
      Ret (mkMerchant 0 userId (storeName v) s None (businessRegistrationNumber v) (taxId v) m_verified (Some verified)
             (verification_streetAddress v) (verification_city v) (verification_postalCode v) None None None)
  | Some m =>
      Ret (mkMerchant (merchant_id m) (merchant_userId m) (merchant_storeName m) (slug m) (merchant_description m)
             (merchant_businessRegistrationNumber m) (merchant_taxId m) m_verified (Some verified)
             (verification_streetAddress v) (verification_city v) (verification_postalCode v)
             (merchant_latitude m) (merchant_longitude m) (merchant_geocodedAt m))
  end.

Definition approveVerification (userId : Z) : M (MerchantEntity * string) :=
  v <- pendingSellerApplication userId ;;
  account <- findById userId ;;
  match account with
  | None => Throw (no_user userId)
  | Some user =>
      requireMayBecomeSeller user ;;;
      verified <- Date_now ;;
      found <- findMerchant userId ;;
      match found with
      | Some m =>
          if bool_decide (merchant_status m ∈ UNTOUCHED_BY_APPROVAL)
          then Throw (HttpException Conflict None
            ("The merchant of account " ++ String_of userId ++ " is " ++ merchant_state_name (merchant_status m) ++
             "; an approval does not change that"))
          else Ret tt
      | None => Ret tt
      end ;;;
      unplaced <- approved_merchant userId verified v found ;;
      placed <- merchant_placeOnMap unplaced ;;
      merchant <- save_merchant placed ;;
      (if bool_decide (user_role user = Seller) then Ret tt
       else save_user (with_role Seller user) ;;; Ret tt) ;;;
      principal <- resolveOrMintForUser (subject_of (with_role Seller user)) ;;
      syncKind principal Seller ;;;
      registerAlias principal MERCHANT_ALIAS_SERVICE (String_of (merchant_id merchant)) ;;;
      save_verification (decided s_verified (Some verified) (rejectedAt v) v) ;;;
      Ret (merchant, principal)
  end.
End Onboarding.

(** ** What an approval leaves *)

(** Every alias names a principal there is. *)
Definition aliases_resolve (d : Db) : Prop := forall key p, principal_aliases d !! key = Some p -> is_Some (principals d !! p).
Definition aliases_resolve_step (d d' : Db) : Prop := aliases_resolve d -> aliases_resolve d'.
#[export] Instance aliases_resolve_preorder : PreOrder aliases_resolve_step.
Proof. split; [intros d H; exact H|intros d1 d2 d3 H12 H23 H; auto]. Qed.

(** The tables an approval has written before it turns to the principal. *)
Definition stores_kept (d d' : Db) : Prop :=
  merchants d' = merchants d /\ merchant_verifications d' = merchant_verifications d /\ users d' = users d.
#[export] Instance stores_kept_preorder : PreOrder stores_kept.
Proof. split; [done|]. intros a b c (H1 & H2 & H3) (H4 & H5 & H6). split_and!; congruence. Qed.

Definition applications_kept (d d' : Db) : Prop := merchant_verifications d' = merchant_verifications d.
#[export] Instance applications_kept_preorder : PreOrder applications_kept.
Proof. split; [done|]. intros a b c H1 H2. by etrans. Qed.

(** Everything an approved seller needs, except that its application says so. *)
Definition seller_ready (userId : Z) (m : MerchantEntity) (p : string) (d : Db) : Prop :=
  merchants d !! merchant_id m = Some m /\ merchant_status m = m_verified /\
  account_role userId d = Some Seller /\
  principal_aliases d !! ("identity", String_of userId) = Some p /\
  principal_kind p d = Some (principalKindForRole Seller) /\
  principal_aliases d !! (MERCHANT_ALIAS_SERVICE, String_of (merchant_id m)) = Some p.

Section ApprovalFacts.
Context {P : Platform} {G : GeocodingProviderPort}.

Lemma wp_secures {A} (R : World -> World -> Prop) {HR : PreOrder R} (Phi : A -> World -> Prop) (m : M A) w :
  (forall a w w', R w w' -> Phi a w -> Phi a w') -> guar R m -> secures Phi m ->
  wp m (fun r w' => match r with Ok a => Phi a w' | Err _ => True end) w.
Proof.
  intros Hst Hg Hs. unfold wp.
  assert (forall (m : M A) w, guar R m -> forall w0, R w0 w -> returns (fun a => Phi a w0) m ->
    match (run m w).1 with Ok a => Phi a (run m w).2 | Err _ => True end) as Hret.
  { clear m w Hg Hs. induction m as [a|e|X op k IH]; cbn; intros w Hg w0 Hr Ha; [by eapply Hst|done|].
    destruct (Hg w) as [Hg1 Hg2]. specialize (Ha w). destruct (op w) as [x w1]. cbn in *. eapply IH; [done| |done]. by etrans. }
  revert w Hg Hs. induction m as [a|e|X op k IH]; cbn; intros w Hg Hs; [done..|].
  destruct (Hg w) as [Hg1 Hg2]. destruct (Hs w) as [Hs'|Hr].
  - specialize (IH (op w).1 (op w).2 Hg2 Hs'). by destruct (op w).
  - specialize (Hret (k (op w).1) (op w).2 Hg2 (op w).2). destruct (op w) as [x w1]. cbn in *. by apply Hret.
Qed.

#[export] Instance aliases_resolve_primitives : Primitives aliases_resolve_step.
Proof.
  primitives; try (frame; intros ?? H; exact H).
  - apply guar_statement; [typeclasses eauto|]. intros w. cbv zeta. destruct (principals (db w) !! _); [reflexivity|].
    intros H key q Hq. cbn in *. destruct (H key q Hq) as [row Hrow]. destruct (decide (uuid_of (uuid_next w) = q)) as [<-|Hne].
    + rewrite lookup_insert_eq. by eexists.
    + rewrite lookup_insert_ne by done. by eexists.
  - apply guar_statement; [typeclasses eauto|]. intros w. destruct (principal_aliases (db w) !! _); [reflexivity|].
    destruct (principals (db w) !! p) eqn:Ep; [|reflexivity]. intros H key q. cbn.
    intros [[_ <-]|[_ Hq]]%lookup_insert_Some; [by eexists|by eapply H].
  - apply guar_update; [typeclasses eauto|]. intros w H key q Hq. cbn in *. by apply lookup_alter_is_Some, (H key).
Qed.

Lemma resolve_stores user : guar (on_db stores_kept) (resolveOrMintForUser user).
Proof. unfold resolveOrMintForUser, mint_principal. guar_auto; by frame. Qed.
Lemma syncKind_stores p r : guar (on_db stores_kept) (syncKind p r).
Proof. by frame. Qed.

(** What a registered alias changes: the aliases, by adding. *)
Definition only_aliases (d d' : Db) : Prop := stores_kept d d' /\ principals d' = principals d /\ aliases_kept d d'.
#[export] Instance only_aliases_preorder : PreOrder only_aliases.
Proof.
  split; [intros d; split; [reflexivity|split; [done|reflexivity]]|].
  intros a b c (H1 & H2 & H3) (H4 & H5 & H6). split; [by etrans|]. split; [congruence|by etrans].
Qed.

Lemma registerAlias_only p s l : guar (on_db only_aliases) (registerAlias p s l).
Proof.
  unfold registerAlias, find_alias. guar_auto. apply guar_statement; [typeclasses eauto|]. intros w.
  destruct (principal_aliases (db w) !! _) eqn:E; [reflexivity|]. destruct (principals (db w) !! _); [|reflexivity].
  split; [done|]. split; [done|]. intros key q Hq. cbn. rewrite lookup_insert_ne by congruence. done.
Qed.

Lemma wp_insert_alias p s l w :
  wp (insert_alias p s l) (fun r w' => r = Ok tt -> principal_aliases (db w') !! (s, l) = Some p) w.
Proof.
  unfold insert_alias. wp_step; [|done..]. cbn [db count_call].
  destruct (principal_aliases (db w) !! (s, l)); [done|]. destruct (principals (db w) !! p); [|done].
  intros _. apply lookup_insert_eq.
Qed.

Lemma registerAlias_secures p s l :
  secures (fun _ w => principal_aliases (db w) !! (s, l) = Some p) (registerAlias p s l).
Proof.
  unfold registerAlias, find_alias. apply secures_query. intros w.
  destruct (principal_aliases (db w) !! (s, l)) as [q|] eqn:E.
  - case_bool_decide; [right; cbn; congruence|by left].
  - left. apply secures_catch_call. intros w1.
    assert (secures (fun (_ : unit) w => principal_aliases (db w) !! (s, l) = Some p)
      (bind (query (fun w => principal_aliases (db w) !! (s, l))) (fun winner => match winner with
         | Some q => if bool_decide (q = p) then Ret tt else Throw (PlainError ("could not register alias " ++ s ++ "/" ++ l))
         | None => Throw (PlainError ("could not register alias " ++ s ++ "/" ++ l)) end))) as Hagain.
    { apply secures_query. intros w2. destruct (principal_aliases (db w2) !! (s, l)) as [q|] eqn:E2; [|by left].
      case_bool_decide; [right; cbn; congruence|by left]. }
    eapply wp_mono; [apply (wp_insert_alias p s l)|]. intros [[]|e] w2 H; [by apply H|exact Hagain].
Qed.

(** Two guarantees at once. *)
Definition both (R R' : Db -> Db -> Prop) (d d' : Db) : Prop := R d d' /\ R' d d'.
#[export] Instance both_preorder R R' : PreOrder R -> PreOrder R' -> PreOrder (both R R').
Proof. intros H H'. split; [split; reflexivity|]. intros a b c [H1 H2] [H3 H4]. split; by etrans. Qed.
Lemma guar_both {A} R R' (m : M A) : guar (on_db R) m -> guar (on_db R') m -> guar (on_db (both R R')) m.
Proof.
  induction m as [| |X op k IH]; cbn; auto. intros H H' w. destruct (H w), (H' w). split; [by split|by apply IH].
Qed.

(** A step of a handler: what it keeps of the tables, and what it answers. *)
Lemma wp_step_kept {A B} (R : Db -> Db -> Prop) {HR : PreOrder R} (m : M A) (F : res exn A -> World -> Prop) (k : A -> M B)
    (Q : res exn B -> World -> Prop) w0 w :
  R (db w0) (db w) -> guar (on_db R) m -> wp m F w ->
  (forall e w', R (db w0) (db w') -> Q (Err e) w') ->
  (forall a w', R (db w0) (db w') -> R (db w) (db w') -> F (Ok a) w' -> wp (k a) Q w') -> wp (bind m k) Q w.
Proof.
  intros H0 Hg HF Herr Hok. wp_step. pose proof (guar_run _ _ w _ _ Hg) as Hr. unfold wp, on_db in *.
  destruct (run m w) as [[a|e] w']; cbn in *; [apply Hok; try done|apply Herr]; by etrans.
Qed.

Lemma wp_any {A} (m : M A) w : wp m (fun _ _ => True) w.
Proof. done. Qed.

(** What recording the application leaves alone. *)
Definition only_applications (d d' : Db) : Prop :=
  merchants d' = merchants d /\ users d' = users d /\ principals d' = principals d /\ principal_aliases d' = principal_aliases d.
#[export] Instance only_applications_preorder : PreOrder only_applications.
Proof. split; [done|]. intros a b c (H1 & H2 & H3 & H4) (H5 & H6 & H7 & H8). split_and!; congruence. Qed.
Lemma save_verification_only v : guar (on_db only_applications) (save_verification v).
Proof. apply save_record_guar; [typeclasses eauto|done..]. Qed.

Lemma seller_ready_only userId m p d d' : only_applications d d' -> seller_ready userId m p d -> seller_ready userId m p d'.
Proof. intros (H1 & H2 & H3 & H4). unfold seller_ready, account_role, principal_kind. by rewrite H1, H2, H3, H4. Qed.

Lemma wp_syncKind p r w :
  is_Some (principals (db w) !! p) ->
  wp (syncKind p r) (fun res w' => principal_aliases (db w') = principal_aliases (db w) /\
    (res = Ok tt -> principal_kind p (db w') = Some (principalKindForRole r))) w.
Proof.
  intros [row Hrow]. unfold syncKind. wp_step; split; try done. intros _. unfold principal_kind. cbn.
  by rewrite lookup_alter_eq, Hrow.
Qed.

Definition recorded (userId : Z) (m : MerchantEntity) (v : MerchantVerificationEntity) (d : Db)
    (r : res exn (MerchantEntity * string)) (d' : Db) : Prop :=
  match r with
  | Ok (m', p) => m' = m /\ seller_ready userId m p d' /\
      exists id, merchant_verifications d' !! id = Some (with_verification_id id v)
  | Err _ => applications_kept d d' \/ exists p, seller_ready userId m p d'
  end.

(** From the stored merchant and the seller's role to the recorded application. *)
Lemma wp_record_seller userId user m v w :
  user_id user = userId -> merchants (db w) !! merchant_id m = Some m -> merchant_status m = m_verified ->
  account_role userId (db w) = Some Seller -> aliases_resolve (db w) ->
  wp (principal <- resolveOrMintForUser (subject_of (with_role Seller user)) ;;
      syncKind principal Seller ;;;
      registerAlias principal MERCHANT_ALIAS_SERVICE (String_of (merchant_id m)) ;;;
      save_verification v ;;;
      Ret (m, principal))%prog (fun r w' => recorded userId m v (db w) r (db w')) w.
Proof.
  intros Hu Hm Hv Hrole Hfk.
  assert (forall e w', stores_kept (db w) (db w') -> recorded userId m v (db w) (Err e) (db w')) as Herr by (intros e w' (_ & H & _); by left).
  assert (aliases_resolve_step (db w) (db w)) as Hstep by done.
  eapply (wp_step_kept (both stores_kept aliases_resolve_step)); [split; reflexivity|..].
  { apply guar_both; [apply resolve_stores|apply resolveOrMint_guar; typeclasses eauto]. }
  { apply (wp_secures (on_db aliases_kept) (fun p w' => resolves_to (String_of (user_id user)) p w')); [|apply resolve_aliases|exact (resolve_secures (subject_of (with_role Seller user)))].
    intros p w1 w2 Hk. apply Hk. }
  { intros e w' [H _]. by eapply Herr. }
  intros p w1 [Hs1 Hf1] _ Hp. rewrite Hu in Hp. unfold resolves_to in Hp.
  eapply (wp_step_kept stores_kept); [exact Hs1|apply syncKind_stores|apply wp_syncKind, (Hf1 Hfk _ _ Hp)|exact Herr|].
  intros [] w2 Hs2 _ [Ha2 Hk2]. specialize (Hk2 eq_refl).
  eapply (wp_step_kept only_aliases); [reflexivity|apply registerAlias_only|..].
  { apply (wp_secures (on_db only_aliases) (fun _ w' => principal_aliases (db w') !! (MERCHANT_ALIAS_SERVICE, String_of (merchant_id m)) = Some p));
      [|apply registerAlias_only|apply registerAlias_secures]. intros _ w3 w4 (_ & _ & Hk). apply Hk. }
  { intros e w' (Hs & _). eapply Herr. by etrans. }
  intros [] w3 (Hs3 & Hp3 & Hk3) _ Ha3.
  assert (seller_ready userId m p (db w3)) as Hready.
  { destruct (transitivity Hs2 Hs3) as (Em & _ & Eu). unfold seller_ready, account_role, principal_kind in *.
    rewrite Em, Eu, Hp3. split_and!; try done. apply Hk3. by rewrite Ha2. }
  eapply (wp_step_kept only_applications); [reflexivity|apply save_verification_only|by apply wp_save_record|..].
  { intros e w' Ho. right. exists p. by eapply seller_ready_only. }
  intros q w4 Ho _ (id & -> & Hq). wp_step. split; [done|]. split; [by eapply seller_ready_only|by eexists].
Qed.

(** What comes before the merchant is stored: the accounts and the applications stay. *)
Definition accounts_kept (d d' : Db) : Prop := users d' = users d.
#[export] Instance accounts_kept_preorder : PreOrder accounts_kept.
Proof. split; [done|]. intros a b c H1 H2. by etrans. Qed.
Definition early : Db -> Db -> Prop := both applications_kept (both accounts_kept aliases_resolve_step).
#[export] Instance early_preorder : PreOrder early.
Proof. unfold early. typeclasses eauto. Qed.

Ltac is_early := intros; split; [done|split; [done|intros ?; done]].

Lemma early_query {X} (f : World -> X) : guar (on_db early) (query f).
Proof. apply guar_query. typeclasses eauto. Qed.
Lemma placeOnMap_early m : guar (on_db early) (merchant_placeOnMap m).
Proof. unfold merchant_placeOnMap. guar_auto. apply geocode_guar; [typeclasses eauto|is_early]. Qed.
Lemma save_merchant_early m : guar (on_db early) (save_merchant m).
Proof. apply save_record_guar; [typeclasses eauto|is_early..]. Qed.
Lemma uniqueSlug_early store userId : guar (on_db early) (uniqueSlug store userId).
Proof. unfold uniqueSlug, findBySlug. guar_auto. Qed.
Lemma approved_merchant_early userId verified v found : guar (on_db early) (approved_merchant userId verified v found).
Proof. unfold approved_merchant. guar_auto. apply uniqueSlug_early. Qed.
Lemma pending_early userId : guar (on_db early) (pendingSellerApplication userId).
Proof. unfold pendingSellerApplication, findApplication, findVerification. guar_auto. Qed.

(** The stored merchant is verified, the account's, with the application's address. *)
Definition merchant_of (userId : Z) (v : MerchantVerificationEntity) (m : MerchantEntity) : Prop :=
  merchant_userId m = userId /\ merchant_status m = m_verified /\
  merchant_streetAddress m = verification_streetAddress v /\ merchant_city m = verification_city v /\
  merchant_postalCode m = verification_postalCode v.

Lemma approved_merchant_returns userId verified v found :
  (forall m, found = Some m -> merchant_userId m = userId) ->
  returns (merchant_of userId v) (approved_merchant userId verified v found).
Proof.
  intros Hf. destruct found as [m|]; cbn [approved_merchant]; repeat returns_step; split_and!; cbn; auto.
Qed.
Lemma placeOnMap_returns userId v m : merchant_of userId v m -> returns (merchant_of userId v) (merchant_placeOnMap m).
Proof.
  intros Hm. unfold merchant_placeOnMap. returns_step. returns_step; [done|]. apply returns_catch; [|intros e]; by repeat returns_step.
Qed.

Lemma wp_returns {A} (F : A -> Prop) (m : M A) w :
  returns F m -> wp m (fun r _ => match r with Ok a => F a | Err _ => True end) w.
Proof. intros H. unfold wp. destruct (run m w) as [[a|e] w'] eqn:E; [|done]. by eapply returns_run. Qed.

Definition application_of (userId : Z) (d : Db) : option MerchantVerificationEntity :=
  find_row (fun v => bool_decide (verification_userId v = userId)) (merchant_verifications d).

Lemma wp_pending userId w :
  wp (pendingSellerApplication userId) (fun r w' => match r with
    | Ok v => application_of userId (db w) = Some v /\ verification_status v = s_pending | Err _ => True end) w.
Proof.
  unfold pendingSellerApplication, findApplication, findVerification, find_owned. wp_step. wp_step. wp_step; [|done].
  cbn [db count_call rows owner verification_table]. unfold application_of. destruct (find_row _ _) as [v|]; [|by repeat wp_step].
  wp_step. destruct (bool_decide (verification_status v = s_pending)) eqn:E; [|done].
  apply bool_decide_eq_true in E. done.
Qed.

(** What an approval answers and leaves. *)
Definition approval_recorded (userId : Z) (d : Db) (r : res exn (MerchantEntity * string)) (d' : Db) : Prop :=
  match r with
  | Ok (m, p) =>
      exists v id verified, application_of userId d = Some v /\ verification_status v = s_pending /\
        merchant_of userId v m /\ seller_ready userId m p d' /\
        merchant_verifications d' !! id = Some (with_verification_id id (decided s_verified (Some verified) (rejectedAt v) v))
  | Err _ => applications_kept d d' \/ exists m p, merchant_userId m = userId /\ seller_ready userId m p d'
  end.

Definition merchants_kept (d d' : Db) : Prop := merchants d' = merchants d.
#[export] Instance merchants_kept_preorder : PreOrder merchants_kept.
Proof. split; [done|]. intros a b c H1 H2. by etrans. Qed.

(** The account's role, saved unless it is a seller's already. *)
Lemma wp_make_seller row userId user (k : M (MerchantEntity * string)) (Q : res exn (MerchantEntity * string) -> World -> Prop) w0 w :
  both applications_kept aliases_resolve_step (db w0) (db w) -> users (db w) !! userId = Some row -> row_user row = user ->
  user_id user = userId -> 0 < userId ->
  (forall e w', applications_kept (db w0) (db w') -> Q (Err e) w') ->
  (forall w', both applications_kept aliases_resolve_step (db w0) (db w') -> merchants (db w') = merchants (db w) ->
     account_role userId (db w') = Some Seller -> wp k Q w') ->
  wp (bind (if bool_decide (user_role user = Seller) then Ret tt
            else bind (save_user (with_role Seller user)) (fun _ => Ret tt)) (fun _ => k)) Q w.
Proof.
  intros Hw Hrow Hru Hid Hpos Herr Hk. destruct (bool_decide (user_role user = Seller)) eqn:Er.
  - apply bool_decide_eq_true in Er. wp_step. wp_step. apply Hk; [done..|]. unfold account_role. rewrite Hrow. cbn. by rewrite Hru, Er.
  - eapply (wp_step_kept (both (both applications_kept aliases_resolve_step) merchants_kept)) with (w0 := w) (F := fun r w' =>
      r = Ok tt -> account_role userId (db w') = Some Seller); [split; [split|]; done|..].
    + apply guar_bind; [|intros; apply guar_ret]. apply guar_both; [apply guar_both|]; [by frame|apply prim_save_user|by frame].
    + wp_step. eapply wp_mono; [apply wp_save_user; cbn; lia|]. intros [u|e] w' [_ H]; [|done]. wp_step. intros _.
      destruct H as [_ H]. cbn in H. rewrite Hid in H. unfold account_role.
      destruct (users (db w') !! userId) as [row'|]; [|done]. cbn in *. by injection H as ->.
    + intros e w' [[H _] _]. apply Herr. etrans; [apply Hw|done].
    + intros [] w' [H Hm] _ HF. apply Hk; [by etrans|done|by apply HF].
Qed.

(** Whichever database calls are lost, an application for selling is recorded as verified only
    when its merchant is stored as verified with the application's address, the account is a seller,
    the account's principal has the seller's kind and the merchant's alias names that principal. An
    approval that fails leaves the applications as they were, to be approved again, unless it had
    done all that and lost the answer of the last write. *)
Theorem application_verified_last userId w r w' :
  keyed (db w) -> aliases_resolve (db w) ->
  run (approveVerification userId) w = (r, w') -> approval_recorded userId (db w) r (db w').
Proof.
  intros Hkey Hfk Hrun.
  enough (wp (approveVerification userId) (fun r w' => approval_recorded userId (db w) r (db w')) w) as H
    by (unfold wp in H; by rewrite Hrun in H). clear r w' Hrun.
  assert (forall e w', early (db w) (db w') -> approval_recorded userId (db w) (Err e) (db w')) as Herr by (intros e w' [H _]; by left).
  unfold approveVerification.
  eapply (wp_step_kept early); [reflexivity|apply pending_early|apply wp_pending|exact Herr|]. intros v w1 H1 _ [Happ Hpend].
  unfold findById. wp_step. wp_step. wp_step; [|by apply Herr]. cbn [db count_call]. wp_step.
  destruct (users (db w1) !! userId) as [row|] eqn:Erow; cbn [fmap option_fmap option_map]; [|wp_step; by apply Herr].
  pose proof H1 as (_ & Hu1 & _). unfold accounts_kept in Hu1. rewrite Hu1 in Erow. destruct (Hkey _ _ Erow) as [Hid Hpos].
  eapply (wp_step_kept early) with (w0 := w) (F := fun _ _ => True);
    [exact H1|unfold requireMayBecomeSeller; guar_auto|done|exact Herr|]. intros [] w2 H2 _ _.
  do 2 wp_step. unfold findMerchant, find_owned. wp_step. wp_step; [|by apply Herr]. cbn [db count_call rows owner merchant_table].
  set (found := find_row _ _).
  assert (forall m, found = Some m -> merchant_userId m = userId) as Hfound
    by (intros m [k [_ Hm]]%find_row_Some; by apply bool_decide_eq_true in Hm).
  eapply (wp_step_kept early) with (w0 := w) (F := fun _ _ => True); [exact H2|guar_auto|done|exact Herr|]. intros [] w3 H3 _ _.
  eapply (wp_step_kept early); [exact H3|apply approved_merchant_early|eapply wp_returns, approved_merchant_returns, Hfound|exact Herr|].
  intros m1 w4 H4 _ Hm1.
  eapply (wp_step_kept early); [exact H4|apply placeOnMap_early|eapply wp_returns, placeOnMap_returns, Hm1|exact Herr|].
  intros m2 w5 H5 _ Hm2.
  eapply (wp_step_kept early); [exact H5|apply save_merchant_early|by apply wp_save_record|exact Herr|].
  intros m3 w6 (Ha6 & Hu6 & Hf6) _ (mid & -> & Hm3).
  eapply wp_make_seller; [split; [exact Ha6|exact Hf6]|rewrite Hu6; exact Erow|done|done|done|intros e w' H; by left|].
  intros w7 [Ha7 Hf7] Em7 Hrole7. destruct Hm2 as (Ho & Hs & Hadr).
  eapply wp_mono; [eapply wp_record_seller; [exact Hid|rewrite Em7; exact Hm3|exact Hs|done|by apply Hf7]|].
  intros [[m p]|e] w8 Hrec; cbn [recorded] in Hrec.
  - destruct Hrec as (-> & Hready & id & Hv). by eexists v, id, _.
  - destruct Hrec as [Hrec|[p Hready]]; [left; exact (transitivity Ha7 Hrec)|right; eexists _, p; split; [|exact Hready]; exact Ho].
Qed.
End ApprovalFacts.

(** ** Slugs *)

(** Lower-case letters and digits in words joined by single hyphens: [open] is whether a word may
    end here. *)
Fixpoint slug_words (in_word : bool) (l : list ascii) : bool :=
  match l with
  | [] => in_word
  | c :: l' => if Ascii.eqb c "-"%char then in_word && slug_words false l' else is_slug_char c && slug_words true l'
  end.
Definition well_formed_slug (s : string) : bool := slug_words false (str_list s).

Lemma hyphen_not_slug c : is_slug_char c = true -> Ascii.eqb c "-"%char = false.
Proof. intros H. destruct (Ascii.eqb_spec c "-"%char) as [->|]; [by vm_compute in H|done]. Qed.

(** Slug characters and single hyphens, [after] telling whether a hyphen came just before. *)
Fixpoint spaced (after : bool) (l : list ascii) : bool :=
  match l with
  | [] => true
  | c :: l' => if Ascii.eqb c "-"%char then negb after && spaced true l' else is_slug_char c && spaced false l'
  end.

Lemma hyphenate_spaced b l : spaced b (hyphenate b l) = true.
Proof.
  revert b. induction l as [|c l IH]; intros b; [done|]. cbn. destruct (is_slug_char c) eqn:E; cbn.
  - by rewrite (hyphen_not_slug c E), E, IH.
  - destruct b; cbn; by rewrite IH.
Qed.

Lemma strip_head_spaced l : spaced false l = true -> spaced true (strip_head l) = true.
Proof. destruct l as [|c l]; [done|]. cbn. destruct (Ascii.eqb c "-"%char) eqn:E; [done|]. cbn. by rewrite E. Qed.

Lemma spaced_words b l c :
  spaced b (l ++ [c])%list = true ->
  if Ascii.eqb c "-"%char then (l = [] /\ b = false) \/ slug_words (negb b) l = true
  else slug_words (negb b) (l ++ [c])%list = true.
Proof.
  revert b. induction l as [|x l IH]; intros b; cbn.
  - destruct (Ascii.eqb c "-"%char); [destruct b; [done|by left]|]. by destruct (is_slug_char c).
  - destruct (Ascii.eqb x "-"%char).
    + destruct b; [done|]. intros H%IH. destruct (Ascii.eqb c "-"%char); cbn; [destruct H as [[_ ?]|H]; [done|by right]|done].
    + destruct (is_slug_char x); [|done]. intros H%IH. destruct (Ascii.eqb c "-"%char); cbn; [|done].
      right. by destruct H as [[-> _]|H].
Qed.

Lemma strip_hyphens_words l : spaced false l = true -> strip_hyphens l = [] \/ slug_words false (strip_hyphens l) = true.
Proof.
  intros H%strip_head_spaced. unfold strip_hyphens. destruct (strip_head l) as [|c l'] eqn:E using rev_ind; [by left|].
  clear IHl'. rewrite rev_app_distr. cbn. pose proof (spaced_words true l' c H) as Hw.
  destruct (Ascii.eqb c "-"%char); cbn; rewrite rev_involutive; [destruct Hw as [[_ ?]|Hw]; [done|]; by right|by right].
Qed.

Lemma slug_base_well_formed store : well_formed_slug (slug_base store) = true.
Proof.
  unfold slug_base, well_formed_slug. case_bool_decide as He; [done|]. rewrite str_list_str.
  destruct (strip_hyphens_words _ (hyphenate_spaced false (str_list (toLowerCase store)))) as [Hn|Hw]; [|done].
  by rewrite Hn in He.
Qed.

Lemma slug_words_app b l l' : slug_words b l = true -> slug_words true l' = true -> slug_words b (l ++ l')%list = true.
Proof.
  revert b. induction l as [|c l IH]; intros b; cbn; [by intros ->|]. destruct (Ascii.eqb c "-"%char).
  - destruct b; cbn; [apply IH|done].
  - destruct (is_slug_char c); cbn; [apply IH|done].
Qed.

Lemma digits_words l b : forallb is_digit l = true -> l <> [] \/ b = true -> slug_words b l = true.
Proof.
  revert b. induction l as [|c l IH]; intros b; cbn; [by intros _ [?|?]|]. intros [Hc Hl]%andb_prop _.
  assert (is_slug_char c = true) as Hs by (unfold is_slug_char; by rewrite Hc, orb_true_r).
  rewrite (hyphen_not_slug c Hs), Hs. cbn. apply IH; [done|by right].
Qed.

Lemma String_of_all_digits n : 0 < n -> forallb is_digit (str_list (String_of n)) = true /\ str_list (String_of n) <> [].
Proof.
  intros Hn. pose proof (Number_String_of n ltac:(lia)) as HN. destruct n as [|p|p]; try lia.
  assert (digits_value 0 (str_list (String_of (Zpos p))) = Some (Zpos p)) as Hd.
  { change (String_of (Zpos p)) with (pretty.pretty_N_go (Npos p) ""). rewrite digits_value_pretty_go by done. done. }
  split; [by eapply digits_value_head|]. intros E. rewrite E in Hd. done.
Qed.

Section Slugs.
Context {P : Platform}.

(** The slug given to a merchant is made of lower-case letters and digits in words joined by
    single hyphens, with none at either end, whatever the store is called; it is the store's own
    unless that is another account's, and then ends with the account's number. *)
Theorem slug_well_formed store userId :
  0 < userId ->
  returns (fun s => well_formed_slug s = true /\ (s = slug_base store \/ s = slug_base store ++ "-" ++ String_of userId))
    (uniqueSlug store userId).
Proof.
  intros Hid. pose proof (slug_base_well_formed store) as Hb. unfold uniqueSlug. returns_step.
  assert (well_formed_slug (slug_base store ++ "-" ++ String_of userId) = true) as Hf.
  { destruct (String_of_all_digits userId Hid) as [Hd Hne]. unfold well_formed_slug in *.
    rewrite str_list_app. apply slug_words_app; [done|].
    change (slug_words false (str_list (String_of userId)) = true). apply digits_words; [done|by left]. }
  repeat returns_step; auto.
Qed.
End Slugs.

(** ** On a concrete service *)

Module Witness.

Abbreviation provider := Geocoding.Witness.sample_provider.
Definition row_of (id : Z) (email : string) : UserRow := mkUserRow (mkUser id email "" Customer false None) None.
Definition start : World := world_at 1000000000 (set_users {[1 := row_of 1 "a@x.io"; 2 := row_of 2 "b@x.io"; 3 := row_of 3 "c@x.io"]} empty_db).
Definition store (name : string) : OnboardSellerInputDto := mkOnboardSeller name "BRN" "TAX" "Jl. Sudirman 1" "Jakarta" "10220".

(** The applications of three accounts. *)
Definition file (userId : Z) (name : string) (w : World) : World := (run (@onboardSeller sample_platform userId (store name)) w).2.
Definition filed : World := file 3 "Toko!" (file 2 "Toko 3" (file 1 "  TOKO  " start)).
Definition approve (userId : Z) (w : World) := run (@approveVerification sample_platform provider userId) w.

Lemma sellers_keyed : keyed (db start).
Proof.
  intros id row. cbn. intros [[<- <-]|[_ [[<- <-]|[_ [<- <-]%lookup_singleton_Some]]%lookup_insert_Some]]%lookup_insert_Some; done.
Qed.
Lemma filed_users : users (db filed) = users (db start).
Proof. vm_compute. reflexivity. Qed.
Lemma filed_aliases : principal_aliases (db filed) = ∅.
Proof. vm_compute. reflexivity. Qed.

Lemma application_verified_last_witness :
  (exists m p, (approve 1 filed).1 = Ok (m, p) /\ slug m = "toko") /\
  approval_recorded 1 (db filed) (approve 1 filed).1 (db (approve 1 filed).2).
Proof.
  split; [eexists _, _; split; [vm_compute; reflexivity|reflexivity]|].
  apply (@application_verified_last sample_platform provider 1 filed (approve 1 filed).1 (approve 1 filed).2).
  - intros id row. rewrite filed_users. apply sellers_keyed.
  - intros key p. rewrite filed_aliases. intros H. by rewrite lookup_empty in H.
  - apply surjective_pairing.
Defined.

Lemma slug_well_formed_witness :
  returns (fun s => well_formed_slug s = true /\ (s = "toko-nusantara" \/ s = "toko-nusantara-7"))
    (@uniqueSlug sample_platform "Toko  Nusantara!" 7).
Proof. apply (@slug_well_formed sample_platform "Toko  Nusantara!" 7). lia. Defined.

(** The store of account 3 would be called as account 1's, so its slug is the store's with the
    account's number: that is the slug of account 2's store, and every approval of account 3 ends in
    a conflict that says to retry. *)
Definition two_approved : World := (approve 2 (approve 1 filed).2).2.
Definition third := approve 3 two_approved.

Lemma fallback_slug_can_be_taken :
  match third.1 with Err (RecordConflictError _) => True | _ => False end /\
  match (approve 3 third.2).1 with Err (RecordConflictError _) => True | _ => False end.
Proof. split; vm_compute; exact I. Qed.
End Witness.
