(* ===== verification/Pages.v ===== *)
(** * Reading all applications page by page

    The lists of src/src/infrastructure/persistence/adapters/typeorm_courier_application_repository.adapter.ts
    and typeorm_merchant_verification_repository.adapter.ts answer a page and, when there is more, the
    id to go on after. A reader that goes on until there is no such id ([read_pages]) ends, and has
    then seen every application it selects, once, in the order of their ids. *)

From S2P Require Import Prelude JsString Dates Domain Store Sample Keys Totp SignInAttempts Tokens Sessions Accounts Clients PasskeyStore Auth Handlers SignIn Login SecondFactor Records Geocoding Profiles Fleet Couriers Sellers.
From stdpp Require Import sorting.

Local Open Scope string_scope.
Local Open Scope Z_scope.

(** ** Lists in the order of their ids *)

Section Sorted.
Context {V : Type} (id : V -> Z).

Definition before (a b : V) : Prop := id a < id b.

#[local] Instance before_antisymm : AntiSymm (=) before.
Proof. intros a b H1 H2. unfold before in *. lia. Qed.

Lemma insert_by_id_perm v l : insert_by_id id v l ≡ₚ v :: l.
Proof. induction l as [|x l IH]; cbn; [done|]. destruct (_ <=? _); [done|]. rewrite IH. apply Permutation_swap. Qed.
Lemma sort_by_id_perm l : sort_by_id id l ≡ₚ l.
Proof. induction l as [|x l IH]; cbn; [done|]. by rewrite insert_by_id_perm, IH. Qed.

Lemma insert_by_id_sorted v l :
  StronglySorted before l -> (forall x, x ∈ l -> id x <> id v) -> StronglySorted before (insert_by_id id v l).
Proof.
  induction 1 as [|x l Hs IH Hall]; intros Hne; cbn; [repeat constructor|].
  destruct (Z.leb_spec (id v) (id x)).
  - assert (id x <> id v) by (apply Hne; set_solver). constructor; [by constructor|]. constructor; [unfold before; lia|].
    eapply Forall_impl; [exact Hall|]. unfold before. lia.
  - constructor; [apply IH; set_solver|]. rewrite insert_by_id_perm. constructor; [done|exact Hall].
Qed.
Lemma sort_by_id_sorted l : NoDup (map id l) -> StronglySorted before (sort_by_id id l).
Proof.
  induction l as [|x l IH]; cbn; [constructor|]. intros [Hx Hl]%NoDup_cons. apply insert_by_id_sorted; [by apply IH|].
  intros y Hy E. apply Hx. rewrite <- E. apply list_elem_of_fmap_2. fold (sort_by_id id l) in Hy. by rewrite sort_by_id_perm in Hy.
Qed.

Lemma filter_sorted p l : StronglySorted before l -> StronglySorted before (List.filter p l).
Proof.
  induction 1 as [|x l Hs IH Hall]; cbn; [constructor|]. destruct (p x); [|done]. constructor; [done|].
  rewrite Forall_forall in *. intros y [Hy _]%list_elem_of_In%filter_In. by apply Hall, list_elem_of_In.
Qed.
Lemma filter_perm p (l l' : list V) : l ≡ₚ l' -> List.filter p l ≡ₚ List.filter p l'.
Proof.
  induction 1 as [|x l l' _ IH|x y l|l1 l2 l3 _ IH1 _ IH2]; cbn; [done|..|by rewrite IH1].
  - destruct (p x); by rewrite IH.
  - destruct (p x), (p y); [apply Permutation_swap|done..].
Qed.

Lemma NoDup_filter_ids p l : NoDup (map id l) -> NoDup (map id (List.filter p l)).
Proof.
  induction l as [|x l IH]; cbn; [done|]. intros [Hx Hl]%NoDup_cons. destruct (p x); [|by apply IH].
  cbn. constructor; [|by apply IH]. intros (y & Ey & [Hy _]%list_elem_of_In%filter_In)%list_elem_of_fmap.
  apply Hx. apply list_elem_of_fmap. exists y. split; [done|by apply list_elem_of_In].
Qed.

(** Selecting then ordering is ordering then selecting. *)
Lemma sort_filter p l : NoDup (map id l) -> sort_by_id id (List.filter p l) = List.filter p (sort_by_id id l).
Proof.
  intros Hl. apply (StronglySorted_unique before).
  - by apply sort_by_id_sorted, NoDup_filter_ids.
  - by apply filter_sorted, sort_by_id_sorted.
  - rewrite sort_by_id_perm. symmetry. apply filter_perm, sort_by_id_perm.
Qed.

(** ** Pages *)

(** The rows after an id. *)
Definition after (a : Z) (l : list V) : list V := List.filter (fun v => a <? id v) l.

Lemma after_all a l : (forall v, v ∈ l -> a < id v) -> after a l = l.
Proof.
  induction l as [|x l IH]; intros H; cbn; [done|]. rewrite (proj2 (Z.ltb_lt _ _)) by (apply H; set_solver).
  f_equal. apply IH. set_solver.
Qed.
Lemma after_none a l : (forall v, v ∈ l -> id v <= a) -> after a l = [].
Proof.
  induction l as [|x l IH]; intros H; cbn; [done|]. rewrite (proj2 (Z.ltb_ge _ _)) by (apply H; set_solver).
  apply IH. set_solver.
Qed.
Lemma after_app a l1 l2 : after a (l1 ++ l2) = (after a l1 ++ after a l2)%list.
Proof. unfold after. induction l1 as [|x l1 IH]; cbn; [done|]. rewrite IH. by destruct (_ <? _). Qed.

Lemma after_after a b l : a <= b -> after b (after a l) = after b l.
Proof.
  intros Hab. unfold after. induction l as [|x l IH]; cbn; [done|].
  destruct (Z.ltb_spec a (id x)), (Z.ltb_spec b (id x)); cbn; rewrite ?IH; try lia; try done.
  - by rewrite (proj2 (Z.ltb_lt _ _)).
  - by rewrite (proj2 (Z.ltb_ge _ _)).
Qed.
Lemma after_elem a l v : v ∈ after a l -> v ∈ l /\ a < id v.
Proof. intros [Hv Ha%Z.ltb_lt]%list_elem_of_In%filter_In. split; [by apply list_elem_of_In|done]. Qed.

(** Going on after the last row of the first [n] leaves the others. *)
Lemma after_last l n v :
  StronglySorted before l -> last (take n l) = Some v -> after (id v) l = drop n l.
Proof.
  intros Hs Hv. rewrite <- (take_drop n l) at 1. rewrite after_app.
  rewrite <- (take_drop n l) in Hs. apply StronglySorted_app in Hs as (Hcross & Hs1 & _).
  assert (v ∈ take n l) as Hin by (by apply last_Some_elem_of).
  rewrite (after_none (id v) (take n l)), (after_all (id v) (drop n l)); [done|..].
  - intros x Hx. by apply Hcross.
  - intros x Hx. apply last_Some in Hv as [l' Hl']. rewrite Hl' in Hx, Hs1.
    apply StronglySorted_app in Hs1 as (Hc & _ & _). apply elem_of_app in Hx as [Hx| ->%list_elem_of_singleton]; [|lia].
    specialize (Hc x v Hx). unfold before in Hc. assert (id x < id v) by (apply Hc; set_solver). lia.
Qed.

(** A page of the rows after [a], and where it says to go on. *)
Lemma page_of_split limit l :
  0 < limit ->
  page_of id limit l = mkApplicationPage l None \/
  exists v, last (take (Z.to_nat limit) l) = Some v /\
    page_of id limit l = mkApplicationPage (take (Z.to_nat limit) l) (Some (id v)).
Proof.
  intros Hl. unfold page_of. rewrite length_take. destruct (Z.ltb_spec limit (Z.of_nat (Init.Nat.min (Z.to_nat (limit + 1)) (List.length l)))) as [Hm|Hm].
  - right. rewrite take_take. replace (Z.to_nat limit `min` Z.to_nat (limit + 1))%nat with (Z.to_nat limit) by lia.
    destruct (last (take (Z.to_nat limit) l)) as [v|] eqn:E; [by exists v|].
    exfalso. apply last_None in E. apply (f_equal List.length) in E. rewrite length_take in E. cbn in E. lia.
  - left. by rewrite take_ge by lia.
Qed.
End Sorted.

(** ** Reading on until there is no more *)

Section Walk.
Context {P : Platform} {S V : Type} (id : V -> Z) (list_page : ApplicationQuery S -> M (ApplicationPage V)).
Local Open Scope prog_scope.

(** [None] when [fuel] pages were not enough. *)
Fixpoint read_pages (fuel : nat) (q : ApplicationQuery S) : M (option (list V)) :=
  match fuel with
  | O => Ret None
  | Datatypes.S fuel =>
      page <- list_page q ;;
      match page_nextAfterId page with
      | None => Ret (Some (page_applications page))
      | Some a =>
          rest <- read_pages fuel (mkApplicationQuery (q_status q) a (q_limit q)) ;;
          Ret (option_map (app (page_applications page)) rest)
      end
  end.

Context (status : option S) (limit : Z) (rows : list V) (d : Db) (Hlimit : 0 < limit) (Hrows : StronglySorted (before id) rows).
Context (Hpage : forall a w, db w = d -> exists w',
  run (list_page (mkApplicationQuery status a limit)) w = (Ok (page_of id limit (after id a rows)), w') /\ db w' = d).

Lemma after_sorted a : StronglySorted (before id) (after id a rows).
Proof. by apply filter_sorted. Qed.

Lemma read_pages_all fuel a w :
  db w = d -> (List.length (after id a rows) < fuel)%nat ->
  exists w', run (read_pages fuel (mkApplicationQuery status a limit)) w = (Ok (Some (after id a rows)), w') /\ db w' = d.
Proof.
  revert a w. induction fuel as [|fuel IH]; intros a w Hd Hf; [lia|]. cbn [read_pages]. rewrite run_bind.
  destruct (Hpage a w Hd) as (w1 & -> & Hd1).
  destruct (page_of_split id limit (after id a rows) Hlimit) as [->|(v & Hv & ->)]; cbn [page_nextAfterId page_applications q_status q_limit].
  - by exists w1.
  - pose proof (after_last id _ _ _ (after_sorted a) Hv) as Hnext.
    assert (a < id v) as Hav.
    { apply (after_elem id a rows). eapply subseteq_take. by apply last_Some_elem_of. }
    rewrite after_after in Hnext by lia. rewrite run_bind.
    destruct (IH (id v) w1 Hd1) as (w2 & -> & Hd2).
    { rewrite Hnext, length_drop. assert (0 < List.length (after id a rows))%nat; [|lia].
      destruct (after id a rows); [rewrite take_nil in Hv; done|cbn; lia]. }
    exists w2. split; [|done]. cbn. by rewrite Hnext, take_drop.
Qed.
End Walk.

(** ** The two lists *)

Section Lists.
Context {P : Platform} (Hrel : reliable).

Definition of_status {S V} `{EqDecision S} (status_of : V -> S) (status : option S) (v : V) : bool :=
  match status with Some s => bool_decide (status_of v = s) | None => true end.

(** The applications there are, with this status or with any, in the order of their ids. *)
Definition courier_rows (status : option CourierApplicationStatus) (d : Db) : list CourierApplicationView :=
  sort_by_id cv_applicationId (List.filter (of_status cv_status status)
    (omap (fun '(u, _) => joined u d) (map_to_list (courier_applications d)))).
Definition seller_found (status : option SellerApplicationStatus) (d : Db) : list (MerchantVerificationEntity * string) :=
  sort_by_id (fun f => verification_id f.1) (List.filter (of_status (fun f => verification_status f.1) status)
    (omap (fun '(_, v) => seller_joined d v) (map_to_list (merchant_verifications d)))).
Definition seller_rows (status : option SellerApplicationStatus) (d : Db) : list SellerApplicationView :=
  map (seller_view (fun u => principal_aliases d !! ("identity", String_of u))) (seller_found status d).

(** No two applications share an id, and ids are numbered from 1. *)
Definition ids_apart {V} (id : V -> Z) (l : list V) : Prop := NoDup (map id l) /\ forall v, v ∈ l -> 0 < id v.
Definition courier_ids_apart (d : Db) : Prop :=
  ids_apart cv_applicationId (omap (fun '(u, _) => joined u d) (map_to_list (courier_applications d))).
Definition seller_ids_apart (d : Db) : Prop :=
  ids_apart (fun f => verification_id f.1) (omap (fun '(_, v) => seller_joined d v) (map_to_list (merchant_verifications d))).

Lemma filter_filter {A} (p q : A -> bool) l : List.filter p (List.filter q l) = List.filter (fun x => p x && q x) l.
Proof.
  induction l as [|x l IH]; cbn; [done|]. destruct (q x) eqn:Eq, (p x) eqn:Ep; cbn; rewrite ?Ep; cbn; rewrite ?IH; done.
Qed.

(** Selecting rows after an id and of a status, in the order of the ids. *)
Lemma selected_rows {S V} `{EqDecision S} (id : V -> Z) (status_of : V -> S) status a l :
  NoDup (map id l) ->
  sort_by_id id (List.filter (fun v => (a <? id v) && of_status status_of status v) l) =
  after id a (sort_by_id id (List.filter (of_status status_of status) l)).
Proof.
  intros Hl. unfold after. rewrite <- sort_filter by (by apply NoDup_filter_ids). by rewrite filter_filter.
Qed.

Lemma rows_positive {S V} `{EqDecision S} (id : V -> Z) (status_of : V -> S) status l :
  ids_apart id l -> after id 0 (sort_by_id id (List.filter (of_status status_of status) l)) =
                    sort_by_id id (List.filter (of_status status_of status) l).
Proof.
  intros [_ Hpos]. apply after_all. intros v. rewrite sort_by_id_perm.
  intros [Hv _]%list_elem_of_In%filter_In. by apply Hpos, list_elem_of_In.
Qed.

Lemma courier_page status a limit w :
  courier_ids_apart (db w) ->
  exists w', run (list_applications (mkApplicationQuery status a limit)) w =
    (Ok (page_of cv_applicationId limit (after cv_applicationId a (courier_rows status (db w)))), w') /\ db w' = db w.
Proof.
  intros [Hl _]. exists (count_call w). split; [|done]. unfold list_applications. rewrite (run_query_rel Hrel).
  unfold courier_rows. by rewrite <- selected_rows.
Qed.

Lemma page_of_map {A B} (f : A -> B) (ida : A -> Z) (idb : B -> Z) limit l :
  (forall x, idb (f x) = ida x) ->
  page_of idb limit (map f l) =
  mkApplicationPage (map f (page_applications (page_of ida limit l))) (page_nextAfterId (page_of ida limit l)).
Proof.
  intros Hid. unfold page_of. cbn [page_applications page_nextAfterId].
  rewrite !firstn_map, length_map. destruct (limit <? _); [|done]. f_equal.
  set (page := take (Z.to_nat limit) _). change (map f page) with (f <$> page). rewrite fmap_last.
  destruct (last page); cbn; [by rewrite Hid|done].
Qed.

Lemma after_map {A B} (f : A -> B) (ida : A -> Z) (idb : B -> Z) a l :
  (forall x, idb (f x) = ida x) -> after idb a (map f l) = map f (after ida a l).
Proof. intros Hid. unfold after. induction l as [|x l IH]; cbn; [done|]. rewrite Hid, IH. by destruct (_ <? _). Qed.

Lemma run_principalsOf ids w :
  exists f w', run (principalsOf ids) w = (Ok f, w') /\ db w' = db w /\
    forall u, u ∈ ids -> f u = principal_aliases (db w) !! ("identity", String_of u).
Proof.
  destruct ids as [|u0 ids]; cbn [principalsOf].
  - do 2 eexists. split; [reflexivity|]. split; [done|]. intros u []%not_elem_of_nil.
  - rewrite (run_query_rel Hrel). do 2 eexists. split; [reflexivity|]. split; [done|]. intros u Hu. by rewrite bool_decide_eq_true_2.
Qed.

Lemma seller_page status a limit w :
  seller_ids_apart (db w) ->
  exists w', run (list_seller_applications (mkApplicationQuery status a limit)) w =
    (Ok (page_of sv_applicationId limit (after sv_applicationId a (seller_rows status (db w)))), w') /\ db w' = db w.
Proof.
  intros [Hl _]. set (idf := fun f : MerchantVerificationEntity * string => verification_id f.1).
  set (full := seller_view (fun u => principal_aliases (db w) !! ("identity", String_of u))).
  unfold seller_rows. fold full. rewrite (after_map full idf) by done. rewrite (page_of_map full idf) by done.
  assert (sort_by_id idf (List.filter (fun found => (a <? idf found) && of_status (fun f => verification_status f.1) status found)
    (omap (fun '(_, v) => seller_joined (db w) v) (map_to_list (merchant_verifications (db w))))) = after idf a (seller_found status (db w)))
    as Hsel by (by apply selected_rows).
  unfold list_seller_applications. rewrite run_bind, (run_query_rel Hrel). cbn [q_status q_afterId q_limit db count_call].
  change (page_of (fun found : MerchantVerificationEntity * string => verification_id found.1) limit _)
    with (page_of idf limit (sort_by_id idf (List.filter (fun found => (a <? idf found) && of_status (fun f => verification_status f.1) status found)
    (omap (fun '(_, v) => seller_joined (db w) v) (map_to_list (merchant_verifications (db w))))))).
  rewrite Hsel. set (page := page_of idf limit _). rewrite run_bind.
  destruct (run_principalsOf (map (fun found => verification_userId found.1) (page_applications page)) (count_call w)) as (f & w' & -> & Hd & Hf).
  exists w'. split; [|done]. cbn. do 3 f_equal. apply map_ext_in. intros x Hx. unfold full, seller_view.
  rewrite Hf; [done|]. apply list_elem_of_In, in_map_iff. by exists x.
Qed.

(** C16: Reading the applications page by page ends and misses none: with any page size above zero
    and on tables that do not change meanwhile, a reader that goes on after the id each page ends
    with gets an answer without one after at most as many pages as there are applications, and the
    pages together are every courier's (every seller's) application of the status it asked for, once
    and in the order of their ids. *)
Theorem applications_are_read_completely limit w fuel :
  0 < limit ->
  (forall status, courier_ids_apart (db w) -> (List.length (courier_rows status (db w)) < fuel)%nat ->
     exists w', run (read_pages list_applications fuel (mkApplicationQuery status 0 limit)) w =
       (Ok (Some (courier_rows status (db w))), w')) /\
  (forall status, seller_ids_apart (db w) -> (List.length (seller_rows status (db w)) < fuel)%nat ->
     exists w', run (read_pages list_seller_applications fuel (mkApplicationQuery status 0 limit)) w =
       (Ok (Some (seller_rows status (db w))), w')).
Proof.
  intros Hlimit. split; intros status Hids Hf.
  - pose proof (rows_positive cv_applicationId cv_status status _ Hids) as H0. fold (courier_rows status (db w)) in H0.
    destruct (read_pages_all cv_applicationId list_applications status limit (courier_rows status (db w)) (db w) Hlimit)
      with (fuel := fuel) (a := 0) (w := w) as (w' & Hrun & _).
    + apply sort_by_id_sorted, NoDup_filter_ids, Hids.
    + intros a w1 Hw1. rewrite <- Hw1. apply courier_page. by rewrite Hw1.
    + done.
    + by rewrite H0.
    + exists w'. by rewrite Hrun, H0.
  - pose proof (rows_positive (fun f => verification_id f.1) (fun f => verification_status f.1) status _ Hids) as H0.
    fold (seller_found status (db w)) in H0.
    assert (after sv_applicationId 0 (seller_rows status (db w)) = seller_rows status (db w)) as H1.
    { unfold seller_rows. rewrite (after_map _ (fun f => verification_id f.1)) by done. by rewrite H0. }
    destruct (read_pages_all sv_applicationId list_seller_applications status limit (seller_rows status (db w)) (db w) Hlimit)
      with (fuel := fuel) (a := 0) (w := w) as (w' & Hrun & _).
    + unfold seller_rows. apply (StronglySorted_fmap _ (before (fun f => verification_id f.1))); [done|].
      apply sort_by_id_sorted, NoDup_filter_ids, Hids.
    + intros a w1 Hw1. rewrite <- Hw1. apply seller_page. by rewrite Hw1.
    + done.
    + by rewrite H1.
    + exists w'. by rewrite Hrun, H1.
Qed.
End Lists.

Module Witness.

(** Three sellers' applications, read two by two. *)
Abbreviation filed := Sellers.Witness.filed.

Lemma filed_apart : seller_ids_apart (db filed).
Proof.
  set (l := omap (fun '(_, v) => seller_joined (db filed) v) (map_to_list (merchant_verifications (db filed)))).
  assert (map (fun f => verification_id f.1) l = [3; 2; 1]) as E by (vm_compute; reflexivity).
  split; fold l.
  - rewrite E. apply (bool_decide_unpack _). vm_compute. exact I.
  - intros v Hv. assert (verification_id v.1 ∈ [3; 2; 1]) as H by (rewrite <- E; apply list_elem_of_In, in_map_iff; exists v; split; [reflexivity|by apply list_elem_of_In]).
    repeat (apply elem_of_cons in H as [->|H]; [lia|]). destruct (not_elem_of_nil _ H).
Defined.

Lemma applications_are_read_completely_witness :
  List.length (@seller_rows None (db filed)) = 3%nat /\
  exists w', run (@read_pages SellerApplicationStatus SellerApplicationView (@list_seller_applications sample_platform) 4
                    (mkApplicationQuery None 0 2)) filed = (Ok (Some (seller_rows None (db filed))), w').
Proof.
  assert (List.length (seller_rows None (db filed)) = 3%nat) as Hlen by (vm_compute; reflexivity). split; [exact Hlen|].
  destruct (@applications_are_read_completely sample_platform (fun _ => eq_refl) 2 filed 4 eq_refl) as [_ H].
  apply H; [apply filed_apart|rewrite Hlen; lia].
Defined.
End Witness.
