(* ===== verification/Feed.v ===== *)
(** * The feed of changed merchants

    Models [findChangedSince] and [findChangedAfter] of
    src/src/infrastructure/persistence/adapters/typeorm_merchant_repository.adapter.ts over
    PostgreSQL's transactions: the trigger of src/src/migrations/1789500000000-MerchantChangeTransaction.ts
    stamps each written merchant with the id of the transaction that wrote it, and a reader sees what
    is committed. Elsewhere a transaction is one atomic action; here transactions overlap, because
    the order in which they commit is what the feed is about.

    Main results: a consumer that follows the transaction cursor misses no change, however
    transactions overlap and abort, and reaches every change once the writers stop. *)

From S2P Require Import Prelude JsString Domain Store.
From stdpp Require Import sorting.
From Stdlib Require Import QArith_base.

Local Open Scope Z_scope.

(** A row of [merchants] with its row of [merchant_change_feed]. *)
Record FeedRow := mkFeedRow { feed_merchant : MerchantEntity; updatedAt : Z; change_transaction_id : Z }.
#[export] Instance Q_eq_decision : EqDecision QArith_base.Q.
Proof. solve_decision. Defined.
#[export] Instance MerchantEntity_eq_dec : EqDecision MerchantEntity.
Proof. solve_decision. Defined.
#[export] Instance FeedRow_eq_dec : EqDecision FeedRow.
Proof. solve_decision. Defined.

Definition feed_id (r : FeedRow) : Z := merchant_id (feed_merchant r).

(** The committed rows, the rows each open transaction has written, and the next transaction id. *)
Record FeedDb := mkFeedDb { committed : gmap Z FeedRow; running : gmap Z (gmap Z FeedRow); next_xid : Z }.

(** [pg_snapshot_xmin(pg_current_snapshot())]: the oldest transaction still open. *)
Definition xmin (s : FeedDb) : Z := foldr Z.min (next_xid s) (map fst (map_to_list (running s))).

Record MerchantChange := mkChange { change_merchant : MerchantEntity; change_updatedAt : Z }.
Record MerchantChangePage := mkChangePage { changes : list MerchantChange; hasMore : bool; lastTransactionId : option Z }.

Definition changeOf (r : FeedRow) : MerchantChange := mkChange (feed_merchant r) (updatedAt r).

(** ORDER BY a time or a transaction, then the id. *)
Definition ordered_by (k : FeedRow -> Z) (a b : FeedRow) : Prop := k a < k b \/ (k a = k b /\ feed_id a <= feed_id b).
#[export] Instance ordered_by_dec k : RelDecision (ordered_by k).
Proof. intros a b. unfold ordered_by. apply _. Defined.
#[export] Instance ordered_by_trans k : Transitive (ordered_by k).
Proof. intros a b c. unfold ordered_by. lia. Qed.
#[export] Instance ordered_by_total k : Total (ordered_by k).
Proof. intros a b. unfold ordered_by. lia. Qed.

(** Past the cursor: later, or at the same point with a greater id. *)
Definition past (k : FeedRow -> Z) (at_key lastId : Z) (r : FeedRow) : bool :=
  (at_key <? k r) || ((at_key =? k r) && (lastId <? feed_id r)).

Definition committed_rows (s : FeedDb) : list FeedRow := map snd (map_to_list (committed s)).

(** [limit + 1] rows read in order, [limit] of them kept: the page and whether there are more. *)
Definition first_rows (k : FeedRow -> Z) (select : FeedRow -> bool) (limit : Z) (s : FeedDb) : list FeedRow * bool :=
  let records := take (Z.to_nat (limit + 1)) (merge_sort (ordered_by k) (List.filter select (committed_rows s))) in
  let more := limit <? Z.of_nat (List.length records) in
  (if more then take (Z.to_nat limit) records else records, more).

Definition findChangedSince (updatedThrough : option Z) (lastId limit : Z) (s : FeedDb) : MerchantChangePage :=
  let select := fun r => match updatedThrough with Some t => past updatedAt t lastId r | None => true end in
  let '(page, more) := first_rows updatedAt select limit s in
  mkChangePage (map changeOf page) more None.

(** Committed, by a transaction older than every open one, and past the cursor. *)
Definition settled (transactionId lastId : Z) (s : FeedDb) (r : FeedRow) : bool :=
  (change_transaction_id r <? xmin s) && past change_transaction_id transactionId lastId r.

Definition page_after (transactionId lastId limit : Z) (s : FeedDb) : list FeedRow * bool :=
  first_rows change_transaction_id (settled transactionId lastId s) limit s.

Definition findChangedAfter (transactionId lastId limit : Z) (s : FeedDb) : MerchantChangePage :=
  let '(page, more) := page_after transactionId lastId limit s in
  mkChangePage (map changeOf page) more
    (Some (match last page with Some r => change_transaction_id r | None => transactionId end)).

(** ** Writers *)

(** What the database does between two reads of the feed: a transaction takes the next id, writes a
    merchant no other open transaction has written (the row is locked), commits or aborts. *)
Inductive write_step : FeedDb -> FeedDb -> Prop :=
| begin_transaction s :
    write_step s (mkFeedDb (committed s) (<[next_xid s := ∅]> (running s)) (next_xid s + 1))
| write_merchant s x writes m now :
    running s !! x = Some writes ->
    (forall y other, running s !! y = Some other -> y <> x -> other !! merchant_id m = None) ->
    write_step s (mkFeedDb (committed s) (<[x := <[merchant_id m := mkFeedRow m now x]> writes]> (running s)) (next_xid s))
| commit_transaction s x writes :
    running s !! x = Some writes ->
    write_step s (mkFeedDb (writes ∪ committed s) (delete x (running s)) (next_xid s))
| abort_transaction s x :
    write_step s (mkFeedDb (committed s) (delete x (running s)) (next_xid s)).

(** ** A consumer *)

(** Its cursor and the merchants as it last saw them. *)
Record Consumer := mkConsumer { cursor_xid : Z; cursor_id : Z; view : gmap Z FeedRow }.

Definition absorb (page : list FeedRow) (v : gmap Z FeedRow) : gmap Z FeedRow :=
  fold_left (fun v r => <[feed_id r := r]> v) page v.

(** One page read and applied; the next cursor is the page's last row. *)
Definition poll (limit : Z) (s : FeedDb) (c : Consumer) : Consumer :=
  let page := (page_after (cursor_xid c) (cursor_id c) limit s).1 in
  match last page with
  | Some r => mkConsumer (change_transaction_id r) (feed_id r) (absorb page (view c))
  | None => c
  end.

Inductive feed_step : FeedDb * Consumer -> FeedDb * Consumer -> Prop :=
| feed_write s s' c : write_step s s' -> feed_step (s, c) (s', c)
| feed_poll limit s c : 0 < limit -> feed_step (s, c) (s, poll limit s c).

(** ** Pages *)

Section Pages.
Context (k : FeedRow -> Z).

(** One row per merchant, under its id. *)
Definition keyed_rows (m : gmap Z FeedRow) : Prop := forall id r, m !! id = Some r -> feed_id r = id.

Lemma committed_rows_elem s r : keyed_rows (committed s) -> r ∈ committed_rows s <-> committed s !! feed_id r = Some r.
Proof.
  intros Hk. unfold committed_rows. rewrite list_elem_of_In, in_map_iff. split.
  - intros ([id r'] & <- & Hin). apply list_elem_of_In, elem_of_map_to_list in Hin. cbn. by rewrite (Hk _ _ Hin).
  - intros Hr. exists (feed_id r, r). split; [done|]. by apply list_elem_of_In, elem_of_map_to_list.
Qed.

Context (select : FeedRow -> bool) (limit : Z) (s : FeedDb) (Hlimit : 0 < limit) (Hkey : keyed_rows (committed s)).

Definition selected : list FeedRow := merge_sort (ordered_by k) (List.filter select (committed_rows s)).

Lemma selected_elem r : r ∈ selected <-> committed s !! feed_id r = Some r /\ select r = true.
Proof.
  unfold selected. rewrite merge_sort_Permutation, list_elem_of_In, filter_In, <- list_elem_of_In.
  by rewrite committed_rows_elem.
Qed.

Lemma selected_sorted : StronglySorted (ordered_by k) selected.
Proof. apply StronglySorted_merge_sort; typeclasses eauto. Qed.

(** The page is what comes first, and whether there is more is whether something is left. *)
Lemma first_rows_split :
  exists rest, selected = ((first_rows k select limit s).1 ++ rest)%list /\
    (first_rows k select limit s).2 = negb (bool_decide (rest = [])) /\
    (selected <> [] -> (first_rows k select limit s).1 <> []).
Proof.
  unfold first_rows. fold selected. set (l := selected).
  rewrite length_take. destruct (limit <? Z.of_nat (Z.to_nat (limit + 1) `min` List.length l)) eqn:E; cbn.
  - apply Z.ltb_lt in E. exists (drop (Z.to_nat limit) l). rewrite take_take, (Nat.min_l (Z.to_nat limit)) by lia.
    split; [by rewrite take_drop|]. rewrite bool_decide_eq_false_2.
    + split; [done|]. intros _ Hn. apply (f_equal List.length) in Hn. rewrite length_take in Hn. cbn in Hn. lia.
    + intros Hn. apply (f_equal List.length) in Hn. rewrite length_drop in Hn. cbn in Hn. lia.
  - apply Z.ltb_ge in E. exists []. rewrite take_ge by lia. rewrite app_nil_r. by rewrite bool_decide_eq_true_2.
Qed.
End Pages.

(** ** The consumer's invariant *)

Definition xids_ok (s : FeedDb) : Prop :=
  (forall x writes, running s !! x = Some writes -> x < next_xid s /\ keyed_rows writes /\
     forall id r, writes !! id = Some r -> change_transaction_id r = x) /\
  keyed_rows (committed s) /\
  forall id r, committed s !! id = Some r -> change_transaction_id r < next_xid s.

(** Every open transaction, and every one to come, is later than the cursor. *)
Definition cursor_ok (s : FeedDb) (c : Consumer) : Prop :=
  cursor_xid c < next_xid s /\ forall x writes, running s !! x = Some writes -> cursor_xid c < x.

(** Each committed row was delivered, or is still past the cursor. *)
Definition nothing_missed (s : FeedDb) (c : Consumer) : Prop :=
  forall id r, committed s !! id = Some r ->
    past change_transaction_id (cursor_xid c) (cursor_id c) r = true \/ view c !! id = Some r.

Definition feed_inv (sc : FeedDb * Consumer) : Prop :=
  xids_ok sc.1 /\ cursor_ok sc.1 sc.2 /\ nothing_missed sc.1 sc.2.

Lemma xmin_running s x writes : running s !! x = Some writes -> xmin s <= x.
Proof.
  intros Hx. unfold xmin. assert (In x (map fst (map_to_list (running s)))) as Hin.
  { apply in_map_iff. exists (x, writes). split; [done|]. by apply list_elem_of_In, elem_of_map_to_list. }
  induction (map fst (map_to_list (running s))) as [|y l IH]; [done|]. cbn. destruct Hin as [->|Hin]; [lia|]. specialize (IH Hin). lia.
Qed.
Lemma xmin_next s : xmin s <= next_xid s.
Proof. unfold xmin. induction (map fst (map_to_list (running s))) as [|y l IH]; cbn; lia. Qed.
Lemma xmin_idle s : running s = ∅ -> xmin s = next_xid s.
Proof. intros H. unfold xmin. by rewrite H, map_to_list_empty. Qed.

Ltac split_inv := unfold feed_inv, xids_ok, cursor_ok, nothing_missed; cbn [fst snd committed running next_xid]; split_and!.

Lemma write_step_inv s s' c : feed_inv (s, c) -> write_step s s' -> feed_inv (s', c).
Proof.
  intros ((Hrun & Hk & Hx) & (Hc & Hcx) & Hm) Hs. destruct Hs as [s|s x writes m now Hw Hlock|s x writes Hw|s x]; cbn in *.
  - split_inv; try done; try lia.
    + intros x writes [[<- <-]|[_ H]]%lookup_insert_Some.
      * split; [lia|]. split; intros id r H; by rewrite lookup_empty in H.
      * destruct (Hrun _ _ H) as (? & ? & ?). split_and!; [lia|done..].
    + intros id r H. specialize (Hx _ _ H). lia.
    + intros x writes [[<- _]|[_ H]]%lookup_insert_Some; [lia|by eapply Hcx].
  - destruct (Hrun _ _ Hw) as (Hlt & Hkw & Hxw). split_inv; try done.
    + intros y other [[<- <-]|[_ H]]%lookup_insert_Some; [|by eapply Hrun]. split; [done|].
      split; intros id r [[<- <-]|[_ H]]%lookup_insert_Some; [done|by apply Hkw|done|by eapply Hxw].
    + intros y other [[<- _]|[_ H]]%lookup_insert_Some; by eapply Hcx.
  - destruct (Hrun _ _ Hw) as (Hlt & Hkw & Hxw).
    assert (forall id r, (writes ∪ committed s) !! id = Some r ->
      writes !! id = Some r \/ committed s !! id = Some r) as Hu by (intros id r H; apply lookup_union_Some_raw in H; tauto).
    split_inv; try done.
    + intros y other [_ H]%lookup_delete_Some. by eapply Hrun.
    + intros id r [H|H]%Hu; [by apply Hkw|by apply Hk].
    + intros id r [H|H]%Hu; [rewrite (Hxw _ _ H); done|by eapply Hx].
    + intros y other [_ H]%lookup_delete_Some. by eapply Hcx.
    + intros id r [H|H]%Hu; [left|by apply Hm]. unfold past. rewrite (Hxw _ _ H). pose proof (Hcx _ _ Hw). lia.
  - split_inv; try done; intros y other [_ H]%lookup_delete_Some; [by eapply Hrun|by eapply Hcx].
Qed.

(** *** One page *)

Lemma absorb_other page v id : (forall r, r ∈ page -> feed_id r <> id) -> absorb page v !! id = v !! id.
Proof.
  unfold absorb. revert v. induction page as [|r page IH]; intros v H; [done|]. cbn. rewrite IH; [|set_solver].
  apply lookup_insert_ne, H. set_solver.
Qed.

Lemma absorb_elem page v r :
  (forall a, a ∈ page -> feed_id a = feed_id r -> a = r) -> r ∈ page -> absorb page v !! feed_id r = Some r.
Proof.
  unfold absorb. revert v. induction page as [|a page IH]; intros v Huniq Hr; [by apply not_elem_of_nil in Hr|]. cbn.
  destruct (decide (r ∈ page)) as [Hin|Hout].
  - apply IH; [|done]. intros b Hb. apply Huniq. by right.
  - apply elem_of_cons in Hr as [<-|Hr]; [|done].
    change (absorb page (<[feed_id r := r]> v) !! feed_id r = Some r). rewrite absorb_other; [apply lookup_insert_eq|].
    intros b Hb He. assert (b = r) as -> by (apply Huniq; [by right|done]). done.
Qed.

Section Poll.
Context (limit : Z) (s : FeedDb) (c : Consumer) (Hlimit : 0 < limit) (Hinv : feed_inv (s, c)).

Let select := settled (cursor_xid c) (cursor_id c) s.
Let page := (page_after (cursor_xid c) (cursor_id c) limit s).1.

Lemma committed_keyed : keyed_rows (committed s).
Proof. by destruct Hinv as ((_ & Hk & _) & _). Qed.

(** Rows of the page come no later than the new cursor, the others that were due come after it. *)
Lemma poll_cursor r rest :
  selected change_transaction_id select s = (page ++ rest)%list -> last page = Some r ->
  forall a, committed s !! feed_id a = Some a -> select a = true ->
    past change_transaction_id (change_transaction_id r) (feed_id r) a = negb (bool_decide (a ∈ page)).
Proof.
  intros Hsplit Hlast a Ha Hsel. pose proof (selected_sorted change_transaction_id select s) as Hs. rewrite Hsplit in Hs.
  assert (r ∈ page) as Hr by (by apply last_Some_elem_of).
  assert (forall b, b ∈ (page ++ rest)%list -> committed s !! feed_id b = Some b) as Hcom.
  { intros b Hb. rewrite <- Hsplit in Hb. by apply (selected_elem _ _ _ committed_keyed) in Hb as [? _]. }
  assert (a ∈ page \/ a ∈ rest) as Hin.
  { apply elem_of_app. rewrite <- Hsplit. by apply (selected_elem _ _ _ committed_keyed). }
  destruct (bool_decide (a ∈ page)) eqn:Eb; [apply bool_decide_eq_true in Eb|apply bool_decide_eq_false in Eb]; unfold past; cbn.
  - apply last_Some in Hlast as [page' Hpage]. rewrite Hpage in Eb, Hs. apply elem_of_app in Eb as [Eb|Eb].
    + assert (ordered_by change_transaction_id a r) as Ho.
      { rewrite <- app_assoc in Hs. eapply StronglySorted_app_1_elem_of; [exact Hs|exact Eb|]. set_solver. }
      unfold ordered_by in Ho. lia.
    + apply list_elem_of_singleton in Eb as ->. lia.
  - destruct Hin as [|Hin]; [done|].
    assert (ordered_by change_transaction_id r a) as Ho by (by eapply StronglySorted_app_1_elem_of).
    assert (feed_id r <> feed_id a) as Hne.
    { intros He. apply Eb. assert (Some r = Some a) as [= <-]; [|done]. rewrite <- Ha, <- He. symmetry. apply Hcom, elem_of_app. by left. }
    unfold ordered_by in Ho. lia.
Qed.

Lemma poll_inv : feed_inv (s, poll limit s c).
Proof.
  destruct Hinv as (Hxids & (Hc & Hcx) & Hm). unfold poll. fold page.
  destruct (last page) as [r|] eqn:Hlast; [|by split_and!]. cbn [fst snd].
  destruct (first_rows_split change_transaction_id select limit s Hlimit) as (rest & Hsplit & _ & _).
  change ((first_rows change_transaction_id select limit s).1) with page in Hsplit.
  assert (forall b, b ∈ page -> committed s !! feed_id b = Some b /\ select b = true) as Hpage.
  { intros b Hb. apply (selected_elem change_transaction_id select s committed_keyed). rewrite Hsplit. apply elem_of_app. by left. }
  assert (change_transaction_id r < xmin s) as Hmin.
  { destruct (Hpage r) as [_ Hsel]; [by apply last_Some_elem_of|]. unfold select, settled in Hsel. lia. }
  assert (forall a id, a ∈ page -> committed s !! id = Some a -> feed_id a = id) as Hid by (intros a id _; apply committed_keyed).
  split; [done|]. split.
  - split; cbn; [pose proof (xmin_next s); lia|]. intros x writes Hx. pose proof (xmin_running _ _ _ Hx). lia.
  - intros id a Ha. cbn [fst snd view cursor_xid cursor_id] in *. assert (feed_id a = id) as <- by (by apply committed_keyed).
    destruct (decide (a ∈ page)) as [Hin|Hout].
    + right. apply absorb_elem; [|done]. intros b Hb He. destruct (Hpage b Hb) as [Hcb _]. rewrite He in Hcb. by simplify_eq.
    + rewrite absorb_other; [|intros b Hb He; destruct (Hpage b Hb) as [Hcb _]; rewrite He in Hcb; by simplify_eq].
      destruct (Hm _ _ Ha) as [Hp|Hv]; [left|by right].
      destruct (select a) eqn:Esel.
      * rewrite (poll_cursor r rest Hsplit Hlast a Ha Esel). by rewrite bool_decide_eq_false_2.
      * unfold select, settled in Esel. rewrite Hp, andb_true_r in Esel. unfold past. lia.
Qed.
End Poll.

Lemma feed_step_inv sc sc' : feed_inv sc -> feed_step sc sc' -> feed_inv sc'.
Proof.
  intros Hinv Hs. destruct Hs as [s s' c Hw|limit s c Hl]; [by eapply write_step_inv|by apply poll_inv].
Qed.

(** Everything the database holds came after the cursor the consumer starts from. *)
Definition feed_start (s : FeedDb) (c : Consumer) : Prop :=
  xids_ok s /\ cursor_ok s c /\
  forall id r, committed s !! id = Some r -> past change_transaction_id (cursor_xid c) (cursor_id c) r = true.

(** C17: However transactions that write merchants overlap, commit and abort, and whenever the consumer
    reads a page of any size, every merchant as it is committed is either as the consumer saw it or
    still past its cursor: no change slips behind the cursor. *)
Theorem feed_misses_no_change s c s' c' id r :
  feed_start s c -> rtc feed_step (s, c) (s', c') -> committed s' !! id = Some r ->
  view c' !! id = Some r \/ past change_transaction_id (cursor_xid c') (cursor_id c') r = true.
Proof.
  intros (Hx & Hc & Hp) Hsteps Hr.
  assert (feed_inv (s', c')) as (_ & _ & Hm); [|destruct (Hm _ _ Hr); auto].
  assert (feed_inv (s, c)) as H0 by (split_and!; [done..|]; intros i a Ha; left; by eapply Hp).
  clear Hx Hc Hp Hr. revert H0. induction Hsteps; eauto using feed_step_inv.
Qed.

(** ** Catching up *)

Lemma filter_fewer {A} (p q : A -> bool) l x :
  (forall a, a ∈ l -> q a = true -> p a = true) -> x ∈ l -> p x = true -> q x = false ->
  (List.length (List.filter q l) < List.length (List.filter p l))%nat.
Proof.
  intros Hpq Hx Hp Hq. induction l as [|a l IH]; [by apply not_elem_of_nil in Hx|].
  assert (forall l, (forall a, a ∈ l -> q a = true -> p a = true) ->
    (List.length (List.filter q l) <= List.length (List.filter p l))%nat) as Hle.
  { clear. intros l. induction l as [|a l IH]; intros H; cbn; [lia|]. pose proof (H a ltac:(by left)) as Ha.
    specialize (IH ltac:(intros b Hb; apply H; by right)). destruct (q a); [rewrite Ha by done; cbn; lia|].
    destruct (p a); cbn; lia. }
  apply elem_of_cons in Hx as [<-|Hx]; cbn.
  - rewrite Hp, Hq. cbn. specialize (Hle l ltac:(intros b Hb; apply Hpq; by right)). lia.
  - specialize (IH ltac:(intros b Hb; apply Hpq; by right) Hx). pose proof (Hpq a ltac:(by left)) as Ha.
    destruct (q a); [rewrite Ha by done; cbn; lia|]. destruct (p a); cbn; lia.
Qed.

(** The rows still past the cursor. *)
Definition behind (s : FeedDb) (c : Consumer) : nat :=
  List.length (List.filter (past change_transaction_id (cursor_xid c) (cursor_id c)) (committed_rows s)).

Fixpoint polls (n : nat) (limit : Z) (s : FeedDb) (c : Consumer) : Consumer :=
  match n with O => c | S n' => polls n' limit s (poll limit s c) end.

Section CatchUp.
Context (limit : Z) (s : FeedDb) (Hlimit : 0 < limit) (Hidle : running s = ∅).

Lemma settled_idle c r : xids_ok s -> committed s !! feed_id r = Some r ->
  settled (cursor_xid c) (cursor_id c) s r = past change_transaction_id (cursor_xid c) (cursor_id c) r.
Proof. intros (_ & _ & Hx) Hr. unfold settled. rewrite xmin_idle by done. specialize (Hx _ _ Hr). by assert ((change_transaction_id r <? next_xid s) = true) as -> by lia. Qed.

Lemma poll_progress c : feed_inv (s, c) -> behind s c = O \/ (behind s (poll limit s c) < behind s c)%nat.
Proof.
  intros Hinv. pose proof (committed_keyed s c Hinv) as Hk. pose proof Hinv as (Hx & _ & _). cbn in Hx.
  set (select := settled (cursor_xid c) (cursor_id c) s).
  destruct (first_rows_split change_transaction_id select limit s Hlimit) as (rest & Hsplit & _ & Hne).
  set (page := (first_rows change_transaction_id select limit s).1) in *.
  destruct (last page) as [r|] eqn:Hlast.
  - right. unfold poll, page_after. fold select page. rewrite Hlast. unfold behind. cbn [cursor_xid cursor_id].
    assert (r ∈ page) as Hr by (by apply last_Some_elem_of).
    assert (committed s !! feed_id r = Some r /\ select r = true) as [Hcr Hsr].
    { apply (selected_elem change_transaction_id select s Hk). rewrite Hsplit. apply elem_of_app. by left. }
    unfold select in Hsr. rewrite settled_idle in Hsr by done.
    apply (filter_fewer _ _ _ r); [|by apply committed_rows_elem|done|unfold past; lia].
    intros a _ Ha. unfold past in *. unfold past in Hsr. lia.
  - left. apply last_None in Hlast. unfold behind.
    destruct (List.filter _ (committed_rows s)) as [|a l] eqn:E; [done|]. exfalso. apply Hne; [|done].
    assert (In a (List.filter (past change_transaction_id (cursor_xid c) (cursor_id c)) (committed_rows s))) as Ha by (rewrite E; by left).
    apply filter_In in Ha as [Ha Hp]. apply list_elem_of_In, committed_rows_elem in Ha; [|done]. intros Hn.
    assert (a ∈ selected change_transaction_id select s) as Hin.
    { apply selected_elem; [done|]. split; [done|]. unfold select. by rewrite settled_idle. }
    rewrite Hn in Hin. by apply not_elem_of_nil in Hin.
Qed.

Lemma polls_inv n c : feed_inv (s, c) -> feed_inv (s, polls n limit s c).
Proof. revert c. induction n as [|n IH]; intros c Hc; [done|]. cbn. by apply IH, poll_inv. Qed.

Lemma polls_progress n c : feed_inv (s, c) -> (behind s c <= n)%nat -> behind s (polls n limit s c) = O.
Proof.
  revert c. induction n as [|n IH]; intros c Hc Hn; cbn; [lia|]. apply IH; [by apply poll_inv|].
  destruct (poll_progress c Hc) as [H|H]; [|lia].
  assert (poll limit s c = c \/ (behind s (poll limit s c) <= n)%nat) as [->|]; [|lia|done].
  left. unfold poll. destruct (last _) as [r|] eqn:Hlast; [|done]. exfalso.
  assert (r ∈ (page_after (cursor_xid c) (cursor_id c) limit s).1) as Hr by (by apply last_Some_elem_of).
  pose proof (committed_keyed s c Hc) as Hk. pose proof Hc as (Hx & _ & _). cbn in Hx.
  destruct (first_rows_split change_transaction_id (settled (cursor_xid c) (cursor_id c) s) limit s Hlimit) as (rest & Hsplit & _ & _).
  assert (committed s !! feed_id r = Some r /\ settled (cursor_xid c) (cursor_id c) s r = true) as [Hcr Hsr].
  { apply (selected_elem change_transaction_id _ s Hk). rewrite Hsplit. apply elem_of_app. by left. }
  rewrite settled_idle in Hsr by done. unfold behind in H. apply length_zero_iff_nil in H.
  assert (In r (List.filter (past change_transaction_id (cursor_xid c) (cursor_id c)) (committed_rows s))) as Hin.
  { apply filter_In. split; [|done]. by apply list_elem_of_In, committed_rows_elem. }
  by rewrite H in Hin.
Qed.
End CatchUp.

(** C18: Once no transaction is open, a consumer that keeps reading pages of any size has, after at most
    as many pages as there are merchants, every merchant exactly as it is committed. *)
Theorem feed_catches_up s c s' c' limit n :
  feed_start s c -> rtc feed_step (s, c) (s', c') -> running s' = ∅ -> 0 < limit ->
  (size (committed s') <= n)%nat ->
  forall id r, committed s' !! id = Some r -> view (polls n limit s' c') !! id = Some r.
Proof.
  intros (Hx & Hc & Hp) Hsteps Hidle Hl Hn id r Hr.
  assert (feed_inv (s', c')) as Hinv.
  { assert (feed_inv (s, c)) as H0 by (split_and!; [done..|]; intros i a Ha; left; by eapply Hp).
    clear - Hsteps H0. revert H0. induction Hsteps; eauto using feed_step_inv. }
  pose proof (polls_inv limit s' Hl n c' Hinv) as Hend. destruct (Hend) as (_ & _ & Hm).
  destruct (Hm id r Hr) as [Hpast|Hv]; [|done]. exfalso.
  assert (behind s' (polls n limit s' c') = O) as Hb.
  { apply polls_progress; [done..|]. unfold behind. etrans; [apply filter_length_le|].
    unfold committed_rows. rewrite length_map, length_map_to_list. done. }
  unfold behind in Hb. apply length_zero_iff_nil in Hb.
  assert (In r (List.filter (past change_transaction_id (cursor_xid (polls n limit s' c')) (cursor_id (polls n limit s' c'))) (committed_rows s'))) as Hin.
  { apply filter_In. split; [|exact Hpast]. pose proof (committed_keyed s' c' Hinv) as Hk.
    apply list_elem_of_In, committed_rows_elem; [done|]. by rewrite (Hk _ _ Hr). }
  by rewrite Hb in Hin.
Qed.

(** ** The merchants from before the feed *)

(** The migration's INSERT ... SELECT, run in the transaction [x]: every stored merchant, with the time of
    its last change, is entered under [x]. *)
Definition copied (x : Z) (stored : gmap Z (MerchantEntity * Z)) : gmap Z FeedRow := (fun '(m, t) => mkFeedRow m t x) <$> stored.

(** The database once that transaction has committed. *)
Definition feed_introduced (x : Z) (stored : gmap Z (MerchantEntity * Z)) (s : FeedDb) : FeedDb :=
  mkFeedDb (copied x stored) (delete x (running s)) (next_xid s).

(** A consumer without a cursor may start on a feed that was just introduced: it has every merchant of the
    database before it. No other transaction has written a merchant, since the trigger's creation waits for
    those that have. *)
Lemma introduced_feed_starts x stored s :
  (forall id m t, stored !! id = Some (m, t) -> merchant_id m = id) ->
  (forall y writes, running s !! y = Some writes -> 0 < y < next_xid s /\ writes = ∅) -> is_Some (running s !! x) ->
  feed_start (feed_introduced x stored s) (mkConsumer 0 0 ∅) /\
  forall id m t, stored !! id = Some (m, t) <-> committed (feed_introduced x stored s) !! id = Some (mkFeedRow m t x).
Proof.
  intros Hkey Hopen [w Hx]. destruct (Hopen _ _ Hx) as [Hx0 _].
  assert (forall id r, copied x stored !! id = Some r -> feed_id r = id /\ change_transaction_id r = x) as Hrow.
  { intros id r. unfold copied. rewrite lookup_fmap, fmap_Some. intros ([m t] & Hs & ->). split; [by eapply Hkey|done]. }
  assert (forall y writes, delete x (running s) !! y = Some writes -> 0 < y < next_xid s /\ writes = ∅) as Hrest.
  { intros y writes [_ Hy]%lookup_delete_Some. eauto. }
  split; [split; [|split; [split; [cbn; lia|]|]]|].
  - split; [|split].
    + intros y writes Hy. destruct (Hrest _ _ Hy) as [Hlt ->]. split_and!; [cbn; lia|..]; intros id r; by rewrite lookup_empty.
    + intros id r Hr. by apply Hrow.
    + intros id r Hr. destruct (Hrow _ _ Hr) as [_ ->]. cbn. lia.
  - intros y writes Hy. cbn. destruct (Hrest _ _ Hy). lia.
  - intros id r Hr. destruct (Hrow _ _ Hr) as [_ E]. unfold past. cbn. rewrite E. apply orb_true_iff. left. lia.
  - intros id m t. cbn. unfold copied. rewrite lookup_fmap, fmap_Some. split; [intros Hs; by exists (m, t)|].
    intros ([m' t'] & Hs & E). by simplify_eq.
Qed.

(** ** On a concrete feed *)

Module Witness.

Definition merchant (id : Z) (name : string) : MerchantEntity :=
  mkMerchant id id name name None "" "" m_verified None "" "" "" None None None.
Definition empty_feed : FeedDb := mkFeedDb ∅ ∅ 1.
Definition newcomer : Consumer := mkConsumer 0 0 ∅.

(** Transaction 1 writes first and commits last. *)
Definition begun (s : FeedDb) : FeedDb := mkFeedDb (committed s) (<[next_xid s := ∅]> (running s)) (next_xid s + 1).
Definition writing (x : Z) (m : MerchantEntity) (now : Z) (s : FeedDb) : FeedDb :=
  mkFeedDb (committed s) (<[x := <[merchant_id m := mkFeedRow m now x]> (default ∅ (running s !! x))]> (running s)) (next_xid s).
Definition committing (x : Z) (s : FeedDb) : FeedDb :=
  mkFeedDb (default ∅ (running s !! x) ∪ committed s) (delete x (running s)) (next_xid s).

Definition s1 := writing 1 (merchant 1 "one") 100 (begun empty_feed).
Definition s2 := committing 2 (writing 2 (merchant 2 "two") 200 (begun s1)).
Definition c2 := poll 10 s2 newcomer.
Definition s3 := committing 1 s2.
Definition c3 := poll 1 s3 c2.

Lemma newcomer_starts : feed_start empty_feed newcomer.
Proof.
  split; [|split; [split; [done|]|]].
  - split; [|split]; [intros x writes|intros id r|intros id r]; cbn; rewrite lookup_empty; done.
  - intros x writes. cbn. by rewrite lookup_empty.
  - intros id r. cbn. by rewrite lookup_empty.
Defined.

Lemma overlapping : rtc feed_step (empty_feed, newcomer) (s3, c3).
Proof.
  eapply rtc_l; [apply feed_write, begin_transaction|].
  eapply rtc_l; [apply feed_write, (write_merchant _ 1 ∅ (merchant 1 "one") 100); [reflexivity|]|].
  { intros y other H Hne. cbn [running] in H. apply lookup_insert_Some in H as [[<- _]|[_ H]]; [done|]. cbn in H. by rewrite lookup_empty in H. }
  eapply rtc_l; [apply feed_write, begin_transaction|].
  eapply rtc_l; [apply feed_write, (write_merchant _ 2 ∅ (merchant 2 "two") 200); [reflexivity|]|].
  { intros y other H Hne. cbn [running next_xid] in H. apply lookup_insert_Some in H as [[<- _]|[_ H]]; [done|].
    apply lookup_insert_Some in H as [[_ <-]|[_ H]]; [done|]. cbn in H.
    apply lookup_insert_Some in H as [[_ <-]|[_ H]]; [done|]. by rewrite lookup_empty in H. }
  eapply rtc_l; [apply feed_write, (commit_transaction _ 2 {[2 := mkFeedRow (merchant 2 "two") 200 2]}); reflexivity|].
  eapply rtc_l; [apply (feed_poll 10); lia|].
  eapply rtc_l; [apply feed_write, (commit_transaction _ 1 {[1 := mkFeedRow (merchant 1 "one") 100 1]}); reflexivity|].
  eapply rtc_l; [apply (feed_poll 1); lia|]. apply rtc_refl.
Defined.

(** The first read delivers nothing, since transaction 1 is open; the second delivers merchant 1. *)
Lemma feed_misses_no_change_witness :
  view c2 = ∅ /\ view c3 !! 1 = Some (mkFeedRow (merchant 1 "one") 100 1) /\
  (view c3 !! 2 = Some (mkFeedRow (merchant 2 "two") 200 2) \/
   past change_transaction_id (cursor_xid c3) (cursor_id c3) (mkFeedRow (merchant 2 "two") 200 2) = true).
Proof.
  split; [vm_compute; reflexivity|]. split; [vm_compute; reflexivity|].
  apply (feed_misses_no_change empty_feed newcomer s3 c3 2); [apply newcomer_starts|apply overlapping|vm_compute; reflexivity].
Defined.

Lemma feed_catches_up_witness :
  view (polls 2 1 s3 c3) !! 2 = Some (mkFeedRow (merchant 2 "two") 200 2).
Proof.
  apply (feed_catches_up empty_feed newcomer s3 c3 1 2); [apply newcomer_starts|apply overlapping|vm_compute; reflexivity|lia| |vm_compute; reflexivity].
  vm_compute. lia.
Defined.

(** The merchants of before the feed are delivered to whoever starts from the beginning. *)
Definition introduced := feed_introduced 1 {[1 := (merchant 1 "one", 50); 2 := (merchant 2 "two", 60)]} (begun empty_feed).
Example introduced_feed_delivers :
  map change_merchant (changes (findChangedAfter 0 0 10 introduced)) = [merchant 1 "one"; merchant 2 "two"] /\
  view (poll 10 introduced newcomer) = committed introduced.
Proof. split; vm_compute; reflexivity. Qed.

(** A cursor by time would have been moved to 200 by merchant 2 and never gone back to merchant 1. *)
Example a_time_cursor_misses :
  map (fun ch => merchant_id (change_merchant ch)) (changes (findChangedSince None 0 10 s2)) = [2] /\
  changes (findChangedSince (Some 200) 2 10 s3) = [].
Proof. split; vm_compute; reflexivity. Qed.
End Witness.
