(* ===== verification/Grpc.v ===== *)
(** * The gRPC service

    Models src/src/adapters/controllers/identity_grpc.controller.ts and the mappers it uses
    (src/src/adapters/mappers: principal_kind, merchant_status, proto_timestamp,
    proto_transaction_id), over the feed's interface [MerchantFeedPort], which Feed.v implements.

    An [RpcException] is a value of [rpc]; any other exception is thrown. A read that outlasts
    [withTimeout] is a read whose answer is lost: one of the failures every database call may have.

    Main results: a token is reported as valid only when it verifies, is not revoked and its principal
    exists, and as invalid only when it was refused, never because the database failed; the cursor a
    page returns brings the next page right after its last merchant; timestamps and transaction ids
    survive their encodings. *)

From S2P Require Import Prelude JsString Dates Domain Store Sample Keys Tokens Sessions Accounts Auth Handlers SignIn Login SecondFactor Records Geocoding Profiles Fleet Couriers Sellers Feed.
From Stdlib Require Import QArith_base.

Local Open Scope string_scope.
Local Open Scope Z_scope.

(** ** Mappers *)

Definition kind_name (k : PrincipalKind) : string :=
  match k with
  | PRINCIPAL_KIND_UNSPECIFIED => "PRINCIPAL_KIND_UNSPECIFIED" | PRINCIPAL_KIND_CUSTOMER => "PRINCIPAL_KIND_CUSTOMER"
  | PRINCIPAL_KIND_MERCHANT => "PRINCIPAL_KIND_MERCHANT" | PRINCIPAL_KIND_DRIVER => "PRINCIPAL_KIND_DRIVER"
  | PRINCIPAL_KIND_STAFF => "PRINCIPAL_KIND_STAFF" | PRINCIPAL_KIND_SERVICE => "PRINCIPAL_KIND_SERVICE"
  end.
Definition PRINCIPAL_KINDS : list PrincipalKind :=
  [PRINCIPAL_KIND_UNSPECIFIED; PRINCIPAL_KIND_CUSTOMER; PRINCIPAL_KIND_MERCHANT; PRINCIPAL_KIND_DRIVER; PRINCIPAL_KIND_STAFF;
   PRINCIPAL_KIND_SERVICE].
Definition principalKindOf (value : string) : PrincipalKind :=
  default PRINCIPAL_KIND_UNSPECIFIED (List.find (fun k => bool_decide (kind_name k = value)) PRINCIPAL_KINDS).

(** The column holds the name of the kind: reading it back gives the kind. *)
Lemma principalKindOf_name k : principalKindOf (kind_name k) = k.
Proof. by destruct k. Qed.

Inductive MerchantStatus :=
| MERCHANT_STATUS_UNSPECIFIED | MERCHANT_STATUS_PENDING | MERCHANT_STATUS_VERIFIED | MERCHANT_STATUS_SUSPENDED
| MERCHANT_STATUS_CLOSED.
Definition merchantStatusOf (status : string) : MerchantStatus :=
  if bool_decide (status = "pending") then MERCHANT_STATUS_PENDING
  else if bool_decide (status = "verified") then MERCHANT_STATUS_VERIFIED
  else if bool_decide (status = "suspended") then MERCHANT_STATUS_SUSPENDED
  else if bool_decide (status = "closed") then MERCHANT_STATUS_CLOSED
  else MERCHANT_STATUS_UNSPECIFIED.

Record ProtoTimestamp := mkTimestamp { seconds : Z; nanos : Z }.
Definition toProtoTimestamp (ms : Z) : ProtoTimestamp :=
  let s := ms / 1000 in mkTimestamp s ((ms - s * 1000) * 1000000).

(** What arrives: each field may be missing; the seconds come as text that may not be a number. *)
Record ProtoTimestampInput := mkTimestampInput { input_seconds : option string; input_nanos : option Z }.
Definition fromProtoTimestamp (value : option ProtoTimestampInput) : option Z :=
  match value with
  | None => None
  | Some v =>
      match input_seconds v with
      | None => None
      | Some raw => (fun s => s * 1000 + default 0 (input_nanos v) / 1000000) <$> Number raw
      end
  end.

Definition MAX_XID8 : Z := 18446744073709551615.
Definition fromProtoTransactionId (value : option string) : res exn (option Z) :=
  match value with
  | None => Ok None
  | Some text =>
      let invalid := Err (PlainError ("transaction_id " ++ text ++ " is not an unsigned 64-bit integer")) in
      if negb (all_digits 1 20 text) then invalid
      else match digits_value 0 (str_list text) with
           | Some n => if MAX_XID8 <? n then invalid else Ok (Some n)
           | None => invalid
           end
  end.

(** ** Requests and replies *)

Record ServiceLocalIdInput := mkServiceLocalId { input_service : option string; local_id : option string; localId : option string }.
Record ResolvePrincipalResponse := mkResolved { found_principal : bool; resolved_id : string; resolved_kind : PrincipalKind; resolved_name : string }.
Record GetPrincipalResponse := mkPrincipalReply { gp_principal : ResolvePrincipalResponse; gp_aliases : list (string * string) }.
Record GetUserProfileResponse := mkProfileReply {
  up_found : bool; up_principal_id : string; up_email : string; up_full_name : string; up_phone_number : string;
  up_street_address : string; up_city : string; up_postal_code : string; up_kind : PrincipalKind; up_location : option (Q * Q)
}.
Record GetMerchantInfoResponse := mkMerchantReply {
  mi_found : bool; mi_principal_id : string; mi_store_name : string; mi_brn : string; mi_tax_id : string;
  mi_status : MerchantStatus; mi_address : string * string * string; mi_location : option (Q * Q); mi_may_sell : bool
}.
Record MerchantCursorInput := mkCursorInput {
  updated_through : option ProtoTimestampInput; last_principal_id : option string; transaction_id : option string
}.
Record MerchantCursorView := mkCursorView {
  next_updated_through : option ProtoTimestamp; next_principal_id : string; next_transaction_id : option string
}.
Record MerchantRecordView := mkRecordView {
  rec_principal_id : string; rec_store_name : string; rec_status : MerchantStatus; rec_may_sell : bool; rec_updated_at : ProtoTimestamp
}.
Record MerchantsChangedSinceResponse := mkChangedReply {
  upserted : list MerchantRecordView; removed_principal_ids : list string; next : MerchantCursorView; has_more : bool
}.
Record ValidateTokenResponse := mkValidation { valid_token : bool; vt_principal_id : string; vt_kind : PrincipalKind; vt_reason : string }.

Inductive rpc (A : Type) := Reply (a : A) | RpcException (code : Z) (message : string).
Arguments Reply {A}. Arguments RpcException {A}.
Definition UNAVAILABLE : Z := 14.

Definition no_principal : ResolvePrincipalResponse := mkResolved false "" PRINCIPAL_KIND_UNSPECIFIED "".
Definition empty_profile : GetUserProfileResponse :=
  mkProfileReply false "" "" "" "" "" "" "" PRINCIPAL_KIND_UNSPECIFIED None.
Definition empty_merchant : GetMerchantInfoResponse :=
  mkMerchantReply false "" "" "" "" MERCHANT_STATUS_UNSPECIFIED ("", "", "") None false.

Definition MERCHANT_PAGE_DEFAULT : Z := 100.
Definition MERCHANT_PAGE_MAX : Z := 500.
Definition merchantPageLimitOf (requested : option Z) : Z :=
  match requested with
  | None => MERCHANT_PAGE_DEFAULT
  | Some n => if n <=? 0 then MERCHANT_PAGE_DEFAULT else Z.min n MERCHANT_PAGE_MAX
  end.

Definition latestOf (cs : list MerchantChange) : Z :=
  match cs with
  | [] => 0
  | c :: _ => fold_left (fun latest ch => if latest <? change_updatedAt ch then change_updatedAt ch else latest) cs (change_updatedAt c)
  end.

(** What the controller asks of the merchants' repository. *)
Class MerchantFeedPort := {
  feed_changed_since : option Z -> Z -> Z -> M MerchantChangePage;
  feed_changed_after : Z -> Z -> Z -> M MerchantChangePage;
  since_keeps_tables : forall t l n R, PreOrder R -> guar (on_db R) (feed_changed_since t l n);
  after_keeps_tables : forall t l n R, PreOrder R -> guar (on_db R) (feed_changed_after t l n)
}.

(** The adapter over the feed's tables as they are when the query runs. *)
#[export] Instance MerchantFeedAdapter {P : Platform} (feed_of : World -> FeedDb) : MerchantFeedPort := {|
  feed_changed_since t l n := query (fun w => findChangedSince t l n (feed_of w));
  feed_changed_after t l n := query (fun w => findChangedAfter t l n (feed_of w));
  since_keeps_tables t l n R HR := guar_query R _;
  after_keeps_tables t l n R HR := guar_query R _
|}.

Section Controller.
Context {P : Platform} {F : MerchantFeedPort} (cfg : TokenConfig P).
Local Open Scope prog_scope.

Definition resolvePrincipal (serviceLocalId service_local_id : option ServiceLocalIdInput) : M ResolvePrincipalResponse :=
  let key := match serviceLocalId with Some k => Some k | None => service_local_id end in
  let service := default "" (key ≫= input_service) in
  let id := default "" (match key ≫= localId with Some l => Some l | None => key ≫= local_id end) in
  if bool_decide (service = "") || bool_decide (id = "") then Ret no_principal
  else
    alias <- query (fun w =>
      match principal_aliases (db w) !! (service, id) with
      | Some p => option_map (fun row => (p, row)) (principals (db w) !! p)
      | None => None
      end) ;;
    match alias with
    | None => Ret no_principal
    | Some (p, row) => Ret (mkResolved true p (principalKindOf (kind_name (kind row))) (default "" (principal_displayName row)))
    end.

Definition getPrincipal (principalId : string) : M GetPrincipalResponse :=
  if bool_decide (principalId = "") then Ret (mkPrincipalReply no_principal [])
  else
    found <- query (fun w => principals (db w) !! principalId) ;;
    match found with
    | None => Ret (mkPrincipalReply no_principal [])
    | Some row =>
        aliases <- query (fun w =>
          map fst (List.filter (fun '(_, p) => bool_decide (p = principalId)) (map_to_list (principal_aliases (db w))))) ;;
        Ret (mkPrincipalReply
          (mkResolved true principalId (principalKindOf (kind_name (kind row))) (default "" (principal_displayName row))) aliases)
    end.

(** [unavailable] *)
Definition unavailable {A} (method principalId : string) (error : exn) : M (rpc A) :=
  emit (LogLine None (method ++ " for " ++ (if bool_decide (principalId = "") then "a token" else principalId) ++
    " could not be answered: " ++ exn_message error)) ;;;
  Ret (RpcException UNAVAILABLE ("identity could not read what " ++ method ++ " asks for; nothing is known either way")).

Definition location_of (lat lon : option Q) : option (Q * Q) :=
  match lat, lon with Some a, Some b => Some (a, b) | _, _ => None end.

Definition getUserProfile (principalId : string) : M (rpc GetUserProfileResponse) :=
  if bool_decide (principalId = "") then Ret (Reply empty_profile)
  else
    catch (
      alias <- query (fun w => match local_id_of "identity" principalId (db w) with
        | Some l => option_map (fun row => (l, row)) (principals (db w) !! principalId)
        | None => None
        end) ;;
      match alias with
      | None => Ret (Reply empty_profile)
      | Some (l, principal) =>
          (* an id that is no number finds no account *)
          user <- match Number l with Some userId => findById userId | None => Ret None end ;;
          match user, Number l with
          | Some user, Some userId =>
              profile <- catch (p <- getProfile userId ;; Ret (Some p)) (fun error =>
                match error with HttpException NotFound _ _ => Ret None | _ => Throw error end) ;;
              let field (f : ProfileEntity -> string) := match profile with Some p => f p | None => "" end in
              Ret (Reply (mkProfileReply true principalId (user_email user) (field fullName) (field phoneNumber)
                (field profile_streetAddress) (field profile_city) (field profile_postalCode)
                (principalKindOf (kind_name (kind principal)))
                (profile ≫= fun p => location_of (profile_latitude p) (profile_longitude p))))
          | _, _ => Ret (Reply empty_profile)
          end
      end) (unavailable "GetUserProfile" principalId).

Definition getMerchantInfo (principalId : string) : M (rpc GetMerchantInfoResponse) :=
  if bool_decide (principalId = "") then Ret (Reply empty_merchant)
  else
    catch (
      alias <- query (fun w => local_id_of MERCHANT_ALIAS_SERVICE principalId (db w)) ;;
      match alias with
      | None => Ret (Reply empty_merchant)
      | Some l =>
          merchant <- match Number l with Some id => findMerchantById id | None => Ret None end ;;
          match merchant with
          | None => Ret (Reply empty_merchant)
          | Some m =>
              Ret (Reply (mkMerchantReply true principalId (merchant_storeName m) (merchant_businessRegistrationNumber m)
                (merchant_taxId m) (merchantStatusOf (merchant_state_name (merchant_status m)))
                (merchant_streetAddress m, merchant_city m, merchant_postalCode m)
                (location_of (merchant_latitude m) (merchant_longitude m)) (maySell (merchant_state_name (merchant_status m)))))
          end
      end) (unavailable "GetMerchantInfo" principalId).

(** An unknown principal, or none, is the row before the first. *)
Definition merchantIdOf (principalId : string) : M Z :=
  if bool_decide (principalId = "") then Ret 0
  else
    alias <- query (fun w => local_id_of MERCHANT_ALIAS_SERVICE principalId (db w)) ;;
    Ret (default 0 (alias ≫= Number)).

Definition principalIdsOf (merchantIds : list Z) : M (Z -> option string) :=
  match merchantIds with
  | [] => Ret (fun _ => None)
  | _ => query (fun w id =>
      if bool_decide (id ∈ merchantIds) then principal_aliases (db w) !! (MERCHANT_ALIAS_SERVICE, String_of id) else None)
  end.

(** An empty string is falsy. *)
Definition record_view (principalIds : Z -> option string) (c : MerchantChange) : res exn MerchantRecordView :=
  let m := change_merchant c in
  match principalIds (merchant_id m) with
  | Some p =>
      if bool_decide (p = "")
      then Err (PlainError ("merchant " ++ String_of (merchant_id m) ++ " has no " ++ MERCHANT_ALIAS_SERVICE ++
             " alias, so it has no principal to report"))
      else Ok (mkRecordView p (merchant_storeName m) (merchantStatusOf (merchant_state_name (merchant_status m)))
             (maySell (merchant_state_name (merchant_status m))) (toProtoTimestamp (change_updatedAt c)))
  | None => Err (PlainError ("merchant " ++ String_of (merchant_id m) ++ " has no " ++ MERCHANT_ALIAS_SERVICE ++
      " alias, so it has no principal to report"))
  end.
Fixpoint record_views (principalIds : Z -> option string) (cs : list MerchantChange) : res exn (list MerchantRecordView) :=
  match cs with
  | [] => Ok []
  | c :: cs' => res_bind (record_view principalIds c) (fun v => res_bind (record_views principalIds cs') (fun vs => Ok (v :: vs)))
  end.

Definition merchantsChangedSince (cursor : option MerchantCursorInput) (requested : option Z)
    : M (rpc MerchantsChangedSinceResponse) :=
  let updatedThrough := fromProtoTimestamp (cursor ≫= updated_through) in
  let lastPrincipalId := default "" (cursor ≫= last_principal_id) in
  match fromProtoTransactionId (cursor ≫= transaction_id) with
  | Err cause => Ret (RpcException INVALID_ARGUMENT (exn_message cause))
  | Ok transactionId =>
      let limit := merchantPageLimitOf requested in
      lastId <- merchantIdOf lastPrincipalId ;;
      page <- match transactionId with
              | None => feed_changed_since updatedThrough lastId limit
              | Some t => feed_changed_after t lastId limit
              end ;;
      principalIds <- principalIdsOf (map (fun c => merchant_id (change_merchant c)) (changes page)) ;;
      views <- of_res (record_views principalIds (changes page)) ;;
      let through := match last (changes page) with
        | Some c => Some (toProtoTimestamp (match transactionId with None => change_updatedAt c | Some _ => latestOf (changes page) end))
        | None => toProtoTimestamp <$> updatedThrough
        end in
      let principal := match last views with Some v => rec_principal_id v | None => lastPrincipalId end in
      let transaction := (fun t => String_of (default t (lastTransactionId page))) <$> transactionId in
      Ret (Reply (mkChangedReply views [] (mkCursorView through principal transaction) (hasMore page)))
  end.

Definition invalid_token (reason : string) : ValidateTokenResponse := mkValidation false "" PRINCIPAL_KIND_UNSPECIFIED reason.

Definition validateToken (token : string) : M (rpc ValidateTokenResponse) :=
  if bool_decide (token = "") then Ret (Reply (invalid_token "no token supplied"))
  else
    checked <- catch (c <- verifyAccess cfg token ;; Ret (inl c)) (fun error =>
      if isUnauthorized error then Ret (inr (Reply (invalid_token "invalid token")))
      else r <- unavailable "ValidateToken" "" error ;; Ret (inr r)) ;;
    match checked with
    | inr answer => Ret answer
    | inl claims =>
        found <- query (fun w => principals (db w) !! sub claims) ;;
        match found with
        | None => Ret (Reply (invalid_token "unknown principal"))
        | Some row => Ret (Reply (mkValidation true (sub claims) (principalKindOf (kind_name (kind row))) ""))
        end
    end.
End Controller.

(** ** Encodings *)

Lemma timestamp_roundtrip ms :
  0 <= ms ->
  fromProtoTimestamp (Some (mkTimestampInput (Some (String_of (seconds (toProtoTimestamp ms)))) (Some (nanos (toProtoTimestamp ms))))) = Some ms.
Proof.
  intros Hms. unfold fromProtoTimestamp, toProtoTimestamp. cbn [input_seconds input_nanos seconds nanos default option_fmap].
  rewrite Number_String_of by (apply Z.div_pos; lia). cbn. f_equal. rewrite Z.div_mul by lia. lia.
Qed.

Lemma pretty_length k n s : (n < 10 ^ N.of_nat k)%N -> (String.length (pretty.pretty_N_go n s) <= k + String.length s)%nat.
Proof.
  revert n s. induction k as [|k IH]; intros n s Hn; destruct (N.eq_0_gt_0_cases n) as [->|Hp]; try (rewrite pretty.pretty_N_go_0; lia).
  - cbn in Hn. lia.
  - rewrite pretty.pretty_N_go_step by done. etrans; [apply IH|cbn; lia].
    apply N.Div0.div_lt_upper_bound. rewrite Nat2N.inj_succ, N.pow_succ_r' in Hn. lia.
Qed.

Lemma transaction_id_roundtrip x : 0 <= x <= MAX_XID8 -> fromProtoTransactionId (Some (String_of x)) = Ok (Some x).
Proof.
  intros Hx. unfold fromProtoTransactionId. destruct (Z.eq_dec x 0) as [->|Hne]; [reflexivity|].
  destruct (String_of_all_digits x ltac:(lia)) as [Hd Hl].
  assert (digits_value 0 (str_list (String_of x)) = Some x) as ->.
  { destruct x as [|p|p]; [lia| |lia]. change (String_of (Zpos p)) with (pretty.pretty_N_go (Npos p) "").
    by rewrite digits_value_pretty_go. }
  assert (all_digits 1 20 (String_of x) = true) as ->.
  { unfold all_digits. rewrite Hd. cbn [andb]. apply andb_true_iff. split; apply Nat.leb_le.
    - rewrite <- str_list_length. destruct (str_list (String_of x)); [done|cbn; lia].
    - destruct x as [|p|p]; [lia| |lia]. change (String_of (Zpos p)) with (pretty.pretty_N_go (Npos p) "").
      etrans; [apply (pretty_length 20)|cbn; lia]. unfold MAX_XID8 in Hx. cbn. lia. }
  cbn [negb]. assert ((MAX_XID8 <? x) = false) as -> by lia. done.
Qed.

(** ** Tokens *)

Section Validation.
Context {P : Platform} (cfg : TokenConfig P).

(** What a validation answers, and why. *)
Definition validation_explained (token : string) (w : World) (r : res exn (rpc ValidateTokenResponse)) : Prop :=
  let checked := (run (verifyAccess cfg token) w).1 in
  match r with
  | Ok (Reply v) =>
      if valid_token v then
        exists c row, verified cfg token (node_ms w) c /\ token_use c = "access" /\
          revoked_access_tokens (db w) !! jti c = None /\ vt_principal_id v = sub c /\
          principals (db w) !! sub c = Some row /\ vt_kind v = kind row
      else token = "" \/ (exists e, checked = Err e /\ isUnauthorized e = true) \/
           (exists c, checked = Ok c /\ principals (db w) !! sub c = None)
  | Ok (RpcException code _) => code = UNAVAILABLE /\ exists e, checked = Err e /\ isUnauthorized e = false
  | Err e => e = ConnectionLost
  end.

(** C19: [ValidateToken] reports a token as valid only when it verifies now as an access token, is not
    revoked and names a principal there is, whose kind it reports; as invalid only when there was no
    token, the token was refused or its principal does not exist. When the database cannot be asked
    it answers neither: the call fails. *)
Theorem validation_never_guesses token w :
  validation_explained token w (run (validateToken cfg token) w).1.
Proof.
  unfold validateToken. case_bool_decide as Ht; [by left|]. rewrite run_bind, run_catch, run_bind. unfold validation_explained.
  destruct (run (verifyAccess cfg token) w) as [[c|e] w1] eqn:Ev.
  - destruct (run_verifyAccess _ _ _ _ _ Ev) as (Hv & Hu & Hr & Hd). cbn -[verified principalKindOf kind_name].
    destruct (db_fault (db_calls w1)); cbn -[verified principalKindOf kind_name]; rewrite ?Hd; [|done..].
    destruct (principals (db w) !! sub c) as [row|] eqn:Ep; cbn -[verified principalKindOf kind_name]; rewrite ?principalKindOf_name; [by eexists c, row|].
    right. right. by exists c.
  - cbn [fst snd]. destruct (isUnauthorized e) eqn:Eu; cbn; [right; left|split; [done|]]; by exists e.
Qed.
End Validation.

(** ** Cursors *)

Section Cursor.
Context {P : Platform}.

(** A principal has at most one merchant. *)
Definition merchants_apart (d : Db) : Prop :=
  forall l l' p, principal_aliases d !! (MERCHANT_ALIAS_SERVICE, l) = Some p ->
    principal_aliases d !! (MERCHANT_ALIAS_SERVICE, l') = Some p -> l = l'.

Lemma local_id_of_alias service l p d :
  (forall l', principal_aliases d !! (service, l') = Some p -> l' = l) ->
  principal_aliases d !! (service, l) = Some p -> local_id_of service p d = Some l.
Proof.
  intros Huniq Hl. unfold local_id_of. destruct (List.filter _ _) as [|[key q] rest] eqn:E.
  - exfalso. assert (In ((service, l), p) []) as []. rewrite <- E. apply filter_In. split.
    + by apply list_elem_of_In, elem_of_map_to_list.
    + cbn. by rewrite !bool_decide_eq_true_2.
  - assert (In (key, q) ((key, q) :: rest)) as Hin by (by left). rewrite <- E in Hin. apply filter_In in Hin as [Hin Hc].
    apply list_elem_of_In, elem_of_map_to_list in Hin. apply andb_true_iff in Hc as [Hs Hq].
    apply bool_decide_eq_true in Hs, Hq. subst q. destruct key as [s l']. cbn in *. subst s. f_equal. by apply Huniq.
Qed.

Context (Hrel : reliable).

Lemma run_merchantIdOf p id w :
  p <> "" -> merchants_apart (db w) -> 0 <= id ->
  principal_aliases (db w) !! (MERCHANT_ALIAS_SERVICE, String_of id) = Some p -> (run (merchantIdOf p) w).1 = Ok id.
Proof.
  intros Hp Hone Hid Ha. unfold merchantIdOf. rewrite bool_decide_eq_false_2 by done. rewrite run_bind, (run_query_rel Hrel).
  cbn [db count_call]. rewrite (local_id_of_alias _ (String_of id)) by (by eauto). cbn [fst run]. cbn. by rewrite Number_String_of.
Qed.

Lemma record_views_last ids cs views :
  record_views ids cs = Ok views ->
  List.length views = List.length cs /\
  match last cs, last views with
  | Some c, Some v => ids (merchant_id (change_merchant c)) = Some (rec_principal_id v) /\ rec_principal_id v <> ""
  | None, None => True
  | _, _ => False
  end.
Proof.
  revert views. induction cs as [|c cs IH]; intros views; cbn; [by intros [= <-]|].
  destruct (record_view ids c) as [v|e] eqn:Ev; [|done]. destruct (record_views ids cs) as [vs|e]; [|done].
  cbn. intros [= <-]. destruct (IH vs eq_refl) as [Hlen Hlast]. cbn. split; [by rewrite Hlen|].
  destruct cs as [|c' cs]; destruct vs as [|v' vs]; try done.
  unfold record_view in Ev. destruct (ids (merchant_id (change_merchant c))) as [p|] eqn:Ei; [|done].
  destruct (bool_decide (p = "")) eqn:Eb; [done|]. apply bool_decide_eq_false in Eb. injection Ev as <-. by split.
Qed.

(** What the answer of a page by transaction carries, for the page the feed gave. *)
Definition page_answered (page : list FeedRow) (more : bool) (t : Z) (lastPrincipal : string)
    (resp : MerchantsChangedSinceResponse) (w' : World) : Prop :=
  has_more resp = more /\ List.length (upserted resp) = List.length page /\
  match last page with
  | Some r =>
      fromProtoTransactionId (next_transaction_id (next resp)) = Ok (Some (change_transaction_id r)) /\
      (run (merchantIdOf (next_principal_id (next resp))) w').1 = Ok (feed_id r)
  | None =>
      fromProtoTransactionId (next_transaction_id (next resp)) = Ok (Some t) /\ next_principal_id (next resp) = lastPrincipal
  end.

(** A page of changed merchants read by transaction answers a cursor that, sent back, is read as
    the transaction and the id of the page's last merchant (as the cursor sent, when nothing
    changed): the encoding of the cursor by principal and decimal text loses nothing, so a caller
    that sends each cursor back walks the feed page by page. *)
Theorem merchant_cursor_resumes feed cursor requested t lastId page more w resp w' :
  fromProtoTransactionId (transaction_id cursor) = Ok (Some t) -> 0 <= t <= MAX_XID8 ->
  (run (merchantIdOf (default "" (last_principal_id cursor))) w).1 = Ok lastId ->
  page_after t lastId (merchantPageLimitOf requested) feed = (page, more) ->
  Forall (fun r => 0 <= change_transaction_id r <= MAX_XID8 /\ 0 <= feed_id r) page -> merchants_apart (db w) ->
  run (@merchantsChangedSince P (MerchantFeedAdapter (fun _ => feed)) (Some cursor) requested) w = (Ok (Reply resp), w') ->
  page_answered page more t (default "" (last_principal_id cursor)) resp w'.
Proof.
  intros Ht Htb Hlast Hpage Hids Hone. unfold merchantsChangedSince. cbn [mbind option_bind]. rewrite Ht. cbv zeta.
  rewrite run_bind. destruct (run (merchantIdOf _) w) as [r w1] eqn:Em. cbn [fst] in Hlast. subst r.
  assert (db w1 = db w) as Hd1.
  { assert (guar (on_db eq) (merchantIdOf (default "" (last_principal_id cursor)))) as Hg by (unfold merchantIdOf; guar_auto).
    apply (guar_run (on_db eq) _ w _ _) in Hg. by rewrite Em in Hg. }
  rewrite run_bind. cbn [feed_changed_after MerchantFeedAdapter]. rewrite (run_query_rel Hrel). cbn beta iota.
  unfold findChangedAfter. rewrite Hpage. cbn [changes hasMore lastTransactionId].
  rewrite run_bind. set (cs := map changeOf page).
  assert (exists w2 ids, db w2 = db w /\
    (forall id, id ∈ map (fun c => merchant_id (change_merchant c)) cs -> ids id = principal_aliases (db w) !! (MERCHANT_ALIAS_SERVICE, String_of id)) /\
    run (principalIdsOf (map (fun c => merchant_id (change_merchant c)) cs)) (count_call w1) = (Ok ids, w2)) as (w2 & ids & Hd2 & Hids2 & ->).
  { unfold principalIdsOf. destruct (map _ cs) as [|i l] eqn:E; [eexists _, _; split; [|split; [|reflexivity]]; [exact Hd1|]|].
    - intros id H. by apply not_elem_of_nil in H.
    - rewrite (run_query_rel Hrel). eexists _, _. split; [|split; [|reflexivity]]; [exact Hd1|]. cbn beta. intros id Hid.
      rewrite bool_decide_eq_true_2 by done. cbn [db count_call]. by rewrite Hd1. }
  rewrite run_bind, run_of_res. destruct (record_views ids cs) as [views|e] eqn:Ev; [|done].
  destruct (record_views_last _ _ _ Ev) as [Hlen Hl]. intros [= <- <-]. unfold page_answered. cbn [has_more upserted next].
  split; [done|]. split; [by rewrite Hlen; unfold cs; rewrite length_map|].
  cbn [next_transaction_id next_principal_id fmap option_fmap option_map default].
  unfold cs in Hl. rewrite fmap_last in Hl.
  destruct (last page) as [r|] eqn:Hr; cbn [fmap option_fmap option_map] in Hl; destruct (last views) as [v|]; try done.
  - assert (r ∈ page) as Hin by (by apply last_Some_elem_of). rewrite Forall_forall in Hids. destruct (Hids r Hin) as [Hx Hi].
    split; [by apply transaction_id_roundtrip|]. destruct Hl as [Hl Hne].
    apply run_merchantIdOf; [done|by rewrite Hd2|done|]. rewrite Hd2, <- Hids2; [exact Hl|].
    apply list_elem_of_In, in_map_iff. exists (changeOf r). split; [done|]. apply in_map. by apply list_elem_of_In.
  - split; [by apply transaction_id_roundtrip|done].
Qed.
End Cursor.

(** ** On a concrete service *)

Module Witness.

Abbreviation seller := Sellers.Witness.approve.
Abbreviation filed := Sellers.Witness.filed.
Abbreviation provider := Geocoding.Witness.sample_provider.
Definition approved_seller : World := (seller 1 filed).2.
Definition feed : FeedDb := Feed.Witness.s3.
Definition from_start : MerchantCursorInput := mkCursorInput None None (Some "0").
Definition answered := run (@merchantsChangedSince sample_platform (@MerchantFeedAdapter sample_platform (fun _ => feed)) (Some from_start) (Some 1)) approved_seller.
Definition reply : MerchantsChangedSinceResponse :=
  match answered.1 with Ok (Reply r) => r | _ => mkChangedReply [] [] (mkCursorView None "" None) false end.

Lemma approved_aliases :
  principal_aliases (db approved_seller) = {[(MERCHANT_ALIAS_SERVICE, "1") := "uuid-0"; ("identity", "1") := "uuid-0"]}.
Proof. apply (bool_decide_unpack _). vm_compute. exact I. Qed.

Lemma merchant_cursor_resumes_witness :
  has_more reply = true /\
  @page_answered sample_platform [mkFeedRow (Feed.Witness.merchant 1 "one") 100 1] true 0 "" reply answered.2.
Proof.
  split; [vm_compute; reflexivity|].
  apply (@merchant_cursor_resumes sample_platform Login.Witness.reliable_sample feed from_start (Some 1) 0 0
    [mkFeedRow (Feed.Witness.merchant 1 "one") 100 1] true approved_seller reply answered.2).
  - reflexivity.
  - unfold MAX_XID8. lia.
  - reflexivity.
  - vm_compute. reflexivity.
  - constructor; [|constructor]. cbn. unfold MAX_XID8, feed_id. cbn. lia.
  - intros l l' p. rewrite approved_aliases. rewrite !lookup_insert_Some, !lookup_singleton_Some. naive_solver.
  - vm_compute. reflexivity.
Defined.

(** An approval that loses its database after storing the merchant leaves a merchant without an
    alias, and every page of the feed that holds it fails, until the approval is repeated. *)
Definition cut_at (k : nat) : Platform := sample (fun n => if Nat.eqb n k then LostBefore else NoFault).
Definition interrupted := run (@approveVerification (cut_at 15) provider 1) filed.
Definition its_feed : FeedDb := mkFeedDb ((fun m => mkFeedRow m 300 1) <$> merchants (db interrupted.2)) ∅ 2.

Lemma interrupted_approval_blocks_feed :
  interrupted.1 = Err ConnectionLost /\
  let ask requested := (run (@merchantsChangedSince sample_platform (@MerchantFeedAdapter sample_platform (fun _ => its_feed))
    (Some from_start) requested) interrupted.2).1 in
  ask None = Err (PlainError "merchant 1 has no identity-merchant alias, so it has no principal to report").
Proof. split; vm_compute; reflexivity. Qed.
End Witness.
