(* ===== verification/Validation.v ===== *)
(** * What a request's body and query may hold

    Models the input classes of src/src/application/dto: for each field, when it is checked and by
    which checks, with the checks of the class-validator package as the type [Check]. The global
    pipe of src/src/infrastructure/http/http_pipeline.ts is [validate]: it refuses a field that the
    class does not declare and a field that fails a check, and hands the object on otherwise. The
    tests of an email address, a URL, a UUID and an ISO 8601 date are that package's
    ([ValidatorLibrary]); a body that is no JSON object reaches the pipe as an empty one.

    Main results: [validate] accepts an object exactly when every field meets its checks and none
    is undeclared; what each reader hands to its handler obeys the bounds the class declares. *)

From S2P Require Import Prelude JsString Domain Store Dates Sellers Couriers Profiles.
From Stdlib Require Import Ascii String.

Local Open Scope string_scope.
Local Open Scope Z_scope.

(** ** Values *)

(** A number is a whole one, or any other ([NaN] among them). *)
Inductive Json :=
| JNull
| JBool (b : bool)
| JNumber (n : option Z)
| JString (s : string)
| JArray (values : list Json)
| JObject (fields : list (string * Json)).

Definition JsonObject := list (string * Json).
Definition member (name : string) (o : JsonObject) : option Json :=
  match List.find (fun '(k, _) => String.eqb k name) o with Some (_, v) => Some v | None => None end.

Class ValidatorLibrary := {
  isEmail : string -> bool;
  isHttpsUrl : string -> bool;
  isUUID : string -> bool;
  isISO8601 : string -> bool
}.

(** ** Checks *)

Inductive Check :=
| IsString | IsNotEmpty | IsEmail | IsUrl | IsUUID | IsISO8601 | IsObject | IsInt
| MinLength (n : Z) | MaxLength (n : Z) | IsByteLength (lo hi : Z) | Matches (pattern : string -> bool)
| Min (n : Z) | Max (n : Z) | IsIn (values : list string).

(** The bytes of the UTF-8 encoding. *)
Definition byte_length (s : string) : Z :=
  fold_right (fun c n => (if code c <? 128 then 1 else 2) + n) 0 (str_list s).

Section Checks.
Context {V : ValidatorLibrary}.

Definition on_string (test : string -> bool) (v : option Json) : bool :=
  match v with Some (JString s) => test s | _ => false end.
Definition on_integer (test : Z -> bool) (v : option Json) : bool :=
  match v with Some (JNumber (Some n)) => test n | _ => false end.

Definition passes (c : Check) (v : option Json) : bool :=
  match c with
  | IsString => on_string (fun _ => true) v
  | IsNotEmpty =>
      match v with None | Some JNull => false | Some (JString s) => negb (String.eqb s "") | _ => true end
  | IsEmail => on_string isEmail v
  | IsUrl => on_string isHttpsUrl v
  | IsUUID => on_string isUUID v
  | IsISO8601 => on_string isISO8601 v
  | IsObject => match v with Some (JObject _) => true | _ => false end
  | IsInt => on_integer (fun _ => true) v
  | MinLength n => on_string (fun s => n <=? str_length s) v
  | MaxLength n => on_string (fun s => str_length s <=? n) v
  | IsByteLength lo hi => on_string (fun s => (lo <=? byte_length s) && (byte_length s <=? hi)) v
  | Matches pattern => on_string pattern v
  | Min n => on_integer (fun z => n <=? z) v
  | Max n => on_integer (fun z => z <=? n) v
  | IsIn values => on_string (fun s => existsb (String.eqb s) values) v
  end.

(** When a field is checked: always, when it is sent ([ValidateIf(isSent)]), or when it is sent and
    not null ([IsOptional]). *)
Inductive When := Always | WhenSent | WhenGiven.

Definition checked (c : When) (v : option Json) : bool :=
  match c, v with
  | Always, _ => true
  | _, None => false
  | WhenGiven, Some JNull => false
  | _, Some _ => true
  end.

Record Field := mkField { f_name : string; f_when : When; f_transform : Json -> Json; f_checks : list Check }.
Definition Schema := list Field.

Definition decimalInteger (value : Json) : Json :=
  match value with
  | JString s => if all_digits 1 10 s then JNumber (Number s) else JNumber None
  | _ => value
  end.

Definition field (name : string) (w : When) (checks : list Check) : Field := mkField name w id checks.

(** [@Transform]: the field's transformation is applied to the value before it is checked. *)
Definition transformed (schema : Schema) (o : JsonObject) : JsonObject :=
  map (fun '(k, v) =>
    (k, match List.find (fun f => String.eqb (f_name f) k) schema with Some f => f_transform f v | None => v end)) o.

Definition field_ok (o : JsonObject) (f : Field) : bool :=
  let v := member (f_name f) o in
  negb (checked (f_when f) v) || forallb (fun c => passes c v) (f_checks f).

Definition declared (schema : Schema) (k : string) : bool := existsb (fun f => String.eqb (f_name f) k) schema.

(** [ValidationPipe({ whitelist, forbidNonWhitelisted, transform })]. The texts of the failed
    checks, which the reply lists, are left out. *)
Definition validate (schema : Schema) (body : JsonObject) : res exn JsonObject :=
  let o := transformed schema body in
  if forallb (fun '(k, _) => declared schema k) o && forallb (field_ok o) schema
  then Ok o else Err (HttpException BadRequest None "Bad Request Exception").

(** ** The classes *)

Definition six_digits (s : string) : bool := all_digits 6 6 (trim s).
Definition phone_number (s : string) : bool :=
  match s with
  | String "+" rest => all_digits 8 15 rest
  | _ => all_digits 8 15 s
  end.
Definition not_blank (s : string) : bool := existsb (fun c => negb (is_space c)) (str_list s).

Definition LONGEST_PASSKEY_NAME : Z := 64.

Definition LoginInputDto : Schema :=
  [field "email" Always [IsEmail; IsNotEmpty; MaxLength 254];
   field "password" Always [IsString; IsNotEmpty; MinLength 6; MaxLength 1024]].
Definition RegisterUserInputDto : Schema :=
  [field "email" Always [IsEmail; IsNotEmpty; MaxLength 254];
   field "password" Always [IsString; IsNotEmpty; MinLength 12; IsByteLength 0 72]].
Definition TwoFactorVerifyInputDto : Schema :=
  [field "challengeToken" Always [IsString; IsNotEmpty; MaxLength 4096];
   field "code" Always [IsString; IsNotEmpty; Matches six_digits]].
Definition RefreshInputDto : Schema := [field "refreshToken" Always [IsString; IsNotEmpty; MaxLength 4096]].
Definition LogoutInputDto : Schema := [field "refreshToken" WhenSent [IsString; IsNotEmpty; MaxLength 4096]].
Definition TwoFactorSetupInputDto : Schema := [field "password" WhenSent [IsString; IsNotEmpty; MaxLength 1024]].
Definition TwoFactorEnableInputDto : Schema :=
  [field "code" Always [IsString; IsNotEmpty; Matches six_digits];
   field "password" WhenSent [IsString; IsNotEmpty; MaxLength 1024]].
Definition TwoFactorDisableInputDto : Schema :=
  [field "code" Always [IsString; IsNotEmpty; Matches six_digits];
   field "password" Always [IsString; IsNotEmpty; MaxLength 1024]].
Definition PasskeyOptionsInputDto : Schema := [field "challengeToken" Always [IsString; IsNotEmpty; MaxLength 4096]].
Definition PasskeyVerifyInputDto : Schema :=
  [field "challengeToken" Always [IsString; IsNotEmpty; MaxLength 4096]; field "credential" Always [IsObject]].
Definition PasskeyRegistrationOptionsInputDto : Schema := [field "password" Always [IsString; IsNotEmpty; MaxLength 1024]].
Definition PasskeyRemovalInputDto : Schema := [field "password" Always [IsString; IsNotEmpty; MaxLength 1024]].
Definition PasskeyRegistrationInputDto : Schema :=
  [field "challengeId" Always [IsUUID];
   field "name" Always [IsString; Matches not_blank; MaxLength LONGEST_PASSKEY_NAME];
   field "credential" Always [IsObject]].
Definition UpdateProfileInput : Schema :=
  [field "fullName" WhenSent [IsString; MaxLength 120];
   field "phoneNumber" WhenSent [IsString; Matches phone_number];
   field "streetAddress" WhenSent [IsString; MaxLength 255];
   field "city" WhenSent [IsString; MaxLength 100];
   field "postalCode" WhenSent [IsString; MaxLength 16];
   field "avatarUrl" WhenGiven [IsUrl; MaxLength 2048]].
Definition OnboardSellerInput : Schema :=
  [field "storeName" Always [IsString; IsNotEmpty; MaxLength 120];
   field "businessRegistrationNumber" Always [IsString; IsNotEmpty; MaxLength 64];
   field "taxId" Always [IsString; IsNotEmpty; MaxLength 32];
   field "streetAddress" Always [IsString; IsNotEmpty; MaxLength 255];
   field "city" Always [IsString; IsNotEmpty; MaxLength 100];
   field "postalCode" Always [IsString; IsNotEmpty; MaxLength 16]].
Definition RegisterCourierInput : Schema :=
  [field "email" Always [IsEmail; IsNotEmpty; MaxLength 254];
   field "password" Always [IsString; IsNotEmpty; MinLength 12; IsByteLength 0 72];
   field "fullName" Always [IsString; IsNotEmpty; MinLength 2; MaxLength 120];
   field "phoneNumber" Always [IsString; Matches phone_number];
   field "vehiclePlate" Always [IsString; IsNotEmpty; MaxLength 20];
   field "capacityKg" Always [IsInt; Min 1; Max 5000]].
Definition page_fields (statuses : list string) : Schema :=
  [field "status" WhenGiven [IsIn statuses];
   mkField "limit" WhenGiven decimalInteger [IsInt; Min 1; Max 200];
   mkField "after" WhenGiven decimalInteger [IsInt; Min 0; Max 2147483647]].
Definition ListSellerApplicationsQueryDto : Schema := page_fields ["pending"; "verified"; "rejected"].
Definition ListCourierApplicationsQueryDto : Schema := page_fields ["pending"; "approved"; "rejected"].
Definition ApplicationTallyQueryDto : Schema :=
  [field "since" Always [IsString; IsNotEmpty; Matches instant_with_offset; IsISO8601]].

(** ** What the handlers are given *)

Definition text (name : string) (o : JsonObject) : string := match member name o with Some (JString s) => s | _ => "" end.
Definition sent_text (name : string) (o : JsonObject) : option string :=
  match member name o with Some (JString s) => Some s | _ => None end.
Definition integer (name : string) (o : JsonObject) : option Z :=
  match member name o with Some (JNumber n) => n | _ => None end.
Definition object (name : string) (o : JsonObject) : JsonObject :=
  match member name o with Some (JObject fields) => fields | _ => [] end.

Definition reading {A} (schema : Schema) (f : JsonObject -> A) (body : JsonObject) : res exn A :=
  res_bind (validate schema body) (fun o => Ok (f o)).

Definition read_login : JsonObject -> res exn (string * string) := reading LoginInputDto (fun o => (text "email" o, text "password" o)).
Definition read_registration : JsonObject -> res exn (string * string) :=
  reading RegisterUserInputDto (fun o => (text "email" o, text "password" o)).
Definition read_profile : JsonObject -> res exn UpdateProfileInputDto :=
  reading UpdateProfileInput (fun o =>
    mkUpdateProfile (sent_text "fullName" o) (sent_text "phoneNumber" o) (sent_text "streetAddress" o) (sent_text "city" o)
      (sent_text "postalCode" o)
      (match member "avatarUrl" o with Some (JString s) => Some (Some s) | Some JNull => Some None | _ => None end)).
Definition read_seller : JsonObject -> res exn OnboardSellerInputDto :=
  reading OnboardSellerInput (fun o =>
    mkOnboardSeller (text "storeName" o) (text "businessRegistrationNumber" o) (text "taxId" o) (text "streetAddress" o)
      (text "city" o) (text "postalCode" o)).
Definition read_courier : JsonObject -> res exn RegisterCourierInputDto :=
  reading RegisterCourierInput (fun o =>
    mkRegisterCourier (text "email" o) (text "password" o) (text "fullName" o) (text "phoneNumber" o) (text "vehiclePlate" o)
      (default 0 (integer "capacityKg" o))).

(** src/src/adapters/mappers/application_query.mapper.ts *)
Definition APPLICATION_PAGE_SIZE : Z := 50.
Definition applicationQueryOf {S} (status_of : string -> option S) (o : JsonObject) : ApplicationQuery S :=
  mkApplicationQuery (match sent_text "status" o with Some s => status_of s | None => None end)
    (default 0 (integer "after" o)) (default APPLICATION_PAGE_SIZE (integer "limit" o)).

Definition seller_status_of (s : string) : option SellerApplicationStatus :=
  List.find (fun x => String.eqb (seller_status_name x) s) [s_pending; s_verified; s_rejected].
Definition courier_status_of (s : string) : option CourierApplicationStatus :=
  List.find (fun x => String.eqb (courier_status_name x) s) [c_pending; c_approved; c_rejected].

Definition read_seller_page : JsonObject -> res exn (ApplicationQuery SellerApplicationStatus) :=
  reading ListSellerApplicationsQueryDto (applicationQueryOf seller_status_of).
Definition read_courier_page : JsonObject -> res exn (ApplicationQuery CourierApplicationStatus) :=
  reading ListCourierApplicationsQueryDto (applicationQueryOf courier_status_of).
Definition read_since : JsonObject -> res exn Z :=
  reading ApplicationTallyQueryDto (fun o => default 0 (Date_parse (text "since" o))).

(** ** What acceptance tells *)

Lemma validate_Ok schema body o :
  validate schema body = Ok o ->
  o = transformed schema body /\ (forall k v, (k, v) ∈ o -> declared schema k = true) /\
  (forall f, f ∈ schema -> field_ok o f = true).
Proof.
  unfold validate. cbv zeta. destruct (forallb _ _ && _) eqn:E; [|done]. intros [= <-].
  apply andb_true_iff in E as [Hd Hf]. rewrite forallb_forall in Hd, Hf. split; [done|]. split.
  - intros k v H%list_elem_of_In. exact (Hd _ H).
  - intros f H%list_elem_of_In. exact (Hf _ H).
Qed.

Lemma reading_Ok {A} schema (f : JsonObject -> A) body a :
  reading schema f body = Ok a -> exists o, validate schema body = Ok o /\ a = f o.
Proof. unfold reading. destruct (validate schema body) as [o|] eqn:E; cbn; [|done]. intros [= <-]. eauto. Qed.

(** A field that is checked passes each of its checks. *)
Lemma check_at schema body o i j f c :
  validate schema body = Ok o -> schema !! i = Some f -> f_checks f !! j = Some c ->
  checked (f_when f) (member (f_name f) o) = true -> passes c (member (f_name f) o) = true.
Proof.
  intros (_ & _ & Hok)%validate_Ok Hf Hc Hch. specialize (Hok f (list_elem_of_lookup_2 _ _ _ Hf)).
  unfold field_ok in Hok. rewrite Hch in Hok. cbn in Hok. rewrite forallb_forall in Hok.
  by apply Hok, list_elem_of_In, (list_elem_of_lookup_2 _ j).
Qed.

Lemma passes_string test v : on_string test v = true -> exists s, v = Some (JString s) /\ test s = true.
Proof. destruct v as [[]|]; try done. eauto. Qed.
Lemma passes_integer test v : on_integer test v = true -> exists n, v = Some (JNumber (Some n)) /\ test n = true.
Proof. destruct v as [[| |[n|]| | |]|]; try done. eauto. Qed.

(** The text of a required field, with what a check on texts says of it. *)
Lemma required_text schema body o i j f c test :
  validate schema body = Ok o -> schema !! i = Some f -> f_checks f !! j = Some c -> f_when f = Always ->
  (forall v, passes c v = on_string test v) -> test (text (f_name f) o) = true.
Proof.
  intros H Hf Hc Hw Ht. pose proof (check_at _ _ _ _ _ _ _ H Hf Hc) as K. rewrite Hw in K. specialize (K eq_refl).
  rewrite Ht in K. apply passes_string in K as (s & Hs & K). unfold text. by rewrite Hs.
Qed.

(** An integer that may be left out, with its default. *)
Lemma given_integer schema body o i j f c test d :
  validate schema body = Ok o -> schema !! i = Some f -> f_checks f !! j = Some c -> f_when f = WhenGiven ->
  (forall v, passes c v = on_integer test v) -> test d = true -> test (default d (integer (f_name f) o)) = true.
Proof.
  intros H Hf Hc Hw Ht Hd. pose proof (check_at _ _ _ _ _ _ _ H Hf Hc) as K. rewrite Hw in K. unfold integer.
  destruct (member (f_name f) o) as [v|] eqn:Em; [|exact Hd].
  destruct (checked WhenGiven (Some v)) eqn:Ec; [|by destruct v].
  specialize (K eq_refl). rewrite Ht in K. apply passes_integer in K as (n & [= ->] & K). exact K.
Qed.

(** The text of a required field that may not be empty. *)
Lemma required_nonempty schema body o i f :
  validate schema body = Ok o -> schema !! i = Some f -> f_checks f !! 0%nat = Some IsString ->
  f_checks f !! 1%nat = Some IsNotEmpty -> f_when f = Always -> text (f_name f) o <> "".
Proof.
  intros H Hf Hs Hn Hw. pose proof (check_at _ _ _ _ _ _ _ H Hf Hs) as K1. pose proof (check_at _ _ _ _ _ _ _ H Hf Hn) as K2.
  rewrite Hw in K1, K2. specialize (K1 eq_refl). specialize (K2 eq_refl). apply passes_string in K1 as (s & Hv & _).
  unfold text. rewrite Hv in K2 |- *. cbn in K2. by apply negb_true_iff, String.eqb_neq in K2.
Qed.

(** A text that may be left out: when it is sent, it passes the checks on texts. *)
Lemma sent_text_checked schema body o i j f c test s :
  validate schema body = Ok o -> schema !! i = Some f -> f_checks f !! j = Some c -> f_when f <> Always ->
  (forall v, passes c v = on_string test v) -> sent_text (f_name f) o = Some s -> test s = true.
Proof.
  intros H Hf Hc Hw Ht Hs. pose proof (check_at _ _ _ _ _ _ _ H Hf Hc) as K. unfold sent_text in Hs.
  destruct (member (f_name f) o) as [[]|]; try done. injection Hs as ->. rewrite Ht in K. apply K. by destruct (f_when f).
Qed.

(** *** The bounds of each class *)

Definition registration_bounded (email password : string) : Prop :=
  isEmail email = true /\ str_length email <= 254 /\ 12 <= str_length password /\ byte_length password <= 72.

Definition named_within (longest : Z) (s : string) : Prop := s <> "" /\ str_length s <= longest.

Definition courier_bounded (dto : RegisterCourierInputDto) : Prop :=
  registration_bounded (rc_email dto) (rc_password dto) /\ 2 <= str_length (rc_fullName dto) <= 120 /\
  phone_number (rc_phoneNumber dto) = true /\ named_within 20 (rc_vehiclePlate dto) /\ 1 <= rc_capacityKg dto <= 5000.

Definition seller_bounded (dto : OnboardSellerInputDto) : Prop :=
  named_within 120 (os_storeName dto) /\ named_within 64 (os_businessRegistrationNumber dto) /\ named_within 32 (os_taxId dto) /\
  named_within 255 (os_streetAddress dto) /\ named_within 100 (os_city dto) /\ named_within 16 (os_postalCode dto).

Definition profile_bounded (dto : UpdateProfileInputDto) : Prop :=
  (forall s, dto_fullName dto = Some s -> str_length s <= 120) /\
  (forall s, dto_phoneNumber dto = Some s -> phone_number s = true) /\
  (forall s, dto_streetAddress dto = Some s -> str_length s <= 255) /\
  (forall s, dto_city dto = Some s -> str_length s <= 100) /\
  (forall s, dto_postalCode dto = Some s -> str_length s <= 16) /\
  (forall s, dto_avatarUrl dto = Some (Some s) -> isHttpsUrl s = true /\ str_length s <= 2048).

(** What a check of a required text says of the text handed on. *)
Ltac required H i j :=
  let i := eval compute in (Z.to_nat i) in let j := eval compute in (Z.to_nat j) in let K := fresh "K" in
  pose proof (required_text _ _ _ i j _ _ _ H eq_refl eq_refl eq_refl (fun _ => eq_refl)) as K;
  cbn [f_name field] in K; cbv beta in K; try apply Z.leb_le in K.
Ltac nonempty H i :=
  let i := eval compute in (Z.to_nat i) in let K := fresh "K" in
  pose proof (required_nonempty _ _ _ i _ H eq_refl eq_refl eq_refl eq_refl) as K; cbn [f_name field] in K.

Lemma read_registration_bounds body e p : read_registration body = Ok (e, p) -> registration_bounded e p.
Proof.
  intros (o & H & [= -> ->])%reading_Ok. required H 0 0. required H 0 2. required H 1 2. required H 1 3.
  apply andb_true_iff in K2 as [_ K2%Z.leb_le]. done.
Qed.

Lemma read_login_bounds body e p :
  read_login body = Ok (e, p) -> isEmail e = true /\ str_length e <= 254 /\ 6 <= str_length p <= 1024.
Proof.
  intros (o & H & [= -> ->])%reading_Ok. required H 0 0. required H 0 2. required H 1 2. required H 1 3. done.
Qed.

Lemma read_courier_bounds body dto : read_courier body = Ok dto -> courier_bounded dto.
Proof.
  intros (o & H & ->)%reading_Ok. unfold courier_bounded, registration_bounded, named_within.
  required H 0 0. required H 0 2. required H 1 2. required H 1 3. apply andb_true_iff in K2 as [_ K2%Z.leb_le].
  required H 2 2. required H 2 3. required H 3 1. required H 4 2. nonempty H 4.
  pose proof (check_at _ _ _ 5 1 _ _ H eq_refl eq_refl eq_refl) as N1.
  pose proof (check_at _ _ _ 5 2 _ _ H eq_refl eq_refl eq_refl) as N2. cbn [f_name field passes] in N1, N2.
  apply passes_integer in N1 as (n & Hn & N1%Z.leb_le). rewrite Hn in N2. cbn in N2. apply Z.leb_le in N2.
  cbn [rc_email rc_password rc_fullName rc_phoneNumber rc_vehiclePlate rc_capacityKg]. unfold integer. rewrite Hn. done.
Qed.

Lemma read_seller_bounds body dto : read_seller body = Ok dto -> seller_bounded dto.
Proof.
  intros (o & H & ->)%reading_Ok. unfold seller_bounded, named_within.
  nonempty H 0. required H 0 2. nonempty H 1. required H 1 2. nonempty H 2. required H 2 2.
  nonempty H 3. required H 3 2. nonempty H 4. required H 4 2. nonempty H 5. required H 5 2. done.
Qed.

Lemma read_profile_bounds body dto : read_profile body = Ok dto -> profile_bounded dto.
Proof.
  intros (o & H & ->)%reading_Ok. unfold profile_bounded.
  cbn [dto_fullName dto_phoneNumber dto_streetAddress dto_city dto_postalCode dto_avatarUrl].
  assert (forall i j f c test s, UpdateProfileInput !! i = Some f -> f_checks f !! j = Some c ->
    (forall v, passes c v = on_string test v) -> sent_text (f_name f) o = Some s -> test s = true) as Hs.
  { intros i j f c test s Hf Hc. apply (sent_text_checked _ _ _ i j f c test s H Hf Hc).
    do 6 (destruct i as [|i]; [by injection Hf as <-|]). done. }
  split_and!; [intros s Hv; apply Z.leb_le, (Hs 0%nat 1%nat _ _ (fun s => str_length s <=? 120) s eq_refl eq_refl (fun _ => eq_refl) Hv)
    |intros s Hv; apply (Hs 1%nat 1%nat _ _ phone_number s eq_refl eq_refl (fun _ => eq_refl) Hv)
    |intros s Hv; apply Z.leb_le, (Hs 2%nat 1%nat _ _ (fun s => str_length s <=? 255) s eq_refl eq_refl (fun _ => eq_refl) Hv)
    |intros s Hv; apply Z.leb_le, (Hs 3%nat 1%nat _ _ (fun s => str_length s <=? 100) s eq_refl eq_refl (fun _ => eq_refl) Hv)
    |intros s Hv; apply Z.leb_le, (Hs 4%nat 1%nat _ _ (fun s => str_length s <=? 16) s eq_refl eq_refl (fun _ => eq_refl) Hv)|].
  intros s Hv. assert (sent_text "avatarUrl" o = Some s) as Hv'
    by (unfold sent_text; destruct (member "avatarUrl" o) as [[]|]; by simplify_eq).
  split; [apply (Hs 5%nat 0%nat _ _ isHttpsUrl s eq_refl eq_refl (fun _ => eq_refl) Hv')|].
  apply Z.leb_le, (Hs 5%nat 1%nat _ _ (fun s => str_length s <=? 2048) s eq_refl eq_refl (fun _ => eq_refl) Hv').
Qed.

Lemma page_bounds {S} (status_of : string -> option S) statuses body q :
  reading (page_fields statuses) (applicationQueryOf status_of) body = Ok q ->
  1 <= q_limit q <= 200 /\ 0 <= q_afterId q <= 2147483647.
Proof.
  intros (o & H & ->)%reading_Ok. cbn [applicationQueryOf q_limit q_afterId].
  pose proof (given_integer _ _ _ 1 1 _ _ _ APPLICATION_PAGE_SIZE H eq_refl eq_refl eq_refl (fun _ => eq_refl) eq_refl) as K1.
  pose proof (given_integer _ _ _ 1 2 _ _ _ APPLICATION_PAGE_SIZE H eq_refl eq_refl eq_refl (fun _ => eq_refl) eq_refl) as K2.
  pose proof (given_integer _ _ _ 2 1 _ _ _ 0 H eq_refl eq_refl eq_refl (fun _ => eq_refl) eq_refl) as K3.
  pose proof (given_integer _ _ _ 2 2 _ _ _ 0 H eq_refl eq_refl eq_refl (fun _ => eq_refl) eq_refl) as K4.
  cbn [f_name] in *. cbv beta in *. apply Z.leb_le in K1, K2, K3, K4. done.
Qed.
End Checks.
