(* ===== verification/Guards.v ===== *)
(** * Guards, parameters and the audit of a request

    Models src/src/adapters/guards (the global [JwtAuthGuard], [RolesGuard], [SelfOrStaffGuard] and
    [ClientProofGuard]), src/src/adapters/decorators and
    src/src/adapters/interceptors/admin_audit.interceptor.ts with its mapper. What the decorators of
    a handler set, the record [Route] holds. NestJS's rate limiter and its UUID pipe are parameters:
    they answer, and change no table. *)

From S2P Require Import Prelude JsString Dates Domain Store Sample Keys Totp SignInAttempts Tokens Sessions Accounts Clients PasskeyStore Auth Handlers SignIn.
From Stdlib Require Import Ascii String.

Local Open Scope string_scope.
Local Open Scope Z_scope.

(** ** Requests and routes *)

(** [AuthenticatedRequest]; the method and URL are for the log. *)
Record Request := mkRequest {
  rq_method : string;
  rq_url : string;
  rq_headers : Headers;
  rq_params : string -> option string;
  rq_user : option Claims;
  rq_client : option RequestClient
}.

Definition with_user (c : Claims) (rq : Request) : Request :=
  mkRequest (rq_method rq) (rq_url rq) (rq_headers rq) (rq_params rq) (Some c) (rq_client rq).
Definition with_client (c : RequestClient) (rq : Request) : Request :=
  mkRequest (rq_method rq) (rq_url rq) (rq_headers rq) (rq_params rq) (rq_user rq) (Some c).

Inductive Guard := ThrottlerGuard | ClientProofGuard | RolesGuard | SelfOrStaffGuard.
#[export] Instance Guard_eq_dec : EqDecision Guard.
Proof. solve_decision. Defined.

Record AdminAuditPoint := mkAuditPoint { audit_action : string; audit_targetParam : option string }.
Record AuditedCall := mkAudited { call_action : string; call_actor : string; call_target : string; call_requestId : option string }.

Record Route := mkRoute {
  route_httpCode : Z;
  route_public : bool;
  route_acceptsEnrolment : bool;
  route_roles : list string;
  route_selfParam : option string;
  route_ownerOnly : bool;
  route_guards : list Guard;
  route_limit : option Z;
  route_audit : option AdminAuditPoint
}.

(** ** Decorators *)

Definition REQUEST_ID_HEADER : string := "x-request-id".

Definition requestIdOf (headers : Headers) : option string :=
  let value := match headers REQUEST_ID_HEADER with
               | Some (HeaderOne s) => Some s
               | Some (HeaderMany l) => head l
               | None => None
               end in
  match value with Some s => if bool_decide (s = "") then None else Some s | None => None end.

Definition callContextOf (rq : Request) : CallContext := mkContext (requestIdOf (rq_headers rq)) (rq_client rq).

Definition LARGEST_ACCOUNT_ID : Z := 2147483647.

Definition account_id_text (raw : string) : bool :=
  match str_list raw with
  | c :: rest => is_digit c && negb (Ascii.eqb c "0") && forallb is_digit rest && Nat.leb (List.length rest) 9
  | [] => false
  end.

Definition accountIdOf (raw : option string) : res exn Z :=
  let refused := HttpException BadRequest None ("An account id is a whole number from 1 to " ++ String_of LARGEST_ACCOUNT_ID) in
  match raw with
  | Some raw =>
      match Number raw with
      | Some id => if negb (account_id_text raw) || (LARGEST_ACCOUNT_ID <? id) then Err refused else Ok id
      | None => Err refused
      end
  | None => Err refused
  end.

Definition CurrentSession (rq : Request) : res exn Claims :=
  match rq_user rq with
  | Some c => Ok c
  | None => Err (PlainError "CurrentSession was requested on a route that carries no verified token")
  end.

Definition CurrentUser (rq : Request) : res exn Claims :=
  match rq_user rq with
  | Some c =>
      if bool_decide (token_use c = "access") then Ok c
      else Err (PlainError "CurrentUser was requested on a route that let a two-factor enrolment token through")
  | None => Err (PlainError "CurrentUser was requested on a route that carries no verified token")
  end.

(** ** Guards *)

Definition is_admin (c : Claims) : bool := bool_decide (token_use c = "access") && bool_decide (claims_role c = Some "admin").

(** The token of an [Authorization] header: two words, the first [Bearer] in any case. *)
Definition bearerToken (headers : Headers) : option string :=
  let header := match headers "authorization" with Some h => Some h | None => headers "Authorization" end in
  let raw := match header with
             | Some (HeaderOne s) => s
             | Some (HeaderMany l) => default "" (head l)
             | None => ""
             end in
  match split " " raw with
  | [scheme; token] =>
      if bool_decide (toLowerCase scheme = "bearer") && negb (bool_decide (token = "")) then Some token else None
  | _ => None
  end.

Definition ENROLMENT_ONLY : exn :=
  HttpException Forbidden (Some "TWO_FACTOR_ENROLMENT_ONLY")
    ("This session can only set up two-factor authentication. Enable it, then sign in again to " ++ "reach anything else.").

Section Guards.
Context {P : Platform} (cfg : TokenConfig P) (registry : ClientRegistry) (verifier : option (ClientProofVerifierPort World)).
Context (throttled : Route -> Request -> World -> bool).
Local Open Scope prog_scope.

Definition jwtAuthGuard (route : Route) (rq : Request) : M Request :=
  if route_public route then Ret rq
  else
    match bearerToken (rq_headers rq) with
    | None => Throw (unauthorized "A Bearer token is required")
    | Some token =>
        claims <- verifySession cfg token ;;
        if bool_decide (token_use claims = "mfa_enrolment") && negb (route_acceptsEnrolment route)
        then Throw ENROLMENT_ONLY
        else Ret (with_user claims rq)
    end.

Definition rolesGuard (route : Route) (rq : Request) : M Request :=
  match route_roles route with
  | [] => Ret rq
  | required =>
      let role := match rq_user rq with
                  | Some c => if bool_decide (token_use c = "access") then claims_role c else None
                  | None => None
                  end in
      match role with
      | Some r =>
          if bool_decide (r = "") || negb (bool_decide (r ∈ required))
          then Throw (HttpException Forbidden None "This account does not have access to this resource") else Ret rq
      | None => Throw (HttpException Forbidden None "This account does not have access to this resource")
      end
  end.

Definition selfOrStaffGuard (route : Route) (rq : Request) : M Request :=
  match route_selfParam route with
  | None => Ret rq
  | Some param =>
      match rq_user rq with
      | None => Throw (HttpException Forbidden None "This route requires a verified caller")
      | Some claims =>
          if is_admin claims && negb (route_ownerOnly route) then Ret rq
          else if negb (bool_decide (default "" (rq_params rq param) = String_of (uid claims)))
          then Throw (HttpException Forbidden None "This account may only act on its own resources")
          else Ret rq
      end
  end.

Definition clientProofGuard (rq : Request) : M Request :=
  client <- gate_admit registry verifier (rq_headers rq) (requestIdOf (rq_headers rq)) ;;
  Ret (with_client client rq).

Definition throttlerGuard (route : Route) (rq : Request) : M Request :=
  full <- atom (fun w => (throttled route rq w, w)) ;;
  if full : bool then Throw (HttpException TooManyRequests None "ThrottlerException: Too Many Requests") else Ret rq.

Definition canActivate (g : Guard) (route : Route) (rq : Request) : M Request :=
  match g with
  | ThrottlerGuard => throttlerGuard route rq
  | ClientProofGuard => clientProofGuard rq
  | RolesGuard => rolesGuard route rq
  | SelfOrStaffGuard => selfOrStaffGuard route rq
  end.

Fixpoint run_guards (gs : list Guard) (route : Route) (rq : Request) : M Request :=
  match gs with
  | [] => Ret rq
  | g :: gs => rq' <- canActivate g route rq ;; run_guards gs route rq'
  end.

(** The global guard, then the guards of the class and of the handler. *)
Definition guarded (route : Route) (rq : Request) : M Request :=
  rq' <- jwtAuthGuard route rq ;; run_guards (route_guards route) route rq'.
End Guards.

(** ** The audit *)

Definition adminActionOutcomeOf (e : exn) : string :=
  match e with
  | HttpException s _ _ => if getStatus s <? 500 then "refused" else "failed"
  | RecordConflictError _ | MissingReferenceError _ => "refused"
  | _ => "failed"
  end.

Definition UNNAMED_TARGET : string := "*".

(** What is recorded of a call; [None] where the route is not audited or the caller is no admin. *)
Definition audited_call (route : Route) (rq : Request) : option AuditedCall :=
  match route_audit route, rq_user rq with
  | Some point, Some claims =>
      if is_admin claims then
        Some (mkAudited (audit_action point) (sub claims)
          (match audit_targetParam point with
           | None => UNNAMED_TARGET
           | Some param => default "" (rq_params rq param)
           end) (requestIdOf (rq_headers rq)))
      else None
  | _, _ => None
  end.

Section Audit.
Context {P : Platform}.
Local Open Scope prog_scope.

Definition record_action (call : AuditedCall) (outcome : string) : M unit :=
  emit (MetricAdminAction (call_action call) outcome) ;;;
  emit (LogAdminAction (call_requestId call) (call_actor call) (call_action call) (call_target call) outcome).

Definition audit_intercept {A} (route : Route) (rq : Request) (next : M A) : M A :=
  match audited_call route rq with
  | None => next
  | Some call =>
      catch (a <- next ;; record_action call "done" ;;; Ret a)
        (fun error => record_action call (adminActionOutcomeOf error) ;;; Throw error)
  end.
End Audit.
