(* ===== verification/Routes.v ===== *)
(** * The HTTP controllers

    Models src/src/adapters/controllers/auth.controller.ts, passkey.controller.ts,
    user_profile.controller.ts, seller_onboarding.controller.ts and courier_onboarding.controller.ts:
    every route with what its decorators declare ([route_of]) and what its handler reads from the
    request and calls ([handle]), and the way a request takes through them ([serve]: guards, audit,
    parameters and body, handler; [respond]: the reply, through the filter of Errors.v). *)

From S2P Require Import Prelude JsString Dates Domain Store Sample Keys Totp SignInAttempts Tokens Sessions Accounts Clients PasskeyStore Auth Handlers SignIn Login SecondFactor Passkeys Records Geocoding Profiles Fleet Couriers Sellers Errors Validation Guards.
From Stdlib Require Import Ascii String.

Local Open Scope string_scope.
Local Open Scope Z_scope.

(** ** Calls: a route with the body or query that was sent *)

Inductive Call :=
| AuthLogin (body : JsonObject)
| AuthVerifyTwoFactor (body : JsonObject)
| AuthRegister (body : JsonObject)
| AuthRefresh (body : JsonObject)
| AuthLogout (body : JsonObject)
| AuthMe
| AuthSetupTwoFactor (body : JsonObject)
| AuthEnableTwoFactor (body : JsonObject)
| AuthDisableTwoFactor (body : JsonObject)
| PasskeySignInOptions (body : JsonObject)
| PasskeyVerifySignIn (body : JsonObject)
| PasskeyList
| PasskeyRegistrationOptions (body : JsonObject)
| PasskeyRegister (body : JsonObject)
| PasskeyRemove (body : JsonObject)
| ProfileGet
| ProfileUpdate (body : JsonObject)
| SellerListApplications (query : JsonObject)
| SellerTally (query : JsonObject)
| SellerApplication
| SellerOnboard (body : JsonObject)
| SellerVerify
| SellerReject
| CourierRegister (body : JsonObject)
| CourierListApplications (query : JsonObject)
| CourierTally (query : JsonObject)
| CourierApprove
| CourierReject.

Record CurrentUserView := mkCurrentUser {
  me_principalId : string; me_userId : Z; me_email : option string; me_role : option string; me_expiresAt : string
}.

(** ** Routes *)

Definition limited (n : Z) : option Z := Some n.

(** [@Public] with the rate limiter and the client's proof. *)
Definition public_route (code limit : Z) : Route :=
  mkRoute code true false [] None false [ThrottlerGuard; ClientProofGuard] (limited limit) None.
(** [@OwnerParam("id")] *)
Definition owner_route (code : Z) (enrolment : bool) (limit : option Z) (action : option string) : Route :=
  mkRoute code false enrolment [] (Some "id") true [ThrottlerGuard; SelfOrStaffGuard] limit
    ((fun a => mkAuditPoint a (Some "id")) <$> action).
(** [@SelfParam("id")] *)
Definition self_route (code : Z) (action : string) : Route :=
  mkRoute code false false [] (Some "id") false [SelfOrStaffGuard] None (Some (mkAuditPoint action (Some "id"))).
(** [@Roles("admin")]; the courier's routes are under the rate limiter too. *)
Definition admin_route (code : Z) (limiter : bool) (action : string) (target : option string) : Route :=
  mkRoute code false false ["admin"] None false (if limiter then [ThrottlerGuard; RolesGuard] else [RolesGuard]) None
    (Some (mkAuditPoint action target)).
Definition session_route (code : Z) : Route := mkRoute code false false [] None false [ThrottlerGuard] None None.

(** [AuthController] *)
Definition auth_login_route : Route := public_route 200 5.
Definition auth_verifyTwoFactor_route : Route := public_route 200 5.
Definition auth_register_route : Route := public_route 201 5.
Definition auth_refresh_route : Route := public_route 200 10.
Definition auth_logout_route : Route := session_route 204.
Definition auth_me_route : Route := session_route 200.
Definition auth_setupTwoFactor_route : Route := owner_route 200 true (limited 5) None.
Definition auth_enableTwoFactor_route : Route := owner_route 200 true (limited 5) None.
Definition auth_disableTwoFactor_route : Route := owner_route 200 false (limited 5) None.

(** [PasskeyController] *)
Definition passkey_signInOptions_route : Route := public_route 200 5.
Definition passkey_verifySignIn_route : Route := public_route 200 5.
Definition passkey_list_route : Route := owner_route 200 false None (Some "identity.passkeys_list").
Definition passkey_registrationOptions_route : Route := owner_route 200 false (limited 5) (Some "identity.passkey_options").
Definition passkey_register_route : Route := owner_route 201 false (limited 5) (Some "identity.passkey_add").
Definition passkey_remove_route : Route := owner_route 204 false (limited 5) (Some "identity.passkey_remove").

(** [UserProfileController] *)
Definition profile_getProfile_route : Route := self_route 200 "identity.profile_read".
Definition profile_updateProfile_route : Route := self_route 200 "identity.profile_update".

(** [SellerOnboardingController] *)
Definition seller_listApplications_route : Route := admin_route 200 false "identity.seller_applications_list" None.
Definition seller_tally_route : Route := admin_route 200 false "identity.seller_applications_tally" None.
Definition seller_application_route : Route := self_route 200 "identity.seller_application_read".
Definition seller_onboardSeller_route : Route := self_route 201 "identity.seller_onboard".
Definition seller_approveVerification_route : Route := admin_route 200 false "identity.seller_verify" (Some "id").
Definition seller_rejectVerification_route : Route := admin_route 200 false "identity.seller_reject" (Some "id").

(** [CourierOnboardingController] *)
Definition courier_register_route : Route := public_route 201 5.
Definition courier_listApplications_route : Route := admin_route 200 true "identity.courier_applications_list" None.
Definition courier_tally_route : Route := admin_route 200 true "identity.courier_applications_tally" None.
Definition courier_approveCourier_route : Route := admin_route 200 true "identity.courier_approve" (Some "principalId").
Definition courier_rejectCourier_route : Route := admin_route 200 true "identity.courier_reject" (Some "principalId").

Definition route_of (c : Call) : Route :=
  match c with
  | AuthLogin _ => auth_login_route
  | AuthVerifyTwoFactor _ => auth_verifyTwoFactor_route
  | AuthRegister _ => auth_register_route
  | AuthRefresh _ => auth_refresh_route
  | AuthLogout _ => auth_logout_route
  | AuthMe => auth_me_route
  | AuthSetupTwoFactor _ => auth_setupTwoFactor_route
  | AuthEnableTwoFactor _ => auth_enableTwoFactor_route
  | AuthDisableTwoFactor _ => auth_disableTwoFactor_route
  | PasskeySignInOptions _ => passkey_signInOptions_route
  | PasskeyVerifySignIn _ => passkey_verifySignIn_route
  | PasskeyList => passkey_list_route
  | PasskeyRegistrationOptions _ => passkey_registrationOptions_route
  | PasskeyRegister _ => passkey_register_route
  | PasskeyRemove _ => passkey_remove_route
  | ProfileGet => profile_getProfile_route
  | ProfileUpdate _ => profile_updateProfile_route
  | SellerListApplications _ => seller_listApplications_route
  | SellerTally _ => seller_tally_route
  | SellerApplication => seller_application_route
  | SellerOnboard _ => seller_onboardSeller_route
  | SellerVerify => seller_approveVerification_route
  | SellerReject => seller_rejectVerification_route
  | CourierRegister _ => courier_register_route
  | CourierListApplications _ => courier_listApplications_route
  | CourierTally _ => courier_tally_route
  | CourierApprove => courier_approveCourier_route
  | CourierReject => courier_rejectCourier_route
  end.

(** ** Handlers *)

Section Routes.
Context {P : Platform} {G : GeocodingProviderPort} {F : FleetRegistryPort} {C : PasskeyCeremonyPort} {V : ValidatorLibrary}.
Context (cfg : TokenConfig P) (registry : ClientRegistry) (verifier : option (ClientProofVerifierPort World)).
Context (throttled : Route -> Request -> World -> bool) (credential_of : JsonObject -> Credential).
Local Open Scope prog_scope.

(** What a handler answers. *)
Inductive Answer :=
| AnswerLogin (outcome : LoginOutcome)
| AnswerSession (session : AuthTokenOutput)
| AnswerNothing
| AnswerMe (view : CurrentUserView)
| AnswerSetup (secret_and_url : string * string)
| AnswerEnabled (enabled : bool)
| AnswerRequestOptions (options : RequestOptions)
| AnswerPasskeys (passkeys : list PasskeyView)
| AnswerCreationOptions (challenge_and_options : string * CreationOptions)
| AnswerPasskey (passkey : PasskeyView)
| AnswerProfile (profile : ProfileEntity)
| AnswerSellerPage (page : ApplicationPage SellerApplicationView)
| AnswerTally (tally : ApplicationTally)
| AnswerApplication (application : MerchantVerificationEntity * option string)
| AnswerVerification (application : MerchantVerificationEntity)
| AnswerMerchant (merchant : MerchantEntity * string)
| AnswerRegisteredCourier (out : RegisterCourierOutputDto)
| AnswerCourierPage (page : ApplicationPage CourierApplicationView)
| AnswerApprovedCourier (out : ApproveCourierOutputDto)
| AnswerCourierApplication (view : CourierApplicationView).

Definition answering {A} (f : A -> Answer) (m : M A) : M Answer := a <- m ;; Ret (f a).

(** [ParseUUIDPipe] *)
Definition uuid_param (name : string) (rq : Request) : res exn string :=
  match rq_params rq name with
  | Some s => if isUUID s then Ok s else Err (HttpException BadRequest None "Validation failed (uuid is expected)")
  | None => Err (HttpException BadRequest None "Validation failed (uuid is expected)")
  end.

Definition read_token (schema : Schema) (name : string) : JsonObject -> res exn string := reading schema (text name).

(** [@AccountIdParam("id")] *)
Definition account_param (rq : Request) : M Z := of_res (accountIdOf (rq_params rq "id")).

(** Parameters are read in the order the handler declares them. *)

(** [AuthController] *)
Definition on_auth_login (body : JsonObject) (rq : Request) : M Answer :=
  ' (email, password) <- of_res (read_login body) ;;
  answering AnswerLogin (login cfg email password (callContextOf rq)).
Definition on_auth_verifyTwoFactor (body : JsonObject) (rq : Request) : M Answer :=
  ' (token, code) <- of_res (reading TwoFactorVerifyInputDto (fun o => (text "challengeToken" o, text "code" o)) body) ;;
  answering AnswerSession (verifyTwoFactor cfg token code (callContextOf rq)).
Definition on_auth_register (body : JsonObject) (rq : Request) : M Answer :=
  ' (email, password) <- of_res (read_registration body) ;;
  answering AnswerSession (register_account cfg email password (callContextOf rq)).
Definition on_auth_refresh (body : JsonObject) (rq : Request) : M Answer :=
  token <- of_res (read_token RefreshInputDto "refreshToken" body) ;;
  answering AnswerSession (refresh cfg token (callContextOf rq)).
Definition on_auth_logout (body : JsonObject) (rq : Request) : M Answer :=
  claims <- of_res (CurrentUser rq) ;;
  token <- of_res (reading LogoutInputDto (sent_text "refreshToken") body) ;;
  answering (fun _ => AnswerNothing) (auth_logout cfg claims token).
Definition on_auth_me (rq : Request) : M Answer :=
  claims <- of_res (CurrentUser rq) ;;
  Ret (AnswerMe (mkCurrentUser (sub claims) (uid claims) (claims_email claims) (claims_role claims)
                   (toISOString (exp claims * 1000)))).
Definition on_auth_setupTwoFactor (body : JsonObject) (rq : Request) : M Answer :=
  claims <- of_res (CurrentSession rq) ;;
  userId <- account_param rq ;;
  password <- of_res (reading TwoFactorSetupInputDto (sent_text "password") body) ;;
  answering AnswerSetup (setupTwoFactor claims userId password (callContextOf rq)).
Definition on_auth_enableTwoFactor (body : JsonObject) (rq : Request) : M Answer :=
  claims <- of_res (CurrentSession rq) ;;
  userId <- account_param rq ;;
  ' (code, password) <- of_res (reading TwoFactorEnableInputDto (fun o => (text "code" o, sent_text "password" o)) body) ;;
  answering (fun _ => AnswerEnabled true) (enableTwoFactor claims userId code password (callContextOf rq)).
Definition on_auth_disableTwoFactor (body : JsonObject) (rq : Request) : M Answer :=
  claims <- of_res (CurrentUser rq) ;;
  userId <- account_param rq ;;
  ' (code, password) <- of_res (reading TwoFactorDisableInputDto (fun o => (text "code" o, text "password" o)) body) ;;
  answering (fun _ => AnswerEnabled false) (disableTwoFactor claims userId code password (callContextOf rq)).

(** [PasskeyController] *)
Definition on_passkey_signInOptions (body : JsonObject) (rq : Request) : M Answer :=
  token <- of_res (read_token PasskeyOptionsInputDto "challengeToken" body) ;;
  answering AnswerRequestOptions (passkey_signInOptions cfg token).
Definition on_passkey_verifySignIn (body : JsonObject) (rq : Request) : M Answer :=
  ' (token, credential) <- of_res (reading PasskeyVerifyInputDto (fun o => (text "challengeToken" o, object "credential" o)) body) ;;
  answering AnswerSession (passkey_verifySignIn cfg token (credential_of credential) (callContextOf rq)).
Definition on_passkey_list (rq : Request) : M Answer :=
  claims <- of_res (CurrentUser rq) ;;
  userId <- account_param rq ;;
  answering AnswerPasskeys (passkey_list claims userId).
Definition on_passkey_registrationOptions (body : JsonObject) (rq : Request) : M Answer :=
  claims <- of_res (CurrentUser rq) ;;
  userId <- account_param rq ;;
  password <- of_res (read_token PasskeyRegistrationOptionsInputDto "password" body) ;;
  answering AnswerCreationOptions (passkey_registrationOptions claims userId password (callContextOf rq)).
Definition on_passkey_register (body : JsonObject) (rq : Request) : M Answer :=
  claims <- of_res (CurrentUser rq) ;;
  userId <- account_param rq ;;
  ' (challengeId, name, credential) <- of_res (reading PasskeyRegistrationInputDto
      (fun o => (text "challengeId" o, text "name" o, object "credential" o)) body) ;;
  answering AnswerPasskey (passkey_register claims userId challengeId (credential_of credential) name (callContextOf rq)).
Definition on_passkey_remove (body : JsonObject) (rq : Request) : M Answer :=
  claims <- of_res (CurrentUser rq) ;;
  userId <- account_param rq ;;
  passkeyId <- of_res (uuid_param "passkeyId" rq) ;;
  password <- of_res (read_token PasskeyRemovalInputDto "password" body) ;;
  answering (fun _ => AnswerNothing) (passkey_remove claims userId passkeyId password (callContextOf rq)).

(** [UserProfileController] *)
Definition on_profile_getProfile (rq : Request) : M Answer :=
  userId <- account_param rq ;; answering AnswerProfile (getProfile userId).
Definition on_profile_updateProfile (body : JsonObject) (rq : Request) : M Answer :=
  userId <- account_param rq ;;
  dto <- of_res (read_profile body) ;;
  answering AnswerProfile (updateProfile userId dto).

(** [SellerOnboardingController] *)
Definition on_seller_listApplications (query : JsonObject) (rq : Request) : M Answer :=
  q <- of_res (read_seller_page query) ;;
  answering AnswerSellerPage (list_seller_applications q).
Definition on_seller_tally (query : JsonObject) (rq : Request) : M Answer :=
  since <- of_res (read_since query) ;;
  answering AnswerTally (seller_tally since).
Definition on_seller_application (rq : Request) : M Answer :=
  userId <- account_param rq ;; answering AnswerApplication (applicationOf userId).
Definition on_seller_onboardSeller (body : JsonObject) (rq : Request) : M Answer :=
  userId <- account_param rq ;;
  dto <- of_res (read_seller body) ;;
  answering AnswerVerification (onboardSeller userId dto).
Definition on_seller_approveVerification (rq : Request) : M Answer :=
  userId <- account_param rq ;; answering AnswerMerchant (approveVerification userId).
Definition on_seller_rejectVerification (rq : Request) : M Answer :=
  userId <- account_param rq ;; answering AnswerApplication (rejectVerification userId).

(** [CourierOnboardingController] *)
Definition on_courier_register (body : JsonObject) (rq : Request) : M Answer :=
  dto <- of_res (read_courier body) ;;
  answering AnswerRegisteredCourier (register_courier cfg dto (callContextOf rq)).
Definition on_courier_listApplications (query : JsonObject) (rq : Request) : M Answer :=
  q <- of_res (read_courier_page query) ;;
  answering AnswerCourierPage (list_applications q).
Definition on_courier_tally (query : JsonObject) (rq : Request) : M Answer :=
  since <- of_res (read_since query) ;;
  answering AnswerTally (courier_tally since).
Definition on_courier_approveCourier (rq : Request) : M Answer :=
  principal <- of_res (uuid_param "principalId" rq) ;;
  answering AnswerApprovedCourier (approveCourier principal).
Definition on_courier_rejectCourier (rq : Request) : M Answer :=
  principal <- of_res (uuid_param "principalId" rq) ;;
  answering AnswerCourierApplication (rejectCourier principal).

Definition handle (c : Call) (rq : Request) : M Answer :=
  match c with
  | AuthLogin body => on_auth_login body rq
  | AuthVerifyTwoFactor body => on_auth_verifyTwoFactor body rq
  | AuthRegister body => on_auth_register body rq
  | AuthRefresh body => on_auth_refresh body rq
  | AuthLogout body => on_auth_logout body rq
  | AuthMe => on_auth_me rq
  | AuthSetupTwoFactor body => on_auth_setupTwoFactor body rq
  | AuthEnableTwoFactor body => on_auth_enableTwoFactor body rq
  | AuthDisableTwoFactor body => on_auth_disableTwoFactor body rq
  | PasskeySignInOptions body => on_passkey_signInOptions body rq
  | PasskeyVerifySignIn body => on_passkey_verifySignIn body rq
  | PasskeyList => on_passkey_list rq
  | PasskeyRegistrationOptions body => on_passkey_registrationOptions body rq
  | PasskeyRegister body => on_passkey_register body rq
  | PasskeyRemove body => on_passkey_remove body rq
  | ProfileGet => on_profile_getProfile rq
  | ProfileUpdate body => on_profile_updateProfile body rq
  | SellerListApplications query => on_seller_listApplications query rq
  | SellerTally query => on_seller_tally query rq
  | SellerApplication => on_seller_application rq
  | SellerOnboard body => on_seller_onboardSeller body rq
  | SellerVerify => on_seller_approveVerification rq
  | SellerReject => on_seller_rejectVerification rq
  | CourierRegister body => on_courier_register body rq
  | CourierListApplications query => on_courier_listApplications query rq
  | CourierTally query => on_courier_tally query rq
  | CourierApprove => on_courier_approveCourier rq
  | CourierReject => on_courier_rejectCourier rq
  end.

Definition serve (c : Call) (rq : Request) : M Answer :=
  rq' <- guarded cfg registry verifier throttled (route_of c) rq ;;
  audit_intercept (route_of c) rq' (handle c rq').

Definition respond (c : Call) (rq : Request) : M (HttpReply (Answer + ErrorResponse)) :=
  catch (a <- serve c rq ;; Ret (mkReply (route_httpCode (route_of c)) [] (inl a)))
    (fun error =>
       r <- exception_filter (rq_method rq) (rq_url rq) (requestIdOf (rq_headers rq)) (Threw error) ;;
       Ret (mkReply (reply_status r) (reply_headers r) (inr (reply_body r)))).
End Routes.

(** The handler of a call, opened. *)
Ltac open_handler :=
  cbn [handle]; unfold on_auth_login, on_auth_verifyTwoFactor, on_auth_register, on_auth_refresh, on_auth_logout, on_auth_me, on_auth_setupTwoFactor, on_auth_enableTwoFactor, on_auth_disableTwoFactor, on_passkey_signInOptions, on_passkey_verifySignIn, on_passkey_list, on_passkey_registrationOptions, on_passkey_register, on_passkey_remove, on_profile_getProfile, on_profile_updateProfile, on_seller_listApplications, on_seller_tally, on_seller_application, on_seller_onboardSeller, on_seller_approveVerification, on_seller_rejectVerification, on_courier_register, on_courier_listApplications, on_courier_tally, on_courier_approveCourier, on_courier_rejectCourier, account_param.
Tactic Notation "open_handler" "in" hyp(H) :=
  cbn [handle] in H; unfold on_auth_login, on_auth_verifyTwoFactor, on_auth_register, on_auth_refresh, on_auth_logout, on_auth_me, on_auth_setupTwoFactor, on_auth_enableTwoFactor, on_auth_disableTwoFactor, on_passkey_signInOptions, on_passkey_verifySignIn, on_passkey_list, on_passkey_registrationOptions, on_passkey_register, on_passkey_remove, on_profile_getProfile, on_profile_updateProfile, on_seller_listApplications, on_seller_tally, on_seller_application, on_seller_onboardSeller, on_seller_approveVerification, on_seller_rejectVerification, on_courier_register, on_courier_listApplications, on_courier_tally, on_courier_approveCourier, on_courier_rejectCourier, account_param in H.
