(* ===== verification/Access.v ===== *)
(** * Who may do what over HTTP

    The controllers of Routes.v seen whole: for every route, under which authority its handler runs
    and what a request without it leaves. The statements name callers and accounts, not guards: they
    are discharged by the guards of Guards.v, by the checks the use cases repeat and by the token
    service. *)

From S2P Require Import Prelude JsString Dates Domain Store Sample Keys Totp SignInAttempts Tokens Sessions Accounts Clients PasskeyStore Auth Handlers SignIn Login SecondFactor Passkeys Records Geocoding Profiles Fleet Couriers Sellers Errors Validation Guards Routes.
From Stdlib Require Import Ascii String.

Local Open Scope string_scope.
Local Open Scope Z_scope.

Definition is_public (c : Call) : bool :=
  match c with
  | AuthLogin _ | AuthVerifyTwoFactor _ | AuthRegister _ | AuthRefresh _ | PasskeySignInOptions _ | PasskeyVerifySignIn _
  | CourierRegister _ => true
  | _ => false
  end.

(** The account a request names in its path. *)
Definition target (rq : Request) (id : Z) : Prop := accountIdOf (rq_params rq "id") = Ok id.
Definition administrator (claims : Claims) : Prop := token_use claims = "access" /\ claims_role claims = Some "admin".

(** Who may make a call that is not public. *)
Definition permitted (c : Call) (rq : Request) (claims : Claims) : Prop :=
  match c with
  | AuthSetupTwoFactor _ | AuthEnableTwoFactor _ => target rq (uid claims)
  | AuthDisableTwoFactor _ | PasskeyList | PasskeyRegistrationOptions _ | PasskeyRegister _ | PasskeyRemove _ =>
      token_use claims = "access" /\ target rq (uid claims)
  | ProfileGet | ProfileUpdate _ | SellerApplication | SellerOnboard _ =>
      administrator claims \/ (token_use claims = "access" /\ target rq (uid claims))
  | SellerListApplications _ | SellerTally _ | SellerVerify | SellerReject
  | CourierListApplications _ | CourierTally _ | CourierApprove | CourierReject => administrator claims
  | _ => token_use claims = "access"
  end.

(** ** Account ids *)

Lemma accountIdOf_String u id : accountIdOf (Some (String_of u)) = Ok id -> id = u.
Proof.
  unfold accountIdOf. cbv zeta. destruct (Z_lt_le_dec u 0) as [Hneg|Hpos].
  - destruct u as [|p|p]; [lia|lia|]. change (String_of (Zneg p)) with (String "-" (pretty.pretty (Npos p))).
    assert (account_id_text (String "-" (pretty.pretty (Npos p))) = false) as -> by reflexivity.
    by destruct (Number _).
  - rewrite Number_String_of by done. destruct (_ || _); [done|]. by intros [= ->].
Qed.

Lemma digits_value_grows l acc v : 0 <= acc -> digits_value acc l = Some v -> acc <= v.
Proof.
  revert acc. induction l as [|c l IH]; intros acc Ha; cbn [digits_value]; [intros [= ->]; lia|].
  destruct (is_digit c) eqn:Ed; [|done]. intros H. unfold is_digit in Ed. apply andb_true_iff in Ed as [Hc _]. apply Z.leb_le in Hc.
  apply IH in H; lia.
Qed.

Lemma accountIdOf_bounds raw id : accountIdOf raw = Ok id -> 1 <= id <= LARGEST_ACCOUNT_ID.
Proof.
  unfold accountIdOf. cbv zeta. destruct raw as [raw|]; [|done]. destruct (Number raw) as [n|] eqn:En; [|done].
  destruct (negb (account_id_text raw) || _) eqn:E; [done|]. intros [= <-]. apply orb_false_iff in E as [Ht Hn].
  apply negb_false_iff in Ht. apply Z.ltb_ge in Hn. split; [|done]. unfold account_id_text, Number in *.
  destruct (str_list raw) as [|c l] eqn:El; [done|]. apply andb_true_iff in Ht as [[[Hc Hz]%andb_true_iff Hl]%andb_true_iff _].
  assert (forallb is_digit (c :: l) = true) as Hall by (cbn; by rewrite Hc).
  assert (1 <= code c - 48) as H1.
  { unfold is_digit in Hc. apply andb_true_iff in Hc as [Hc _]. apply Z.leb_le in Hc. apply negb_true_iff, Ascii.eqb_neq in Hz.
    destruct (Z.eq_dec (code c) 48) as [E|]; [|lia]. destruct Hz. rewrite <- (ascii_nat_embedding c). unfold code in E.
    by replace (nat_of_ascii c) with 48%nat by lia. }
  rewrite trim_list_digits in En by done.
  destruct (Ascii.eqb c "-") eqn:Em; [apply Ascii.eqb_eq in Em as ->; done|].
  destruct (Ascii.eqb c "+") eqn:Ep; [apply Ascii.eqb_eq in Ep as ->; done|].
  cbn [digits_value] in En. rewrite Hc in En. apply digits_value_grows in En; lia.
Qed.

Section Access.
Context {P : Platform} {G : GeocodingProviderPort} {F : FleetRegistryPort} {C : PasskeyCeremonyPort} {V : ValidatorLibrary}.
Context (cfg : TokenConfig P) (registry : ClientRegistry) (verifier : option (ClientProofVerifierPort World)).
Context (throttled : Route -> Request -> World -> bool) (credential_of : JsonObject -> Credential).

(** The verifier of a client's proof keeps the tables as they are. *)
Definition verifier_reads_only : Prop :=
  forall v, verifier = Some v -> forall proof ids, guar (on_db eq) (@verify_proof World v proof ids).
Context (Hverifier : verifier_reads_only).

(** The request carries a session token that verifies now. *)
Definition caller (rq : Request) (w : World) (claims : Claims) : Prop :=
  exists token w', bearerToken (rq_headers rq) = Some token /\ run (verifySession cfg token) w = (Ok claims, w').

Abbreviation serve := (Routes.serve cfg registry verifier throttled credential_of).
Abbreviation handle := (Routes.handle cfg credential_of).
Abbreviation guarded := (Guards.guarded cfg registry verifier throttled).

(** ** The guards *)

Lemma log_guar R {HR : PreOrder R} e : guar (on_db R) (log_event (W := World) e).
Proof. by apply guar_emit. Qed.
Hint Resolve log_guar : guar.

Lemma gate_admit_guar headers request : guar (on_db eq) (gate_admit registry verifier headers request).
Proof.
  unfold gate_admit, prove, throw_refusal, refuse. pose proof Hverifier as Hv. unfold verifier_reads_only in Hv.
  destruct verifier as [v|]; guar_auto.
Qed.

Lemma guarded_guar route rq : guar (on_db eq) (guarded route rq).
Proof.
  unfold Guards.guarded. apply guar_bind.
  - unfold jwtAuthGuard. guar_auto.
  - generalize (route_guards route). intros gs. induction gs as [|g gs IH]; intros rq'; [exact I|]. cbn [run_guards].
    apply guar_bind; [|apply IH]. destruct g; cbn [canActivate].
    + unfold throttlerGuard. guar_auto. by apply guar_pure_atom; [typeclasses eauto|].
    + unfold clientProofGuard. guar_auto. apply gate_admit_guar.
    + unfold rolesGuard. guar_auto.
    + unfold selfOrStaffGuard. guar_auto.
Qed.

Lemma guarded_db route rq w : db (run (guarded route rq) w).2 = db w.
Proof. symmetry. apply (guar_run (on_db eq)); [typeclasses eauto..|apply guarded_guar]. Qed.

Lemma verifySession_use token w claims w' :
  run (verifySession cfg token) w = (Ok claims, w') -> token_use claims = "access" \/ token_use claims = "mfa_enrolment".
Proof.
  unfold verifySession. rewrite run_bind. destruct (run (verifySignature cfg token) w) as [[c|e] w1]; [|done].
  destruct (negb _ && _) eqn:E; [done|]. rewrite run_bind. destruct (run (refuseRevoked c) w1) as [[]]; [|done].
  intros [= <- _]. repeat case_bool_decide; naive_solver.
Qed.

(** What a guard that lets a request through has seen of it. *)
Definition guard_saw (route : Route) (rq : Request) (g : Guard) : Prop :=
  match g with
  | RolesGuard => route_roles route <> [] ->
      exists c r, rq_user rq = Some c /\ token_use c = "access" /\ claims_role c = Some r /\ r ∈ route_roles route
  | SelfOrStaffGuard => forall param, route_selfParam route = Some param ->
      exists c, rq_user rq = Some c /\
        (administrator c /\ route_ownerOnly route = false \/ default "" (rq_params rq param) = String_of (uid c))
  | ThrottlerGuard | ClientProofGuard => True
  end.

Lemma is_admin_spec c : is_admin c = true <-> administrator c.
Proof. unfold is_admin, administrator. rewrite andb_true_iff, !bool_decide_eq_true. done. Qed.

Lemma canActivate_saw g route rq w rq' w' :
  g <> ClientProofGuard -> run (canActivate registry verifier throttled g route rq) w = (Ok rq', w') ->
  rq' = rq /\ guard_saw route rq g.
Proof.
  destruct g; cbn [canActivate guard_saw]; [|done|..]; intros _.
  - unfold throttlerGuard. cbn. destruct (throttled route rq w); cbn; [done|]. by intros [= <- _].
  - unfold rolesGuard. destruct (route_roles route) as [|r0 rs] eqn:Er; [by intros [= <- _]|].
    destruct (rq_user rq) as [c|]; [|done]. case_bool_decide as Hu; [|done].
    destruct (claims_role c) as [r|] eqn:Ec; [|done]. destruct (bool_decide _ || _) eqn:E; [done|]. intros [= <- _].
    split; [done|]. intros _. exists c, r. split_and!; try done.
    apply orb_false_iff in E as [_ E%negb_false_iff%bool_decide_eq_true]. done.
  - unfold selfOrStaffGuard. destruct (route_selfParam route) as [param|] eqn:Ep; [|by intros [= <- _]].
    destruct (rq_user rq) as [c|]; [|done]. destruct (is_admin c && _) eqn:E.
    + intros [= <- _]. split; [done|]. intros param' [= <-]. exists c. split; [done|]. left.
      apply andb_true_iff in E as [E%is_admin_spec E'%negb_true_iff]. done.
    + case_bool_decide as Hs; cbn; [|done]. intros [= <- _]. split; [done|]. intros param' [= <-]. exists c. auto.
Qed.

Lemma run_guards_saw gs route rq w rq' w' :
  ClientProofGuard ∉ gs -> run (run_guards registry verifier throttled gs route rq) w = (Ok rq', w') ->
  rq' = rq /\ Forall (guard_saw route rq) gs.
Proof.
  revert w. induction gs as [|g gs IH]; intros w Hno; cbn [run_guards]; [by intros [= <- _]|].
  rewrite run_bind. destruct (run (canActivate _ _ _ g route rq) w) as [[rq1|] w1] eqn:E; [|done].
  apply not_elem_of_cons in Hno as [Hg Hno]. apply canActivate_saw in E as [-> Hs]; [|congruence].
  intros [-> Hall]%IH; [|done]. split; [done|by constructor].
Qed.

(** A request that passes the guards of a route for signed-in callers. *)
Lemma guarded_session route rq w rq' w' :
  route_public route = false -> ClientProofGuard ∉ route_guards route ->
  run (guarded route rq) w = (Ok rq', w') ->
  exists claims, caller rq w claims /\ rq' = with_user claims rq /\
    (token_use claims = "access" \/ route_acceptsEnrolment route = true) /\
    Forall (guard_saw route (with_user claims rq)) (route_guards route).
Proof.
  intros Hp Hno. unfold Guards.guarded, jwtAuthGuard. rewrite Hp.
  destruct (bearerToken (rq_headers rq)) as [token|] eqn:Et; [|done]. rewrite run_bind, run_bind.
  destruct (run (verifySession cfg token) w) as [[claims|e] w1] eqn:Ev; [|done].
  destruct (bool_decide _ && _) eqn:E; [done|]. cbn [run]. intros [-> Hall]%run_guards_saw; [|done].
  exists claims. split; [by exists token, w1|]. split; [done|]. split; [|done].
  destruct (verifySession_use _ _ _ _ Ev) as [?|Hm]; [by left|right].
  rewrite bool_decide_eq_true_2 in E by done. by apply negb_false_iff in E.
Qed.

(** A request that passes the guards of a public route. *)
Lemma guarded_public route rq w rq' w' :
  route_public route = true -> route_guards route = [ThrottlerGuard; ClientProofGuard] ->
  run (guarded route rq) w = (Ok rq', w') ->
  exists client w1, run (gate_admit registry verifier (rq_headers rq) (requestIdOf (rq_headers rq))) w = (Ok client, w1) /\
    rq' = with_client client rq.
Proof.
  intros Hp Hg. unfold Guards.guarded, jwtAuthGuard. rewrite Hp, Hg. cbn [run_guards canActivate bind].
  unfold throttlerGuard, clientProofGuard. rewrite !run_bind. cbn [run atom]. cbn.
  destruct (throttled route rq w); cbn; [done|]. rewrite !run_bind.
  destruct (run (gate_admit _ _ _ _) w) as [[client|e] w1]; cbn; [|done]. intros [= <- _]. eauto.
Qed.

(** The audit answers what it is given and changes no table. *)
Lemma run_audit {A} route rq (m : M A) w :
  (run (audit_intercept route rq m) w).1 = (run m w).1 /\ db (run (audit_intercept route rq m) w).2 = db (run m w).2.
Proof.
  unfold audit_intercept. destruct (audited_call route rq) as [call|]; [|done].
  rewrite run_catch, run_bind. destruct (run m w) as [[a|e] w1]; done.
Qed.

(** A handler that begins with the account of the path throws when there is none. *)
Definition needs_target (c : Call) : bool :=
  match c with
  | AuthSetupTwoFactor _ | AuthEnableTwoFactor _ | AuthDisableTwoFactor _ | PasskeyList | PasskeyRegistrationOptions _
  | PasskeyRegister _ | PasskeyRemove _ | ProfileGet | ProfileUpdate _ | SellerApplication | SellerOnboard _ => true
  | _ => false
  end.

Lemma handle_needs_target c rq w :
  needs_target c = true -> (exists id, target rq id) \/ exists e, run (handle c rq) w = (Err e, w).
Proof.
  intros Hc. unfold target. destruct (accountIdOf (rq_params rq "id")) as [id|e0] eqn:E; [left; eauto|right].
  destruct c; try done; open_handler; rewrite E;
    try (destruct (CurrentUser rq); [|by eexists]); try (destruct (CurrentSession rq); [|by eexists]); by eexists.
Qed.

Lemma saw_role route rq claims :
  Forall (guard_saw route (with_user claims rq)) (route_guards route) -> RolesGuard ∈ route_guards route ->
  route_roles route = ["admin"] -> administrator claims.
Proof.
  intros Hall Hin Hr. rewrite Forall_forall in Hall. specialize (Hall _ Hin). cbn in Hall. rewrite Hr in Hall.
  destruct Hall as (c & r & [= <-] & Hu & Hc & ->%list_elem_of_singleton); done.
Qed.

Lemma saw_self route rq claims :
  Forall (guard_saw route (with_user claims rq)) (route_guards route) -> SelfOrStaffGuard ∈ route_guards route ->
  route_selfParam route = Some "id" -> (exists id, target rq id) ->
  administrator claims /\ route_ownerOnly route = false \/ target rq (uid claims).
Proof.
  intros Hall Hin Hr [id Hid]. rewrite Forall_forall in Hall. specialize (Hall _ Hin). cbn in Hall.
  destruct (Hall _ Hr) as (c & [= <-] & [?|Hs]); [by left|right].
  unfold target in *. destruct (rq_params rq "id") as [raw|]; [|done]. cbn in Hs. subst raw.
  pose proof Hid as ->%accountIdOf_String. exact Hid.
Qed.

(** What the guards of a route for signed-in callers have established. *)
Lemma guards_permit c rq claims :
  is_public c = false -> (needs_target c = true -> exists id, target rq id) ->
  (token_use claims = "access" \/ route_acceptsEnrolment (route_of c) = true) ->
  Forall (guard_saw (route_of c) (with_user claims rq)) (route_guards (route_of c)) -> permitted c rq claims.
Proof.
  intros Hpub Ht Huse Hsaw.
  destruct c; try done; cbn [permitted];
    try (by destruct Huse);
    try (apply (saw_role _ _ _ Hsaw); [cbn; set_solver|reflexivity]);
    (destruct (saw_self _ _ _ Hsaw) as [[Ha Ho]|Hown]; [cbn; set_solver|reflexivity|by apply Ht|try done; by left|]);
    destruct Huse; by auto.
Qed.

Definition refused_untouched {A} (w : World) (r : res exn A * World) : Prop := exists e, r.1 = Err e /\ db r.2 = db w.

(** C6: Every HTTP request that is not refused untouched runs under authority. Over all routes of the
    five controllers and whatever is sent: either the answer is an error and every table is as it
    was; or the route is a public one and the client gate admitted this client; or the request
    carries a session token that verifies now, and its holder is one who may make this call: an
    administrator for the decisions on applications and their lists; the account of the path or an
    administrator for profiles and filings; the account of the path itself, and no administrator in
    its place, for the second factor and passkeys; an enrolment session for nothing but setting up
    and enabling its own second factor. *)
Theorem requests_run_under_authority c rq w :
  refused_untouched w (run (serve c rq) w) \/
  (is_public c = true /\
   exists client w1, run (gate_admit registry verifier (rq_headers rq) (requestIdOf (rq_headers rq))) w = (Ok client, w1)) \/
  (exists claims, caller rq w claims /\ permitted c rq claims).
Proof.
  unfold Routes.serve. rewrite run_bind. pose proof (guarded_db (route_of c) rq w) as Hdb.
  destruct (run (guarded (route_of c) rq) w) as [[rq'|e] w1] eqn:Eg; [|left; exists e; done]. cbn [fst snd] in Hdb.
  destruct (is_public c) eqn:Epub.
  { right. left. split; [done|]. destruct c; try done;
      (apply guarded_public in Eg as (client & w2 & Hgate & _); [eauto|done..]). }
  assert (route_public (route_of c) = false /\ ClientProofGuard ∉ route_guards (route_of c)) as [Hp Hno].
  { destruct c; try done; (split; [done|]); cbn; set_solver. }
  destruct (guarded_session _ _ _ _ _ Hp Hno Eg) as (claims & Hcaller & -> & Huse & Hsaw).
  destruct (run_audit (route_of c) (with_user claims rq) (handle c (with_user claims rq)) w1) as [Ha1 Ha2].
  destruct (needs_target c) eqn:En; [destruct (handle_needs_target c (with_user claims rq) w1 En) as [Hid|[e He]]|].
  - right. right. exists claims. split; [done|]. by apply guards_permit.
  - left. exists e. rewrite Ha1, Ha2, He. done.
  - right. right. exists claims. split; [done|]. by apply guards_permit; [|rewrite En|..].
Qed.

(** ** The audit *)

(** The calls whose use by an administrator is recorded, with what is written of each. *)
Definition audited_as (c : Call) : option string :=
  match c with
  | PasskeyList => Some "identity.passkeys_list"
  | PasskeyRegistrationOptions _ => Some "identity.passkey_options"
  | PasskeyRegister _ => Some "identity.passkey_add"
  | PasskeyRemove _ => Some "identity.passkey_remove"
  | ProfileGet => Some "identity.profile_read"
  | ProfileUpdate _ => Some "identity.profile_update"
  | SellerListApplications _ => Some "identity.seller_applications_list"
  | SellerTally _ => Some "identity.seller_applications_tally"
  | SellerApplication => Some "identity.seller_application_read"
  | SellerOnboard _ => Some "identity.seller_onboard"
  | SellerVerify => Some "identity.seller_verify"
  | SellerReject => Some "identity.seller_reject"
  | CourierListApplications _ => Some "identity.courier_applications_list"
  | CourierTally _ => Some "identity.courier_applications_tally"
  | CourierApprove => Some "identity.courier_approve"
  | CourierReject => Some "identity.courier_reject"
  | _ => None
  end.

Definition target_text (c : Call) (rq : Request) : string :=
  match c with
  | SellerListApplications _ | SellerTally _ | CourierListApplications _ | CourierTally _ => "*"
  | CourierApprove | CourierReject => default "" (rq_params rq "principalId")
  | _ => default "" (rq_params rq "id")
  end.

Definition outcome_of {A} (r : res exn A) : string := match r with Ok _ => "done" | Err e => adminActionOutcomeOf e end.

Lemma run_audit_events {A} route rq call (m : M A) w :
  audited_call route rq = Some call ->
  events (run (audit_intercept route rq m) w).2 =
  (events (run m w).2 ++ [MetricAdminAction (call_action call) (outcome_of (run m w).1);
                          LogAdminAction (call_requestId call) (call_actor call) (call_action call) (call_target call)
                            (outcome_of (run m w).1)])%list.
Proof.
  intros Hc. unfold audit_intercept. rewrite Hc, run_catch, run_bind.
  destruct (run m w) as [[a|e] w1]; cbn; by rewrite <- app_assoc.
Qed.

Lemma caller_unique rq w c1 c2 : caller rq w c1 -> caller rq w c2 -> c1 = c2.
Proof. intros (t & w1 & Ht & H1) (t' & w2 & Ht' & H2). congruence. Qed.

(** An error that is answered as a refusal: an HTTP exception below 500, or what the reply makes one of.
    A sign-in that is delayed is answered with 429, but is no HTTP exception where it is recorded. *)
Definition refusal (e : exn) : Prop :=
  match e with HttpException s _ _ => getStatus s < 500 | RecordConflictError _ | MissingReferenceError _ => True | _ => False end.

Lemma outcome_refused e : adminActionOutcomeOf e = "refused" /\ refusal e \/ adminActionOutcomeOf e = "failed" /\ ~ refusal e.
Proof. destruct e; cbn; try (by left); try (right; by split; [|intros []]). destruct (Z.ltb_spec (getStatus status) 500); [by left|right; split; [done|lia]]. Qed.

(** C13: No administrator acts unseen. A request of an administrator on a seller's, a courier's, a
    profile's or a passkey's route is refused by the guards of the route, which leave every table as it
    was and whose error is the answer; or it passes them and, whether its input can be read or not, ends
    by counting and logging one line with the administrator's principal, the action of that route, the
    account or principal it was aimed at and its outcome: done exactly when it was answered, refused
    exactly when it ended in an HTTP exception below 500 or in an error for a conflicting or a missing
    record, and failed exactly when it ended in any other error. *)
Theorem administrators_are_audited c rq w claims action :
  caller rq w claims -> administrator claims -> audited_as c = Some action ->
  let after := run (serve c rq) w in
  (exists e w1, run (guarded (route_of c) rq) w = (Err e, w1) /\ after = (Err e, w1) /\ db w1 = db w) \/
  (exists rq' w1, run (guarded (route_of c) rq) w = (Ok rq', w1) /\
   exists before outcome,
    events after.2 = (before ++ [MetricAdminAction action outcome;
                                 LogAdminAction (requestIdOf (rq_headers rq)) (sub claims) action (target_text c rq) outcome])%list /\
    (outcome = "done" <-> is_ok after.1 = true) /\
    (outcome = "refused" <-> exists e, after.1 = Err e /\ refusal e) /\
    (outcome = "failed" <-> exists e, after.1 = Err e /\ ~ refusal e)).
Proof.
  intros Hcaller Hadmin Haction after. subst after. unfold Routes.serve. rewrite run_bind.
  pose proof (guarded_db (route_of c) rq w) as Hdb.
  destruct (run (guarded (route_of c) rq) w) as [[rq'|e] w1] eqn:Eg; [|left; by exists e, w1]. right. exists rq', w1. split; [done|].
  assert (route_public (route_of c) = false /\ ClientProofGuard ∉ route_guards (route_of c)) as [Hp Hno].
  { destruct c; try done; (split; [done|]); cbn; set_solver. }
  destruct (guarded_session _ _ _ _ _ Hp Hno Eg) as (claims' & Hcaller' & -> & _ & _).
  pose proof (caller_unique _ _ _ _ Hcaller Hcaller') as <-.
  assert (audited_call (route_of c) (with_user claims rq) =
    Some (mkAudited action (sub claims) (target_text c rq) (requestIdOf (rq_headers rq)))) as Hcall.
  { apply is_admin_spec in Hadmin. destruct c; simplify_eq/=; unfold audited_call; cbn; by rewrite Hadmin. }
  pose proof (run_audit_events _ _ _ (handle c (with_user claims rq)) w1 Hcall) as Hev.
  destruct (run_audit (route_of c) (with_user claims rq) (handle c (with_user claims rq)) w1) as [-> _].
  do 2 eexists. split; [exact Hev|]. clear Hev. destruct (run (handle c _) w1).1 as [a|e]; cbn [outcome_of is_ok].
  - split; [done|]. split; (split; [done|by intros (e & ? & _)]).
  - destruct (outcome_refused e) as [[-> He]|[-> He]]; (split; [done|]; split; split; try done; first [by exists e|by intros (? & [= <-] & ?)]).
Qed.

(** ** What the bounds on inputs bound *)

Lemma page_of_length {A} (id : A -> Z) limit l :
  0 <= limit -> Z.of_nat (List.length (page_applications (page_of id limit l))) <= limit.
Proof.
  intros Hl. unfold page_of. cbn [page_applications]. destruct (limit <? _) eqn:E.
  - rewrite length_take. lia.
  - apply Z.ltb_ge in E. done.
Qed.

Lemma list_applications_length q :
  0 <= q_limit q -> returns (fun page => Z.of_nat (List.length (page_applications page)) <= q_limit q) (list_applications q).
Proof. intros Hq. apply returns_statement. intros w page [= <-]. by apply page_of_length. Qed.

Lemma list_seller_applications_length q :
  0 <= q_limit q -> returns (fun page => Z.of_nat (List.length (page_applications page)) <= q_limit q) (list_seller_applications q).
Proof.
  intros Hq. unfold list_seller_applications.
  eapply (returns_bind (fun page => Z.of_nat (List.length (page_applications page)) <= q_limit q)).
  - apply returns_statement. intros w page [= <-]. by apply page_of_length.
  - intros page Hp. eapply returns_bind; [apply returns_true|]. intros ps _. cbn. by rewrite length_map.
Qed.

(** A parameter of a handler is read, or the request ends there. *)
Lemma read_or_refused {A B} (r : res exn A) (k : A -> M B) w :
  (exists e, run (bind (of_res r) k) w = (Err e, w)) \/ exists a, r = Ok a /\ run (bind (of_res r) k) w = run (k a) w.
Proof. destruct r as [a|e]; cbn; eauto. Qed.

Lemma answering_Ok {A} (f : A -> Answer) (m : M A) w b :
  (run (answering f m) w).1 = Ok b -> exists a w', run m w = (Ok a, w') /\ b = f a.
Proof.
  unfold answering. rewrite run_bind. destruct (run m w) as [[a|e] w']; cbn; [|done]. intros [= <-]. eauto.
Qed.

(** The calls that name an account by its number in the path. *)
Definition names_account (c : Call) : bool :=
  needs_target c || match c with SellerVerify | SellerReject => true | _ => false end.

(** What the input of a call is within. *)
Definition within_bounds (c : Call) (answer : res exn Answer) : Prop :=
  match c with
  | AuthLogin body =>
      exists email password, read_login body = Ok (email, password) /\
        isEmail email = true /\ str_length email <= 254 /\ 6 <= str_length password <= 1024
  | AuthRegister body => exists email password, read_registration body = Ok (email, password) /\ registration_bounded email password
  | CourierRegister body => exists dto, read_courier body = Ok dto /\ courier_bounded dto
  | ProfileUpdate body => exists dto, read_profile body = Ok dto /\ profile_bounded dto
  | SellerOnboard body => exists dto, read_seller body = Ok dto /\ seller_bounded dto
  | SellerListApplications query =>
      exists q, read_seller_page query = Ok q /\ 1 <= q_limit q <= 200 /\ 0 <= q_afterId q <= 2147483647 /\
        forall page, answer = Ok (AnswerSellerPage page) -> Z.of_nat (List.length (page_applications page)) <= q_limit q
  | CourierListApplications query =>
      exists q, read_courier_page query = Ok q /\ 1 <= q_limit q <= 200 /\ 0 <= q_afterId q <= 2147483647 /\
        forall page, answer = Ok (AnswerCourierPage page) -> Z.of_nat (List.length (page_applications page)) <= q_limit q
  | _ => True
  end.

(** Reads the next parameter of a handler: the request ends there, or goes on with [x]. *)
Ltac read_next x Hr E :=
  match goal with |- context [run (bind (of_res ?r) ?k) ?w] =>
    destruct (read_or_refused r k w) as [?|(x & Hr & E)]; [by left|] end.

Lemma page_answered {A} (wrap : ApplicationPage A -> Answer) (m : M (ApplicationPage A)) (limit : Z) w page :
  (forall p q, wrap p = wrap q -> p = q) ->
  returns (fun page => Z.of_nat (List.length (page_applications page)) <= limit) m ->
  (run (answering wrap m) w).1 = Ok (wrap page) -> Z.of_nat (List.length (page_applications page)) <= limit.
Proof. intros Hw Hm (p & w' & Hrun & ->%Hw)%answering_Ok. exact (returns_run _ _ _ _ _ Hm Hrun). Qed.

Lemma handle_bounded c rq w :
  (exists e, run (handle c rq) w = (Err e, w)) \/ within_bounds c (run (handle c rq) w).1.
Proof.
  destruct c; try (by right); open_handler.
  - read_next x Hr E. right. destruct x as [email password]. exists email, password. split; [done|by apply (read_login_bounds body)].
  - read_next x Hr E. right. destruct x as [email password]. exists email, password. split; [done|by apply (read_registration_bounds body)].
  - read_next u Hu Eu. rewrite Eu. read_next x Hr E. right. exists x. split; [done|by apply (read_profile_bounds body)].
  - read_next q Hr E. right. rewrite E. destruct (page_bounds _ _ _ _ Hr) as [Hl Ha]. exists q. split_and!; try done; try lia.
    intros page. apply page_answered; [by intros ?? [= ->]|]. apply list_seller_applications_length. lia.
  - read_next u Hu Eu. rewrite Eu. read_next x Hr E. right. exists x. split; [done|by apply (read_seller_bounds body)].
  - read_next x Hr E. right. exists x. split; [done|by apply (read_courier_bounds body)].
  - read_next q Hr E. right. rewrite E. destruct (page_bounds _ _ _ _ Hr) as [Hl Ha]. exists q. split_and!; try done; try lia.
    intros page. apply page_answered; [by intros ?? [= ->]|]. apply list_applications_length. lia.
Qed.

Lemma handle_names_account c rq w :
  names_account c = true -> (exists id, target rq id) \/ exists e, run (handle c rq) w = (Err e, w).
Proof.
  unfold names_account. intros [Hc|Hc]%orb_true_iff; [by apply handle_needs_target|]. unfold target.
  destruct (accountIdOf (rq_params rq "id")) as [id|e0] eqn:E; [left; eauto|right].
  destruct c; try done; open_handler; rewrite E; by eexists.
Qed.

(** C14: What a client sends is bounded before anything is done with it. Whatever is sent, a request either
    is refused with every table as it was, or its input is within these bounds: an account in the path is
    a whole number from 1 to 2147483647; a sign-in has an email address of at most 254 characters and a
    password of 6 to 1024; an account is registered, by either way of registering, with an email address
    of at most 254 characters and a password of at least 12 characters and at most the 72 bytes that
    bcrypt reads; a courier also has a name of 2 to 120 characters, a telephone number, a plate of 1 to 20
    and a vehicle that carries 1 to 5000 kg; the texts of a profile (120, 255, 100, 16 and, for the https
    address of a picture, 2048 characters) and of a seller's filing (120, 64, 32, 255, 100 and 16, none
    empty) are as long as their classes say, and a profile's telephone number is one; a page of
    applications is asked for with a size of at most 200, and holds no more than that size. *)
Theorem requests_are_bounded c rq w :
  let after := run (serve c rq) w in
  refused_untouched w after \/
  ((names_account c = true -> exists id, target rq id /\ 1 <= id <= 2147483647) /\ within_bounds c after.1).
Proof.
  cbv zeta. unfold Routes.serve. rewrite run_bind. pose proof (guarded_db (route_of c) rq w) as Hdb.
  destruct (run (guarded (route_of c) rq) w) as [[rq'|e] w1] eqn:Eg; [|left; by exists e]. cbn [fst snd] in Hdb.
  destruct (run_audit (route_of c) rq' (handle c rq') w1) as [Ha1 Ha2]. unfold refused_untouched. rewrite Ha1, Ha2, <- Hdb.
  assert ((exists e, run (handle c rq') w1 = (Err e, w1)) -> exists e, (run (handle c rq') w1).1 = Err e /\ db (run (handle c rq') w1).2 = db w1)
    as Hleft by (intros [e ->]; by exists e).
  destruct (handle_bounded c rq' w1) as [H|Hb]; [left; by apply Hleft|].
  destruct (names_account c) eqn:En; [|right; by split].
  destruct (handle_names_account c rq' w1 En) as [[id Hid]|H]; [right|left; by apply Hleft]. split; [intros _|done].
  assert (route_public (route_of c) = false /\ ClientProofGuard ∉ route_guards (route_of c)) as [Hp Hno].
  { destruct c; try done; (split; [done|]); cbn; set_solver. }
  destruct (guarded_session _ _ _ _ _ Hp Hno Eg) as (claims & _ & -> & _).
  exists id. split; [exact Hid|]. exact (accountIdOf_bounds _ _ Hid).
Qed.
End Access.
