(* ===== verification/Credentials.v ===== *)
(** * Who can change an account's credentials

    The service seen whole: of all that a request over HTTP can do, an account's email, password,
    second factor and passkeys are changed only by a request that carries a session of that very
    account, on the routes made for it. *)

From S2P Require Import Prelude JsString Dates Domain Store Sample Keys Totp SignInAttempts Tokens Sessions Accounts Clients PasskeyStore Auth Handlers SignIn Login SecondFactor Passkeys Records Geocoding Profiles Fleet Couriers Sellers Errors Validation Guards Routes Access.
From Stdlib Require Import Ascii String.

Local Open Scope string_scope.
Local Open Scope Z_scope.

Definition same_credentials (u u' : UserEntity) : Prop :=
  user_email u' = user_email u /\ passwordHash u' = passwordHash u /\ isTwoFactorEnabled u' = isTwoFactorEnabled u /\
  twoFactorSecret u' = twoFactorSecret u.
#[export] Instance same_credentials_preorder : PreOrder same_credentials.
Proof. split; [done|]. intros a b c (?&?&?&?) (?&?&?&?). unfold same_credentials. split_and!; congruence. Qed.

(** The credential of a passkey of this account. *)
Definition passkey_of (u : Z) (p : PasskeyEntity) : option (string * list Z) :=
  if bool_decide (passkey_userId p = u) then Some (credentialId p, publicKey p) else None.

Record account_kept (u : Z) (d d' : Db) : Prop := {
  kept_row : forall row, users d !! u = Some row -> exists row', users d' !! u = Some row' /\ same_credentials (row_user row) (row_user row');
  kept_passkeys : forall id, (passkeys d' !! id ≫= passkey_of u) = (passkeys d !! id ≫= passkey_of u)
}.
#[export] Instance account_kept_preorder u : PreOrder (account_kept u).
Proof.
  split.
  - intros d. split; [|done]. intros row Hr. by exists row.
  - intros d1 d2 d3 [A1 A2] [B1 B2]. split.
    + intros row Hr. destruct (A1 _ Hr) as (row2 & Hr2 & S2). destruct (B1 _ Hr2) as (row3 & Hr3 & S3).
      exists row3. split; [done|by etrans].
    + intros id. by rewrite B2.
Qed.

(** Of every account; of every account but one. *)
Definition credentials_kept (d d' : Db) : Prop := forall u, account_kept u d d'.
Definition others_kept (v : Z) (d d' : Db) : Prop := forall u, u <> v -> account_kept u d d'.
#[export] Instance credentials_kept_preorder : PreOrder credentials_kept.
Proof. split; [intros d u; reflexivity|]. intros a b c H1 H2 u. by etrans; [apply H1|apply H2]. Qed.
#[export] Instance others_kept_preorder v : PreOrder (others_kept v).
Proof. split; [intros d u _; reflexivity|]. intros a b c H1 H2 u Hu. by etrans; [apply H1|apply H2]. Qed.

(** While the stored account has the credentials of [user], they and all others stay. *)
Definition stored_as (user : UserEntity) (d : Db) : Prop :=
  exists row, users d !! user_id user = Some row /\ same_credentials user (row_user row).
Definition tracks (user : UserEntity) (d d' : Db) : Prop := stored_as user d -> stored_as user d' /\ credentials_kept d d'.
#[export] Instance tracks_preorder user : PreOrder (tracks user).
Proof.
  split; [intros d H; split; [done|reflexivity]|]. intros a b c H1 H2 H. destruct (H1 H) as [Hb H12].
  destruct (H2 Hb) as [Hc H23]. split; [done|by etrans].
Qed.

Lemma kept_others v d d' : credentials_kept d d' -> others_kept v d d'.
Proof. intros H u _. apply H. Qed.
Lemma kept_tracks user d d' : credentials_kept d d' -> tracks user d d'.
Proof.
  intros H (row & Hr & Hs). split; [|done]. destruct (kept_row _ _ _ (H _) _ Hr) as (row' & Hr' & Hs').
  exists row'. split; [done|by etrans].
Qed.

Lemma kept_same d d' : users d' = users d -> passkeys d' = passkeys d -> credentials_kept d d'.
Proof. intros Hu Hp u. split; [|by rewrite Hp]. intros row Hr. rewrite Hu. by exists row. Qed.

(** A row written over one with the same credentials, or where there was none. *)
Lemma kept_insert d d' id row :
  users d' = <[id := row]> (users d) -> passkeys d' = passkeys d ->
  (forall old, users d !! id = Some old -> same_credentials (row_user old) (row_user row)) -> credentials_kept d d'.
Proof.
  intros Hu Hp Hs u. split; [|by rewrite Hp]. intros old Hold. rewrite Hu. destruct (decide (id = u)) as [<-|Hne].
  - rewrite lookup_insert_eq. exists row. split; [done|by apply Hs].
  - rewrite lookup_insert_ne by done. by exists old.
Qed.
Lemma others_insert d d' id row :
  users d' = <[id := row]> (users d) -> passkeys d' = passkeys d -> others_kept id d d'.
Proof.
  intros Hu Hp u Hne. split; [|by rewrite Hp]. intros old Hold. rewrite Hu, lookup_insert_ne by done. by exists old.
Qed.

Section Primitives.
Context {P : Platform}.

(** A coarser relation has the primitives of a finer one. *)
Lemma coarser_session (R R' : Db -> Db -> Prop) :
  SessionPrimitives R -> PreOrder R' -> (forall d d', R d d' -> R' d d') -> SessionPrimitives R'.
Proof.
  intros HR HR' Hsub. split; [done|..]; intros;
    (eapply (guar_mono (on_db R)); [intros w w'; apply Hsub|]; eauto with guar).
Qed.

Lemma new_user_kept u : user_id u = 0 -> guar (on_db credentials_kept) (save_user u).
Proof.
  intros Hid. unfold save_user, save_user_row. guar_auto. apply guar_statement; [typeclasses eauto|]. intros w. cbv zeta.
  rewrite Hid. cbn [Z.ltb Z.compare]. destruct (bool_decide (is_Some _)) eqn:E; cbn; [by apply kept_same|].
  apply bool_decide_eq_false in E. destruct (email_taken _ _ _); cbn; [by apply kept_same|].
  eapply kept_insert; [reflexivity|reflexivity|]. intros old Hold. destruct E. eauto.
Qed.

Lemma step_kept id step : guar (on_db credentials_kept) (acceptTwoFactorStep id step).
Proof.
  apply guar_update; [typeclasses eauto|]. intros w. destruct (users (db w) !! id) as [row|] eqn:E; [|reflexivity].
  destruct (step_fresh _ _); [|reflexivity]. eapply kept_insert; [reflexivity|reflexivity|]. intros old Hold. by simplify_eq.
Qed.

#[export] Instance credentials_session : SessionPrimitives credentials_kept.
Proof.
  split; [typeclasses eauto|..]; intros; try (by apply new_user_kept); try apply step_kept; frame; intros ??; by apply kept_same.
Qed.
#[export] Instance others_session v : SessionPrimitives (others_kept v).
Proof. apply (coarser_session credentials_kept); [typeclasses eauto..|apply kept_others]. Qed.
#[export] Instance tracks_session user : SessionPrimitives (tracks user).
Proof. apply (coarser_session credentials_kept); [typeclasses eauto..|apply kept_tracks]. Qed.

Lemma recordUse_kept id n b : guar (on_db credentials_kept) (recordUse id n b).
Proof.
  apply guar_update; [typeclasses eauto|]. intros w. destruct (passkeys (db w) !! id) as [p|] eqn:E; [|reflexivity].
  destruct (sign_count_advances _ _); [|reflexivity]. intros u. split; [intros row Hr; by exists row|]. intros i.
  cbn. destruct (decide (id = i)) as [<-|Hne]; [by rewrite lookup_insert_eq, E|by rewrite lookup_insert_ne].
Qed.

#[export] Instance credentials_passkey_session : PasskeySessionPrimitives credentials_kept.
Proof.
  split; [typeclasses eauto|..]; intros; try apply recordUse_kept; passkey_frame; intros ??; by apply kept_same.
Qed.
End Primitives.

(** ** Saving an account, adding and removing a passkey *)

Section Writes.
Context {P : Platform}.

Lemma save_user_step (R : Db -> Db -> Prop) {HR : PreOrder R} u :
  0 < user_id u ->
  (forall d d' row, row_user row = u -> users d' = <[user_id u := row]> (users d) -> passkeys d' = passkeys d -> R d d') ->
  guar (on_db R) (save_user u).
Proof.
  intros Hpos Hput. unfold save_user, save_user_row. guar_auto. apply guar_statement; [done|]. intros w. cbv zeta.
  rewrite (proj2 (Z.ltb_lt _ _) Hpos). destruct (email_taken _ _ _); [reflexivity|]. cbn. by eapply (Hput _ _ (mkUserRow u _)).
Qed.

Lemma save_user_others u : 0 < user_id u -> guar (on_db (others_kept (user_id u))) (save_user u).
Proof. intros Hpos. apply save_user_step; [typeclasses eauto|done|]. intros d d' row Hr Hu Hp. by eapply others_insert. Qed.

Lemma save_user_tracks user u :
  0 < user_id user -> user_id u = user_id user -> same_credentials user u -> guar (on_db (tracks user)) (save_user u).
Proof.
  intros Hpos Hid Hs. apply save_user_step; [typeclasses eauto|lia|]. intros d d' row Hr Hu Hp (old & Hold & Hso).
  rewrite Hid in Hu. split.
  - exists row. rewrite Hu, lookup_insert_eq, Hr. done.
  - eapply kept_insert; [exact Hu|done|]. intros old' Hold'. assert (old' = old) as -> by congruence.
    rewrite Hr. destruct Hs as (?&?&?&?), Hso as (?&?&?&?).
    unfold same_credentials. split_and!; congruence.
Qed.

Lemma add_passkey_others v c name limit : guar (on_db (others_kept v)) (add_passkey v c name limit).
Proof.
  unfold add_passkey, insert_passkey. guar_auto. apply guar_statement; [typeclasses eauto|]. intros w.
  case_bool_decide; [reflexivity|]. cbn. destruct (passkeys (db w) !! _) eqn:E; [reflexivity|].
  intros x Hne. split; [intros row Hr; by exists row|]. intros i. cbn.
  destruct (decide (uuid_of (uuid_next w) = i)) as [<-|Hi]; [|by rewrite lookup_insert_ne].
  rewrite lookup_insert_eq, E. cbn. unfold passkey_of. cbn. by rewrite bool_decide_eq_false_2.
Qed.

Lemma remove_passkey_others v id : guar (on_db (others_kept v)) (remove_passkey v id).
Proof.
  apply guar_update; [typeclasses eauto|]. intros w. destruct (passkeys (db w) !! id) as [p|] eqn:E; [|reflexivity].
  case_bool_decide as Hv; [|reflexivity]. intros u Hne. split; [intros row Hr; by exists row|]. intros i. cbn.
  destruct (decide (id = i)) as [<-|Hi]; [|by rewrite lookup_delete_ne].
  rewrite lookup_delete_eq, E. cbn. unfold passkey_of. by rewrite bool_decide_eq_false_2 by congruence.
Qed.

(** The frames of the other tables. *)
Lemma ignored_kept {X} (set : X -> Db -> Db) :
  (forall v d, users (set v d) = users d /\ passkeys (set v d) = passkeys d) -> ignores credentials_kept set.
Proof. intros H v d. destruct (H v d). by apply kept_same. Qed.
Lemma ignored_tracks {X} user (set : X -> Db -> Db) :
  (forall v d, users (set v d) = users d /\ passkeys (set v d) = passkeys d) -> ignores (tracks user) set.
Proof. intros H v d. by apply kept_tracks, ignored_kept. Qed.
End Writes.

(** ** The calls of an account on itself *)

Section Owner.
Context {P : Platform} {C : PasskeyCeremonyPort}.
Hint Resolve signIn_admit_guar checkPassword_guar passwordToConfirm_guar acceptCode_guar generateSecret_guar
  revokeOtherSessions_guar revokeAll_guar revokeAccessJti_guar endEnrolment_guar add_passkey_others remove_passkey_others
  findById_guar confirmPassword_guar requireTwoFactor_guar listForUser_guar : guar.

(** The account read for a caller, while ids and keys agree, is the caller's. *)
Lemma own_account_kept {A} (own : Claims -> Z -> M UserEntity) claims userId (k : UserEntity -> M A) w :
  (forall c i, own c i = ownAccount c i) -> keyed (db w) ->
  (forall user, user_id user = uid claims -> 0 < user_id user -> guar (on_db (others_kept (uid claims))) (k user)) ->
  others_kept (uid claims) (db w) (db (run (bind (own claims userId) k) w).2).
Proof.
  intros Hown Hkey Hk. rewrite Hown, run_bind. unfold ownAccount. destruct (Z.eqb_spec (uid claims) userId) as [<-|Hne]; [|reflexivity].
  cbn [negb]. unfold findById. rewrite !run_bind.
  pose proof (guar_run (on_db eq) (query (fun w => users (db w) !! uid claims)) w _ _ (guar_query eq _)) as Hdb.
  destruct (run (query _) w) as [[found|e] w1] eqn:Eq; cbn [snd] in Hdb; unfold on_db in Hdb; [|cbn; rewrite <- Hdb; reflexivity].
  assert (found = users (db w) !! uid claims) as ->.
  { revert Eq. unfold query, statement. cbn. destruct (db_fault _); cbn; by intros [= <- _]. }
  cbn [run]. destruct (users (db w) !! uid claims) as [row|] eqn:Er; cbn [fmap option_fmap option_map run]; [|cbn; rewrite <- Hdb; reflexivity].
  destruct (Hkey _ _ Er) as [Hid Hpos]. rewrite Hdb.
  apply (guar_run (on_db (others_kept (uid claims)))); [typeclasses eauto..|]. apply Hk; lia.
Qed.

Lemma setup_others claims userId p c w :
  keyed (db w) -> others_kept (uid claims) (db w) (db (run (setupTwoFactor claims userId p c) w).2).
Proof.
  intros Hkey. apply own_account_kept; [done|done|]. intros user Hid Hpos. guar_auto.
  rewrite <- Hid. by apply (save_user_others (with_second_factor _ _ user)).
Qed.
Lemma enable_others claims userId code p c w :
  keyed (db w) -> others_kept (uid claims) (db w) (db (run (enableTwoFactor claims userId code p c) w).2).
Proof.
  intros Hkey. apply own_account_kept; [done|done|]. intros user Hid Hpos. guar_auto.
  rewrite <- Hid. by apply (save_user_others (with_second_factor _ _ user)).
Qed.
Lemma disable_others claims userId code p c w :
  keyed (db w) -> others_kept (uid claims) (db w) (db (run (disableTwoFactor claims userId code p c) w).2).
Proof.
  intros Hkey. apply own_account_kept; [done|done|]. intros user Hid Hpos. guar_auto;
  rewrite <- Hid; by apply (save_user_others (with_second_factor _ _ user)).
Qed.
Lemma register_others claims userId ch cr n c w :
  keyed (db w) -> others_kept (uid claims) (db w) (db (run (passkey_register claims userId ch cr n c) w).2).
Proof.
  intros Hkey. apply own_account_kept; [done|done|]. intros user Hid Hpos. rewrite Hid. guar_auto.
  unfold spendRegistration. passkey_frame. intros ??. by apply kept_others, kept_same.
Qed.
Lemma remove_others claims userId id p c w :
  keyed (db w) -> others_kept (uid claims) (db w) (db (run (passkey_remove claims userId id p c) w).2).
Proof.
  intros Hkey. apply own_account_kept; [done|done|]. intros user Hid Hpos. rewrite Hid. guar_auto.
Qed.
End Owner.

(** ** The decisions that save an account *)

Section Decisions.
Context {P : Platform} {G : GeocodingProviderPort} {F : FleetRegistryPort}.
Hint Resolve resolveOrMint_guar findById_guar save_user_tracks : guar.

Lemma read_tracks {A} id (k : option UserEntity -> M A) w :
  keyed (db w) -> guar (on_db credentials_kept) (k None) ->
  (forall user, user_id user = id -> 0 < user_id user -> guar (on_db (tracks user)) (k (Some user))) ->
  credentials_kept (db w) (db (run (bind (findById id) k) w).2).
Proof.
  intros Hkey Hnone Hsome. unfold findById. rewrite !run_bind.
  pose proof (guar_run (on_db eq) (query (fun w => users (db w) !! id)) w _ _ (guar_query eq _)) as Hdb.
  destruct (run (query _) w) as [[found|e] w1] eqn:Eq; cbn [snd] in Hdb; unfold on_db in Hdb; [|cbn; rewrite <- Hdb; reflexivity].
  assert (found = users (db w) !! id) as ->.
  { revert Eq. unfold query, statement. cbn. destruct (db_fault _); cbn; by intros [= <- _]. }
  cbn [run]. rewrite Hdb in *. destruct (users (db w1) !! id) as [row|] eqn:Er; cbn [fmap option_fmap option_map].
  - destruct (Hkey _ _ Er) as [Hid Hpos].
    apply (guar_run (on_db (tracks (row_user row)))); [typeclasses eauto..|apply Hsome; [done|lia]|].
    exists row. rewrite Hid. done.
  - apply (guar_run (on_db credentials_kept)); [typeclasses eauto..|done].
Qed.

Lemma kept_then {A B} (m : M A) (k : A -> M B) w :
  guar (on_db eq) m -> (forall a w1, db w1 = db w -> credentials_kept (db w1) (db (run (k a) w1).2)) ->
  credentials_kept (db w) (db (run (bind m k) w).2).
Proof.
  intros Hm Hk. pose proof (guar_run (on_db eq) m w _ _ Hm) as Hdb. unfold on_db in Hdb. rewrite run_bind.
  destruct (run m w) as [[a|e] w1]; cbn [snd] in *; [|by apply kept_same; rewrite Hdb]. rewrite Hdb. by apply Hk.
Qed.

Lemma role_credentials role user : same_credentials user (with_role role user).
Proof. done. Qed.

Lemma approveCourier_kept p w : keyed (db w) -> credentials_kept (db w) (db (run (approveCourier p) w).2).
Proof.
  intros Hkey. unfold approveCourier. apply kept_then; [unfold userIdForPrincipal; guar_auto|].
  intros [userId|] w1 E1; [|reflexivity]. apply read_tracks; [by rewrite E1|exact I|]. intros user Hid Hpos.
  unfold findCourierApplication, activateInFleet, restoreCustomer, courier_refusalOf, approved, recordApproved, write_application.
  guar_auto; try (by apply save_user_tracks);
    (apply guar_statement; [typeclasses eauto|]; intros w'; cbv zeta; destruct (_ || _); by apply kept_tracks, kept_same).
Qed.

Lemma merchant_placeOnMap_kept m : guar (on_db credentials_kept) (merchant_placeOnMap m).
Proof. unfold merchant_placeOnMap. guar_auto. apply geocode_guar; [typeclasses eauto|]. intros. by apply kept_same. Qed.
Lemma save_merchant_kept m : guar (on_db credentials_kept) (save_merchant m).
Proof. apply save_record_guar; [typeclasses eauto|intros; by apply kept_same..]. Qed.
Lemma save_verification_kept v : guar (on_db credentials_kept) (save_verification v).
Proof. apply save_record_guar; [typeclasses eauto|intros; by apply kept_same..]. Qed.
Lemma approved_merchant_kept userId t v found : guar (on_db credentials_kept) (approved_merchant userId t v found).
Proof. unfold approved_merchant, uniqueSlug, findBySlug. guar_auto. Qed.
Lemma registerAlias_kept p s l : guar (on_db credentials_kept) (registerAlias p s l).
Proof. unfold registerAlias, find_alias. guar_auto. Qed.

Lemma tracked {A} user (m : M A) : guar (on_db credentials_kept) m -> guar (on_db (tracks user)) m.
Proof. apply guar_mono. intros w w'. apply kept_tracks. Qed.

Lemma approveVerification_kept userId w :
  keyed (db w) -> credentials_kept (db w) (db (run (approveVerification userId) w).2).
Proof.
  intros Hkey. unfold approveVerification.
  apply kept_then; [unfold pendingSellerApplication, findApplication, findVerification; guar_auto|].
  intros v w1 E1. apply read_tracks; [by rewrite E1|exact I|]. intros user Hid Hpos.
  apply guar_bind; [unfold requireMayBecomeSeller; guar_auto|]. intros _.
  apply guar_bind; [guar_auto|]. intros verified. apply guar_bind; [unfold findMerchant; guar_auto|]. intros found.
  apply guar_bind; [guar_auto|]. intros _.
  apply guar_bind; [apply tracked, approved_merchant_kept|]. intros unplaced.
  apply guar_bind; [apply tracked, merchant_placeOnMap_kept|]. intros placed.
  apply guar_bind; [apply tracked, save_merchant_kept|]. intros merchant.
  apply guar_bind.
  { destruct (bool_decide _); [exact I|]. apply guar_bind; [by apply save_user_tracks|]. intros _. exact I. }
  intros _. apply guar_bind; [apply resolveOrMint_guar; typeclasses eauto|]. intros principal.
  apply guar_bind; [guar_auto|]. intros _. apply guar_bind; [apply tracked, registerAlias_kept|]. intros _.
  apply guar_bind; [apply tracked, save_verification_kept|]. intros _. exact I.
Qed.
End Decisions.

(** ** Every call *)

Section Calls.
Context {P : Platform} {G : GeocodingProviderPort} {F : FleetRegistryPort} {C : PasskeyCeremonyPort} {V : ValidatorLibrary}.
Context (cfg : TokenConfig P) (registry : ClientRegistry) (verifier : option (ClientProofVerifierPort World)).
Context (throttled : Route -> Request -> World -> bool) (credential_of : JsonObject -> Credential).
Context (Hverifier : verifier_reads_only verifier).
Abbreviation serve := (Routes.serve cfg registry verifier throttled credential_of).
Abbreviation handle := (Routes.handle cfg credential_of).

(** The calls made to change one's own credentials. *)
Definition credential_call (c : Call) : bool :=
  match c with
  | AuthSetupTwoFactor _ | AuthEnableTwoFactor _ | AuthDisableTwoFactor _ | PasskeyRegister _ | PasskeyRemove _ => true
  | _ => false
  end.

Hint Resolve login_guar verifyTwoFactor_guar register_account_guar refresh_guar auth_logout_guar passkey_signInOptions_guar
  passkey_verifySignIn_guar passkey_list_guar passkey_ownAccount_guar confirmPassword_guar requireTwoFactor_guar
  listForUser_guar findById_guar findByEmail_guar verifyPassword_guar startSession_guar guar_of_res getProfile_guar : guar.

Ltac kept := intros; by apply kept_same.

Lemma updateProfile_kept u dto : guar (on_db credentials_kept) (updateProfile u dto).
Proof. apply updateProfile_guar; [typeclasses eauto|kept..]. Qed.
Lemma recordFiled_kept f : guar (on_db credentials_kept) (recordFiled f).
Proof.
  unfold recordFiled, write_application. guar_auto. apply guar_statement; [typeclasses eauto|]. intros w. cbv zeta.
  destruct (_ || _); kept.
Qed.
Lemma recordRejected_kept u : guar (on_db credentials_kept) (recordRejected u).
Proof.
  apply guar_update; [typeclasses eauto|]. intros w. destruct (courier_applications (db w) !! u); [|reflexivity].
  case_bool_decide; [kept|reflexivity].
Qed.
Lemma issueRegistration_kept u ch s : guar (on_db credentials_kept) (issueRegistration u ch s).
Proof. passkey_frame. intros ??. kept. Qed.
Hint Resolve updateProfile_kept save_verification_kept recordFiled_kept recordRejected_kept issueRegistration_kept : guar.

Lemma register_courier_kept dto context : guar (on_db credentials_kept) (register_courier cfg dto context).
Proof. unfold register_courier, sessionFor, resume, fileVehicle, explain. guar_auto. Qed.
Hint Resolve register_courier_kept : guar.

Lemma answering_kept {A} (f : A -> Answer) (m : M A) w :
  credentials_kept (db w) (db (run m w).2) -> credentials_kept (db w) (db (run (answering f m) w).2).
Proof. unfold answering. rewrite run_bind. by destruct (run m w) as [[]]. Qed.

Lemma handle_kept c rq w :
  keyed (db w) -> credential_call c = false -> credentials_kept (db w) (db (run (handle c rq) w).2).
Proof.
  intros Hkey Hc. destruct c; try done; open_handler;
    try (apply (guar_run (on_db credentials_kept)); [typeclasses eauto..|];
         unfold answering, passkey_registrationOptions, list_seller_applications, principalsOf, seller_tally, applicationOf,
           onboardSeller, requireMayBecomeSeller, rejectVerification, pendingSellerApplication, findApplication, findVerification,
           withPrincipal, principalIdForUser, find_alias, list_applications, courier_tally, rejectCourier, userIdForPrincipal,
           pendingCourierApplication, findCourierApplication;
         guar_auto; fail).
  - apply kept_then; [apply guar_of_res|]. intros u w1 E. apply answering_kept, approveVerification_kept. by rewrite E.
  - apply kept_then; [apply guar_of_res|]. intros u w1 E. apply answering_kept, approveCourier_kept. by rewrite E.
Qed.

Lemma answering_others {A} v (f : A -> Answer) (m : M A) w :
  others_kept v (db w) (db (run m w).2) -> others_kept v (db w) (db (run (answering f m) w).2).
Proof. unfold answering. rewrite run_bind. by destruct (run m w) as [[]]. Qed.

Lemma others_then {A B} v (r : res exn A) (k : A -> M B) w :
  (forall a, r = Ok a -> others_kept v (db w) (db (run (k a) w).2)) -> others_kept v (db w) (db (run (bind (of_res r) k) w).2).
Proof. destruct r as [a|e]; cbn; [intros H; by apply H|intros _; reflexivity]. Qed.

(** A call on one's own credentials leaves every other account's. *)
Lemma handle_others c rq claims w :
  keyed (db w) -> credential_call c = true -> rq_user rq = Some claims ->
  others_kept (uid claims) (db w) (db (run (handle c rq) w).2).
Proof.
  intros Hkey Hc Hu.
  assert (forall c', CurrentSession rq = Ok c' -> c' = claims) as Hs by (unfold CurrentSession; rewrite Hu; by intros c' [= <-]).
  assert (forall c', CurrentUser rq = Ok c' -> c' = claims) as Hcu
    by (unfold CurrentUser; rewrite Hu; intros c'; case_bool_decide; by intros [= <-]).
  destruct c; try done; open_handler; apply others_then; intros c';
    [intros ->%Hs|intros ->%Hs|intros ->%Hcu..]; apply others_then; intros userId _; apply others_then; intros sent _;
    try (apply others_then; intros sent' _); repeat (destruct sent as [sent ?]); apply answering_others.
  all: first [by apply setup_others|by apply enable_others|by apply disable_others|by apply register_others|by apply remove_others].
Qed.

(** C5: Of a request that is served on its own, with no step of another request between its own: whatever
    is sent over HTTP, and whichever database calls are lost, it changes the email, the password, the
    second factor or the passkeys of an account only if it carries a session token of that very account
    which verifies now, and asks for one of the five calls made for it. Every other call, by whomever,
    keeps them as they are, an approval that saves an account's new role among them. Requests that
    overlap are not in this statement: an approval writes back what it read of the account, and so can
    undo a change made in between ([approval_undoes_second_factor] below). *)
Theorem credentials_change_by_owner_only c rq w u :
  keyed (db w) ->
  account_kept u (db w) (db (run (serve c rq) w).2) \/
  (credential_call c = true /\ exists claims, caller cfg rq w claims /\ uid claims = u).
Proof.
  intros Hkey. unfold Routes.serve. rewrite run_bind.
  pose proof (guarded_db cfg registry verifier throttled Hverifier (route_of c) rq w) as Hdb.
  destruct (run (guarded _ _ _ _ (route_of c) rq) w) as [[rq'|e] w1] eqn:Eg; cbn [fst snd] in Hdb |- *; [|left; by rewrite Hdb].
  destruct (run_audit (route_of c) rq' (handle c rq') w1) as [_ ->]. rewrite <- Hdb in Hkey |- *.
  destruct (credential_call c) eqn:Ec; [|left; by apply handle_kept].
  assert (route_public (route_of c) = false /\ ClientProofGuard ∉ route_guards (route_of c)) as [Hp Hno].
  { destruct c; try done; (split; [done|]); cbn; set_solver. }
  destruct (guarded_session _ _ _ _ _ _ _ _ _ Hp Hno Eg) as (claims & Hcaller & -> & _).
  destruct (decide (uid claims = u)) as [<-|Hne]; [right; eauto|left].
  apply (handle_others c (with_user claims rq) claims); done.
Qed.
End Calls.

Module Witness.

Abbreviation cfg := Sessions.Witness.cfg.
Abbreviation provider := Geocoding.Witness.sample_provider.
Abbreviation ceremony := Passkeys.Witness.ceremony.

(** A fleet that does all it is asked. *)
Definition transport : FleetTransport := {|
  contract_fault := None;
  identity_fault := None;
  has_method := fun _ => true;
  grpc_call := fun _ _ _ => GrpcReply (Fleet.mkReply true 7 false None)
|}.
Definition fleet : @FleetRegistryPort sample_platform := @FleetRegistryGrpcAdapter transport sample_platform.
Definition library : ValidatorLibrary := {|
  isEmail := contains "@"; isHttpsUrl := startsWith "https://"; isUUID := fun s => negb (String.eqb s ""); isISO8601 := fun _ => true
|}.
Definition registry : ClientRegistry := mkRegistry [] allow_unnamed None.
Definition never (_ : Route) (_ : Request) (_ : World) : bool := false.
Definition credential (o : JsonObject) : @Credential ceremony := (text "id" o, text "challenge" o).

Definition request (token : option string) (id : string) : Request :=
  mkRequest "POST" "/" (fun h => if String.eqb h "authorization" then HeaderOne <$> ((fun t => "Bearer " ++ t) <$> token) else None)
    (fun p => if String.eqb p "id" then Some id else None) None None.
Definition call (c : Call) (rq : Request) (w : World) :=
  run (@Routes.serve sample_platform provider fleet ceremony library cfg registry None never credential c rq) w.

(** Alice registers, and with the session she is given asks for a secret. *)
Definition registration : JsonObject := [("email", JString "Alice@x.io"); ("password", JString "correct horse")].
Definition registered := call (AuthRegister registration) (request None "") (world_at 1000000000 empty_db).
Definition token : string := match registered.1 with Ok (AnswerSession s) => out_accessToken s | _ => "" end.
Definition setup := call (AuthSetupTwoFactor [("password", JString "correct horse")]) (request (Some token) "1") registered.2.

Lemma verifier_ok : verifier_reads_only None.
Proof. intros v H. discriminate H. Defined.

Definition secret : string := match setup.1 with Ok (AnswerSetup (s, _)) => s | _ => "" end.
Definition code : string := match @codeAt sample_platform secret (1000000 / 30) with Ok c => c | Err _ => "" end.
Definition enable : Call := AuthEnableTwoFactor [("code", JString code); ("password", JString "correct horse")].
Definition enabled := call enable (request (Some token) "1") setup.2.

Lemma requests_run_under_authority_witness :
  enabled.1 = Ok (AnswerEnabled true) /\
  exists claims, caller cfg (request (Some token) "1") setup.2 claims /\ permitted enable (request (Some token) "1") claims.
Proof.
  assert (enabled.1 = Ok (AnswerEnabled true)) as Hok by (vm_compute; reflexivity). split; [exact Hok|].
  destruct (@requests_run_under_authority sample_platform provider fleet ceremony library cfg registry None never credential
    verifier_ok enable (request (Some token) "1") setup.2) as [(e & He & _)|[(Hp & _)|H]]; [|discriminate Hp|exact H].
  exfalso. unfold enabled, call in Hok. rewrite Hok in He. discriminate He.
Defined.

Lemma setup_keyed : keyed (db setup.2).
Proof.
  assert (map_Forall (fun id row => user_id (row_user row) = id /\ 0 < id) (users (db setup.2))) as H
    by (apply (bool_decide_unpack _); vm_compute; exact I).
  intros id row Hr. exact (H id row Hr).
Defined.

Lemma credentials_change_by_owner_only_witness :
  ~ account_kept 1 (db setup.2) (db enabled.2) /\
  exists claims, caller cfg (request (Some token) "1") setup.2 claims /\ uid claims = 1.
Proof.
  assert (~ account_kept 1 (db setup.2) (db enabled.2)) as Hchanged.
  { intros [H _].
    assert (exists row row', users (db setup.2) !! 1 = Some row /\ users (db enabled.2) !! 1 = Some row' /\
      isTwoFactorEnabled (row_user row) = false /\ isTwoFactorEnabled (row_user row') = true) as (row & row' & Hr & Hr' & Hf & Ht)
      by (do 2 eexists; split; [vm_compute; reflexivity|split; [vm_compute; reflexivity|split; reflexivity]]).
    destruct (H row Hr) as (row2 & Hr2 & _ & _ & Hs & _). rewrite Hr' in Hr2. injection Hr2 as <-. rewrite Hf, Ht in Hs. discriminate Hs. }
  split; [exact Hchanged|].
  destruct (@credentials_change_by_owner_only sample_platform provider fleet ceremony library cfg registry None never credential
    verifier_ok enable (request (Some token) "1") setup.2 1 setup_keyed) as [Hkept|[_ H]]; [|exact H].
  destruct (Hchanged Hkept).
Defined.

(** An administrator writes Alice's profile. *)
Definition admin_claims : Claims := mkClaims "boss" "t9" "kinetix" "api" 999000 1000900 "access" (Some "f9") None 9 (Some "b@x.io") (Some "admin").
Definition admin_request : Request := request (Some (@sign sample_platform cfg admin_claims)) "1".
Definition rename : Call := ProfileUpdate [("fullName", JString "Alice")].
Definition renamed := call rename admin_request registered.2.

Lemma admin_calls : caller cfg admin_request registered.2 admin_claims.
Proof. do 2 eexists. split; vm_compute; reflexivity. Defined.

Lemma administrators_are_audited_witness :
  is_ok renamed.1 = true /\
  exists before, events renamed.2 = (before ++ [MetricAdminAction "identity.profile_update" "done";
                                                LogAdminAction None "boss" "identity.profile_update" "1" "done"])%list.
Proof.
  assert (is_ok renamed.1 = true) as Hok by (vm_compute; reflexivity). split; [exact Hok|].
  destruct (@administrators_are_audited sample_platform provider fleet ceremony library cfg registry None never credential
    verifier_ok rename admin_request registered.2 admin_claims "identity.profile_update" admin_calls (conj eq_refl eq_refl) eq_refl)
    as [(e & w1 & _ & He & _)|(rq' & w1 & _ & before & outcome & Hev & [_ Hdone] & _)].
  - exfalso. unfold renamed, call in Hok. rewrite He in Hok. discriminate Hok.
  - exists before. specialize (Hdone Hok). subst outcome. exact Hev.
Defined.

(** An administrator asks for a page with a size that no page has: the guards pass, and the refusal is
    recorded too. *)
Definition oversized := call (SellerListApplications [("limit", JString "500")]) admin_request registered.2.
Example refused_read_recorded :
  oversized.1 = Err (HttpException BadRequest None "Bad Request Exception") /\
  List.last (events oversized.2) (LogLine None "") = LogAdminAction None "boss" "identity.seller_applications_list" "*" "refused".
Proof. split; vm_compute; reflexivity. Qed.

Lemma requests_are_bounded_witness :
  is_ok registered.1 = true /\ is_ok renamed.1 = true /\
  (exists email password, @read_registration library registration = Ok (email, password) /\ @registration_bounded library email password) /\
  (exists id, target admin_request id /\ 1 <= id <= 2147483647) /\
  (exists dto, @read_profile library [("fullName", JString "Alice")] = Ok dto /\ @profile_bounded library dto).
Proof.
  assert (is_ok registered.1 = true) as Hok by (vm_compute; reflexivity).
  assert (is_ok renamed.1 = true) as Hok' by (vm_compute; reflexivity). split; [exact Hok|]. split; [exact Hok'|]. split.
  - destruct (@requests_are_bounded sample_platform provider fleet ceremony library cfg registry None never credential
      verifier_ok (AuthRegister registration) (request None "") (world_at 1000000000 empty_db)) as [(e & He & _)|[_ H]]; [|exact H].
    exfalso. unfold registered, call in Hok. rewrite He in Hok. discriminate Hok.
  - destruct (@requests_are_bounded sample_platform provider fleet ceremony library cfg registry None never credential
      verifier_ok rename admin_request registered.2) as [(e & He & _)|[Hid H]]; [|split; [exact (Hid eq_refl)|exact H]].
    exfalso. unfold renamed, call in Hok'. rewrite He in Hok'. discriminate Hok'.
Defined.

(** *** An approval and a second factor, interleaved

    The statements above are of a request served alone. An approval saves every column of the
    account as it read it: when the account enables its second factor in between, the approval
    turns it off again, and both requests succeed. *)
Definition principal : string := match registered.1 with Ok (AnswerSession s) => out_principalId s | _ => "" end.
Definition as_unit {A} (m : M A) : M unit := bind m (fun _ => Ret tt).
Definition racing := schedule (flat_map (fun '(i, n) => repeat i n) [(0, 2); (1, 40); (0, 40)]%nat)
  (setup.2, [as_unit (@approveCourier sample_platform fleet principal);
             as_unit (@Routes.serve sample_platform provider fleet ceremony library cfg registry None never credential enable (request (Some token) "1"))]).

Lemma approval_undoes_second_factor :
  map (fun m => match m with Ret _ => true | _ => false end) racing.2 = [true; true] /\
  (fun row => isTwoFactorEnabled (row_user row)) <$> users (db racing.1) !! 1 = Some false.
Proof. split; vm_compute; reflexivity. Qed.
End Witness.
