(* ===== verification/Mesh.v ===== *)
(** * The mesh: who may call the gRPC server

    Models src/src/infrastructure/mesh/spiffe.ts (the service a client certificate names),
    peer_allow_list.ts (the allow list read from GRPC_ALLOWED_CALLERS) and
    peer_authorization_interceptor.ts (the decision on a call). Node's [URL] parser is the class
    [UrlParser]. The section [Facts] states the decision without reference to the order of the
    list, of the certificate's other names or of the trust domains, and proves that the code takes
    that decision. *)

From S2P Require Import Prelude JsString Domain Keys.
From Stdlib Require Import Ascii String.

Local Open Scope string_scope.
Local Open Scope Z_scope.

(** ** Strings *)

(** [s.indexOf(c)] and the two slices around it; [None] where it answers -1. *)
Fixpoint cut_list (c : ascii) (l : list ascii) : option (list ascii * list ascii) :=
  match l with
  | [] => None
  | x :: l' => if Ascii.eqb x c then Some ([], l') else '(a, b) ← cut_list c l'; Some (x :: a, b)
  end.
Definition cut (c : ascii) (s : string) : option (string * string) :=
  '(a, b) ← cut_list c (str_list s); Some (list_str a, list_str b).

(** [s.slice(n)] *)
Definition slice_from (n : nat) (s : string) : string := list_str (drop n (str_list s)).

(** [s.replace(/^\/+/, "")] *)
Definition strip_slashes (s : string) : string := list_str (drop_while (Ascii.eqb "/") (str_list s)).

(** [s.split(",").map(trim).filter(nonempty)] *)
Definition entries (raw : string) : list string :=
  List.filter (fun e => negb (String.eqb e "")) (map trim (split "," raw)).

(** ** Identities *)

Record Url := mkUrl { url_protocol : string; url_host : string; url_pathname : string }.

(** [new URL(value)]; [None] where it throws. *)
Class UrlParser := { parse_url : string -> option Url }.

Definition DEFAULT_TRUST_DOMAIN : string := "kinetix.local".

Definition trustDomains (configured : option string) : list string :=
  match entries (default "" configured) with
  | [] => [DEFAULT_TRUST_DOMAIN]
  | domains => domains
  end.

Definition trust_prefix (domain : string) : string := "spiffe://" ++ domain ++ "/service/".
Definition TRUST_PREFIXES (configured : option string) : list string := map trust_prefix (trustDomains configured).

Definition serviceOf (id pre : string) : option string :=
  if negb (startsWith pre id) then None
  else
    let service := slice_from (String.length pre) id in
    if String.eqb service "" || bool_decide (is_Some (cut "/" service)) then None else Some service.

Record PeerCertificate := mkCertificate { subjectaltname : option string }.
Record PeerAuthContext := mkPeer { sslPeerCertificate : option PeerCertificate }.

(** [auth?.sslPeerCertificate?.subjectaltname] *)
Definition subject_alt_name (auth : option PeerAuthContext) : option string :=
  match auth with
  | Some (mkPeer (Some certificate)) => subjectaltname certificate
  | _ => None
  end.

Section Identity.
Context {U : UrlParser} (configured : option string).

(** The service one entry of the subject alternative name stands for. *)
Definition entry_service (entry : string) : option string :=
  let trimmed := trim entry in
  if negb (startsWith "URI:" trimmed) then None
  else
    url ← parse_url (slice_from (String.length "URI:") trimmed);
    let normalised := url_protocol url ++ "//" ++ url_host url ++ url_pathname url in
    head (omap (serviceOf normalised) (TRUST_PREFIXES configured)).

Definition peerService (auth : option PeerAuthContext) : option string :=
  match subject_alt_name auth with
  | None => None
  | Some subjectAltName =>
      if String.eqb subjectAltName "" then None else head (omap entry_service (split "," subjectAltName))
  end.
End Identity.

(** ** The allow list *)

(** [grants]: [None] permits every method, [Some] the scopes it lists. *)
Definition PeerAllowList : Type := list (string * option (list string)).

Definition SCHEMA_SERVICES : list string :=
  ["grpc.reflection.v1.ServerReflection"; "grpc.reflection.v1alpha.ServerReflection"].

Definition set_add (x : string) (l : list string) : list string := if bool_decide (x ∈ l) then l else (l ++ [x])%list.

Definition malformed_entry (entry : string) : exn :=
  PlainError ("'" ++ entry ++ "' in GRPC_ALLOWED_CALLERS names no peer or no scope; write peer, " ++
              "peer@package.Service or peer@package.Service/Method.").

(** One turn of the loop over the entries. *)
Definition add_entry (grants : PeerAllowList) (entry : string) : res exn PeerAllowList :=
  match cut "@" entry with
  | None => Ok (map_set entry None grants)
  | Some (peer, rest) =>
      let scope := strip_slashes rest in
      if String.eqb peer "" || String.eqb scope "" then Err (malformed_entry entry)
      else
        match map_get peer grants with
        | Some None => Ok grants
        | Some (Some scopes) => Ok (map_set peer (Some (set_add scope scopes)) grants)
        | None => Ok (map_set peer (Some [scope]) grants)
        end
  end.

Fixpoint add_entries (grants : PeerAllowList) (l : list string) : res exn PeerAllowList :=
  match l with
  | [] => Ok grants
  | entry :: l => match add_entry grants entry with Ok grants => add_entries grants l | Err e => Err e end
  end.

Definition parsePeerAllowList (raw : string) : res exn PeerAllowList := add_entries [] (entries raw).

Definition names (allowed : PeerAllowList) (peer : string) : bool := bool_decide (is_Some (map_get peer allowed)).

(** The service of a method's path: all of it before the slash. *)
Definition service_of_method (called : string) : string :=
  match cut "/" called with Some (service, _) => service | None => called end.

Definition permits (allowed : PeerAllowList) (peer method : string) : bool :=
  match map_get peer allowed with
  | None => false
  | Some None => true
  | Some (Some scopes) =>
      let called := strip_slashes method in
      let service := service_of_method called in
      bool_decide (called ∈ scopes) || bool_decide (service ∈ scopes) || bool_decide (service ∈ SCHEMA_SERVICES)
  end.

Definition summarise (allowed : PeerAllowList) : string :=
  join "; " (map (fun '(peer, scopes) =>
    match scopes with None => peer | Some l => peer ++ " (" ++ join ", " l ++ ")" end) allowed).

(** ** The interceptor *)

Definition UNAUTHENTICATED : Z := 16.
Definition PERMISSION_DENIED : Z := 7.

(** What the interceptor returns: the call as it is, or one that is answered with a status as soon
    as its metadata arrives, which the handler therefore never receives. *)
Inductive ServerInterceptingCall :=
| Passing
| Refusing (code : Z) (details : string).

Definition refuse (code : Z) (details : string) : ServerInterceptingCall := Refusing code details.

Section Interceptor.
Context {U : UrlParser} (configured : option string).

(** The warning it logs, and the call. *)
Definition peerAuthorizationInterceptor (allowed : PeerAllowList) (method : string) (auth : option PeerAuthContext)
  : option string * ServerInterceptingCall :=
  match peerService configured auth with
  | None =>
      (Some ("refused a gRPC call to " ++ method ++ " from a peer with no SPIFFE identity"),
       refuse UNAUTHENTICATED "a client certificate carrying a SPIFFE id is required")
  | Some service =>
      if negb (names allowed service) then
        (Some ("refused a gRPC call to " ++ method ++ " from " ++ service ++ ", which is not on the allow list"),
         refuse PERMISSION_DENIED ("service '" ++ service ++ "' may not call this server"))
      else if negb (permits allowed service method) then
        (Some ("refused a gRPC call to " ++ method ++ " from " ++ service ++ ", which is not permitted that method"),
         refuse PERMISSION_DENIED ("service '" ++ service ++ "' may not call " ++ method))
      else (None, Passing)
  end.
End Interceptor.

(** With the line it logs. *)
Definition allowedCallers (configured : option string) : res exn (PeerAllowList * string) :=
  match parsePeerAllowList (default "" configured) with
  | Err e => Err e
  | Ok [] =>
      Err (PlainError ("GRPC_ALLOWED_CALLERS is empty. Name the services permitted to call this server, or the " ++
                       "gRPC surface is unreachable."))
  | Ok allowed => Ok (allowed, "gRPC callers allowed on this server: " ++ summarise allowed)
  end.

(** ** Facts *)

Lemma cut_list_spec c l a b : cut_list c l = Some (a, b) <-> l = (a ++ c :: b)%list /\ c ∉ a.
Proof.
  revert a. induction l as [|x l IH]; intros a; cbn.
  - split; [done|]. intros [H _]. by destruct a.
  - destruct (Ascii.eqb_spec x c) as [->|Hx].
    + split; [intros [= <- <-]; split; [done|apply not_elem_of_nil]|].
      intros [H Hc]. destruct a as [|y a]; cbn in H; [by simplify_eq|]. simplify_eq. destruct Hc. by left.
    + destruct (cut_list c l) as [[a' b']|] eqn:E; cbn.
      * split.
        -- intros [= <- <-]. destruct (proj1 (IH a') eq_refl) as [-> Hc]. split; [done|]. by intros [->|]%elem_of_cons.
        -- intros [H Hc]. destruct a as [|y a]; cbn in H; simplify_eq. apply not_elem_of_cons in Hc as [_ Hc].
           pose proof (proj2 (IH a) (conj eq_refl Hc)) as He. injection He as -> ->. done.
      * split; [done|]. intros [H Hc]. destruct a as [|y a]; cbn in H; simplify_eq. apply not_elem_of_cons in Hc as [_ Hc].
        discriminate (proj2 (IH a) (conj eq_refl Hc)).
Qed.

Lemma str_list_inj s t : str_list s = str_list t -> s = t.
Proof. intros H. by rewrite <- (list_str_list s), H, list_str_list. Qed.
Lemma str_app_assoc s t u : (s ++ t) ++ u = s ++ t ++ u.
Proof. apply str_list_inj. by rewrite !str_list_app, app_assoc. Qed.

Lemma cut_spec c s a b : cut c s = Some (a, b) <-> s = a ++ String c b /\ c ∉ str_list a.
Proof.
  unfold cut. split.
  - destruct (cut_list c (str_list s)) as [[a' b']|] eqn:E; cbn; [|done]. intros [= <- <-].
    apply cut_list_spec in E as [E Hc]. rewrite str_list_str. split; [|done]. apply str_list_inj.
    rewrite E, str_list_app. cbn. by rewrite !str_list_str.
  - intros [-> Hc]. rewrite str_list_app. cbn.
    rewrite (proj2 (cut_list_spec c _ (str_list a) (str_list b))) by done. cbn. by rewrite !list_str_list.
Qed.

Lemma cut_None c s : cut c s = None <-> c ∉ str_list s.
Proof.
  split.
  - intros H Hc. apply list_elem_of_split_l in Hc as (a & b & E & Ha).
    assert (cut c s = Some (list_str a, list_str b)) as He; [|by rewrite H in He].
    apply cut_spec. rewrite str_list_str. split; [|done]. apply str_list_inj. rewrite E, str_list_app. cbn.
    by rewrite !str_list_str.
  - intros Hc. destruct (cut c s) as [[a b]|] eqn:E; [|done]. apply cut_spec in E as [-> _].
    destruct Hc. rewrite str_list_app. apply elem_of_app. right. by left.
Qed.

(** *** Identities *)

Lemma head_omap_spec {A B} (f : A -> option B) l b :
  head (omap f l) = Some b <-> exists pre x post, l = (pre ++ x :: post)%list /\ f x = Some b /\ forall y, y ∈ pre -> f y = None.
Proof.
  split.
  - induction l as [|x l IH]; cbn; [done|]. destruct (f x) as [b'|] eqn:E; cbn.
    + intros [= <-]. exists [], x, l. split; [done|]. split; [done|]. by intros y ?%not_elem_of_nil.
    + intros (pre & z & post & -> & Hz & Hpre)%IH. exists (x :: pre), z, post. split; [done|]. split; [done|].
      intros y [->|]%elem_of_cons; auto.
  - intros (pre & x & post & -> & Hx & Hpre). induction pre as [|y pre IH]; cbn; [by rewrite Hx|].
    rewrite (Hpre y) by (by left). apply IH. intros z Hz. apply Hpre. by right.
Qed.

Lemma prefix_app pre s : startsWith pre s = true <-> exists rest, s = pre ++ rest.
Proof.
  unfold startsWith. revert s. induction pre as [|c pre IH]; intros s.
  - split; [by exists s|by destruct s].
  - destruct s as [|d s]; [split; [done|by intros [? [=]]]|].
    change (String.prefix (String c pre) (String d s)) with (if ascii_dec c d then String.prefix pre s else false).
    destruct (ascii_dec c d) as [->|Hn]; [rewrite IH|]; split; try done.
    + intros [rest ->]. by exists rest.
    + intros [rest [= ->]]. by exists rest.
    + intros [rest [= ->]]. done.
Qed.

Lemma slice_app pre rest : slice_from (String.length pre) (pre ++ rest) = rest.
Proof.
  unfold slice_from. rewrite str_list_app, drop_app_length' by (by rewrite str_list_length). apply list_str_list.
Qed.

Definition no_slash (s : string) : Prop := ("/"%char ∉ str_list s).

Lemma serviceOf_spec id pre s : serviceOf id pre = Some s <-> id = pre ++ s /\ s <> "" /\ no_slash s.
Proof.
  unfold serviceOf, no_slash. split.
  - destruct (startsWith pre id) eqn:E; cbn; [|done]. apply prefix_app in E as [rest ->].
    rewrite slice_app. destruct (String.eqb_spec rest "") as [|Hne]; cbn; [done|].
    case_bool_decide as Hc; [done|]. intros [= ->]. split; [done|]. split; [done|].
    apply cut_None. destruct (cut _ _); [|done]. by destruct Hc.
  - intros (-> & Hne & Hs). rewrite (proj2 (prefix_app pre _)) by eauto. cbn. rewrite slice_app.
    destruct (String.eqb_spec s ""); [done|]. cbn. rewrite bool_decide_eq_false_2; [done|].
    apply cut_None in Hs. rewrite Hs. by intros [? [=]].
Qed.

(** What follows the last slash of an identity does not depend on the trust domain. *)
Lemma after_last_slash a b s t :
  a ++ "/" ++ s = b ++ "/" ++ t -> no_slash s -> no_slash t -> s = t.
Proof.
  intros H Hs Ht. apply (f_equal (fun x => cut_list "/" (rev (str_list x)))) in H.
  rewrite !str_list_app in H. cbn in H. rewrite !rev_app_distr in H. cbn in H. rewrite <- !app_assoc in H. cbn in H.
  assert (forall u v, no_slash u -> cut_list "/" (rev (str_list u) ++ "/"%char :: v) = Some (rev (str_list u), v)) as Hcut.
  { intros u v Hu. apply cut_list_spec. split; [done|]. rewrite list_elem_of_In, <- in_rev, <- list_elem_of_In. done. }
  rewrite !Hcut in H by done. injection H as H _. apply str_list_inj. rewrite <- (rev_involutive (str_list s)), H.
  apply rev_involutive.
Qed.

Section Identified.
Context {U : UrlParser} (configured : option string).

(** An entry of the subject alternative name stands for a service: it is a URI that is the
    service's identity under one of the trust domains. *)
Definition identifies (entry s : string) : Prop :=
  exists value url domain, trim entry = "URI:" ++ value /\ parse_url value = Some url /\
    domain ∈ trustDomains configured /\
    url_protocol url ++ "//" ++ url_host url ++ url_pathname url = "spiffe://" ++ domain ++ "/service/" ++ s /\
    s <> "" /\ no_slash s.

(** The first entry that stands for a service stands for this one. *)
Definition identified (auth : option PeerAuthContext) (s : string) : Prop :=
  exists san pre entry post, subject_alt_name auth = Some san /\ split "," san = (pre ++ entry :: post)%list /\
    identifies entry s /\ forall e t, e ∈ pre -> ~ identifies e t.

Lemma prefixes_agree id d1 d2 s t :
  serviceOf id (trust_prefix d1) = Some s -> serviceOf id (trust_prefix d2) = Some t -> s = t.
Proof.
  intros (H1 & _ & Hs)%serviceOf_spec (H2 & _ & Ht)%serviceOf_spec. rewrite H1 in H2. unfold trust_prefix in H2.
  apply (after_last_slash ("spiffe://" ++ d1 ++ "/service") ("spiffe://" ++ d2 ++ "/service") s t); [|done|done].
  rewrite !str_app_assoc in *. exact H2.
Qed.

Lemma trusted_service id s :
  head (omap (serviceOf id) (TRUST_PREFIXES configured)) = Some s <->
  exists domain, domain ∈ trustDomains configured /\ serviceOf id (trust_prefix domain) = Some s.
Proof.
  rewrite head_omap_spec. unfold TRUST_PREFIXES. split.
  - intros (pre & x & post & E & Hx & _).
    assert (x ∈ map trust_prefix (trustDomains configured)) as Hin by (rewrite E; apply elem_of_app; right; by left).
    apply list_elem_of_fmap in Hin as (d & -> & Hd). eauto.
  - intros (d & Hd & Hs).
    assert (exists b, head (omap (serviceOf id) (map trust_prefix (trustDomains configured))) = Some b) as [b Hb].
    { induction Hd as [d l|d e l Hd IH]; cbn; [by rewrite Hs; eexists|]. destruct (serviceOf id (trust_prefix e)); cbn; eauto. }
    apply head_omap_spec in Hb as (pre & x & post & E & Hx & Hpre). exists pre, x, post. split; [done|]. split; [|done].
    assert (x ∈ map trust_prefix (trustDomains configured)) as Hin by (rewrite E; apply elem_of_app; right; by left).
    apply list_elem_of_fmap in Hin as (d' & -> & _). by rewrite Hx, (prefixes_agree _ _ _ _ _ Hs Hx).
Qed.

Lemma entry_service_spec entry s : entry_service configured entry = Some s <-> identifies entry s.
Proof.
  unfold entry_service, identifies. split.
  - destruct (startsWith "URI:" (trim entry)) eqn:E; cbn [negb]; [|done]. apply prefix_app in E as [value E].
    rewrite E, slice_app. destruct (parse_url value) as [url|] eqn:Eu; cbn; [|done].
    intros (domain & Hd & (Hn & Hne & Hs)%serviceOf_spec)%trusted_service. exists value, url, domain.
    split_and!; try done. rewrite Hn. unfold trust_prefix. by rewrite !str_app_assoc.
  - intros (value & url & domain & E & Eu & Hd & Hn & Hne & Hs). rewrite E, (proj2 (prefix_app "URI:" _)) by eauto.
    cbn [negb]. rewrite slice_app, Eu. apply trusted_service. exists domain. split; [done|]. apply serviceOf_spec.
    split; [|done]. rewrite Hn. unfold trust_prefix. by rewrite !str_app_assoc.
Qed.

Lemma peerService_spec auth s : peerService configured auth = Some s <-> identified auth s.
Proof.
  assert (forall e, entry_service configured e = None <-> forall t, ~ identifies e t) as Hnone.
  { intros e. destruct (entry_service configured e) as [t|] eqn:E.
    - apply entry_service_spec in E. split; [done|]. intros H. by destruct (H t).
    - split; [|done]. intros _ t Ht%entry_service_spec. by rewrite E in Ht. }
  unfold peerService, identified. destruct (subject_alt_name auth) as [san|]; [|by split; [|intros (?&?&?&?&?&_)]].
  transitivity (head (omap (entry_service configured) (split "," san)) = Some s).
  { destruct (String.eqb_spec san "") as [->|]; [|done]. split; [done|]. by vm_compute. }
  rewrite head_omap_spec. split.
  - intros (pre & x & post & E & Hx%entry_service_spec & Hpre). exists san, pre, x, post. split_and!; try done.
    intros e t He. by apply Hnone, Hpre.
  - intros (san' & pre & x & post & [= <-] & E & Hx & Hpre). exists pre, x, post. split_and!; [done|by apply entry_service_spec|].
    intros e He. apply Hnone. intros t. by apply Hpre.
Qed.
End Identified.

(** *** The allow list *)

Definition no_at (s : string) : Prop := ("@"%char ∉ str_list s).
(** The entry of a peer without a scope. *)
Definition unscoped (l : list string) (peer : string) : Prop := peer ∈ l /\ no_at peer.
(** An entry of a peer with this scope, written with or without leading slashes. *)
Definition scoped (l : list string) (peer scope : string) : Prop :=
  exists rest, peer ++ "@" ++ rest ∈ l /\ no_at peer /\ scope = strip_slashes rest.
(** A peer or a scope that is missing. *)
Definition malformed (entry : string) : Prop :=
  exists peer rest, entry = peer ++ "@" ++ rest /\ no_at peer /\ (peer = "" \/ strip_slashes rest = "").

(** The grants are those of the entries read so far. *)
Record grants_of (l : list string) (grants : PeerAllowList) : Prop := {
  grants_unscoped : forall p, unscoped l p <-> map_get p grants = Some None;
  grants_scoped : forall p scopes, map_get p grants = Some (Some scopes) ->
    scopes <> [] /\ forall scope, scope ∈ scopes <-> scoped l p scope;
  grants_absent : forall p scope, map_get p grants = None -> ~ scoped l p scope
}.

Lemma grants_of_nil : grants_of [] [].
Proof.
  split.
  - intros p. split; [by intros [?%not_elem_of_nil _]|done].
  - done.
  - intros p scope _ (rest & ?%not_elem_of_nil & _). done.
Qed.

Lemma unscoped_app l e p : unscoped (l ++ [e]) p <-> unscoped l p \/ (e = p /\ no_at p).
Proof. unfold unscoped. rewrite elem_of_app, list_elem_of_singleton. naive_solver. Qed.

Lemma scoped_app l e p scope :
  scoped (l ++ [e]) p scope <-> scoped l p scope \/ exists rest, e = p ++ "@" ++ rest /\ no_at p /\ scope = strip_slashes rest.
Proof. unfold scoped. setoid_rewrite elem_of_app. setoid_rewrite list_elem_of_singleton. naive_solver. Qed.

Lemma set_add_elem x y l : y ∈ set_add x l <-> y ∈ l \/ y = x.
Proof. unfold set_add. case_bool_decide; [naive_solver|]. rewrite elem_of_app, list_elem_of_singleton. done. Qed.
Lemma set_add_nonempty x l : set_add x l <> [].
Proof. unfold set_add. case_bool_decide as H; [|by destruct l]. intros ->. by apply not_elem_of_nil in H. Qed.

Lemma at_apart p q rest : no_at p -> no_at q -> p = q ++ "@" ++ rest -> False.
Proof. intros Hp _ ->. apply Hp. rewrite str_list_app. apply elem_of_app. right. by left. Qed.

Lemma at_once p q r1 r2 : no_at p -> no_at q -> p ++ "@" ++ r1 = q ++ "@" ++ r2 -> p = q /\ r1 = r2.
Proof.
  intros Hp Hq H. pose proof (proj2 (cut_spec "@" (p ++ String "@" r1) p r1) (conj eq_refl Hp)) as E1.
  change (p ++ String "@" r1) with (p ++ "@" ++ r1) in E1. rewrite H in E1.
  rewrite (proj2 (cut_spec "@" (q ++ "@" ++ r2) q r2) (conj eq_refl Hq)) in E1. by simplify_eq.
Qed.

(** An entry without a scope. *)
Lemma grants_of_unscoped l grants e :
  grants_of l grants -> no_at e -> grants_of (l ++ [e]) (map_set e None grants).
Proof.
  intros [Hu Hs Ha] He.
  assert (forall p scope, scoped (l ++ [e]) p scope <-> scoped l p scope) as Hsc.
  { intros p scope. rewrite scoped_app. split; [|by left]. intros [H|(rest & E & Hp & _)]; [done|]. by destruct (at_apart e p rest). }
  split.
  - intros p. rewrite unscoped_app, map_get_set, Hu. case_decide; [subst|]; naive_solver.
  - intros p scopes. rewrite map_get_set. case_decide; [done|]. intros [H1 H2]%Hs. split; [done|]. intros scope. by rewrite Hsc.
  - intros p scope. rewrite map_get_set, Hsc. case_decide; [done|]. apply Ha.
Qed.

(** An entry of a peer that has no entry without a scope. *)
Lemma grants_of_scoped l grants p rest scopes :
  grants_of l grants -> no_at p -> map_get p grants <> Some None ->
  scopes <> [] -> (forall scope, scope ∈ scopes <-> scoped l p scope \/ scope = strip_slashes rest) ->
  grants_of (l ++ [p ++ "@" ++ rest]) (map_set p (Some scopes) grants).
Proof.
  intros [Hu Hs Ha] Hp Hn Hne Hscopes.
  assert (forall q scope, scoped (l ++ [p ++ "@" ++ rest]) q scope <-> scoped l q scope \/ (q = p /\ scope = strip_slashes rest)) as Hsc.
  { intros q scope. rewrite scoped_app. split; (intros [H|H]; [by left|right]).
    - destruct H as (r & E & Hq & ->). by destruct (at_once _ _ _ _ Hp Hq E) as [-> ->].
    - destruct H as [-> ->]. eauto. }
  split.
  - intros q. rewrite unscoped_app, map_get_set, Hu. case_decide as Hq; [subst q|].
    + split; [|done]. intros [H|[E _]]; [done|]. by destruct (at_apart p p rest).
    + split; [|by left]. intros [H|[E Hq']]; [done|]. by destruct (at_apart q p rest).
  - intros q qs. rewrite map_get_set. case_decide as Hq; [subst q; intros [= <-]|].
    + split; [done|]. intros scope. rewrite Hsc, Hscopes. naive_solver.
    + intros [H1 H2]%Hs. split; [done|]. intros scope. rewrite Hsc, H2. naive_solver.
  - intros q scope. rewrite map_get_set, Hsc. case_decide as Hq; [done|]. intros H [H'|[? _]]; [|done]. by apply (Ha q scope).
Qed.

Lemma at_split (e : string) : no_at e \/ exists p rest, e = p ++ "@" ++ rest /\ no_at p.
Proof.
  destruct (cut "@" e) as [[p rest]|] eqn:E; [right; apply cut_spec in E as [-> Hp]; by exists p, rest|left; by apply cut_None].
Qed.

Lemma cut_at p rest : no_at p -> cut "@" (p ++ "@" ++ rest) = Some (p, rest).
Proof. intros Hp. by apply cut_spec. Qed.

Lemma malformed_at p rest : no_at p -> malformed (p ++ "@" ++ rest) <-> p = "" \/ strip_slashes rest = "".
Proof.
  intros Hp. split; [|intros H; by exists p, rest].
  intros (q & r & E & Hq & H). by destruct (at_once _ _ _ _ Hp Hq E) as [-> ->].
Qed.

Lemma add_entry_ok l grants e : grants_of l grants -> ~ malformed e -> exists grants', add_entry grants e = Ok grants' /\ grants_of (l ++ [e]) grants'.
Proof.
  intros Hg Hm. unfold add_entry. destruct (at_split e) as [He|(p & rest & -> & Hp)].
  { rewrite (proj2 (cut_None "@" e) He). eexists. split; [done|]. by apply grants_of_unscoped. }
  rewrite (cut_at p rest Hp). rewrite malformed_at in Hm by done.
  destruct (String.eqb_spec p ""); [tauto|]. destruct (String.eqb_spec (strip_slashes rest) ""); [tauto|]. cbn [orb].
  destruct (map_get p grants) as [[scopes|]|] eqn:Eg; (eexists; split; [done|]).
  - destruct (grants_scoped _ _ Hg _ _ Eg) as [_ Hs]. apply grants_of_scoped; [done|done|by rewrite Eg|apply set_add_nonempty|].
    intros scope. by rewrite set_add_elem, Hs.
  - destruct Hg as [Hu Hs Ha]. split.
    + intros q. rewrite unscoped_app, Hu. split; [|by left]. intros [H|[E Hq]]; [done|]. by destruct (at_apart q p rest).
    + intros q scopes H. destruct (Hs _ _ H) as [Hne Hq]. split; [done|]. intros scope. rewrite scoped_app, Hq.
      split; [by left|]. intros [H'|(r & E & Hq' & _)]; [done|]. destruct (at_once _ _ _ _ Hp Hq' E) as [-> _]. by rewrite Eg in H.
    + intros q scope H [H'|(r & E & Hq' & _)]%scoped_app; [by eapply Ha|].
      destruct (at_once _ _ _ _ Hp Hq' E) as [-> _]. by rewrite Eg in H.
  - apply grants_of_scoped; [done|done|by rewrite Eg|done|]. intros scope. rewrite list_elem_of_singleton.
    split; [by right|]. intros [H|H]; [|done]. by destruct (grants_absent _ _ Hg _ _ Eg H).
Qed.

Lemma malformed_dec e : malformed e \/ ~ malformed e.
Proof.
  destruct (at_split e) as [He|(p & rest & -> & Hp)].
  - right. intros (p & rest & E & Hp & _). by destruct (at_apart e p rest).
  - rewrite (malformed_at p rest Hp).
    destruct (String.eqb_spec p ""), (String.eqb_spec (strip_slashes rest) ""); tauto.
Qed.

Lemma add_entry_Err grants e : malformed e -> add_entry grants e = Err (malformed_entry e).
Proof.
  intros (p & rest & -> & Hp & H). unfold add_entry. rewrite (cut_at p rest Hp).
  destruct H as [->|H]; [done|]. rewrite H. by rewrite orb_true_r.
Qed.

Lemma add_entries_spec l0 grants l :
  grants_of l0 grants ->
  (exists grants', add_entries grants l = Ok grants' /\ grants_of (l0 ++ l) grants' /\ forall e, e ∈ l -> ~ malformed e) \/
  (exists e, e ∈ l /\ malformed e /\ add_entries grants l = Err (malformed_entry e)).
Proof.
  revert l0 grants. induction l as [|e l IH]; intros l0 grants Hg.
  { left. exists grants. rewrite app_nil_r. split_and!; try done. by intros e ?%not_elem_of_nil. }
  cbn [add_entries]. destruct (malformed_dec e) as [Hm|Hm].
  { right. exists e. split; [by left|]. split; [done|]. by rewrite (add_entry_Err grants e Hm). }
  destruct (add_entry_ok _ _ _ Hg Hm) as (g1 & -> & Hg1). destruct (IH _ _ Hg1) as [(g2 & H & Hg2 & Hl)|(x & Hx & Hm' & H)].
  - left. exists g2. split; [done|]. rewrite <- app_assoc in Hg2. split; [done|]. intros x [->|Hx]%elem_of_cons; auto.
  - right. exists x. split; [by right|]. done.
Qed.

(** *** The decision *)

(** What an operator writes as GRPC_ALLOWED_CALLERS grants to a peer: every method, by its bare
    name, or the methods of a scope: one method, all the methods of a service, and always those of
    the reflection services. *)
Definition granted (raw peer method : string) : Prop :=
  let called := strip_slashes method in
  let service := service_of_method called in
  unscoped (entries raw) peer \/
  exists scope, scoped (entries raw) peer scope /\ (scope = called \/ scope = service \/ service ∈ SCHEMA_SERVICES).

Lemma permits_spec raw allowed peer method :
  grants_of (entries raw) allowed -> permits allowed peer method = true <-> granted raw peer method.
Proof.
  intros [Hu Hs Ha]. unfold permits, granted. rewrite Hu. destruct (map_get peer allowed) as [[scopes|]|] eqn:E.
  - destruct (Hs _ _ E) as [Hne Hsc]. rewrite !orb_true_iff, !bool_decide_eq_true, !Hsc. split.
    + intros [[H|H]|H]; right; [by eauto|by eauto|]. destruct scopes as [|scope scopes]; [done|].
      exists scope. split; [apply Hsc; by left|by right; right].
    + intros [[=]|(scope & H & [<-|[<-|Hin]])]; tauto.
  - naive_solver.
  - split; [done|]. intros [[=]|(scope & H & _)]. by destruct (Ha _ scope E).
Qed.

Lemma permits_names allowed peer method : permits allowed peer method = true -> names allowed peer = true.
Proof. unfold permits, names. destruct (map_get peer allowed); [|done]. by intros _. Qed.

Lemma grants_nil l : grants_of l [] -> (forall e, e ∈ l -> ~ malformed e) -> l = [].
Proof.
  intros [Hu _ Ha] Hm. destruct l as [|e l]; [done|]. exfalso. destruct (at_split e) as [He|(p & rest & -> & Hp)].
  - assert (unscoped (e :: l) e) as H by (split; [by left|done]). apply Hu in H. done.
  - apply (Ha p (strip_slashes rest) eq_refl). exists rest. split; [by left|done].
Qed.

Section Decision.
Context {U : UrlParser} (trust : option string) (callers : option string).

(** C37: The server starts only with an allow list that has an entry and no malformed one, and then
    lets a gRPC call through exactly when the caller's certificate names, under a trust domain, a
    service to which the list grants the method. The decision does not depend on the order of the
    entries, nor on which of several trust domains matches; a peer listed both with and without a
    scope is not confined to the scope. *)
Theorem mesh_calls_pass_iff_granted :
  let raw := default "" callers in
  match allowedCallers callers with
  | Ok (allowed, _) =>
      (forall e, e ∈ entries raw -> ~ malformed e) /\ entries raw <> [] /\
      forall method auth, peerAuthorizationInterceptor trust allowed method auth = (None, Passing) <->
        exists peer, identified trust auth peer /\ granted raw peer method
  | Err _ => entries raw = [] \/ exists e, e ∈ entries raw /\ malformed e
  end.
Proof.
  cbn. unfold allowedCallers, parsePeerAllowList. set (raw := default "" callers).
  destruct (add_entries_spec [] [] (entries raw) grants_of_nil) as [(g & -> & Hg & Hm)|(e & He & Hm & ->)]; [|by eauto].
  cbn [app] in Hg. assert (g = [] -> entries raw = []) as Hnil by (intros ->; by apply grants_nil).
  destruct g as [|kv g]; [by left; apply Hnil|]. set (allowed := kv :: g) in *. split; [done|]. split.
  { intros E. destruct kv as [k v], Hg as [Hu Hs Ha]. rewrite E in *. destruct v as [scopes|].
    - destruct (Hs k scopes) as [Hne H]; [by subst allowed; cbn; rewrite decide_True|]. destruct scopes as [|scope scopes]; [done|].
      destruct (proj1 (H scope)) as (rest & ?%not_elem_of_nil & _); [by left|done].
    - destruct (proj2 (Hu k)) as [?%not_elem_of_nil _]; [by subst allowed; cbn; rewrite decide_True|done]. }
  intros method auth. unfold peerAuthorizationInterceptor. split.
  - destruct (peerService trust auth) as [peer|] eqn:Ep; [|done]. apply peerService_spec in Ep.
    destruct (names allowed peer); cbn [negb]; [|done]. destruct (permits allowed peer method) eqn:E; cbn [negb]; [|done].
    intros _. exists peer. split; [done|]. by apply (permits_spec raw allowed).
  - intros (peer & Hp%peerService_spec & Hgr). rewrite Hp. apply (permits_spec raw allowed peer method Hg) in Hgr.
    by rewrite (permits_names _ _ _ Hgr), Hgr.
Qed.
End Decision.

Module Witness.
(** A parser of identities, enough for the examples. *)
#[local] Instance identities : UrlParser := {|
  parse_url value :=
    if startsWith "spiffe://" value then
      '(host, path) ← cut "/" (slice_from 9 value); Some (mkUrl "spiffe:" host ("/" ++ path))
    else None
|}.

Definition callers : string := "catalog, cart@identity.v1.Identity/GetPrincipal, cart@/geo.v1.Geo, catalog@geo.v1.Geo".
Definition peer (san : string) : option PeerAuthContext := Some (mkPeer (Some (mkCertificate (Some san)))).
Definition decide_call (san method : string) : option ServerInterceptingCall :=
  match allowedCallers (Some callers) with
  | Ok (allowed, _) => Some (peerAuthorizationInterceptor (Some "kinetix.local, kinetix.test") allowed method (peer san)).2
  | Err _ => None
  end.
Definition cart : string := "DNS:cart, URI:spiffe://kinetix.test/service/cart".

Example unscoped_peer_calls_anything :
  decide_call "URI:spiffe://kinetix.local/service/catalog" "/identity.v1.Identity/ValidateToken" = Some Passing.
Proof. vm_compute. reflexivity. Qed.
Example scoped_peer_calls_its_method : decide_call cart "/identity.v1.Identity/GetPrincipal" = Some Passing.
Proof. vm_compute. reflexivity. Qed.
Example scoped_peer_calls_its_service : decide_call cart "/geo.v1.Geo/Geocode" = Some Passing.
Proof. vm_compute. reflexivity. Qed.
Example scoped_peer_is_confined :
  decide_call cart "/identity.v1.Identity/ValidateToken" =
  Some (Refusing PERMISSION_DENIED "service 'cart' may not call /identity.v1.Identity/ValidateToken").
Proof. vm_compute. reflexivity. Qed.
Example foreign_domain_is_no_identity :
  decide_call "URI:spiffe://elsewhere/service/catalog" "/geo.v1.Geo/Geocode" =
  Some (Refusing UNAUTHENTICATED "a client certificate carrying a SPIFFE id is required").
Proof. vm_compute. reflexivity. Qed.
Example nested_path_is_no_identity :
  decide_call "URI:spiffe://kinetix.local/service/catalog/admin" "/geo.v1.Geo/Geocode" =
  Some (Refusing UNAUTHENTICATED "a client certificate carrying a SPIFFE id is required").
Proof. vm_compute. reflexivity. Qed.
Example scope_without_peer_refused : exists e, allowedCallers (Some "catalog,@geo.v1.Geo") = Err e.
Proof. eexists. vm_compute. reflexivity. Qed.
End Witness.
