(* ===== verification/Sweeper.v ===== *)
(** * The sweeper of expired records

    Models src/src/application/services/expired_record_sweeper.service.ts: the timer, and the sweep
    it runs over the ledger of attempts, the revoked tokens and the passkey challenges. The theorem
    says that what a sweep deletes decides nothing any more. *)

From S2P Require Import Prelude JsString Domain Store Sample Keys SignInAttempts Tokens Sessions PasskeyStore.
From Stdlib Require Import Ascii String.

Local Open Scope string_scope.
Local Open Scope Z_scope.

(** ** The service *)

Definition SWEEP_INTERVAL_MS : Z := 10 * 60 * 1000.

Section Sweep.
Context {P : Platform}.
Local Open Scope prog_scope.

Definition sweep : M unit :=
  catch
    (swept_attempts <- sweep_sign_in_attempts ;;
     revocations <- sweepExpiredRevocations ;;
     challenges <- sweep_challenges ;;
     emit (LogLine None ("expired sign-in records swept: sign_in_attempts " ++ String_of swept_attempts ++
       ", revoked_access_tokens " ++ String_of revocations ++ ", passkey_challenges " ++ String_of challenges)))
    (fun error =>
       emit (LogLine None ("expired sign-in records could not be swept; the next sweep tries again: " ++ exn_message error))).
End Sweep.

(** The field [timer]: the period of the interval that is set. *)
Definition onApplicationBootstrap (timer : option Z) : option Z := Some SWEEP_INTERVAL_MS.
Definition onModuleDestroy (timer : option Z) : option Z := match timer with Some _ => None | None => None end.

(** ** What a sweep deletes *)

(** A table from which only rows that are over were deleted. *)
Definition thinned {V} (over : V -> Prop) (m m' : gmap string V) : Prop :=
  forall k, match m !! k with
            | Some v => m' !! k = Some v \/ (m' !! k = None /\ over v)
            | None => m' !! k = None
            end.

Definition attempts_over (now : Z) (s : AttemptState) : Prop :=
  lastAttemptAt s < now - FORGET_AFTER_SECONDS * 1000 /\ delayedUntil s < now.

(** The tables after a sweep at these times: some or all of what is over is gone, and nothing else
    has changed. *)
Record swept (node pg : Z) (d d' : Db) : Prop := {
  swept_attempts : thinned (attempts_over pg) (account_sign_in_attempts d) (account_sign_in_attempts d');
  swept_counts : thinned (fun r => challenge_row_expiresAt r < node) (two_factor_challenge_attempts d) (two_factor_challenge_attempts d');
  swept_revoked : thinned (fun r => revoked_expiresAt r < node) (revoked_access_tokens d) (revoked_access_tokens d');
  swept_challenges : thinned (fun r => pc_expiresAt r < pg) (passkey_challenges d) (passkey_challenges d');
  swept_rest : set_account_sign_in_attempts ∅ (set_two_factor_challenge_attempts ∅ (set_revoked_access_tokens ∅ (set_passkey_challenges ∅ d'))) =
    set_account_sign_in_attempts ∅ (set_two_factor_challenge_attempts ∅ (set_revoked_access_tokens ∅ (set_passkey_challenges ∅ d)))
}.

Lemma thinned_refl {V} (over : V -> Prop) m : thinned over m m.
Proof. intros k. destruct (m !! k); auto. Qed.

Lemma thinned_filter {V} (over : V -> Prop) `{!forall v, Decision (over v)} (m : gmap string V) :
  thinned over m (filter (fun '(_, v) => ~ over v) m).
Proof.
  intros k. destruct (m !! k) as [v|] eqn:E; [|by apply map_lookup_filter_None_2; left].
  destruct (decide (over v)) as [Ho|Ho].
  - right. split; [|done]. apply map_lookup_filter_None_2. right. intros v' Hv'. rewrite E in Hv'. injection Hv' as <-. naive_solver.
  - left. by apply map_lookup_filter_Some_2.
Qed.

Lemma thinned_trans {V} (over : V -> Prop) m1 m2 m3 : thinned over m1 m2 -> thinned over m2 m3 -> thinned over m1 m3.
Proof.
  intros H1 H2 k. specialize (H1 k). specialize (H2 k). destruct (m1 !! k) as [v|].
  - destruct H1 as [E|[E Ho]]; rewrite E in H2; [|by right]. by destruct H2; [left|right].
  - by rewrite H1 in H2.
Qed.

#[export] Instance swept_preorder node pg : PreOrder (swept node pg).
Proof.
  split.
  - intros d. split; try apply thinned_refl. done.
  - intros d1 d2 d3 [A1 C1 R1 P1 E1] [A2 C2 R2 P2 E2].
    split; [by eapply thinned_trans..|by rewrite E2].
Qed.

Section Facts.
Context {P : Platform}.
Local Open Scope prog_scope.

(** The world after part of a sweep. *)
Definition sweeping (w w' : World) : Prop :=
  node_ms w' = node_ms w /\ pg_ms w' = pg_ms w /\ swept (node_ms w) (pg_ms w) (db w) (db w').

Lemma sweeping_refl w : sweeping w w.
Proof. split_and!; done. Qed.

(** One statement of the sweep, whose connection may be lost. *)
Lemma wp_sweeping {X} (f : World -> X * Db) (Q : res exn X -> World -> Prop) w0 w :
  sweeping w0 w -> swept (node_ms w0) (pg_ms w0) (db w) (f (count_call w)).2 ->
  (forall r w', sweeping w0 w' -> Q r w') -> wp (update f) Q w.
Proof.
  intros (Hn & Hp & Hs) Hf HQ. assert (sweeping w0 (set_db (f (count_call w)).2 (count_call w))) as H2.
  { split_and!; [done|done|]. by etransitivity. }
  apply wp_update; apply HQ; done.
Qed.

Lemma wp_sweep_attempts (Q : res exn Z -> World -> Prop) w0 w :
  sweeping w0 w -> (forall r w', sweeping w0 w' -> Q r w') -> wp sweep_sign_in_attempts Q w.
Proof.
  intros Hw HQ. unfold sweep_sign_in_attempts, sweep_attempts. wp_step.
  apply (wp_sweeping _ _ w0); [done| |].
  { destruct Hw as (Hn & Hp & _). cbn. rewrite Hp.
    split; [apply (thinned_filter (attempts_over (pg_ms w0)))|apply thinned_refl..|done]. }
  intros [x|e] w1 H1; [|by apply HQ]. do 3 wp_step. apply (wp_sweeping _ _ w0); [done| |].
  { destruct H1 as (Hn & Hp & _). cbn. rewrite Hn.
    split; [apply thinned_refl|apply (thinned_filter (fun r => challenge_row_expiresAt r < node_ms w0))|apply thinned_refl..|done]. }
  intros [y|e] w2 H2; [wp_step|]; by apply HQ.
Qed.

Lemma wp_sweep_revocations (Q : res exn Z -> World -> Prop) w0 w :
  sweeping w0 w -> (forall r w', sweeping w0 w' -> Q r w') -> wp sweepExpiredRevocations Q w.
Proof.
  intros Hw HQ. unfold sweepExpiredRevocations. do 2 wp_step. apply (wp_sweeping _ _ w0); [done| |done].
  destruct Hw as (Hn & Hp & _). cbn. rewrite Hn.
  split; [apply thinned_refl..|apply (thinned_filter (fun r => revoked_expiresAt r < node_ms w0))|apply thinned_refl|done].
Qed.

Lemma wp_sweep_challenges (Q : res exn Z -> World -> Prop) w0 w :
  sweeping w0 w -> (forall r w', sweeping w0 w' -> Q r w') -> wp sweep_challenges Q w.
Proof.
  intros Hw HQ. unfold sweep_challenges. apply (wp_sweeping _ _ w0); [done| |done].
  destruct Hw as (Hn & Hp & _). cbn. rewrite Hp.
  split; [apply thinned_refl..|apply (thinned_filter (fun r => pc_expiresAt r < pg_ms w0))|done].
Qed.

(** A sweep never fails, and deletes nothing but records that are over. *)
Lemma sweep_sweeps w : exists w', run sweep w = (Ok tt, w') /\ sweeping w w'.
Proof.
  assert (wp sweep (fun r w' => r = Ok tt /\ sweeping w w') w) as H.
  { unfold sweep. wp_step. wp_step. apply (wp_sweep_attempts _ w); [apply sweeping_refl|]. intros [a|e] w1 H1; [|by repeat wp_step].
    wp_step. apply (wp_sweep_revocations _ w); [done|]. intros [b|e] w2 H2; [|by repeat wp_step].
    wp_step. apply (wp_sweep_challenges _ w); [done|]. intros [c|e] w3 H3; by repeat wp_step. }
  unfold wp in H. destruct (run sweep w) as [r w']. cbn in H. destruct H as [-> H]. eauto.
Qed.

(** *** What is over decides nothing *)

Lemma over_attempts_forgotten now now' s : attempts_over now s -> now <= now' -> admitAttempt (Some s) now' = admitAttempt None now'.
Proof.
  intros [Hl Hd] Hle. unfold admitAttempt. rewrite Z.gtb_ltb, (proj2 (Z.ltb_ge _ _)) by lia.
  rewrite Z.geb_leb, (proj2 (Z.leb_le _ _)) by lia. done.
Qed.

Lemma admission_unswept node pg d d' key now :
  swept node pg d d' -> pg <= now ->
  admitAttempt (account_sign_in_attempts d' !! key) now = admitAttempt (account_sign_in_attempts d !! key) now.
Proof.
  intros [H _ _ _ _] Hle. specialize (H key). destruct (account_sign_in_attempts d !! key) as [s|]; [|by rewrite H].
  destruct H as [->|[-> Ho]]; [done|]. symmetry. by eapply over_attempts_forgotten.
Qed.

(** Two challenges of one sign-in are one: the unique index on [mfaJti]. *)
Definition mfa_unique (d : Db) : Prop :=
  forall id1 id2 r1 r2 j, passkey_challenges d !! id1 = Some r1 -> passkey_challenges d !! id2 = Some r2 ->
    mfaJti r1 = Some j -> mfaJti r2 = Some j -> id1 = id2.

Lemma find_mfa_None j d : find_mfa j d = None -> forall id r, passkey_challenges d !! id = Some r -> mfaJti r <> Some j.
Proof.
  unfold find_mfa. destruct (List.filter _ _) as [|[id' r'] l] eqn:E; [|done]. intros _ id r Hr Hj.
  apply elem_of_map_to_list in Hr. apply list_elem_of_In in Hr.
  assert (In (id, r) []) as []. rewrite <- E. apply filter_In. split; [done|]. by apply bool_decide_eq_true.
Qed.

Lemma find_mfa_unswept node pg d d' j :
  mfa_unique d -> swept node pg d d' ->
  find_mfa j d' = find_mfa j d \/
  (find_mfa j d' = None /\ exists id r, find_mfa j d = Some (id, r) /\ pc_expiresAt r < pg).
Proof.
  intros Hu [_ _ _ H _].
  assert (forall id r, passkey_challenges d' !! id = Some r -> passkey_challenges d !! id = Some r) as Hsub.
  { intros id r E. specialize (H id). rewrite E in H. by destruct (passkey_challenges d !! id); [destruct H as [|[]]|]. }
  destruct (find_mfa j d) as [[id r]|] eqn:E.
  - apply find_mfa_Some in E as [Hr Hj]. destruct (find_mfa j d') as [[id' r']|] eqn:E'.
    + left. apply find_mfa_Some in E' as [Hr' Hj']. apply Hsub in Hr'. rewrite (Hu id' id r' r j) in * by done. congruence.
    + right. split; [done|]. exists id, r. split; [done|]. specialize (H id). rewrite Hr in H. destruct H as [H|[_ H]]; [|done].
      by destruct (find_mfa_None j d' E' id r H).
  - left. destruct (find_mfa j d') as [[id' r']|] eqn:E'; [|done]. apply find_mfa_Some in E' as [Hr' Hj'].
    by destruct (find_mfa_None j d E id' r' (Hsub _ _ Hr')).
Qed.

(** A challenge that is answered after the sweep is answered as if it had not run. *)
Lemma spend_answers which which' userId v d d' :
  (which' d' = which d \/ (which' d' = None /\ exists id r, which d = Some (id, r) /\ pc_expiresAt r < pg_ms v)) ->
  (run (spend which' userId) (set_db d' v)).1 = (run (spend which userId) (set_db d v)).1.
Proof.
  intros H. unfold spend, update, statement. cbn -[set_challenge bool_decide]. destruct (db_fault (db_calls v)); try done.
  destruct H as [->|[-> (id & r & -> & Hexp)]].
  - destruct (which d) as [[id r]|]; [|done]. by destruct (_ && _).
  - rewrite (proj2 (Z.ltb_ge _ _)) by lia. by rewrite andb_false_r.
Qed.

Context {L : PlatformLaws P} (cfg : TokenConfig P).

(** The records of a token last as long as the token: every row is written with the token's [exp]. *)
Definition outlived_by {V} (expires : V -> Z) (token : string) (m : gmap string V) : Prop :=
  forall c row, jwt_decode token = Some (JwtObject c) -> m !! jti c = Some row -> exp c * 1000 <= expires row.

(** The record of a token that is still accepted is not over. *)
Lemma thinned_accepted {V} (expires : V -> Z) (m m' : gmap string V) node key i a now token c :
  thinned (fun r => expires r < node) m m' -> node / 1000 <= now -> outlived_by expires token m ->
  jwt_verify key i a now token = Some (JwtObject c) -> m' !! jti c = m !! jti c.
Proof.
  intros Ht Hnow Hout Hv. pose proof (verify_decode _ _ _ _ _ _ Hv) as Hdec.
  apply verify_checks in Hv as (_ & _ & Hexp). specialize (Ht (jti c)).
  destruct (m !! jti c) as [row|] eqn:E; [|done]. destruct Ht as [|[_ Hover]]; [done|].
  specialize (Hout c row Hdec E). exfalso. pose proof (Z.mul_div_le node 1000). pose proof (Z.mod_pos_bound node 1000).
  pose proof (Z.div_mod node 1000). lia.
Qed.

(** A challenge token that is answered: it verifies and is not spent. *)
Definition answerable (token : string) : M Claims :=
  claims <- peekMfaChallenge cfg token ;; refuseSpentMfaChallenge claims ;;; Ret claims.

Section Accepted.
Context (node pg : Z) (d d' : Db) (v : World) (token : string).
Context (Hswept : swept node pg d d') (Hlater : node <= node_ms v).
Context (Hout : outlived_by revoked_expiresAt token (revoked_access_tokens d)).

Lemma later_seconds : node / 1000 <= node_ms v / 1000.
Proof. apply Z.div_le_mono; lia. Qed.

Lemma find_revoked_unswept c key i a :
  jwt_verify key i a (node_ms v / 1000) token = Some (JwtObject c) ->
  revoked_access_tokens d' !! jti c = revoked_access_tokens d !! jti c.
Proof. intros Hv. eapply thinned_accepted; [apply Hswept|apply later_seconds|done|exact Hv]. Qed.

Lemma verifySession_unswept :
  (run (verifySession cfg token) (set_db d' v)).1 = (run (verifySession cfg token) (set_db d v)).1.
Proof.
  unfold verifySession, verifySignature. destruct (verificationKey (keys cfg) (jwt_header_kid token)) as [key|]; [|done].
  cbn -[bool_decide Z.div lookup]. destruct (jwt_verify key _ _ _ token) as [[c|]|] eqn:Ev; [|done..].
  cbn -[bool_decide Z.div lookup]. destruct (_ && _); [done|]. unfold refuseRevoked, find_revoked, query, statement.
  cbn -[bool_decide Z.div lookup]. destruct (db_fault (db_calls v)); cbn -[lookup]; [|done..]. rewrite (find_revoked_unswept _ _ _ _ Ev).
  by destruct (revoked_access_tokens d !! jti c).
Qed.

Lemma answerable_unswept :
  (run (answerable token) (set_db d' v)).1 = (run (answerable token) (set_db d v)).1.
Proof.
  unfold answerable, peekMfaChallenge, verifySignature. destruct (verificationKey (keys cfg) (jwt_header_kid token)) as [key|]; [|done].
  cbn -[bool_decide Z.div lookup]. destruct (jwt_verify key _ _ _ token) as [[c|]|] eqn:Ev; [|done..].
  cbn -[bool_decide Z.div lookup]. destruct (negb _); [done|]. unfold refuseSpentMfaChallenge, find_revoked, query, statement.
  cbn -[bool_decide Z.div lookup]. destruct (db_fault (db_calls v)); cbn -[lookup]; [|done..]. rewrite (find_revoked_unswept _ _ _ _ Ev).
  by destruct (revoked_access_tokens d !! jti c).
Qed.

Lemma challenge_count_unswept claims :
  outlived_by challenge_row_expiresAt token (two_factor_challenge_attempts d) ->
  (run (answerable token) (set_db d' v)).1 = Ok claims ->
  used_of (two_factor_challenge_attempts d') (jti claims) = used_of (two_factor_challenge_attempts d) (jti claims).
Proof.
  intros Hc. unfold answerable, peekMfaChallenge, verifySignature. destruct (verificationKey (keys cfg) (jwt_header_kid token)) as [key|]; [|done].
  cbn -[bool_decide Z.div lookup]. destruct (jwt_verify key _ _ _ token) as [[c|]|] eqn:Ev; [|done..].
  intros H. assert (c = claims) as <-.
  { revert H. cbn -[bool_decide Z.div lookup]. destruct (negb _); [done|]. unfold refuseSpentMfaChallenge, find_revoked, query, statement.
    cbn -[bool_decide Z.div lookup]. destruct (db_fault (db_calls v)); cbn -[lookup]; [|done..]. destruct (revoked_access_tokens d' !! jti c); cbn; congruence. }
  unfold used_of. erewrite thinned_accepted; [done|apply Hswept|apply later_seconds|exact Hc|exact Ev].
Qed.
End Accepted.

(** C38: A sweep, whatever fails during it, neither throws nor changes any later decision: an attempt
    on an account is admitted or delayed as it would have been, a passkey challenge is spent or
    refused alike, a session's token and a challenge token verify or are refused alike, and the
    answers counted against a challenge that is still open are not forgotten. *)
Theorem sweep_changes_no_decision w v :
  mfa_unique (db w) -> node_ms w <= node_ms v -> pg_ms w <= pg_ms v ->
  exists w', run sweep w = (Ok tt, w') /\
    let before := set_db (db w) v in
    let after := set_db (db w') v in
    (forall key, admitAttempt (account_sign_in_attempts (db after) !! key) (pg_ms v) =
                 admitAttempt (account_sign_in_attempts (db before) !! key) (pg_ms v)) /\
    (forall id userId, (run (spendRegistration id userId) after).1 = (run (spendRegistration id userId) before).1) /\
    (forall j userId, (run (spendSignIn j userId) after).1 = (run (spendSignIn j userId) before).1) /\
    (forall token, outlived_by revoked_expiresAt token (revoked_access_tokens (db w)) ->
      (run (verifySession cfg token) after).1 = (run (verifySession cfg token) before).1 /\
      (run (answerable token) after).1 = (run (answerable token) before).1) /\
    (forall token claims, outlived_by challenge_row_expiresAt token (two_factor_challenge_attempts (db w)) ->
      (run (answerable token) after).1 = Ok claims ->
      used_of (two_factor_challenge_attempts (db after)) (jti claims) =
      used_of (two_factor_challenge_attempts (db before)) (jti claims)).
Proof.
  intros Hu Hn Hp. destruct (sweep_sweeps w) as (w' & -> & _ & _ & Hs). exists w'. split; [done|]. cbn zeta.
  split_and!.
  - intros key. cbn. eapply admission_unswept; [exact Hs|lia].
  - intros id userId. apply spend_answers. unfold registration_row.
    pose proof (swept_challenges _ _ _ _ Hs id) as H. destruct (passkey_challenges (db w) !! id) as [r|]; [|by left; rewrite H].
    destruct H as [->|[-> H]]; [by left|]. case_bool_decide; [|by left]. right. split; [done|]. exists id, r. split; [done|lia].
  - intros j userId. apply spend_answers. unfold sign_in_row.
    destruct (find_mfa_unswept _ _ _ _ j Hu Hs) as [->|[-> (id & r & -> & H)]]; [by left|].
    case_bool_decide; [|by left]. right. split; [done|]. exists id, r. split; [done|lia].
  - intros token Hout. split; [by eapply verifySession_unswept|by eapply answerable_unswept].
  - intros token claims Hc. by eapply challenge_count_unswept.
Qed.
End Facts.

Module Witness.
Import Sessions.Witness.

(** A token that was logged out, failures of a sign-in and a passkey challenge, all long past. *)
Definition now : Z := 2000000000.
Definition access : string := accessToken issued_pair.
Definition logged_out : World := (run (@logout sample_platform (claims_in access) None) issued.2).2.
Definition challenge : PasskeyChallengeRow := mkPasskeyChallenge 7 purpose_sign_in "challenge" (Some "j") 5 None.
Definition long_past : World :=
  set_clocks now now (set_db (set_passkey_challenges {["c" := challenge]}
    (set_account_sign_in_attempts {["key" := mkAttempt 4 1000 5000]} (db logged_out))) logged_out).
Definition tidied : World := (run (@sweep sample_platform) long_past).2.

Example sweep_deletes :
  revoked_access_tokens (db long_past) !! jti (claims_in access) <> None /\ revoked_access_tokens (db tidied) = ∅ /\
  account_sign_in_attempts (db tidied) = ∅ /\ passkey_challenges (db tidied) = ∅.
Proof.
  split; [vm_compute; discriminate|]. split_and!; apply (bool_decide_unpack _); vm_compute; exact I.
Qed.

Lemma sweep_changes_no_decision_witness :
  exists w', run (@sweep sample_platform) long_past = (Ok tt, w') /\
    admitAttempt (account_sign_in_attempts (db w') !! "key") now = admitAttempt (Some (mkAttempt 4 1000 5000)) now /\
    (run (@spendSignIn sample_platform "j" 7) (set_db (db w') long_past)).1 = Ok None /\
    (run (verifySession cfg access) (set_db (db w') long_past)).1 = Err (unauthorized "Invalid token").
Proof.
  destruct (@sweep_changes_no_decision sample_platform (sample_laws _) cfg long_past long_past) as (w' & Hrun & Hadmit & _ & Hspend & Hverify & _).
  - intros id1 id2 r1 r2 j. change (passkey_challenges (db long_past)) with ({["c" := challenge]} : gmap string PasskeyChallengeRow).
    rewrite !lookup_singleton_Some. intros [<- _] [<- _] _ _. reflexivity.
  - lia.
  - lia.
  - exists w'. split; [exact Hrun|]. split; [exact (Hadmit "key")|]. split.
    + rewrite Hspend. vm_compute. reflexivity.
    + destruct (Hverify access) as [Hv _].
      * intros c row Hdec Hrow.
        assert (c = claims_in access) as -> by (unfold claims_in; rewrite Hdec; reflexivity).
        assert (revoked_access_tokens (db long_past) !! jti (claims_in access) = Some (mkRevokedRow (exp (claims_in access) * 1000) "logout")) as E
          by (vm_compute; reflexivity).
        rewrite E in Hrow. injection Hrow as <-. reflexivity.
      * rewrite Hv. vm_compute. reflexivity.
Defined.
End Witness.
