(* ===== verification/Service.v ===== *)
(** * The service over time

    All of the HTTP routes of Routes.v and the sweeper of Sweeper.v, run for as long as one likes: what
    every request preserves, whichever it is. The class [ServicePrimitives R] states what the tables
    promise of a relation [R], on top of the classes of Handlers.v and Passkeys.v; [serve_guar] follows
    from it for every route, and is used here for the rows of refresh tokens and of revocations, for
    emails and for aliases.

    Main result: a session that was logged out is over, for every route and for good. *)

From S2P Require Import Prelude JsString Dates Domain Store Sample Keys Totp SignInAttempts Tokens Sessions Accounts Clients PasskeyStore Auth Handlers SignIn Login SecondFactor Passkeys Records Geocoding Profiles Fleet Couriers Sellers Errors Validation Guards Routes Access Credentials Sweeper.
From Stdlib Require Import Ascii String.

Local Open Scope string_scope.
Local Open Scope Z_scope.

(** ** What every request preserves *)

Class ServicePrimitives {P : Platform} (R : Db -> Db -> Prop) := {
  service_passkeys :: PasskeyPrimitives R;
  service_profiles : ignores R set_profiles;
  service_profiles_next : ignores R set_profiles_next;
  service_merchants : ignores R set_merchants;
  service_merchants_next : ignores R set_merchants_next;
  service_verifications : ignores R set_merchant_verifications;
  service_verifications_next : ignores R set_merchant_verifications_next;
  service_filed : forall f, guar (on_db R) (recordFiled f);
  service_approved : forall f, guar (on_db R) (recordApproved f);
  service_rejected : forall u, guar (on_db R) (recordRejected u);
  service_geocoded : ignores R set_geocoded_addresses
}.
#[export] Hint Extern 1 (ServicePrimitives _) => typeclasses eauto : guar.

Section Requests.
Context {P : Platform} {G : GeocodingProviderPort} {F : FleetRegistryPort} {C : PasskeyCeremonyPort} {V : ValidatorLibrary}.
Context (cfg : TokenConfig P) (registry : ClientRegistry) (verifier : option (ClientProofVerifierPort World)).
Context (throttled : Route -> Request -> World -> bool) (credential_of : JsonObject -> Credential).
Context (Hverifier : verifier_reads_only verifier).
Context (R : Db -> Db -> Prop) {HR : ServicePrimitives R}.
Abbreviation serve := (Routes.serve cfg registry verifier throttled credential_of).
Abbreviation handle := (Routes.handle cfg credential_of).

Hint Resolve login_guar verifyTwoFactor_guar register_account_guar refresh_guar auth_logout_guar setupTwoFactor_guar enableTwoFactor_guar
  disableTwoFactor_guar passkey_signInOptions_guar passkey_verifySignIn_guar passkey_list_guar passkey_registrationOptions_guar
  passkey_register_guar passkey_remove_guar findById_guar findByEmail_guar verifyPassword_guar startSession_guar
  resolveOrMint_guar guar_of_res getProfile_guar : guar.

Lemma save_profile_serves p : guar (on_db R) (save_profile p).
Proof. apply save_record_guar; [typeclasses eauto|intros; apply service_profiles_next|intros; apply service_profiles]. Qed.
Lemma save_merchant_serves m : guar (on_db R) (save_merchant m).
Proof. apply save_record_guar; [typeclasses eauto|intros; apply service_merchants_next|intros; apply service_merchants]. Qed.
Lemma save_verification_serves v : guar (on_db R) (save_verification v).
Proof. apply save_record_guar; [typeclasses eauto|intros; apply service_verifications_next|intros; apply service_verifications]. Qed.
Lemma geocode_serves q : guar (on_db R) (geocode q).
Proof. apply geocode_guar; [typeclasses eauto|apply service_geocoded]. Qed.
Hint Resolve save_profile_serves save_merchant_serves save_verification_serves geocode_serves : guar.

Lemma updateProfile_serves u dto : guar (on_db R) (updateProfile u dto).
Proof.
  apply updateProfile_guar; [typeclasses eauto|apply service_geocoded|apply service_profiles|apply service_profiles_next].
Qed.
Hint Resolve updateProfile_serves service_filed service_approved service_rejected : guar.

Lemma register_courier_serves dto context : guar (on_db R) (register_courier cfg dto context).
Proof. unfold register_courier, sessionFor, resume, fileVehicle, explain. guar_auto. Qed.
Lemma approveCourier_serves p : guar (on_db R) (approveCourier p).
Proof.
  unfold approveCourier, userIdForPrincipal, findCourierApplication, activateInFleet, restoreCustomer, courier_refusalOf, approved.
  guar_auto.
Qed.
Lemma registerAlias_serves p s l : guar (on_db R) (registerAlias p s l).
Proof. unfold registerAlias, find_alias. guar_auto. Qed.
Hint Resolve register_courier_serves approveCourier_serves registerAlias_serves : guar.

Lemma approveVerification_serves userId : guar (on_db R) (approveVerification userId).
Proof.
  unfold approveVerification, pendingSellerApplication, findApplication, findVerification, requireMayBecomeSeller, findMerchant,
    approved_merchant, uniqueSlug, findBySlug, merchant_placeOnMap.
  guar_auto.
Qed.
Hint Resolve approveVerification_serves : guar.

Lemma handle_serves c rq : guar (on_db R) (handle c rq).
Proof.
  destruct c; open_handler;
    unfold answering, list_seller_applications, principalsOf, seller_tally, applicationOf,
      onboardSeller, requireMayBecomeSeller, rejectVerification, pendingSellerApplication, findApplication, findVerification,
      withPrincipal, principalIdForUser, find_alias, list_applications, courier_tally, rejectCourier, userIdForPrincipal,
      pendingCourierApplication, findCourierApplication;
    guar_auto.
Qed.

(** Every request, on whatever route, with whatever it sends. *)
Lemma serve_guar c rq : guar (on_db R) (serve c rq).
Proof.
  apply guar_bind.
  - eapply (guar_mono (on_db eq)); [|by apply guarded_guar]. unfold on_db. intros w w' ->. reflexivity.
  - intros rq'. unfold audit_intercept, record_action. pose proof (handle_serves c rq'). guar_auto.
Qed.
End Requests.

(** ** The relations it is used with *)

Section CourierFrames.
Context {P : Platform} (R : Db -> Db -> Prop) {HR : PreOrder R}.
Context (Hrows : ignores R set_courier_applications) (Hnext : ignores R set_courier_applications_next).
Lemma write_application_frame row f : guar (on_db R) (write_application row f).
Proof.
  unfold write_application. guar_auto. apply guar_statement; [done|]. intros w. cbv zeta.
  destruct (_ || _); cbn; [apply Hnext|]. etrans; [apply Hnext|apply Hrows].
Qed.
Lemma recordRejected_frame u : guar (on_db R) (recordRejected u).
Proof.
  apply guar_update; [done|]. intros w. destruct (courier_applications (db w) !! u); [|reflexivity].
  case_bool_decide; [apply Hrows|reflexivity].
Qed.
End CourierFrames.

(** The goals of [ServicePrimitives R] for a relation that does not see the tables of its own fields;
    [same] proves that it does not. *)
Ltac service_primitives same :=
  split; [typeclasses eauto|..]; intros;
  first [ apply write_application_frame; [typeclasses eauto|intros ??; same|intros ??; same]
        | apply recordRejected_frame; [typeclasses eauto|intros ??; same]
        | intros ??; same ].

Section Instances.
Context {P : Platform}.
#[export] Instance service_tokens : ServicePrimitives tokens_evolve.
Proof. service_primitives ltac:(by apply tokens_same). Qed.
#[export] Instance service_revocations : ServicePrimitives revocations_kept.
Proof. service_primitives ltac:(intros ?? H; exact H). Qed.
#[export] Instance service_emails : ServicePrimitives emails_step.
Proof. service_primitives ltac:(intros H; exact H). Qed.
#[export] Instance service_aliases : ServicePrimitives aliases_kept.
Proof. service_primitives ltac:(intros ?? H; exact H). Qed.
#[export] Instance service_limit : ServicePrimitives (limit_step PASSKEYS_PER_ACCOUNT).
Proof. service_primitives ltac:(intros H; exact H). Qed.
#[export] Instance service_challenges : ServicePrimitives challenges_evolve.
Proof. service_primitives ltac:(intros H; auto). Qed.
#[export] Instance passkey_applications : PasskeyPrimitives applications_step.
Proof. passkey_primitives; passkey_frame; intros ??; by apply applications_same. Qed.
#[export] Instance service_applications : ServicePrimitives applications_step.
Proof.
  split; [typeclasses eauto|..]; intros; try (intros ??; by apply applications_same).
  - apply recordFiled_guar.
  - apply recordApproved_guar.
  - apply recordRejected_guar.
Qed.
End Instances.

(** ** What holds of the service's data at all times *)

Section ServiceData.
Context {P : Platform}.

(** No two accounts have one email, no account has more passkeys than allowed, a passkey challenge is of
    a sign-in exactly if it is of a second factor, and the dates of a courier application follow its
    status. *)
Record service_ok (d : Db) : Prop := {
  ok_emails : emails_unique d;
  ok_passkeys : within_limit PASSKEYS_PER_ACCOUNT d;
  ok_challenges : challenges_ok d;
  ok_applications : applications_ok d
}.

(** Aliases name the principal they named, refresh tokens are there and closed if they were, a spent
    registration challenge stays spent and applications keep their number and their approval. *)
Record service_kept (d d' : Db) : Prop := {
  kept_aliases : aliases_kept d d';
  kept_tokens : tokens_evolve d d';
  kept_challenges : forall id, spent_registration id d -> spent_registration id d';
  kept_applications : forall u r, courier_applications d !! u = Some r ->
    exists r', courier_applications d' !! u = Some r' /\ application_kept r r'
}.

Definition service_step (d d' : Db) : Prop := service_ok d -> service_ok d' /\ service_kept d d'.
Definition service_parts : Db -> Db -> Prop :=
  both emails_step (both (limit_step PASSKEYS_PER_ACCOUNT) (both challenges_evolve (both applications_step (both aliases_kept tokens_evolve)))).

Lemma parts_step d d' : service_parts d d' -> service_step d d'.
Proof.
  intros (He & Hl & Hc & Ha & Hal & Ht) [O1 O2 O3 O4]. destruct (Hc O3), (Ha O4). split; split; auto.
Qed.
End ServiceData.

(** Until [t] no refresh token is reopened, and no revocation is forgotten but one whose token was over
    before then: what requests do, and a sweep at any instant up to [t]. *)
Definition closed_until (t : Z) (d d' : Db) : Prop :=
  tokens_evolve d d' /\
  forall j r, revoked_access_tokens d !! j = Some r -> revoked_access_tokens d' !! j = Some r \/ revoked_expiresAt r < t.

#[export] Instance closed_until_preorder t : PreOrder (closed_until t).
Proof.
  split; [intros d; split; [reflexivity|by left]|]. intros d1 d2 d3 [T1 H1] [T2 H2]. split; [by etrans|].
  intros j r Hr. destruct (H1 j r Hr) as [Hr2|]; [by apply H2|by right].
Qed.

Lemma closed_always t d d' : tokens_evolve d d' -> revocations_kept d d' -> closed_until t d d'.
Proof. intros Ht Hr. split; [done|]. intros j r Hj. left. by apply Hr. Qed.

Lemma swept_closed node pg d d' t : node <= t -> swept node pg d d' -> closed_until t d d'.
Proof.
  intros Hn Hs. split.
  - apply tokens_same. exact (f_equal refresh_tokens (swept_rest _ _ _ _ Hs)).
  - intros j r Hr. pose proof (swept_revoked _ _ _ _ Hs j) as H. rewrite Hr in H. destruct H as [|[_ ?]]; [by left|right; lia].
Qed.

(** A sweep, at any instant up to [t]. *)
Lemma sweep_closes_nothing {P : Platform} t w : node_ms w <= t -> on_db (closed_until t) w (run sweep w).2.
Proof. intros Ht. destruct (sweep_sweeps w) as (w' & -> & _ & _ & Hs). by eapply swept_closed. Qed.

(** ** Logging out *)

Section LogOut.
Context {P : Platform} {L : PlatformLaws P} {G : GeocodingProviderPort} {F : FleetRegistryPort} {C : PasskeyCeremonyPort} {V : ValidatorLibrary}.
Context (cfg : TokenConfig P) (registry : ClientRegistry) (verifier : option (ClientProofVerifierPort World)).
Context (throttled : Route -> Request -> World -> bool) (credential_of : JsonObject -> Credential).
Context (Hverifier : verifier_reads_only verifier).
Abbreviation serve := (Routes.serve cfg registry verifier throttled credential_of).
Abbreviation handle := (Routes.handle cfg credential_of).

Lemma serve_parts c rq : guar (on_db service_parts) (serve c rq).
Proof. repeat apply guar_both; apply serve_guar; first [done|typeclasses eauto]. Qed.

(** C8: Whatever requests come, on whatever routes and with whatever they send, however they interleave and
    whichever database calls are lost: no two accounts ever have one email address, no account more
    passkeys than allowed, a passkey challenge is one of a second factor exactly if it is a sign-in's,
    and the dates of a courier application follow its status; and no alias is ever repointed, no refresh
    token reopened or removed, no registration challenge made good again, no application renumbered and
    no approval withdrawn. *)
Theorem service_keeps_its_invariants calls w w' ps' :
  service_ok (db w) ->
  psteps (on_db service_parts) (w, map (fun '(c, rq) => serve c rq) calls) (w', ps') ->
  service_ok (db w') /\ service_kept (db w) (db w').
Proof.
  intros Hok Hs. eapply psteps_guar in Hs as [Hs _]; [by apply parts_step|typeclasses eauto..|].
  apply Forall_map, Forall_true. intros [c rq]. apply serve_parts.
Qed.

Lemma serve_closes t c rq : guar (on_db (closed_until t)) (serve c rq).
Proof.
  apply (guar_mono (on_db (both tokens_evolve revocations_kept))); [intros w w' []; by apply closed_always|].
  apply guar_both; apply serve_guar; first [done|typeclasses eauto].
Qed.

(** The record of a revocation lasts at least until [e]. *)
Definition lasts (j : string) (e : Z) (d : Db) : Prop := forall r, revoked_access_tokens d !! j = Some r -> e <= revoked_expiresAt r.

Definition lasts_step (j : string) (e : Z) (d d' : Db) : Prop := lasts j e d -> lasts j e d'.
#[export] Instance lasts_step_preorder j e : PreOrder (lasts_step j e).
Proof. split; [intros d; exact id|intros a b c; unfold lasts_step; auto]. Qed.

Lemma logout_lasts claims family : guar (on_db (lasts_step (jti claims) (exp claims * 1000))) (logout claims family).
Proof.
  assert (forall sel reason, guar (on_db (lasts_step (jti claims) (exp claims * 1000))) (revokeWhere sel reason)) as Hw
    by (intros; apply revokeWhere_frame; [typeclasses eauto|intros ?? Hl; exact Hl]).
  unfold logout, revokeAccessJti, recordRevokedJti, revokeAllFamiliesForPrincipal, revokeFamily. guar_auto.
  apply guar_statement; [typeclasses eauto|]. intros w. destruct (revoked_access_tokens (db w) !! jti claims) eqn:E; [reflexivity|].
  intros _ r. cbn. rewrite lookup_insert_eq. intros [= <-]. cbn. lia.
Qed.

(** The session a log-out names by the refresh token it sends, if it sends one. *)
Definition names_session (body : JsonObject) (family : option string) : Prop :=
  exists sent, reading LogoutInputDto (sent_text "refreshToken") body = Ok sent /\
    match sent with
    | None => family = None
    | Some token => exists c, jwt_decode token = Some (JwtObject c) /\ family = fam c
    end.

Lemma run_auth_logout claims sent w u w' :
  run (auth_logout cfg claims sent) w = (Ok u, w') ->
  exists family, match sent with
                 | None => family = None
                 | Some token => exists c, jwt_decode token = Some (JwtObject c) /\ family = fam c
                 end /\ run (logout claims family) w = (Ok u, w').
Proof.
  unfold auth_logout. rewrite run_bind. destruct sent as [token|]; [|cbn; by exists None].
  rewrite run_bind. unfold peekRefresh. rewrite run_bind.
  destruct (run_verifySignature cfg token w) as [(c & Hv%verified_decodes & ->)|(m & -> & _)]; [|done].
  destruct (negb _); [done|]. cbn [run]. destruct (bool_decide _); [|done]. cbn [run]. intros H. exists (fam c). eauto.
Qed.

(** What a log-out that is answered has done. *)
Lemma served_logout token body rq w a w1 :
  bearerToken (rq_headers rq) = Some token -> outlived_by revoked_expiresAt token (revoked_access_tokens (db w)) ->
  run (serve (AuthLogout body) rq) w = (Ok a, w1) ->
  exists claims family, caller cfg rq w claims /\ jwt_decode token = Some (JwtObject claims) /\ names_session body family /\
    (exists r, revoked_access_tokens (db w1) !! jti claims = Some r /\ exp claims * 1000 <= revoked_expiresAt r) /\
    forall j row, refresh_tokens (db w1) !! j = Some row -> selected_by_logout claims family row -> revokedAt row <> None.
Proof.
  intros Ht Hout. unfold Routes.serve. rewrite run_bind.
  pose proof (guarded_db cfg registry verifier throttled Hverifier (route_of (AuthLogout body)) rq w) as Hdb.
  destruct (run (guarded _ _ _ _ _ rq) w) as [[rq'|e] w0] eqn:Eg; [|done]. cbn [fst snd] in Hdb.
  apply guarded_session in Eg as (claims & Hcaller & -> & _ & _); [|done..|cbn; set_solver].
  destruct Hcaller as (token' & w'' & Et & Hs). rewrite Ht in Et. injection Et as <-.
  pose proof Hs as (Hv%verified_decodes & _ & _)%run_verifySession.
  destruct (run_audit (route_of (AuthLogout body)) (with_user claims rq) (handle (AuthLogout body) (with_user claims rq)) w0) as [E1 E2].
  destruct (run (audit_intercept _ _ _) w0) as [r wa]. cbn [fst snd] in E1, E2. intros [= -> ->].
  destruct (run (handle _ _) w0) as [r0 w2] eqn:Eh. cbn [fst snd] in E1, E2. subst r0. rewrite E2.
  revert Eh. open_handler. rewrite run_bind, run_of_res. destruct (CurrentUser _) as [claims'|] eqn:Ec; [|done].
  assert (claims' = claims) as -> by (revert Ec; unfold CurrentUser; cbn; case_bool_decide; congruence).
  rewrite run_bind, run_of_res. destruct (reading _ _ body) as [sent|] eqn:Er; [|done].
  unfold answering. rewrite run_bind. destruct (run (auth_logout cfg claims sent) w0) as [[u|e] w3] eqn:El; [|done].
  cbn [run]. intros [= _ <-]. apply run_auth_logout in El as (family & Hf & El).
  destruct (logout_revokes _ _ _ _ _ El) as [_ H]. destruct u. destruct (H eq_refl) as [[row Hrow] Hrows].
  exists claims, family. split_and!; [by exists token, w''|done|by exists sent| |done]. exists row. split; [done|].
  assert (lasts (jti claims) (exp claims * 1000) (db w3)) as Hl; [|by apply Hl].
  pose proof (logout_lasts claims family) as Hg. apply (guar_run _ _ w0) in Hg; [|typeclasses eauto..].
  rewrite El in Hg. apply Hg. rewrite Hdb. intros r Hr. by eapply Hout.
Qed.

(** A gated program that is run where nothing is left to spend throws. *)
Lemma gated_throws {A} R (spent : World -> Prop) (m : M A) w :
  (forall w w', R w w' -> spent w -> spent w') -> gated spent m -> guar R m -> spent w -> exists e, (run m w).1 = Err e.
Proof.
  intros HR. revert w. induction m as [a|e|X op k IH]; intros w Hg Hr Hw; cbn in *; [done|eauto|].
  destruct (Hr w) as [H1 H2]. destruct (Hg w) as [Hk|[Hn _]]; [|done]. destruct (op w) as [x w']. cbn in *. eauto.
Qed.

Lemma signed_out claims token t w v c rq :
  jwt_decode token = Some (JwtObject claims) ->
  (exists r, revoked_access_tokens (db w) !! jti claims = Some r /\ exp claims * 1000 <= revoked_expiresAt r) ->
  closed_until t (db w) (db v) -> t <= node_ms v ->
  is_public c = false -> bearerToken (rq_headers rq) = Some token -> refused_untouched v (run (serve c rq) v).
Proof.
  intros Hd (r & Hr & He) [_ Hk] Ht Hp Hb. unfold Routes.serve. rewrite run_bind.
  pose proof (guarded_db cfg registry verifier throttled Hverifier (route_of c) rq v) as Hdb.
  destruct (run (guarded _ _ _ _ _ rq) v) as [[rq'|e] v1] eqn:Eg; [|by exists e]. exfalso.
  apply guarded_session in Eg as (claims' & (token' & v2 & Hb' & Hs) & _); [|by destruct c..|destruct c; try done; cbn; set_solver].
  rewrite Hb in Hb'. injection Hb' as <-. apply run_verifySession in Hs as (Hv & _ & Hn & _).
  pose proof (verified_decodes _ _ _ _ Hv) as Hd'. rewrite Hd in Hd'. injection Hd' as <-.
  destruct (Hk _ _ Hr) as [Hr'|Hexp]; [congruence|]. destruct Hv as (key & _ & (_ & _ & Hx)%verify_checks).
  pose proof (Z.mul_div_le (node_ms v) 1000). pose proof (Z.mod_pos_bound (node_ms v) 1000). pose proof (Z.div_mod (node_ms v) 1000). lia.
Qed.

Lemma refresh_refused refreshToken context v :
  spent_token (jti_of refreshToken) v -> exists e, (run (refresh cfg refreshToken context) v).1 = Err e.
Proof.
  apply (gated_throws (on_db tokens_evolve)); [apply spent_token_evolves|apply refresh_gated|].
  apply refresh_guar. typeclasses eauto.
Qed.

(** C7: What a log-out that is answered has ended stays ended. The log-out is served with no step of another
    request between its own (a rotation that overlaps it can leave a live token), and an earlier revocation
    of its access token, if there was one, lasts as long as the token. After it any number of further
    requests run on any routes, in any interleaving and with whatever they send, with lost database calls
    and sweeps among them. Then, judged at a clock that is not behind that of any of the sweeps: the access
    token that was logged out is refused on every route that asks for one, with every table as it was; and
    no refresh token that was stored, when the log-out ended, for the session it named, or for the
    principal where it named none, is exchanged. *)
Theorem logged_out_for_good token body rq w a w1 t calls v ps' :
  bearerToken (rq_headers rq) = Some token -> outlived_by revoked_expiresAt token (revoked_access_tokens (db w)) ->
  run (serve (AuthLogout body) rq) w = (Ok a, w1) ->
  psteps (on_db (closed_until t)) (w1, map (fun '(c, rq') => serve c rq') calls) (v, ps') -> t <= node_ms v ->
  (forall c rq', is_public c = false -> bearerToken (rq_headers rq') = Some token -> refused_untouched v (run (serve c rq') v)) /\
  exists claims family, caller cfg rq w claims /\ names_session body family /\
    forall refreshToken row, refresh_tokens (db w1) !! jti_of refreshToken = Some row -> selected_by_logout claims family row ->
      forall context, exists e, (run (refresh cfg refreshToken context) v).1 = Err e.
Proof.
  intros Hb Hout Hrun Hs Ht. destruct (served_logout _ _ _ _ _ _ Hb Hout Hrun) as (claims & family & Hc & Hd & Hf & Hrow & Hrefresh).
  assert (closed_until t (db w1) (db v)) as Hk.
  { eapply psteps_guar in Hs as [Hs _]; [exact Hs|typeclasses eauto..|].
    apply Forall_map, Forall_true. intros [c rq']. apply serve_closes. }
  split; [intros c rq' Hp Hb'; by eapply signed_out|]. exists claims, family. split_and!; [done..|].
  intros refreshToken row Hr Hsel context. apply refresh_refused.
  apply (spent_token_evolves _ w1); [apply Hk|]. exists row. split; [done|]. intros [Hl _]. by eapply Hrefresh.
Qed.
End LogOut.

Module Witness.
Import Credentials.Witness.

(** Alice registers and logs out; then Bob registers and Alice's tokens are swept, with the clock a day on. *)
Abbreviation pool := (@Routes.serve sample_platform provider fleet ceremony library cfg registry None never credential).
Definition alice_refresh : string := match registered.1 with Ok (AnswerSession s) => out_refreshToken s | _ => "" end.
Definition logged_out := call (AuthLogout []) (request (Some token) "") registered.2.
Definition bob : JsonObject := [("email", JString "bob@x.io"); ("password", JString "correct horse")].
Definition later := schedule (repeat 0%nat 40) (logged_out.2, [pool (AuthRegister bob) (request None "")]).
Definition a_day_on : World := set_clocks (1000000000 + 86400000) (1000000000 + 86400000) later.1.
Definition swept_world : World := (run (@sweep sample_platform) a_day_on).2.

Example alice_is_out :
  logged_out.1 = Ok AnswerNothing /\ size (users (db later.1)) = 2%nat /\
  (call AuthMe (request (Some token) "") registered.2).1 <> (call AuthMe (request (Some token) "") later.1).1 /\
  revoked_access_tokens (db later.1) !! jti_of (P := sample_platform) token <> None /\
  revoked_access_tokens (db swept_world) = ∅.
Proof.
  split_and!; try (vm_compute; first [reflexivity|discriminate]).
Qed.

Lemma psteps_then {A} R (c0 c : World * list (M A)) v : psteps R c0 c -> R c.1 v -> psteps R c0 (v, c.2).
Proof. intros Hs Hv. etransitivity; [exact Hs|]. destruct c as [w ps]. by apply rtc_once, pstep_other. Qed.

Lemma sweep_later t pg w : on_db (closed_until t) w (run (@sweep sample_platform) (set_clocks t pg w)).2.
Proof. exact (sweep_closes_nothing t (set_clocks t pg w) (Z.le_refl t)). Qed.

Lemma logged_out_for_good_witness :
  (exists e, (call AuthMe (request (Some token) "") swept_world).1 = Err e) /\
  exists e, (run (@refresh sample_platform cfg alice_refresh (callContextOf (request None ""))) swept_world).1 = Err e.
Proof.
  destruct (@logged_out_for_good sample_platform (sample_laws _) provider fleet ceremony library cfg registry None never credential
    verifier_ok token [] (request (Some token) "") registered.2 AnswerNothing logged_out.2 (1000000000 + 86400000)
    [(AuthRegister bob, request None "")] swept_world later.2) as [Hme (claims & family & Hc & Hf & Hrefresh)].
  - vm_compute. reflexivity.
  - assert (revoked_access_tokens (db registered.2) = ∅) as E by (apply (bool_decide_unpack _); vm_compute; exact I).
    intros c row _. rewrite E. discriminate.
  - assert (logged_out.1 = Ok AnswerNothing) as <- by (vm_compute; reflexivity). exact (surjective_pairing _).
  - apply (psteps_then _ _ later); [exact (schedule_psteps _ _ _)|].
    unfold swept_world, a_day_on. apply sweep_later.
  - vm_compute. discriminate.
  - split.
    + destruct (Hme AuthMe (request (Some token) "") eq_refl) as (e & He & _); [vm_compute; reflexivity|]. exists e. exact He.
    + destruct Hf as (sent & Hsent & Hf).
      assert (sent = None) as -> by (vm_compute in Hsent; congruence).
      assert (exists row, refresh_tokens (db logged_out.2) !! @jti_of sample_platform alice_refresh = Some row /\
        principalId row = sub (Sessions.Witness.claims_in token)) as (row & Hrow & Hp)
        by (eexists; split; [vm_compute; reflexivity|vm_compute; reflexivity]).
      apply (Hrefresh alice_refresh row Hrow). rewrite Hf. unfold selected_by_logout. rewrite Hp.
      destruct Hc as (t & w' & Ht & Hv). assert (t = token) as -> by (vm_compute in Ht; vm_compute; congruence).
      assert ((run (verifySession cfg token) registered.2).1 = Ok (Sessions.Witness.claims_in token)) as E by (vm_compute; reflexivity).
      rewrite Hv in E. cbn [fst] in E. congruence.
Defined.

Lemma empty_ok : @service_ok sample_platform empty_db.
Proof.
  split.
  - intros i j a b H. discriminate H.
  - intros u. change (Z.of_nat 0 <= PASSKEYS_PER_ACCOUNT). vm_compute. discriminate.
  - intros id r H. discriminate H.
  - intros u r H. discriminate H.
Defined.

(** Two registrations with one address, in two spellings, at once: one account. *)
Definition alice_again : JsonObject := [("email", JString "alice@X.io"); ("password", JString "battery staple")].
Definition both_register : list (Call * Request) :=
  [(AuthRegister registration, request None ""); (AuthRegister alice_again, request None "")].
Definition race := schedule (flat_map (fun _ => [0; 1]%nat) (seq 0 40))
  (world_at 1000000000 empty_db, map (fun '(c, rq) => pool c rq) both_register).

Lemma service_keeps_its_invariants_witness :
  size (users (db race.1)) = 1%nat /\ @service_ok sample_platform (db race.1).
Proof.
  split; [vm_compute; reflexivity|].
  destruct (@service_keeps_its_invariants sample_platform provider fleet ceremony library cfg registry None never credential
    verifier_ok both_register (world_at 1000000000 empty_db) race.1 race.2) as [H _]; [exact empty_ok| |exact H].
  rewrite <- surjective_pairing. exact (schedule_psteps _ _ _).
Defined.
End Witness.
