(* ===== verification/Maintenance.v ===== *)
(** * The operator's scripts

    Models src/src/bootstrap-admin.ts (the first administrator), src/scripts/promote_account.ts (the
    role of an account), src/scripts/purge_anonymous_rows.ts (rows from before the guards) and
    src/scripts/backfill_principal_aliases.ts (principals and aliases for the ids of other
    services). Each [main] is a program on the service's tables; the databases of the other
    services, and the creation times of rows, are parameters. The connection settings are not
    modelled. *)

From S2P Require Import Prelude JsString Dates Domain Store Sample Keys Accounts SecondFactor Couriers Pages Grpc.
From Stdlib Require Import Ascii String.

Local Open Scope string_scope.
Local Open Scope Z_scope.

(** ** The command line *)

(** How a script that does not throw ends: it returns, or calls [process.exit]. *)
Inductive ScriptEnd := Returned | Exit (exit_status : Z).

Fixpoint arg (argv : list string) (name : string) : option string :=
  match argv with
  | [] => None
  | a :: rest => if String.eqb a ("--" ++ name) then head rest else arg rest name
  end.

(** A value that is there and not the empty string. *)
Definition given (value : option string) : option string :=
  match value with Some s => if String.eqb s "" then None else Some s | None => None end.

Definition says_apply (argv : list string) : bool := bool_decide ("--apply" ∈ argv).

Definition ROLES : list UserRole := [Customer; Seller; Courier; Admin].
Definition role_named (text : string) : option UserRole := List.find (fun r => String.eqb (role_name r) text) ROLES.

Section Scripts.
Context {P : Platform}.
Local Open Scope prog_scope.

Definition console (line : string) : M unit := emit (LogLine None line).

(** UPDATE users SET role WHERE id AND the guard *)
Definition with_role (role : UserRole) (row : UserRow) : UserRow :=
  let u := row_user row in
  mkUserRow (mkUser (user_id u) (user_email u) (passwordHash u) role (isTwoFactorEnabled u) (twoFactorSecret u)) (twoFactorLastStep row).
Definition update_role (id : Z) (guard : UserRole -> bool) (role : UserRole) : M unit :=
  update (fun w =>
    (tt, set_users (alter (fun row => if guard (user_role (row_user row)) then with_role role row else row) id (users (db w))) (db w))).

(** UPDATE principals SET kind WHERE id *)
Definition update_kind (principal : string) (kind : PrincipalKind) : M unit :=
  update (fun w =>
    (tt, set_principals (alter (fun row => mkPrincipal kind (principal_displayName row)) principal (principals (db w))) (db w))).

(** ** The first administrator *)

Definition bootstrap_main (configuredEmail configuredPassword : option string) : M unit :=
  match given configuredEmail, given configuredPassword with
  | Some configuredEmail, Some password =>
      let email := normalisedEmail configuredEmail in
      if str_length password <? 12 then Throw (PlainError "the bootstrap admin password must be at least 12 characters")
      else
        existingAdmins <- query (fun w =>
          Z.of_nat (List.length (List.filter (fun '(_, row) => bool_decide (user_role (row_user row) = Admin)) (map_to_list (users (db w)))))) ;;
        if 0 <? existingAdmins then
          console ("this platform already has " ++ String_of existingAdmins ++ " admin account(s); nothing was created. " ++
                   "Grant further administrators through an existing admin, not through this script.")
        else
          taken <- query (fun w =>
            find_row (fun row => bool_decide (pg_lower (user_email (row_user row)) = pg_lower email)) (users (db w))) ;;
          match taken with
          | Some row =>
              Throw (PlainError (email ++ " is already registered as " ++ role_name (user_role (row_user row)) ++
                                 "; choose an address that is not in use"))
          | None =>
              salt <- next_random ;;
              created <- save_user_row (mkUser 0 email (bcrypt_hash salt password) Admin false None) ;;
              console ("created admin " ++ user_email created ++ " (id " ++ String_of (user_id created) ++ ")") ;;;
              console "log in once to mint its principal, then remove the password from the environment"
          end
  | _, _ =>
      Throw (PlainError ("KINETIX_BOOTSTRAP_ADMIN_EMAIL and KINETIX_BOOTSTRAP_ADMIN_PASSWORD are both required " ++
                         "and have no defaults"))
  end.

(** ** The role of an account *)

Definition promote_main (argv : list string) : M ScriptEnd :=
  match given (arg argv "email"), given (arg argv "role") with
  | Some email, Some text =>
      match role_named text with
      | None =>
          console ("unknown role '" ++ text ++ "'. Valid roles: " ++ join ", " (map role_name ROLES)) ;;;
          Ret (Exit 2)
      | Some role =>
          found <- query (fun w =>
            find_row (fun row => bool_decide (pg_lower (user_email (row_user row)) = pg_lower email)) (users (db w))) ;;
          match found with
          | None => console ("no account with email " ++ email) ;;; Ret (Exit 1)
          | Some row =>
              let id := user_id (row_user row) in
              let kind := principalKindForRole role in
              console ("account " ++ String_of id ++ " (" ++ email ++ "): " ++ role_name (user_role (row_user row)) ++ " -> " ++ role_name role) ;;;
              console ("principal kind      : " ++ kind_name kind) ;;;
              if negb (says_apply argv) then console "dry run. Nothing was written. Re-run with --apply." ;;; Ret Returned
              else
                transaction (
                  update_role id (fun _ => true) role ;;;
                  alias <- find_alias "identity" (String_of id) ;;
                  match alias with
                  | Some principal => update_kind principal kind ;;; console ("principal " ++ principal ++ " updated")
                  | None => console "no principal yet; it will be minted with the correct kind at first login"
                  end) ;;;
                after <- query (fun w => match users (db w) !! id with Some row => Some (user_role (row_user row)) | None => None end) ;;
                if bool_decide (after = Some role) then console "applied." ;;; Ret Returned
                else Throw (PlainError ("the role is still '" ++ match after with Some r => role_name r | None => "undefined" end ++ "' after the update"))
          end
      end
  | _, _ =>
      console "usage: bun scripts/promote_account.ts --email <email> --role <role> [--apply]" ;;;
      console ("roles: " ++ join ", " (map role_name ROLES)) ;;;
      Ret (Exit 2)
  end.

(** ** Rows from before the guards *)

(** The column [createdAt] of a row, which the database sets when it inserts it. *)
Context (merchant_createdAt profile_createdAt : Z -> Z).

Definition merchants_before (before : Z) (d : Db) : list MerchantEntity :=
  sort_by_id merchant_id
    (List.filter (fun m => merchant_createdAt (merchant_id m) <? before) (map snd (map_to_list (merchants d)))).
Definition verified_before (before : Z) (v : MerchantVerificationEntity) : bool :=
  match verifiedAt v with Some t => t <? before | None => false end.
Definition verifications_before (before : Z) (d : Db) : list MerchantVerificationEntity :=
  sort_by_id verification_id (List.filter (verified_before before) (map snd (map_to_list (merchant_verifications d)))).
Definition profiles_before (before : Z) (d : Db) : list ProfileEntity :=
  sort_by_id profile_id
    (List.filter (fun p => profile_createdAt (profile_id p) <? before) (map snd (map_to_list (profiles d)))).

(** One turn of the loop over the merchants. *)
Definition purge_merchant (m : MerchantEntity) : M unit :=
  update (fun w =>
    (tt, set_principal_aliases (delete ("identity-merchant", String_of (merchant_id m)) (principal_aliases (db w))) (db w))) ;;;
  update_role (merchant_userId m) (fun role => bool_decide (role = Seller)) Customer ;;;
  alias <- find_alias "identity" (String_of (merchant_userId m)) ;;
  match alias with
  | Some principal => update_kind principal (principalKindForRole Customer)
  | None => Ret tt
  end.

Fixpoint purge_merchants (l : list MerchantEntity) : M unit :=
  match l with
  | [] => Ret tt
  | m :: l => purge_merchant m ;;; purge_merchants l
  end.

(** DELETE FROM .. WHERE .., answering how many rows it deleted. *)
Definition delete_merchants (before : Z) : M Z :=
  update (fun w =>
    let kept := filter (fun '(_, m) => ~ merchant_createdAt (merchant_id m) < before) (merchants (db w)) in
    (Z.of_nat (size (merchants (db w))) - Z.of_nat (size kept), set_merchants kept (db w))).
Definition delete_verifications (before : Z) : M Z :=
  update (fun w =>
    let kept := filter (fun '(_, v) => verified_before before v = false) (merchant_verifications (db w)) in
    (Z.of_nat (size (merchant_verifications (db w))) - Z.of_nat (size kept), set_merchant_verifications kept (db w))).
Definition delete_profiles (before : Z) : M Z :=
  update (fun w =>
    let kept := filter (fun '(_, p) => ~ profile_createdAt (profile_id p) < before) (profiles (db w)) in
    (Z.of_nat (size (profiles (db w))) - Z.of_nat (size kept), set_profiles kept (db w))).

Definition count_lines (text : string) (n : nat) : M unit := console ("  " ++ text ++ ": " ++ String_of (Z.of_nat n)).

Fixpoint merchant_lines (l : list MerchantEntity) : M unit :=
  match l with
  | [] => Ret tt
  | m :: l =>
      console ("    merchant " ++ String_of (merchant_id m) ++ " " ++ quote ++ merchant_storeName m ++ quote ++ " (account " ++
               String_of (merchant_userId m) ++ ")") ;;;
      merchant_lines l
  end.

Definition purge_usage : M ScriptEnd :=
  console "usage: bun scripts/purge_anonymous_rows.ts --before <ISO-8601> [--apply]" ;;;
  console "  --before is the instant the route guards landed; anything older is untrusted." ;;;
  Ret (Exit 2).

Definition purge_main (argv : list string) : M ScriptEnd :=
  match given (arg argv "before") with
  | Some text =>
      match Date_parse text with
      | Some before =>
          merchants <- query (fun w => merchants_before before (db w)) ;;
          verifications <- query (fun w => verifications_before before (db w)) ;;
          profiles <- query (fun w => profiles_before before (db w)) ;;
          console ("untrusted rows created before " ++ text) ;;;
          count_lines "merchants               " (List.length merchants) ;;;
          count_lines "merchant verifications  " (List.length verifications) ;;;
          count_lines "profiles                " (List.length profiles) ;;;
          merchant_lines merchants ;;;
          if Nat.eqb (List.length merchants + List.length verifications + List.length profiles) 0
          then console "nothing to purge." ;;; Ret Returned
          else if negb (says_apply argv) then console "dry run. Nothing was written. Re-run with --apply." ;;; Ret Returned
          else
            ' (m, v, p) <- transaction (
              purge_merchants merchants ;;;
              delMerchants <- delete_merchants before ;;
              delVerifications <- delete_verifications before ;;
              delProfiles <- delete_profiles before ;;
              Ret (delMerchants, delVerifications, delProfiles)) ;;
            left <- query (fun w =>
              Z.of_nat (List.length (merchants_before before (db w))) + Z.of_nat (List.length (profiles_before before (db w)))) ;;
            if negb (left =? 0) then Throw (PlainError (String_of left ++ " untrusted rows survived the purge"))
            else
              console ("purged: " ++ String_of m ++ " merchants, " ++ String_of v ++ " verifications, " ++ String_of p ++ " profiles") ;;;
              Ret Returned
      | None => purge_usage
      end
  | None => purge_usage
  end.
End Scripts.

(** ** Principals for the ids of other services *)

Record BackfillSource := mkSource { source_service : string; source_table : string; source_column : string; source_kind : PrincipalKind }.

Definition SOURCES : list BackfillSource :=
  let customer := PRINCIPAL_KIND_CUSTOMER in
  let merchant := PRINCIPAL_KIND_MERCHANT in
  let driver := PRINCIPAL_KIND_DRIVER in
  [mkSource "order" "orders" "customer_id" customer;
   mkSource "catalog" "products" "merchant_id" merchant;
   mkSource "matching" "orders" "merchant_id" merchant;
   mkSource "matching" "orders" "driver_id" driver;
   mkSource "matching" "location_pings" "driver_id" driver;
   mkSource "payment" "escrow_holds" "customer_id" customer;
   mkSource "payment" "escrow_holds" "merchant_id" merchant;
   mkSource "payment" "escrow_holds" "driver_id" driver;
   mkSource "payment" "customer_wallets" "customer_id" customer;
   mkSource "payment" "merchant_wallets" "merchant_id" merchant;
   mkSource "payment" "driver_wallets" "driver_id" driver;
   mkSource "payment" "payment_transactions" "user_id" customer;
   mkSource "review" "product_reviews" "customer_id" customer;
   mkSource "review" "product_reviews" "merchant_id" merchant;
   mkSource "review" "driver_ratings" "customer_id" customer;
   mkSource "review" "driver_ratings" "driver_id" driver].

(** The services of the list, each once, in the order of their first source. *)
Definition services_of (l : list BackfillSource) : list string :=
  foldl (fun seen s => if bool_decide (source_service s ∈ seen) then seen else (seen ++ [source_service s])%list) [] l.

Record BackfillOrphan := mkOrphan { orphan_source : BackfillSource; orphan_localId : string }.
Record BackfillKindMismatch := mkMismatch { mismatch_source : BackfillSource; mismatch_localId : string; mismatch_actual : PrincipalKind }.

Record Report := mkReport { linked : Z; orphans : list BackfillOrphan; mismatches : list BackfillKindMismatch }.

Section Backfill.
Context {P : Platform}.
(** Why the database of a service cannot be reached, if it cannot; and the distinct ids of a column
    of it, unless it cannot be read. *)
Context (unreachable : string -> option string) (distinct_ids : BackfillSource -> list string + string).
Context (APPLY : bool).
Local Open Scope prog_scope.

(** INSERT INTO principal_aliases .. ON CONFLICT DO NOTHING *)
Definition insert_alias_unless_there (principal service localId : string) : M unit :=
  statement (fun w =>
    match principal_aliases (db w) !! (service, localId) with
    | Some _ => (Ok tt, w)
    | None =>
        match principals (db w) !! principal with
        | None => (Err (QueryFailedError FOREIGN_KEY_VIOLATION), w)
        | Some _ =>
            (Ok tt, set_db (set_principal_aliases (<[(service, localId) := principal]> (principal_aliases (db w))) (db w)) w)
        end
    end).

(** The loop over the accounts: how many principals were, or would be, minted. *)
Fixpoint mint_missing (l : list UserEntity) (minted : Z) : M Z :=
  match l with
  | [] => Ret minted
  | user :: l =>
      existing <- find_alias "identity" (String_of (user_id user)) ;;
      match existing with
      | Some _ => mint_missing l minted
      | None =>
          if negb APPLY then mint_missing l (minted + 1)
          else
            created <- insert_principal (principalKindForRole (user_role user)) (Some (user_email user)) ;;
            insert_alias_unless_there created "identity" (String_of (user_id user)) ;;;
            mint_missing l (minted + 1)
      end
  end.

(** A [for] loop that carries its result along. *)
Fixpoint fold_m {A B} (f : B -> A -> M B) (l : list A) (b : B) : M B :=
  match l with
  | [] => Ret b
  | a :: l => b' <- f b a ;; fold_m f l b'
  end.

(** One turn of the loop over the ids of a column. *)
Definition link_id (byLocalId : string -> option string) (kindByLocalId : string -> option PrincipalKind)
    (source : BackfillSource) (report : Report) (value : string) : M Report :=
  match given (byLocalId value) with
  | None => Ret (mkReport (linked report) (orphans report ++ [mkOrphan source value]) (mismatches report))
  | Some principalId =>
      let mismatched := match kindByLocalId value with
                        | Some actual =>
                            if negb (bool_decide (source_kind source = PRINCIPAL_KIND_DRIVER)) && negb (bool_decide (actual = source_kind source))
                            then [mkMismatch source value actual] else []
                        | None => []
                        end in
      (if APPLY then insert_alias_unless_there principalId (source_service source) value else Ret tt) ;;;
      Ret (mkReport (linked report + 1) (orphans report) (mismatches report ++ mismatched))
  end.

Definition link_source (byLocalId : string -> option string) (kindByLocalId : string -> option PrincipalKind)
    (report : Report) (source : BackfillSource) : M Report :=
  match distinct_ids source with
  | inr why =>
      console (source_service source ++ "." ++ source_table source ++ "." ++ source_column source ++ ": UNREADABLE — " ++ why) ;;; Ret report
  | inl ids => fold_m (link_id byLocalId kindByLocalId source) ids report
  end.

Definition link_service byLocalId kindByLocalId (report : Report) (service : string) : M Report :=
  match unreachable service with
  | Some why => console (service ++ ": UNREACHABLE — " ++ why) ;;; Ret report
  | None =>
      fold_m (link_source byLocalId kindByLocalId)
        (List.filter (fun s => String.eqb (source_service s) service) SOURCES) report
  end.

Fixpoint orphan_lines (l : list BackfillOrphan) : M unit :=
  match l with
  | [] => Ret tt
  | o :: l =>
      let s := orphan_source o in
      console ("  " ++ source_service s ++ "." ++ source_table s ++ "." ++ source_column s ++ " = " ++ orphan_localId o ++
               "  (expected " ++ kind_name (source_kind s) ++ ")") ;;;
      orphan_lines l
  end.

Definition backfill_main : M Report :=
  accounts <- query (fun w => sort_by_id user_id (map (fun kv => row_user kv.2) (map_to_list (users (db w))))) ;;
  minted <- mint_missing accounts 0 ;;
  console ("principals: " ++ String_of minted ++ " " ++ (if APPLY then "minted" else "would be minted") ++ " from " ++
           String_of (Z.of_nat (List.length accounts)) ++ " identity users") ;;;
  aliases <- query (fun w => principal_aliases (db w)) ;;
  let account (localId : string) := bool_decide (localId ∈ map (fun u => String_of (user_id u)) accounts) in
  let byLocalId (localId : string) :=
    match aliases !! ("identity", localId) with
    | Some p => Some p
    | None => if negb APPLY && account localId then Some "(would be minted)" else None
    end in
  ' (aliases, principals) <- query (fun w => (principal_aliases (db w), principals (db w))) ;;
  let kindByLocalId (localId : string) :=
    match (p ← aliases !! ("identity", localId); principals !! p) with
    | Some row => Some (kind row)
    | None =>
        if APPLY then None
        else match List.find (fun u => String.eqb (String_of (user_id u)) localId) accounts with
             | Some u => Some (principalKindForRole (user_role u))
             | None => None
             end
    end in
  report <- fold_m (link_service byLocalId kindByLocalId) (services_of SOURCES) (mkReport 0 [] []) ;;
  console ("aliases: " ++ String_of (linked report) ++ " " ++ (if APPLY then "written" else "would be written")) ;;;
  match orphans report with
  | [] => console "orphans: none — every referenced id resolved to an identity user"
  | l =>
      console ("orphans: " ++ String_of (Z.of_nat (List.length l)) ++ " referenced ids have no identity user") ;;;
      console "these rows cannot be migrated automatically; each needs a decision" ;;;
      orphan_lines l
  end ;;;
  match mismatches report with
  | [] => Ret tt
  | _ => console "the alias is written; the disagreement is not resolved by this script"
  end ;;;
  (if APPLY then Ret tt else console "report only. re-run with --apply to write.") ;;;
  Ret report.
End Backfill.

(** ** Facts *)

Section BootstrapFacts.
Context {P : Platform} {L : PlatformLaws P}.

Definition has_admin (d : Db) : Prop := exists id row, users d !! id = Some row /\ user_role (row_user row) = Admin.

(** The administrator that the script creates. *)
Definition first_admin (email password : option string) (d d' : Db) : Prop :=
  exists email0 password0 id row, email = Some email0 /\ password = Some password0 /\
    12 <= str_length password0 /\ ~ has_admin d /\ users d !! id = None /\
    users d' = <[id := row]> (users d) /\ user_role (row_user row) = Admin /\
    user_email (row_user row) = normalisedEmail email0 /\ bcrypt_compare password0 (passwordHash (row_user row)) = true /\
    forall i other, users d !! i = Some other -> pg_lower (user_email (row_user other)) <> pg_lower (normalisedEmail email0).

Lemma no_admins d :
  (0 <? Z.of_nat (List.length (List.filter (fun '(_, row) => bool_decide (user_role (row_user row) = Admin)) (map_to_list (users d))))) = false ->
  ~ has_admin d.
Proof.
  intros H (id & row & Hrow & Hrole). apply Z.ltb_ge in H.
  assert (In (id, row) (List.filter (fun '(_, row) => bool_decide (user_role (row_user row) = Admin)) (map_to_list (users d)))) as Hin.
  { apply filter_In. split; [by apply list_elem_of_In, elem_of_map_to_list|by apply bool_decide_eq_true]. }
  destruct (List.filter _ _); [done|]. cbn in H. lia.
Qed.

Lemma wp_create_admin u (Q : res exn UserEntity -> World -> Prop) w :
  user_id u = 0 ->
  (forall r w', users (db w') = users (db w) -> (exists e, r = Err e) -> Q r w') ->
  (forall r w' id, users (db w) !! id = None -> users (db w') = <[id := mkUserRow (with_id id u) None]> (users (db w)) ->
    (r = Ok (with_id id u) \/ r = Err ConnectionLost) -> Q r w') ->
  wp (save_user_row u) Q w.
Proof.
  intros Hid Hsame Hnew. unfold save_user_row. apply wp_statement; rewrite ?Hid; cbn [Z.ltb Z.compare].
  - cbv zeta. destruct (bool_decide _ || _) eqn:E; [apply Hsame; cbn; eauto|].
    apply orb_false_iff in E as [E _]. apply bool_decide_eq_false in E. cbn in E.
    apply (Hnew _ _ (users_next (db w))); [by apply eq_None_not_Some|done|by left].
  - apply Hsame; eauto.
  - cbv zeta. destruct (bool_decide _ || _) eqn:E; [apply Hsame; cbn; eauto|].
    apply orb_false_iff in E as [E _]. apply bool_decide_eq_false in E. cbn in E.
    apply (Hnew _ _ (users_next (db w))); [by apply eq_None_not_Some|done|by right].
Qed.

(** The bootstrap script creates an account only where there is no administrator yet and the
    address is free, and the account is an administrator with the configured address and a password
    of at least 12 characters, which it then accepts; in every other case, failures included, no
    account changes. *)
Theorem bootstrap_creates_only_the_first_admin email password w r w' :
  run (bootstrap_main email password) w = (r, w') ->
  users (db w') = users (db w) \/ first_admin email password (db w) (db w').
Proof.
  intros Hrun. enough (wp (bootstrap_main email password) (fun _ w' =>
    users (db w') = users (db w) \/ first_admin email password (db w) (db w')) w) as H.
  { unfold wp in H. by rewrite Hrun in H. }
  unfold bootstrap_main. destruct (given email) as [email0|] eqn:Ee; [|by wp_step; left].
  destruct (given password) as [password0|] eqn:Ep; [|by wp_step; left]. cbv zeta.
  destruct (Z.ltb_spec (str_length password0) 12) as [|Hlen]; [by wp_step; left|].
  wp_step. wp_step; [|by left]. destruct (0 <? _) eqn:Ha; [unfold console; wp_step; by left|]. apply no_admins in Ha.
  wp_step. wp_step; [|by left]. destruct (find_row _ _) as [row|] eqn:Ef; [by wp_step; left|].
  do 3 wp_step. apply wp_create_admin; [done| |].
  { intros r0 w0 Hsame [e ->]. by left. }
  intros r0 w0 id Hnone Hins Hr0.
  assert (first_admin email password (db w) (db w0)) as Hfirst.
  { assert (email = Some email0 /\ password = Some password0) as [-> ->].
    { unfold given in *. destruct email; [|done]. destruct password; [|done]. repeat destruct (String.eqb _ _); simplify_eq; done. }
    exists email0, password0, id. eexists. split_and!; try done; [apply bcrypt_ok|].
    intros i other Hi. by eapply find_row_None in Ef; [|exact Hi]; apply bool_decide_eq_false in Ef. }
  destruct Hr0 as [->| ->]; [|by right]. unfold console. repeat wp_step. by right.
Qed.
End BootstrapFacts.

Section PromoteFacts.
Context {P : Platform}.
Local Open Scope prog_scope.

Definition with_kind (kind : PrincipalKind) (row : PrincipalRow) : PrincipalRow := mkPrincipal kind (principal_displayName row).

(** The account with the role, and its principal, if it has one, with the role's kind. *)
Definition promoted (id : Z) (role : UserRole) (d : Db) : Db :=
  let d1 := set_users (alter (with_role role) id (users d)) d in
  match principal_aliases d !! ("identity", String_of id) with
  | Some p => set_principals (alter (with_kind (principalKindForRole role)) p (principals d1)) d1
  | None => d1
  end.

Definition promotion (id : Z) (role : UserRole) : M unit :=
  update_role id (fun _ => true) role ;;;
  alias <- find_alias "identity" (String_of id) ;;
  match alias with
  | Some principal => update_kind principal (principalKindForRole role) ;;; console ("principal " ++ principal ++ " updated")
  | None => console "no principal yet; it will be minted with the correct kind at first login"
  end.

Lemma wp_promotion id role w :
  wp (promotion id role) (fun r w' => match r with Ok _ => db w' = promoted id role (db w) | Err _ => True end) w.
Proof.
  unfold promotion, update_role, find_alias, update_kind, console, promoted. wp_step. wp_step; try done.
  wp_step. wp_step; [|done]. cbn [snd db count_call set_db set_users principal_aliases].
  destruct (principal_aliases (db w) !! ("identity", String_of id)) as [p|]; [|by wp_step].
  wp_step. by wp_step.
Qed.

(** The transaction applies all of the promotion or nothing. *)
Lemma wp_promotion_transaction id role w (Q : res exn unit -> World -> Prop) :
  (forall r w', db w' = db w -> (exists e, r = Err e) -> Q r w') ->
  (forall r w', db w' = promoted id role (db w) -> Q r w') ->
  wp (transaction (promotion id role)) Q w.
Proof.
  intros Hsame Hdone. apply wp_transaction. eapply wp_mono; [apply wp_promotion|]. cbv beta.
  intros [[]|e] w1 H; [|apply Hsame; cbn; eauto]. split_and!; [by apply Hdone|apply Hsame; cbn; eauto|by apply Hdone].
Qed.

Definition role_and_kind_agree (id : Z) (d : Db) : Prop :=
  forall row p prow, users d !! id = Some row -> principal_aliases d !! ("identity", String_of id) = Some p ->
    principals d !! p = Some prow -> kind prow = principalKindForRole (user_role (row_user row)).

Lemma promoted_agrees id role d : role_and_kind_agree id (promoted id role d).
Proof.
  unfold role_and_kind_agree, promoted. intros row p prow. destruct (principal_aliases d !! _) as [q|] eqn:E; cbn; rewrite E; [|done].
  rewrite lookup_alter_Some. intros [(_ & row0 & Hrow & ->)|[[] _]]; [|done]. intros [= ->].
  rewrite lookup_alter_Some. by intros [(_ & prow0 & _ & ->)|[[] _]].
Qed.

(** The account a command line names, and the role. *)
Definition named_promotion (argv : list string) (d : Db) (id : Z) (role : UserRole) : Prop :=
  exists email text row, given (arg argv "email") = Some email /\ given (arg argv "role") = Some text /\
    role_named text = Some role /\ users d !! id = Some row /\ pg_lower (user_email (row_user row)) = pg_lower email.

(** A promotion changes the role of the one account it names and the kind of its principal, both
    or neither: whatever fails, the tables are as they were, or they differ from what they were by
    exactly these two changes and role and kind agree; without --apply nothing is written, and when
    the script reports success with it the change is made. *)
Theorem promotion_is_all_or_nothing argv w r w' :
  keyed (db w) -> run (promote_main argv) w = (r, w') ->
  db w' = db w /\ (r = Ok Returned -> says_apply argv = false) \/
  says_apply argv = true /\ exists id role, named_promotion argv (db w) id role /\
    db w' = promoted id role (db w) /\ role_and_kind_agree id (db w').
Proof.
  intros Hkey Hrun. enough (wp (promote_main argv) (fun r w' =>
    db w' = db w /\ (r = Ok Returned -> says_apply argv = false) \/
    says_apply argv = true /\ exists id role, named_promotion argv (db w) id role /\ db w' = promoted id role (db w)) w) as H.
  { unfold wp in H. rewrite Hrun in H. cbn in H. destruct H as [H|(Ha & id & role & Hn & Hd)]; [by left|right].
    split; [done|]. exists id, role. split; [done|]. split; [done|]. rewrite Hd. apply promoted_agrees. }
  clear Hrun r w'. unfold promote_main, console.
  destruct (given (arg argv "email")) as [email|] eqn:Ee; [|repeat wp_step; by left].
  destruct (given (arg argv "role")) as [text|] eqn:Et; [|repeat wp_step; by left].
  destruct (role_named text) as [role|] eqn:Er; [|repeat wp_step; by left].
  wp_step. wp_step; [|by left]. destruct (find_row _ _) as [row|] eqn:Ef; [|repeat wp_step; by left].
  apply find_row_Some in Ef as (id & Hrow & Hemail). apply bool_decide_eq_true in Hemail.
  destruct (Hkey id row Hrow) as [Hid _]. cbv zeta. rewrite Hid. do 4 wp_step.
  destruct (says_apply argv) eqn:Ha; cbn [negb]; [|repeat wp_step; by left].
  assert (named_promotion argv (db w) id role) as Hn by (exists email, text, row; done).
  wp_step. change (transaction _) with (transaction (promotion id role)). apply wp_promotion_transaction.
  { intros r w1 Hdb [e ->]. left. split; [exact Hdb|done]. }
  intros r w1 Hdb. assert (forall w2, db w2 = db w1 -> true = true /\ exists id role, named_promotion argv (db w) id role /\ db w2 = promoted id role (db w)) as Hdone.
  { intros w2 H2. split; [done|]. exists id, role. split; [done|]. rewrite H2. exact Hdb. }
  destruct r as [[]|e]; [|right; by apply Hdone]. wp_step. wp_step; [|right; by apply Hdone].
  destruct (bool_decide _); repeat wp_step; right; by apply Hdone.
Qed.
End PromoteFacts.

Section BackfillFacts.
Local Open Scope prog_scope.
Context {P : Platform} {L : PlatformLaws P} (Hrel : reliable).
Context (unreachable : string -> option string) (distinct_ids : BackfillSource -> list string + string).

(** What the database guarantees of principals and aliases: the numbers to come are not taken, and
    an alias is of a principal that is there. *)
Definition ledger_ok (w : World) : Prop :=
  (forall n, (uuid_next w <= n)%nat -> principals (db w) !! uuid_of n = None) /\
  forall key p, principal_aliases (db w) !! key = Some p -> p <> "" /\ is_Some (principals (db w) !! p).

(** Nothing is repointed or deleted, and no account is touched. *)
Definition grown (d d' : Db) : Prop :=
  principal_aliases d ⊆ principal_aliases d' /\ principals d ⊆ principals d' /\ users d' = users d.
#[export] Instance grown_preorder : PreOrder grown.
Proof.
  split; [done|]. intros d1 d2 d3 (A1 & P1 & U1) (A2 & P2 & U2). split_and!; [by etransitivity..|congruence].
Qed.

Lemma wp_insert_alias_unless_there p service localId (Q : res exn unit -> World -> Prop) w :
  ledger_ok w -> p <> "" -> is_Some (principals (db w) !! p) ->
  (forall w', ledger_ok w' -> grown (db w) (db w') ->
    (forall key, key <> (service, localId) -> principal_aliases (db w') !! key = principal_aliases (db w) !! key) ->
    principal_aliases (db w') !! (service, localId) =
      Some (default p (principal_aliases (db w) !! (service, localId))) -> Q (Ok tt) w') ->
  wp (insert_alias_unless_there p service localId) Q w.
Proof.
  intros [Hf Ha] Hp Hsome HQ. unfold insert_alias_unless_there. wp_rel Hrel. cbn [db count_call].
  destruct (principal_aliases (db w) !! (service, localId)) as [q|] eqn:E.
  { cbn. apply HQ; [done|done|done|]. cbn. by rewrite E. }
  destruct Hsome as [row Hrow]. rewrite Hrow. cbn. apply HQ; cbn.
  - split; [done|]. cbn. intros key p'. rewrite lookup_insert_Some. intros [[_ <-]|[_ H]]; [eauto|by eapply Ha].
  - split_and!; [by apply insert_subseteq|done|done].
  - intros key Hne. by rewrite lookup_insert_ne.
  - by rewrite lookup_insert_eq.
Qed.

Lemma wp_insert_principal k name (Q : res exn string -> World -> Prop) w :
  ledger_ok w ->
  (forall p w', ledger_ok w' -> grown (db w) (db w') -> p <> "" -> principals (db w) !! p = None ->
    principals (db w') !! p = Some (mkPrincipal k name) -> principal_aliases (db w') = principal_aliases (db w) -> Q (Ok p) w') ->
  wp (insert_principal k name) Q w.
Proof.
  intros [Hf Ha] HQ. unfold insert_principal. wp_rel Hrel. cbn [db count_call uuid_next].
  rewrite (Hf (uuid_next w)) by lia. cbn. apply HQ; cbn; [| |apply uuid_nonempty|apply Hf; lia|by rewrite lookup_insert_eq|done].
  - split; cbn.
    + intros j Hj. rewrite lookup_insert_ne; [apply Hf; lia|]. intros Heq%uuid_inj. lia.
    + intros key p Hkey. destruct (Ha key p Hkey) as [Hne Hp]. split; [done|].
      destruct (decide (uuid_of (uuid_next w) = p)) as [<-|]; [rewrite lookup_insert_eq; eauto|by rewrite lookup_insert_ne].
  - split_and!; [done| |done]. apply insert_subseteq, Hf. lia.
Qed.

Lemma wp_mint_missing l n (Q : res exn Z -> World -> Prop) w :
  ledger_ok w ->
  (forall m w', ledger_ok w' -> grown (db w) (db w') ->
    (forall u, u ∈ l -> is_Some (principal_aliases (db w') !! ("identity", String_of (user_id u)))) ->
    (forall key, key.1 <> "identity" -> principal_aliases (db w') !! key = principal_aliases (db w) !! key) -> Q (Ok m) w') ->
  wp (mint_missing true l n) Q w.
Proof.
  revert n w. induction l as [|u l IH]; intros n w Hw HQ; cbn [mint_missing].
  { wp_step. apply HQ; [done|done| |done]. by intros u ?%not_elem_of_nil. }
  unfold find_alias. wp_rel Hrel. wp_rel Hrel. cbn [db count_call].
  destruct (principal_aliases (db w) !! ("identity", String_of (user_id u))) as [p|] eqn:E.
  { apply IH; [done|]. intros m w' Hw' Hg Hl Ho. apply HQ; [done|exact Hg| |exact Ho]. intros u' [->|Hu]%elem_of_cons; [|auto].
    destruct Hg as (Hsub & _). exists p. by eapply lookup_weaken. }
  cbn [negb]. wp_step. apply wp_insert_principal; [done|]. intros p w0 Hw0 Hg0 Hne Hfresh Hp Ealias. wp_step.
  apply wp_insert_alias_unless_there; [done|done|eauto|].
  intros w1 Hw1 Hg1 Hother Hnew. apply IH; [done|]. intros m w' Hw' Hg Hl Ho. apply HQ; [done| | |].
  - etransitivity; [exact Hg0|]. by etransitivity.
  - intros u' [->|Hu]%elem_of_cons; [|auto]. destruct Hg as (Hsub & _). eexists. eapply lookup_weaken; [exact Hnew|done].
  - intros key Hkey. rewrite Ho, Hother by (done || by intros ->). by rewrite Ealias.
Qed.

Section Link.
Context (w1 : World) (byLocalId : string -> option string) (kindByLocalId : string -> option PrincipalKind).
Context (Hby : forall v, byLocalId v = principal_aliases (db w1) !! ("identity", v)).

(** While ids are linked: no account's alias changes, and every alias that is new is of the
    principal of the account with that number. *)
Record linking (w : World) : Prop := {
  linking_ok : ledger_ok w;
  linking_grown : grown (db w1) (db w);
  linking_accounts : forall v, principal_aliases (db w) !! ("identity", v) = byLocalId v;
  linking_agrees : forall key q, principal_aliases (db w) !! key = Some q ->
    principal_aliases (db w1) !! key = Some q \/ byLocalId key.2 = Some q
}.

(** The id of a source is linked, or reported. *)
Definition covered (source : BackfillSource) (value : string) (report : Report) (w : World) : Prop :=
  match byLocalId value with
  | Some _ => is_Some (principal_aliases (db w) !! (source_service source, value))
  | None => mkOrphan source value ∈ orphans report
  end.

Definition further (r r' : Report) (w w' : World) : Prop :=
  principal_aliases (db w) ⊆ principal_aliases (db w') /\ orphans r ⊆ orphans r'.

Lemma covered_further source value r r' w w' : further r r' w w' -> covered source value r w -> covered source value r' w'.
Proof.
  intros [Ha Ho]. unfold covered. destruct (byLocalId value); [|apply Ho]. intros [q Hq]. exists q. by eapply lookup_weaken.
Qed.

(** A step of a loop that covers [C]. *)
Definition covers {A} (f : Report -> A -> M Report) (C : A -> Report -> World -> Prop) (a : A) : Prop :=
  forall report w Q, linking w ->
    (forall report' w', linking w' -> further report report' w w' -> C a report' w' -> Q (Ok report') w') ->
    wp (f report a) Q w.

Lemma covers_fold {A} (f : Report -> A -> M Report) (C : A -> Report -> World -> Prop) l report w
    (Q : res exn Report -> World -> Prop) :
  (forall a r r' w w', further r r' w w' -> C a r w -> C a r' w') -> (forall a, a ∈ l -> covers f C a) -> linking w ->
  (forall report' w', linking w' -> further report report' w w' -> (forall a, a ∈ l -> C a report' w') -> Q (Ok report') w') ->
  wp (fold_m f l report) Q w.
Proof.
  intros Hmono. revert report w. induction l as [|a l IH]; intros report w Hf Hw HQ; cbn [fold_m].
  { wp_step. apply HQ; [done|done|]. by intros a ?%not_elem_of_nil. }
  wp_step. apply (Hf a); [by left|done|]. intros r1 w2 Hw2 H12 Ha.
  apply IH; [intros; apply Hf; by right|done|]. intros r2 w3 Hw3 H23 Hl. apply HQ; [done| |].
  - destruct H12, H23. split; by etransitivity.
  - intros b [->|Hb]%elem_of_cons; [by eapply Hmono|auto].
Qed.

Lemma link_id_covers source value :
  source_service source <> "identity" -> covers (link_id true byLocalId kindByLocalId source) (covered source) value.
Proof.
  intros Hs report w Q [Hok Hg Hac Hag] HQ. unfold link_id. destruct (given (byLocalId value)) as [p|] eqn:E.
  - assert (byLocalId value = Some p) as Ep by (unfold given in E; destruct (byLocalId value); [destruct (String.eqb _ _); simplify_eq|]; done).
    cbv zeta. destruct Hok as [Hf Ha]. destruct (Ha ("identity", value) p) as [Hp Hpp]; [by rewrite Hac|].
    wp_step. apply wp_insert_alias_unless_there; [done|done|done|]. intros w' Hok' Hg' Hother Hnew. wp_step.
    apply HQ.
    + split; [done|by etransitivity| |].
      * intros v. rewrite Hother; [apply Hac|]. congruence.
      * intros key q. destruct (decide (key = (source_service source, value))) as [->|Hne]; [|by rewrite Hother; [apply Hag|]].
        rewrite Hnew. intros [= <-]. destruct (principal_aliases (db w) !! _) as [q|] eqn:Eq; cbn; [by apply Hag|by right].
    + destruct Hg' as (Hsub & _). split; [done|]. done.
    + unfold covered. rewrite Ep, Hnew. eauto.
  - wp_step. apply HQ; [done|split; [done|cbn; set_solver]|]. unfold covered.
    assert (byLocalId value = None) as Ep.
    { destruct (byLocalId value) as [p|] eqn:Ep; [|done]. rewrite <- Hac in Ep. apply Hok in Ep as [Hne _]. cbn in E.
      by destruct (String.eqb_spec p ""). }
    rewrite Ep. cbn. set_solver.
Qed.

(** The ids of a source that can be read. *)
Definition source_covered (source : BackfillSource) (report : Report) (w : World) : Prop :=
  forall ids value, distinct_ids source = inl ids -> value ∈ ids -> covered source value report w.
Definition service_covered (service : string) (report : Report) (w : World) : Prop :=
  unreachable service = None -> forall source, source ∈ SOURCES -> source_service source = service -> source_covered source report w.

Lemma link_source_covers source :
  source_service source <> "identity" -> covers (link_source distinct_ids true byLocalId kindByLocalId) source_covered source.
Proof.
  intros Hs report w Q Hw HQ. unfold link_source. destruct (distinct_ids source) as [ids|why] eqn:E.
  - apply (covers_fold _ (covered source)); [intros; by eapply covered_further|intros; by apply link_id_covers|done|].
    intros r' w' Hw' Hf Hl. apply HQ; [done|done|]. intros ids' value E'. rewrite E in E'. injection E' as <-. auto.
  - unfold console. repeat wp_step. apply HQ; [by destruct Hw|done|]. intros ids value E'. by rewrite E in E'.
Qed.

Lemma SOURCES_services source : source ∈ SOURCES -> source_service source <> "identity" /\ source_service source ∈ services_of SOURCES.
Proof.
  revert source.
  apply (proj1 (Forall_forall (fun s => source_service s <> "identity" /\ source_service s ∈ services_of SOURCES) SOURCES)).
  apply (bool_decide_unpack _). vm_compute. exact I.
Qed.

Lemma link_service_covers service : covers (link_service unreachable distinct_ids true byLocalId kindByLocalId) service_covered service.
Proof.
  intros report w Q Hw HQ. unfold link_service. destruct (unreachable service) as [why|] eqn:E.
  - unfold console. repeat wp_step. apply HQ; [by destruct Hw|done|]. intros E'. by rewrite E in E'.
  - apply (covers_fold _ source_covered); [| |done|].
    + intros s r r' w0 w' Hf Hc ids value Hids Hv. eapply covered_further; [done|]. by eapply Hc.
    + intros s Hs. apply list_elem_of_In, filter_In in Hs as [Hs _]. apply link_source_covers. by apply SOURCES_services, list_elem_of_In.
    + intros r' w' Hw' Hf Hl. apply HQ; [done|done|]. intros _ source Hin Hser. apply Hl.
      apply list_elem_of_In, filter_In. split; [by apply list_elem_of_In|]. by apply String.eqb_eq.
Qed.
End Link.

(** What is only printed changes no table. *)
Lemma wp_orphan_lines l (Q : res exn unit -> World -> Prop) w : (forall w', db w' = db w -> Q (Ok tt) w') -> wp (orphan_lines l) Q w.
Proof.
  revert w. induction l as [|o l IH]; intros w HQ; cbn [orphan_lines]; [by apply HQ|]. unfold console. do 2 wp_step.
  apply IH. intros w' Hw'. apply HQ. exact Hw'.
Qed.

Lemma wp_report {A} report (k : unit -> M A) (Q : res exn A -> World -> Prop) w :
  (forall w', db w' = db w -> wp (k tt) Q w') ->
  wp (bind (match orphans report with
            | [] => console "orphans: none — every referenced id resolved to an identity user"
            | l =>
                console ("orphans: " ++ String_of (Z.of_nat (List.length l)) ++ " referenced ids have no identity user") ;;;
                console "these rows cannot be migrated automatically; each needs a decision" ;;;
                orphan_lines l
            end) (fun _ => bind (match mismatches report with
                                 | [] => Ret tt
                                 | _ => console "the alias is written; the disagreement is not resolved by this script"
                                 end) k)) Q w.
Proof.
  intros HQ. assert (forall w', db w' = db w ->
    wp (bind (match mismatches report with
              | [] => Ret tt
              | _ => console "the alias is written; the disagreement is not resolved by this script"
              end) k) Q w') as Hm.
  { intros w' Hw'. wp_step. unfold console. destruct (mismatches report); wp_step; by apply HQ. }
  unfold console at 1 2 3. wp_step. destruct (orphans report) as [|o l]; [wp_step; by apply Hm|].
  do 4 wp_step. apply wp_orphan_lines. intros w' Hw'. by apply Hm.
Qed.

(** What the backfill leaves of the tables, with what it reports. *)
Record backfilled (report : Report) (d d' : Db) : Prop := {
  backfilled_grown : grown d d';
  backfilled_accounts : forall id row, users d !! id = Some row ->
    is_Some (principal_aliases d' !! ("identity", String_of (user_id (row_user row))));
  backfilled_agrees : forall service v q, service <> "identity" -> principal_aliases d' !! (service, v) = Some q ->
    principal_aliases d !! (service, v) = Some q \/ principal_aliases d' !! ("identity", v) = Some q;
  backfilled_ids : forall source ids v, source ∈ SOURCES -> unreachable (source_service source) = None ->
    distinct_ids source = inl ids -> v ∈ ids ->
    match principal_aliases d' !! ("identity", v) with
    | Some _ => is_Some (principal_aliases d' !! (source_service source, v))
    | None => mkOrphan source v ∈ orphans report
    end
}.

(** When no connection is lost, the backfill returns, with every account resolving to a principal
    and every id that a reachable service names either linked to the principal of the account with
    that number or reported as an orphan; it repoints and deletes nothing: every alias and principal
    that was there stays as it was, and every alias it adds for a service is of the principal of the
    account with that number. *)
Theorem backfill_links_or_reports_every_id w :
  ledger_ok w ->
  exists report w', run (backfill_main unreachable distinct_ids true) w = (Ok report, w') /\ backfilled report (db w) (db w').
Proof.
  intros Hw. enough (wp (backfill_main unreachable distinct_ids true) (fun r w' =>
    exists report, r = Ok report /\ backfilled report (db w) (db w')) w) as H.
  { unfold wp in H. destruct (run (backfill_main unreachable distinct_ids true) w) as [r w']. cbn in H.
    destruct H as (report & -> & H). eauto. }
  unfold backfill_main, console. wp_rel Hrel. wp_rel Hrel. wp_step. apply wp_mint_missing; [done|].
  intros m w1 Hw1 Hg1 Hall Hmint. wp_step. wp_step. do 4 wp_rel Hrel. cbn [negb andb]. wp_step.
  match goal with |- wp (fold_m (link_service _ _ _ ?by_ ?kinds) _ _) _ _ => set (byLocalId := by_); set (kindByLocalId := kinds) end.
  assert (forall v, byLocalId v = principal_aliases (db w1) !! ("identity", v)) as Hby.
  { intros v. unfold byLocalId. cbn. by destruct (principal_aliases (db w1) !! ("identity", v)). }
  apply (covers_fold w1 byLocalId (link_service unreachable distinct_ids true byLocalId kindByLocalId) (service_covered byLocalId)).
  - intros service r r' w2 w3 Hf Hc Hun source Hin Hser ids v Hids Hv. eapply covered_further; [done|]. by eapply Hc.
  - intros service _. by apply link_service_covers.
  - split; [done|done|intros v; by rewrite Hby|]. intros key q Hq. by left.
  - intros report w2 [Hok2 Hg2 Hac2 Hag2] _ Hcov.
    assert (backfilled report (db w) (db w2)) as Hdone.
    { split; [by etransitivity|..].
      - intros id row Hrow. destruct (Hall (row_user row)) as [q Hq].
        + rewrite (sort_by_id_perm user_id). apply list_elem_of_In, in_map_iff. exists (id, row). split; [done|].
          by apply list_elem_of_In, elem_of_map_to_list.
        + exists q. destruct Hg2 as (Hsub & _). by eapply lookup_weaken.
      - intros service v q Hs Hq. rewrite Hac2. destruct (Hag2 _ _ Hq) as [H|H]; [|by right]. left. by rewrite Hmint in H.
      - intros source ids v Hin Hun Hids Hv. rewrite Hac2.
        destruct (SOURCES_services source Hin) as [_ Hser]. by apply (Hcov _ Hser Hun source Hin eq_refl ids v). }
    do 2 wp_step. apply (wp_report report (fun _ => Ret tt ;;; Ret report)). intros w3 H3. repeat wp_step.
    exists report. split; [done|]. rewrite H3. exact Hdone.
Qed.
End BackfillFacts.

Section PurgeFacts.
Context {P : Platform} (merchant_createdAt profile_createdAt : Z -> Z).
Local Open Scope prog_scope.

(** Sellers among these accounts may have become customers; nothing else of an account changes. *)
Definition demoting (ids : list Z) (u u' : gmap Z UserRow) : Prop :=
  forall id, match u !! id with
             | Some row => u' !! id = Some row \/
                 (id ∈ ids /\ user_role (row_user row) = Seller /\ u' !! id = Some (with_role Customer row))
             | None => u' !! id = None
             end.

Record unlisting (ids : list Z) (d d' : Db) : Prop := {
  unlisting_users : demoting ids (users d) (users d');
  unlisting_merchants : merchants d' = merchants d;
  unlisting_verifications : merchant_verifications d' = merchant_verifications d;
  unlisting_profiles : profiles d' = profiles d
}.

Lemma demoting_refl ids u : demoting ids u u.
Proof. intros id. destruct (u !! id); auto. Qed.

#[local] Instance unlisting_preorder ids : PreOrder (unlisting ids).
Proof.
  split; [intros d; split; [apply demoting_refl|done..]|].
  intros d1 d2 d3 [U1 M1 V1 P1] [U2 M2 V2 P2]. split; [|congruence..].
  intros id. specialize (U1 id). specialize (U2 id). destruct (users d1 !! id) as [row|]; [|by rewrite U1 in U2].
  destruct U1 as [E|(Hid & Hr & E)]; rewrite E in U2; [done|]. right. split; [done|]. split; [done|].
  destruct U2 as [|(_ & Hr' & _)]; [done|]. done.
Qed.

Lemma purge_merchants_unlists ids l : (forall m, m ∈ l -> merchant_userId m ∈ ids) -> guar (on_db (unlisting ids)) (purge_merchants l).
Proof.
  induction l as [|m l IH]; intros Hl; [apply guar_ret|]. cbn [purge_merchants].
  apply guar_bind; [|intros _; apply IH; intros; apply Hl; by right]. unfold purge_merchant, update_role, update_kind, find_alias.
  apply guar_bind; [apply guar_update; [typeclasses eauto|]; intros w; split; [apply demoting_refl|done..]|intros _].
  apply guar_bind; [apply guar_update; [typeclasses eauto|]; intros w; split; [|done..]|intros _].
  { intros id. cbn. destruct (decide (id = merchant_userId m)) as [->|Hne].
    - rewrite lookup_alter_eq. destruct (users (db w) !! merchant_userId m) as [row|]; cbn; [|done].
      case_bool_decide as Hr; [right|by left]. split; [apply Hl; by left|done].
    - rewrite lookup_alter_ne by done. destruct (users (db w) !! id); auto. }
  apply guar_bind; [eauto with guar|intros [p|]; [|apply guar_ret]].
  apply guar_update; [typeclasses eauto|]. intros w. split; [apply demoting_refl|done..].
Qed.

(** The tables after a purge. *)
Record purged (before : Z) (d d' : Db) : Prop := {
  purged_users : demoting (map merchant_userId (merchants_before merchant_createdAt before d)) (users d) (users d');
  purged_merchants : merchants d' = filter (fun '(_, m) => ~ merchant_createdAt (merchant_id m) < before) (merchants d);
  purged_verifications : merchant_verifications d' = filter (fun '(_, v) => verified_before before v = false) (merchant_verifications d);
  purged_profiles : profiles d' = filter (fun '(_, p) => ~ profile_createdAt (profile_id p) < before) (profiles d)
}.

(** The body of the transaction. *)
Definition purge_body (before : Z) (l : list MerchantEntity) : M (Z * Z * Z) :=
  purge_merchants l ;;;
  delMerchants <- delete_merchants merchant_createdAt before ;;
  delVerifications <- delete_verifications before ;;
  delProfiles <- delete_profiles profile_createdAt before ;;
  Ret (delMerchants, delVerifications, delProfiles).

Lemma wp_purge_body before w :
  wp (purge_body before (merchants_before merchant_createdAt before (db w)))
    (fun r w' => match r with Ok _ => purged before (db w) (db w') | Err _ => True end) w.
Proof.
  unfold purge_body. wp_step. set (l := merchants_before _ _ _).
  assert (on_db (unlisting (map merchant_userId l)) w (run (purge_merchants l) w).2) as Hg.
  { apply guar_run; [intros w0; reflexivity|intros w1 w2 w3; apply transitivity|]. apply purge_merchants_unlists.
    intros m Hm. by apply list_elem_of_fmap_2. }
  unfold wp. destruct (run (purge_merchants l) w) as [[[]|e] w1]; [|done]. cbn [fst snd] in *.
  change (wp (bind (delete_merchants merchant_createdAt before) (fun delMerchants =>
    bind (delete_verifications before) (fun delVerifications =>
    bind (delete_profiles profile_createdAt before) (fun delProfiles => Ret (delMerchants, delVerifications, delProfiles)))))
    (fun r w' => match r with Ok _ => purged before (db w) (db w') | Err _ => True end) w1).
  destruct Hg as [Hu Hm Hv Hp].
  unfold delete_merchants, delete_verifications, delete_profiles. wp_step. wp_step; try done. wp_step. wp_step; try done.
  wp_step. wp_step; try done. wp_step. split; cbn; [done|by rewrite Hm|by rewrite Hv|by rewrite Hp].
Qed.

Lemma wp_merchant_lines l (Q : res exn unit -> World -> Prop) w : (forall w', db w' = db w -> Q (Ok tt) w') -> wp (merchant_lines l) Q w.
Proof.
  revert w. induction l as [|m l IH]; intros w HQ; cbn [merchant_lines]; [by apply HQ|]. unfold console. do 2 wp_step.
  apply IH. intros w' Hw'. apply HQ. exact Hw'.
Qed.

(** Nothing is older than the instant. *)
Definition nothing_before (before : Z) (d : Db) : Prop :=
  merchants_before merchant_createdAt before d = [] /\ verifications_before before d = [] /\ profiles_before profile_createdAt before d = [].

(** A purge deletes the merchants, verified applications and profiles from before the instant it
    is given and no younger one, and turns no account but the sellers among those merchants into a
    customer, all of it or nothing; without --apply, without a readable instant or with nothing that
    old, the tables stay as they are. *)
Theorem purge_removes_exactly_the_old_rows argv w r w' :
  run (purge_main merchant_createdAt profile_createdAt argv) w = (r, w') ->
  (db w' = db w /\ (r = Ok Returned -> says_apply argv = false \/
     forall before, (given (arg argv "before") ≫= Date_parse) = Some before -> nothing_before before (db w))) \/
  says_apply argv = true /\ exists before, (given (arg argv "before") ≫= Date_parse) = Some before /\ purged before (db w) (db w').
Proof.
  intros Hrun. enough (wp (purge_main merchant_createdAt profile_createdAt argv) (fun r w' =>
    (db w' = db w /\ (r = Ok Returned -> says_apply argv = false \/
       forall before, (given (arg argv "before") ≫= Date_parse) = Some before -> nothing_before before (db w))) \/
    says_apply argv = true /\ exists before, (given (arg argv "before") ≫= Date_parse) = Some before /\ purged before (db w) (db w')) w) as H.
  { unfold wp in H. by rewrite Hrun in H. }
  clear Hrun. unfold purge_main, purge_usage, console, count_lines. destruct (given (arg argv "before")) as [text|]; [|repeat wp_step; by left].
  cbn [mbind option_bind]. destruct (Date_parse text) as [before|]; [|repeat wp_step; by left].
  wp_step. wp_step; [|by left]. wp_step. wp_step; [|by left]. wp_step. wp_step; [|by left]. unfold console.
  do 9 wp_step. apply wp_merchant_lines. cbn [db count_call]. intros w1 H1. cbn in H1.
  destruct (Nat.eqb_spec (List.length (merchants_before merchant_createdAt before (db w)) +
    List.length (verifications_before before (db w)) + List.length (profiles_before profile_createdAt before (db w))) 0) as [Hz|_].
  { repeat wp_step. left. split; [exact H1|]. intros _. right. intros b [= <-].
    split_and!; apply length_zero_iff_nil; lia. }
  destruct (says_apply argv) eqn:Ha; cbn [negb]; [|repeat wp_step; left; split; [exact H1|by left]].
  wp_step. rewrite <- H1. change (transaction _) with (transaction (purge_body before (merchants_before merchant_createdAt before (db w1)))).
  apply wp_transaction. eapply wp_mono; [apply wp_purge_body|]. cbv beta.
  intros [[[m v] p]|e] w2 H2; [|by left]. rewrite H1 in H2 |- *.
  assert (forall w3, db w3 = db w2 -> true = true /\ exists b, Some before = Some b /\ purged b (db w) (db w3)) as Hdone
    by (intros w3 ->; eauto).
  split_and!; [|by left|right; by apply Hdone]. cbv iota. wp_step. wp_step; [|right; by apply Hdone].
  destruct (negb _); repeat wp_step; right; by apply Hdone.
Qed.
End PurgeFacts.

Module Witness.

Definition account (id : Z) (email : string) (role : UserRole) : UserRow :=
  mkUserRow (mkUser id email "bcrypt:secret-secret" role false None) None.
Definition shop : MerchantEntity :=
  mkMerchant 9 3 "Toko" "toko" None "1" "2" m_active None "Jalan 1" "Bandung" "40111" None None None.

(** A seller and a customer, of whom only the seller has a principal. *)
Definition start : World :=
  world_at 1000000 (set_users {[3 := account 3 "Toko@x.io" Seller; 4 := account 4 "dewi@x.io" Customer]}
    (set_principals {["p" := mkPrincipal PRINCIPAL_KIND_MERCHANT (Some "Toko@x.io")]}
      (set_principal_aliases {[("identity", "3") := "p"; ("identity-merchant", "9") := "p"]}
        (set_merchants {[9 := shop]} empty_db)))).

Lemma start_rows id row : users (db start) !! id = Some row ->
  (id = 3 /\ row = account 3 "Toko@x.io" Seller) \/ (id = 4 /\ row = account 4 "dewi@x.io" Customer).
Proof.
  change (users (db start)) with (<[3 := account 3 "Toko@x.io" Seller]> ({[4 := account 4 "dewi@x.io" Customer]} : gmap Z UserRow)).
  rewrite lookup_insert_Some, lookup_singleton_Some. naive_solver.
Qed.

Definition bootstrapped := run (@bootstrap_main sample_platform (Some " Root@X.io ") (Some "correct horse battery")) start.
Example bootstrap_creates :
  bootstrapped.1 = Ok tt /\ (user_role ∘ row_user <$> users (db bootstrapped.2) !! 1) = Some Admin /\
  (user_email ∘ row_user <$> users (db bootstrapped.2) !! 1) = Some "root@x.io".
Proof. vm_compute. split_and!; reflexivity. Qed.

Lemma bootstrap_creates_only_the_first_admin_witness :
  users (db bootstrapped.2) = users (db start) \/
  @first_admin sample_platform (Some " Root@X.io ") (Some "correct horse battery") (db start) (db bootstrapped.2).
Proof.
  apply (@bootstrap_creates_only_the_first_admin sample_platform (sample_laws _) _ _ start bootstrapped.1).
  vm_compute. reflexivity.
Defined.

Definition command : list string := ["--email"; "TOKO@x.io"; "--role"; "admin"; "--apply"].
Definition promotion_run := run (@promote_main sample_platform command) start.
Example promoted_to_staff :
  promotion_run.1 = Ok Returned /\ (user_role ∘ row_user <$> users (db promotion_run.2) !! 3) = Some Admin /\
  (kind <$> principals (db promotion_run.2) !! "p") = Some PRINCIPAL_KIND_STAFF.
Proof. vm_compute. split_and!; reflexivity. Qed.

Lemma promotion_is_all_or_nothing_witness :
  exists id role, @named_promotion sample_platform command (db start) id role /\
    db promotion_run.2 = promoted id role (db start) /\ role_and_kind_agree id (db promotion_run.2).
Proof.
  destruct (@promotion_is_all_or_nothing sample_platform command start promotion_run.1 promotion_run.2) as [[_ H]|[_ H]].
  - intros id row [[-> ->]|[-> ->]]%start_rows; cbn; lia.
  - vm_compute. reflexivity.
  - assert (promotion_run.1 = Ok Returned) as E by (vm_compute; reflexivity). specialize (H E). discriminate H.
  - exact H.
Defined.

(** Accounts 3 and 7 are customers of the order service; there is no account 7. *)
Definition orders (s : BackfillSource) : list string + string :=
  if String.eqb (source_service s) "order" then inl ["3"; "7"] else inl [].
Definition none_unreachable (service : string) : option string := None.
Definition backfill_run := run (@backfill_main sample_platform none_unreachable orders true) start.
Example backfill_report :
  match backfill_run.1 with Ok report => (linked report, map orphan_localId (orphans report), List.length (mismatches report)) | Err _ => (0, [], 0%nat) end
    = (1, ["7"], 1%nat) /\
  principal_aliases (db backfill_run.2) !! ("order", "3") = Some "p".
Proof. vm_compute. split; reflexivity. Qed.

Lemma backfill_links_or_reports_every_id_witness :
  exists report w', run (@backfill_main sample_platform none_unreachable orders true) start = (Ok report, w') /\
    backfilled none_unreachable orders report (db start) (db w').
Proof.
  apply (@backfill_links_or_reports_every_id sample_platform (sample_laws _)).
  - intros n. reflexivity.
  - split.
    + intros n _. change (principals (db start)) with ({["p" := mkPrincipal PRINCIPAL_KIND_MERCHANT (Some "Toko@x.io")]} : gmap string PrincipalRow).
      apply lookup_singleton_ne. discriminate.
    + intros key p. change (principal_aliases (db start)) with (<[("identity", "3") := "p"]> ({[("identity-merchant", "9") := "p"]} : gmap (string * string) string)).
      rewrite lookup_insert_Some, lookup_singleton_Some. intros [[_ <-]|[_ [_ <-]]]; (split; [discriminate|eexists; vm_compute; reflexivity]).
Defined.

(** *** A purge after a promotion

    The shop of account 3 is from before the instant. The purge turns the principal of its account
    into a customer's whatever the account's role is: an administrator stays one, under a principal
    that says it is a customer. *)
Definition old : Z -> Z := fun _ => 0.
Definition purge_command : list string := ["--before"; "2026-01-01T00:00:00Z"; "--apply"].
Definition purge_run := run (@purge_main sample_platform old old purge_command) start.
Definition purge_of_staff := run (@purge_main sample_platform old old purge_command) promotion_run.2.

Lemma purge_removes_exactly_the_old_rows_witness :
  exists before, Date_parse "2026-01-01T00:00:00Z" = Some before /\ purged old old before (db start) (db purge_run.2).
Proof.
  destruct (@purge_removes_exactly_the_old_rows sample_platform old old purge_command start purge_run.1 purge_run.2) as [[_ H]|[_ H]].
  - vm_compute. reflexivity.
  - assert (purge_run.1 = Ok Returned) as E by (vm_compute; reflexivity).
    destruct (H E) as [H'|H']; [discriminate H'|]. destruct (H' 1767225600000) as [H0 _]; [vm_compute; reflexivity|].
    assert (merchants_before old 1767225600000 (db start) = [shop]) as E0 by (vm_compute; reflexivity). rewrite E0 in H0. discriminate H0.
  - exact H.
Defined.

Lemma purge_parts_role_and_kind :
  purge_of_staff.1 = Ok Returned /\ (user_role ∘ row_user <$> users (db purge_of_staff.2) !! 3) = Some Admin /\
  (kind <$> principals (db purge_of_staff.2) !! "p") = Some PRINCIPAL_KIND_CUSTOMER.
Proof. vm_compute. split_and!; reflexivity. Qed.
End Witness.
