(* ===== verification/Shutdown.v ===== *)
(** * Shutting down

    Models src/src/infrastructure/observability/shutdown_drain.ts. A process that receives SIGTERM or
    SIGINT drains: it stops both servers, waits for what is in flight, closes the application and
    leaves; a timer ends it when that takes too long. The callbacks of the file are the reactions of
    a state machine to the events of Node's event loop ([react]), and [step] is its transition
    relation. *)

From S2P Require Import Prelude JsString Numbers Domain.
From Stdlib Require Import Ascii String QArith_base.
From stdpp Require Import relations.

Local Open Scope string_scope.
Local Open Scope Z_scope.

(** ** The grace period *)

Definition DEFAULT_GRACE_SECONDS : Q := 25 # 1.

Definition graceSecondsFrom (value : option string) : res exn Q :=
  match value with
  | None => Ok DEFAULT_GRACE_SECONDS
  | Some text =>
      if String.eqb (trim text) "" then Ok DEFAULT_GRACE_SECONDS
      else
        let refused := PlainError ("SHUTDOWN_GRACE_SECONDS is " ++ String (ascii_of_nat 34) text ++ String (ascii_of_nat 34)
                                   ", which is not a positive number of seconds.") in
        match Number_of (trim text) with
        | Finite seconds => if Qle_bool seconds 0 then Err refused else Ok seconds
        | _ => Err refused
        end
  end.

(** The delay Node gives a timer: 1 ms instead of one that is less than that or more than 2^31 - 1. *)
Definition timer_delay (ms : Q) : Q := if Qle_bool 1 ms && Qle_bool ms (2147483647 # 1) then ms else 1.

(** ** The process *)

Record ShutdownDrainOptions := mkOptions {
  (** Whether a gRPC server was captured at boot. *)
  grpcServer : bool;
  graceSeconds : Q
}.

(** How far [completeDrain] is: the two servers, each stopped or not yet; then the application. *)
Inductive Stage :=
| NotStarted
| Stopping (grpc_stopped http_stopped : bool)
| ClosingApp
| Finished
| DrainFailed.

Record Process := mkProcess {
  stage : Stage;
  (** The delay of the timer that is set, and whether it has fired. *)
  deadline : option Q;
  deadline_fired : bool;
  (** How many drains were started, and how often the gRPC server was shut down by force. *)
  drains : nat;
  forced : nat;
  (** The codes given to [exitAfterFlush], and the code the process ended with. *)
  exit_requests : list Z;
  exited : option Z;
  lines : list string
}.

Definition boot : Process := mkProcess NotStarted None false 0 0 [] None [].

(** [draining] of the closure. *)
Definition draining (p : Process) : bool := match stage p with NotStarted => false | _ => true end.
(** [finished] of the closure. *)
Definition finished (p : Process) : bool := match stage p with Finished => true | _ => false end.

Definition say (line : string) (p : Process) : Process :=
  mkProcess (stage p) (deadline p) (deadline_fired p) (drains p) (forced p) (exit_requests p) (exited p) (lines p ++ [line])%list.
Definition to_stage (s : Stage) (p : Process) : Process :=
  mkProcess s (deadline p) (deadline_fired p) (drains p) (forced p) (exit_requests p) (exited p) (lines p).
Definition exitAfterFlush (code : Z) (p : Process) : Process :=
  mkProcess (stage p) (deadline p) (deadline_fired p) (drains p) (forced p) (exit_requests p ++ [code])%list (exited p) (lines p).
Definition exit_now (code : Z) (p : Process) : Process :=
  mkProcess (stage p) (deadline p) (deadline_fired p) (drains p) (forced p) (exit_requests p) (Some code) (lines p).
Definition fire (p : Process) : Process :=
  mkProcess (stage p) (deadline p) true (drains p) (forced p) (exit_requests p) (exited p) (lines p).

Inductive ShutdownEvent :=
| Signal (name : string)
| GrpcStopped (error : option string)
| HttpStopped (error : option string)
| AppClosed (error : option string)
| DeadlinePassed
| OutputFlushed
| NothingLeft.

Section Drain.
Context (options : ShutdownDrainOptions).
(** Why the gRPC server cannot be shut down by force, if it cannot. *)
Context (force_error : option string).

(** [Promise.all] of the two servers: when both have stopped the application is closed. *)
Definition stopping (grpc_stopped http_stopped : bool) : Stage :=
  if grpc_stopped && http_stopped then ClosingApp else Stopping grpc_stopped http_stopped.

(** [drainGrpc]: without a server there is nothing to wait for. *)
Definition start_drain (p : Process) : Process :=
  let p := mkProcess (Stopping (negb (grpcServer options)) false) (Some (timer_delay (graceSeconds options * (1000 # 1))))
             (deadline_fired p) (S (drains p)) (forced p) (exit_requests p) (exited p) (lines p) in
  if grpcServer options then p
  else say "no gRPC server was captured at boot; only the HTTP surface is being drained" p.

Definition forceShutdown (p : Process) : Process :=
  if negb (grpcServer options) then p
  else
    let p := mkProcess (stage p) (deadline p) (deadline_fired p) (drains p) (S (forced p)) (exit_requests p) (exited p) (lines p) in
    match force_error with
    | None => p
    | Some reason => say ("the gRPC server could not be shut down by force: " ++ reason) p
    end.

Definition drain (signal : string) (p : Process) : Process :=
  if draining p then say (signal ++ " arrived while already draining; the first drain continues") p
  else start_drain (say (signal ++ " received: refusing new work and finishing what is in flight") p).

Definition on_deadline (p : Process) : Process :=
  let p := fire p in
  if finished p then
    exitAfterFlush 0 (say "the drain finished but something is still holding the process open; exiting" p)
  else
    exitAfterFlush 1 (forceShutdown
      (say "work was still in flight when the grace period ran out; cancelling it and exiting" p)).

Definition react (e : ShutdownEvent) (p : Process) : Process :=
  match e with
  | Signal name => drain name p
  | GrpcStopped error =>
      match stage p with
      | Stopping _ http =>
          let p := match error with Some reason => say ("the gRPC server reported an error while draining: " ++ reason) p | None => p end in
          to_stage (stopping true http) p
      | _ => p
      end
  | HttpStopped None => match stage p with Stopping grpc _ => to_stage (stopping grpc true) p | _ => p end
  | HttpStopped (Some reason) =>
      exitAfterFlush 1 (say ("the drain itself failed; exiting rather than reporting a clean stop: " ++ reason) (to_stage DrainFailed p))
  | AppClosed error =>
      let p := match error with Some reason => say ("the application did not tear down cleanly after the drain: " ++ reason) p | None => p end in
      say "drain complete: every in-flight HTTP request and gRPC call finished" (to_stage Finished p)
  | DeadlinePassed => on_deadline p
  | OutputFlushed => match exit_requests p with code :: _ => exit_now code p | [] => p end
  | NothingLeft => exit_now 0 p
  end.

(** When an event can happen: a callback runs once, after what it waits for was started; the output
    is flushed after an exit was asked for; the loop runs empty only when the drain is complete, for
    the timer does not hold the process open. *)
Definition can_happen (e : ShutdownEvent) (p : Process) : bool :=
  match e, stage p with
  | Signal name, _ => bool_decide (name ∈ ["SIGTERM"; "SIGINT"])
  | GrpcStopped _, Stopping false _ => true
  | HttpStopped _, Stopping _ false => true
  | AppClosed _, ClosingApp => true
  | DeadlinePassed, _ => bool_decide (is_Some (deadline p)) && negb (deadline_fired p)
  | OutputFlushed, _ => negb (bool_decide (exit_requests p = []))
  | NothingLeft, Finished => bool_decide (exit_requests p = [])
  | _, _ => false
  end.

Inductive step : Process -> Process -> Prop :=
| do_step p e : exited p = None -> can_happen e p = true -> step p (react e p).
End Drain.

(** ** Facts *)

Section Facts.
Context (options : ShutdownDrainOptions) (force_error : option string).
Abbreviation reacts := (react options force_error).
Abbreviation steps := (step options force_error).

(** Why a code is right: 0 after a complete drain, 1 when it failed or the time ran out. *)
Definition warranted (code : Z) (p : Process) : Prop :=
  (code = 0 /\ stage p = Finished) \/ (code = 1 /\ (stage p = DrainFailed \/ deadline_fired p = true)).

Record orderly (p : Process) : Prop := {
  orderly_idle : stage p = NotStarted -> deadline p = None /\ deadline_fired p = false /\ exit_requests p = [] /\ exited p = None /\ drains p = O;
  orderly_busy : stage p <> NotStarted -> deadline p = Some (timer_delay (graceSeconds options * (1000 # 1))) /\ drains p = 1%nat;
  orderly_fired : deadline_fired p = true -> exit_requests p <> [];
  orderly_requests : forall code, code ∈ exit_requests p -> warranted code p;
  orderly_exit : forall code, exited p = Some code -> warranted code p
}.

Lemma boot_orderly : orderly boot.
Proof. split; cbn; try done. by intros code ?%not_elem_of_nil. Qed.

(** A log line changes nothing of this. *)
Lemma say_orderly line p : orderly p -> orderly (say line p).
Proof. by intros []. Qed.

Lemma drain_orderly signal p : exited p = None -> orderly p -> orderly (drain options signal p).
Proof.
  intros Hex Hp. unfold drain, draining. destruct (stage p) eqn:Es; try by apply say_orderly.
  destruct (orderly_idle p Hp Es) as (Hd & Hf & Hr & _ & Hn).
  unfold start_drain. destruct (grpcServer options); (split; cbn; rewrite ?Hf, ?Hr, ?Hex, ?Hn; try done; by intros code ?%not_elem_of_nil).
Qed.

(** The drain moves on: from a stage that is neither complete nor failed to another that has begun. *)
Lemma to_stage_orderly s p :
  orderly p -> exited p = None -> stage p <> NotStarted -> stage p <> Finished -> stage p <> DrainFailed -> s <> NotStarted ->
  orderly (to_stage s p).
Proof.
  intros [Hi Hb Hf Hr He] Hex H1 H2 H3 Hs. split; cbn; [done|auto|done| |by rewrite Hex].
  intros code Hc. destruct (Hr code Hc) as [[_ H]|[-> [H|H]]]; [done|done|]. right. cbn. auto.
Qed.

Lemma exit_orderly code p : orderly p -> stage p <> NotStarted -> warranted code p -> orderly (exitAfterFlush code p).
Proof.
  intros [Hi Hb Hf Hr He] Hs Hw. split; cbn; [done|done| | |done].
  - intros _ H%app_eq_nil. by destruct H.
  - intros c [Hc| ->%list_elem_of_singleton]%elem_of_app; [by apply Hr|done].
Qed.

Lemma forceShutdown_same p :
  stage (forceShutdown options force_error p) = stage p /\ deadline (forceShutdown options force_error p) = deadline p /\
  deadline_fired (forceShutdown options force_error p) = deadline_fired p /\ drains (forceShutdown options force_error p) = drains p /\
  exit_requests (forceShutdown options force_error p) = exit_requests p /\ exited (forceShutdown options force_error p) = exited p.
Proof. unfold forceShutdown. destruct (grpcServer options); [|done]. by destruct force_error. Qed.

Lemma react_orderly e p : exited p = None -> can_happen e p = true -> orderly p -> orderly (reacts e p).
Proof.
  intros Hex Hc Hp. destruct e as [name|error|[reason|]|error| | |]; cbn [react].
  - by apply drain_orderly.
  - cbn in Hc. destruct (stage p) as [|[] http| | |] eqn:Es; try done.
    apply to_stage_orderly; rewrite ?Es; destruct error; rewrite ?Es; try done; try by apply say_orderly.
    all: try (cbn; by rewrite Es). all: by destruct http.
  - cbn in Hc. destruct (stage p) as [|grpc []| | |] eqn:Es; try done.
    apply exit_orderly; [apply say_orderly, to_stage_orderly; rewrite ?Es; done|done|]. right. cbn. auto.
  - cbn in Hc. destruct (stage p) as [|grpc []| | |] eqn:Es; try done.
    apply to_stage_orderly; rewrite ?Es; try done. by destruct grpc.
  - cbn in Hc. destruct (stage p) eqn:Es; try done. apply say_orderly, to_stage_orderly; destruct error; cbn; rewrite ?Es; try done; by apply say_orderly.
  - cbn in Hc. apply andb_true_iff in Hc as [Hd _]. apply bool_decide_eq_true in Hd.
    assert (stage p <> NotStarted) as Hs by (intros Hs; destruct (orderly_idle p Hp Hs) as [E _]; rewrite E in Hd; by destruct Hd).
    unfold on_deadline. destruct Hp as [Hi Hb Hf Hr He].
    destruct (finished (fire p)) eqn:Ef.
    + assert (stage p = Finished) as Hfin by (unfold finished in Ef; cbn in Ef; by destruct (stage p)).
      split; cbn; [done|auto|by intros _ []%app_eq_nil| |by rewrite Hex].
      intros code [Hcd| ->%list_elem_of_singleton]%elem_of_app; [|by left].
      destruct (Hr code Hcd) as [[-> H]|[-> H]]; [by left|right; split; [done|by right]].
    + destruct (forceShutdown_same (say "work was still in flight when the grace period ran out; cancelling it and exiting" (fire p)))
        as (E1 & E2 & E3 & E4 & E5 & E6).
      split; cbn; rewrite ?E1, ?E2, ?E3, ?E4, ?E5, ?E6; cbn; [done|auto|by intros _ []%app_eq_nil| |by rewrite Hex].
      unfold warranted. cbn. rewrite E1, E3. cbn. intros code [Hcd| ->%list_elem_of_singleton]%elem_of_app; [|by right; split; [|right]].
      destruct (Hr code Hcd) as [H|[-> H]]; [by left|right; split; [done|by right]].
  - destruct (exit_requests p) as [|code l] eqn:El; [done|]. destruct Hp as [Hi Hb Hf Hr He]. split; cbn; try done.
    + intros Hs. destruct (Hi Hs) as (_ & _ & H & _). by rewrite H in El.
    + intros c [= <-]. apply Hr. rewrite El. by left.
  - cbn in Hc. destruct (stage p) eqn:Es; try done. destruct Hp as [Hi Hb Hf Hr He]. split; cbn; rewrite ?Es; try done.
    + intros _. apply Hb. by rewrite Es.
    + intros c [= <-]. by left.
Qed.

Lemma reachable_orderly p : rtc steps boot p -> orderly p.
Proof.
  assert (forall q, rtc steps q p -> orderly q -> orderly p) as H; [|intros; by eapply H; [|apply boot_orderly]].
  intros q. induction 1 as [|q1 q2 q3 [p0 e Hex Hc] _ IH]; [done|]. intros Hq. apply IH. by apply react_orderly.
Qed.

(** Whatever signals, errors and timings come, a process that ends reports truthfully: code 0
    only after both servers stopped and the application was closed, code 1 only when the drain
    failed or its time ran out; and it drains at most once, however many signals arrive. *)
Theorem exit_code_is_truthful p :
  rtc steps boot p -> (drains p <= 1)%nat /\ (forall code, exited p = Some code -> warranted code p).
Proof.
  intros Hp%reachable_orderly. split; [|apply Hp]. destruct (stage p) eqn:Es;
    [destruct (orderly_idle p Hp Es) as (_ & _ & _ & _ & ->); lia|..];
    destruct (orderly_busy p Hp) as [_ ->]; rewrite ?Es; done.
Qed.

(** *** A drain ends *)

Definition is_signal (e : ShutdownEvent) : bool := match e with Signal _ => true | _ => false end.

(** A step that is not another signal. *)
Inductive work : Process -> Process -> Prop :=
| do_work p e : is_signal e = false -> exited p = None -> can_happen e p = true -> work p (reacts e p).

(** How many such steps are left at most. *)
Definition stages_left (s : Stage) : nat :=
  match s with
  | Stopping grpc http => 2 + (if grpc then 0 else 1) + (if http then 0 else 1)
  | ClosingApp => 1
  | NotStarted | Finished | DrainFailed => 0
  end.
Definition work_left (p : Process) : nat :=
  stages_left (stage p) + (if deadline_fired p then 0 else 1) + (match exited p with Some _ => 0 | None => 1 end).

Lemma work_less p p' : work p p' -> (work_left p' < work_left p)%nat.
Proof.
  intros [p0 e Hsig Hex Hc]. unfold work_left. destruct e as [name|error|[reason|]|error| | |]; try done; cbn [react]; cbn in Hc.
  - destruct (stage p0) as [|[] []| | |] eqn:Es; try done; destruct error; cbn; rewrite ?Hex; lia.
  - destruct (stage p0) as [|[] []| | |] eqn:Es; try done; cbn; rewrite ?Hex; lia.
  - destruct (stage p0) as [|[] []| | |] eqn:Es; try done; cbn; rewrite ?Hex; lia.
  - destruct (stage p0) as [|[] []| | |] eqn:Es; try done; destruct error; cbn; rewrite ?Hex; lia.
  - apply andb_true_iff in Hc as [_ Hc]. apply negb_true_iff in Hc. rewrite Hc, Hex. unfold on_deadline. destruct (finished (fire p0)); cbn.
    + rewrite Hex. lia.
    + destruct (forceShutdown_same (say "work was still in flight when the grace period ran out; cancelling it and exiting" (fire p0)))
        as (E1 & _ & E3 & _ & _ & E6). rewrite E1, E3, E6. cbn. rewrite Hex. lia.
  - destruct (exit_requests p0); [done|]. cbn. rewrite Hex. lia.
  - rewrite Hex. cbn. lia.
Qed.

Lemma flush_exits p : exit_requests p <> [] -> can_happen OutputFlushed p = true /\ is_Some (exited (reacts OutputFlushed p)).
Proof.
  intros H. cbn. destruct (exit_requests p) as [|code l]; [done|]. split; [by rewrite bool_decide_eq_false_2|cbn; eauto].
Qed.

Lemma deadline_requests p : exit_requests (on_deadline options force_error p) <> [].
Proof. unfold on_deadline. destruct (finished (fire p)); cbn; intros []%app_eq_nil; done. Qed.

(** C39: A process that has been asked to stop stops, whatever its clients and peers do: after the
    signal at most six more things can happen to it besides further signals; as long as it has not
    ended, its own timer, set to the configured grace period, or the flush of its output is due; and
    these two end it. *)
Theorem shutdown_always_ends p :
  rtc steps boot p -> draining p = true ->
  (forall n p', nsteps work n p p' -> (n <= 6)%nat) /\
  deadline p = Some (timer_delay (graceSeconds options * (1000 # 1))) /\
  (exited p = None ->
    if deadline_fired p
    then can_happen OutputFlushed p = true /\ is_Some (exited (reacts OutputFlushed p))
    else can_happen DeadlinePassed p = true /\
         let expired := reacts DeadlinePassed p in
         can_happen OutputFlushed expired = true /\ is_Some (exited (reacts OutputFlushed expired))).
Proof.
  intros Hp%reachable_orderly Hd. assert (stage p <> NotStarted) as Hs by (intros E; unfold draining in Hd; by rewrite E in Hd).
  destruct (orderly_busy p Hp Hs) as [Hdl _]. split_and!; [|done|].
  - assert (forall n q q', nsteps work n q q' -> (n <= work_left q)%nat) as Hn.
    { intros n. induction n as [|n IH]; intros q q' H; [lia|]. inversion H as [|? ? q1 ? H1 H2]; subst.
      pose proof (work_less _ _ H1). specialize (IH _ _ H2). lia. }
    intros n p' H%Hn. assert (work_left p <= 6)%nat; [|lia]. unfold work_left.
    destruct (stage p) as [|[] []| | |], (deadline_fired p), (exited p); cbn; lia.
  - intros Hex. destruct (deadline_fired p) eqn:Ef; [by apply flush_exits, Hp|]. split.
    + cbn. by rewrite Hdl, Ef, bool_decide_eq_true_2.
    + cbn zeta. apply flush_exits, deadline_requests.
Qed.
End Facts.

Module Witness.
Definition with_grpc : ShutdownDrainOptions := mkOptions true (25 # 1).
Definition after (events : list ShutdownEvent) : Process := foldl (fun p e => react with_grpc None e p) boot events.

(** Every event of the list can happen when its turn comes, on a process that has not ended. *)
Fixpoint possible (events : list ShutdownEvent) (p : Process) : bool :=
  match events with
  | [] => true
  | e :: events => bool_decide (exited p = None) && can_happen e p && possible events (react with_grpc None e p)
  end.

Lemma possible_steps events p :
  possible events p = true -> rtc (step with_grpc None) p (foldl (fun p e => react with_grpc None e p) p events).
Proof.
  revert p. induction events as [|e events IH]; intros p; cbn [possible foldl]; [intros _; constructor|].
  intros [[H1 H2]%andb_true_iff H3]%andb_true_iff. eapply rtc_l; [constructor; [by apply bool_decide_eq_true in H1|exact H2]|by apply IH].
Qed.

(** A drain that completes, with a second signal on the way. *)
Definition clean : list ShutdownEvent := [Signal "SIGTERM"; HttpStopped None; Signal "SIGINT"; GrpcStopped None; AppClosed None; NothingLeft].
(** A call that outlasts the grace period. *)
Definition late : list ShutdownEvent := [Signal "SIGTERM"; HttpStopped None; DeadlinePassed; OutputFlushed].

Example clean_stop : (possible clean boot, exited (after clean)) = (true, Some 0).
Proof. vm_compute. reflexivity. Qed.
Example late_stop : (possible late boot, exited (after late), forced (after late)) = (true, Some 1, 1%nat).
Proof. vm_compute. reflexivity. Qed.

Lemma exit_code_is_truthful_witness : (drains (after clean) <= 1)%nat /\ warranted 0 (after clean).
Proof.
  destruct (exit_code_is_truthful with_grpc None (after clean)) as [H1 H2]; [apply (possible_steps clean); vm_compute; reflexivity|].
  split; [exact H1|]. apply H2. vm_compute. reflexivity.
Defined.

Definition waiting : Process := after [Signal "SIGTERM"; HttpStopped None].
Lemma shutdown_always_ends_witness :
  (forall n p', nsteps (work with_grpc None) n waiting p' -> (n <= 6)%nat) /\
  is_Some (exited (react with_grpc None OutputFlushed (react with_grpc None DeadlinePassed waiting))).
Proof.
  destruct (shutdown_always_ends with_grpc None waiting) as (H1 & _ & H2);
    [apply (possible_steps [Signal "SIGTERM"; HttpStopped None]); vm_compute; reflexivity|vm_compute; reflexivity|].
  split; [exact H1|]. destruct (H2 eq_refl) as (_ & _ & H). exact H.
Defined.

(** A grace period of 30 days is accepted, and its timer fires at once: Node cuts a delay of more
    than 2^31 - 1 ms to 1 ms. *)
Lemma long_grace_is_no_grace :
  match graceSecondsFrom (Some "2592000") with
  | Ok seconds => Qeq_bool seconds (2592000 # 1) && Qeq_bool (timer_delay (seconds * (1000 # 1))) 1
  | Err _ => false
  end = true.
Proof. vm_compute. reflexivity. Qed.
End Witness.
