(* ===== verification/Nominatim.v ===== *)
(** * The geocoding provider

    Models src/src/infrastructure/geocoding/nominatim_geocoding.adapter.ts, an implementation of the
    [GeocodingProviderPort] of Geocoding.v. What the HTTP service answers is a parameter ([fetch]);
    what the adapter reads from the answer is the model: JSON values, [Number] of any of them, the
    ranges and the precision. The texts of the log lines leave out the values they quote. *)

From S2P Require Import Prelude JsString Numbers Domain Store Sample Keys Geocoding Mesh.
From Stdlib Require Import Ascii String QArith_base Qabs.

Local Open Scope string_scope.
Local Open Scope Z_scope.

(** ** Values of a JSON body *)

Inductive JsonValue :=
| VNull
| VBool (b : bool)
| VNumber (n : JsNumber)
| VString (s : string)
| VArray (l : list JsonValue)
| VObject (o : list (string * JsonValue)).

(** [Number(value)]; [None] is [undefined]. An array is converted through its text, which for two
    elements or more has a comma. *)
Fixpoint number_of_value (v : JsonValue) : JsNumber :=
  match v with
  | VNull => Finite 0
  | VBool b => Finite (if b then 1 else 0)
  | VNumber n => n
  | VString s => Number_of s
  | VArray [] => Finite 0
  | VArray [VBool _] => NaN
  | VArray [x] => number_of_value x
  | VArray _ => NaN
  | VObject _ => NaN
  end.
Definition Number_of_member (v : option JsonValue) : JsNumber := match v with Some v => number_of_value v | None => NaN end.

(** [value[name]]: a value that is no object has no such member, and [null] throws. *)
Definition member_of (name : string) (v : JsonValue) : res exn (option JsonValue) :=
  match v with
  | VNull => Err (PlainError ("Cannot read properties of null (reading '" ++ name ++ "')"))
  | VObject o => Ok (snd <$> List.find (fun '(k, _) => String.eqb k name) o)
  | _ => Ok None
  end.

(** [String(value)] where it can be a word: of a number, an object or several elements it cannot. *)
Fixpoint word_of (v : JsonValue) : option string :=
  match v with
  | VNull => Some ""
  | VString s => Some s
  | VBool b => Some (if b then "true" else "false")
  | VArray [] => Some ""
  | VArray [x] => word_of x
  | _ => None
  end.

(** ** The adapter *)

Record GeocoderRequest := mkGeocoderRequest {
  geocoder_url : string;
  geocoder_params : list (string * string);
  geocoder_headers : list (string * string);
  geocoder_timeout_ms : Z
}.

(** A request fails, or is answered with a status and a body, which is JSON or is not. *)
Inductive Fetched :=
| FetchFailed (message : string)
| Response (status : Z) (body : option JsonValue).

Record NominatimGeocodingAdapter := mkNominatim { baseUrl : string; userAgent : string }.

(** [s.replace(/\/+$/u, "")] *)
Definition strip_trailing_slashes (s : string) : string :=
  list_str (rev (drop_while (Ascii.eqb "/") (rev (str_list s)))).

Definition newNominatim {U : UrlParser} (base agent : option string) : res exn NominatimGeocodingAdapter :=
  match requiredSetting "GEOCODER_BASE_URL" base with
  | Err e => Err e
  | Ok base =>
      let base := trim base in
      if negb (bool_decide (is_Some (parse_url base)))
      then Err (PlainError ("GEOCODER_BASE_URL is " ++ quote ++ base ++ quote ++ ", which is not a URL."))
      else match requiredSetting "GEOCODER_USER_AGENT" agent with
           | Err e => Err e
           | Ok agent => Ok (mkNominatim (strip_trailing_slashes base) (trim agent))
           end
  end.

Definition ROOFTOP_TYPES : list string := ["building"; "house"; "amenity"; "shop"; "office"].
Definition STREET_TYPES : list string := ["road"; "residential"; "street"].
Definition SUBURB_TYPES : list string := ["suburb"; "neighbourhood"; "village"; "quarter"].
Definition CITY_TYPES : list string := ["city"; "town"; "municipality"; "county"; "state"].

Definition precisionOf (addresstype : option JsonValue) : GeocodePrecision :=
  let text := match addresstype with None => Some "" | Some v => word_of v end in
  match toLowerCase <$> text with
  | Some t =>
      if bool_decide (t ∈ ROOFTOP_TYPES) then ROOFTOP
      else if bool_decide (t ∈ STREET_TYPES) then STREET
      else if bool_decide (t ∈ SUBURB_TYPES) then SUBURB
      else if bool_decide (t ∈ CITY_TYPES) then CITY
      else UNSPECIFIED
  | None => UNSPECIFIED
  end.

(** What a lookup logs, and what it answers or throws. *)
Definition Looked : Type := option string * res exn (ProviderPoint + GeocodeFailure).

Definition nominatim_unavailable (query detail : string) : Looked :=
  (Some ("could not geocode " ++ json_string query ++ ": " ++ detail), Ok (inr PROVIDER_UNAVAILABLE)).

Definition out_of_range (latitude longitude : Q) : bool :=
  negb (Qle_bool (-90 # 1) latitude) || negb (Qle_bool latitude (90 # 1)) ||
  negb (Qle_bool (-180 # 1) longitude) || negb (Qle_bool longitude (180 # 1)).

Definition firstPoint (body : JsonValue) (query : string) : Looked :=
  match body with
  | VArray [] => (None, Ok (inr NOT_FOUND))
  | VArray (first :: _) =>
      match member_of "lat" first, member_of "lon" first, member_of "display_name" first, member_of "addresstype" first with
      | Ok lat, Ok lon, Ok name, Ok addresstype =>
          match Number_of_member lat, Number_of_member lon with
          | Finite latitude, Finite longitude =>
              if out_of_range latitude longitude then nominatim_unavailable query "answered with a point that is not on Earth"
              else (None, Ok (inl (mkPoint latitude longitude (precisionOf addresstype)
                                     (match name with Some (VString s) => Some s | _ => None end))))
          | _, _ => nominatim_unavailable query "coordinates were not numbers"
          end
      | Err e, _, _, _ | _, Err e, _, _ | _, _, Err e, _ | _, _, _, Err e => (None, Err e)
      end
  | _ => nominatim_unavailable query "unexpected body"
  end.

Definition lookup_request (a : NominatimGeocodingAdapter) (query : string) : GeocoderRequest :=
  mkGeocoderRequest (baseUrl a ++ "/search")
    [("q", query); ("format", "jsonv2"); ("limit", "1"); ("addressdetails", "0")]
    [("user-agent", userAgent a); ("accept-language", "id,en")] 8000.

Definition lookup_answer (answer : Fetched) (query : string) : Looked :=
  match answer with
  | FetchFailed message => nominatim_unavailable query message
  | Response status body =>
      if status =? 429 then (Some ("the geocoder rate-limited the lookup of " ++ json_string query), Ok (inr PROVIDER_UNAVAILABLE))
      else if negb ((200 <=? status) && (status <=? 299)) then nominatim_unavailable query ("HTTP " ++ String_of status)
      else match body with
           | None => nominatim_unavailable query "body was not JSON"
           | Some body => firstPoint body query
           end
  end.

Section Adapter.
Context (fetch : nat -> GeocoderRequest -> Fetched).

Definition nominatim_lookup (a : NominatimGeocodingAdapter) (n : nat) (query : string) : Looked :=
  lookup_answer (fetch n (lookup_request a query)) query.

(** The adapter as the provider of Geocoding.v. *)
Definition nominatim (a : NominatimGeocodingAdapter) : GeocodingProviderPort := {|
  provider_name := "NominatimGeocodingAdapter";
  provider_lookup n query := (nominatim_lookup a n query).2
|}.
End Adapter.

(** ** Facts *)

#[local] Arguments normalise : simpl never.

(** The body that makes the adapter throw: an array that begins with [null]. *)
Definition begins_with_null (answer : Fetched) : Prop := exists status rest, answer = Response status (Some (VArray (VNull :: rest))).

Lemma member_of_Err name v e : member_of name v = Err e -> v = VNull.
Proof. by destruct v. Qed.

Lemma firstPoint_point body query p : (firstPoint body query).2 = Ok (inl p) -> on_earth p = true.
Proof.
  unfold firstPoint, nominatim_unavailable. destruct body as [| | | |[|first rest]|]; try done.
  destruct (member_of "lat" first) as [lat|], (member_of "lon" first) as [lon|], (member_of "display_name" first) as [name|],
    (member_of "addresstype" first) as [type|]; try done.
  destruct (Number_of_member lat) as [| |la], (Number_of_member lon) as [| |lo]; try done.
  destruct (out_of_range la lo) eqn:E; [done|]. cbn. intros [= <-]. unfold on_earth. cbn. unfold out_of_range in E.
  apply orb_false_iff in E as [[[E1 E2]%orb_false_iff E3]%orb_false_iff E4].
  apply negb_false_iff in E1, E2, E3, E4. by rewrite E1, E2, E3, E4.
Qed.

Lemma firstPoint_throws body query e : (firstPoint body query).2 = Err e -> exists rest, body = VArray (VNull :: rest).
Proof.
  unfold firstPoint, nominatim_unavailable. destruct body as [| | | |[|first rest]|]; try done.
  destruct (member_of "lat" first) as [lat|] eqn:E1; [|apply member_of_Err in E1 as ->; eauto].
  destruct (member_of "lon" first) as [lon|] eqn:E2; [|apply member_of_Err in E2 as ->; eauto].
  destruct (member_of "display_name" first) eqn:E3; [|apply member_of_Err in E3 as ->; eauto].
  destruct (member_of "addresstype" first) eqn:E4; [|apply member_of_Err in E4 as ->; eauto].
  destruct (Number_of_member lat), (Number_of_member lon); try done. by destruct (out_of_range _ _).
Qed.

Lemma lookup_answer_cases answer query :
  match (lookup_answer answer query).2 with
  | Ok (inl p) => on_earth p = true
  | Ok (inr _) => True
  | Err _ => begins_with_null answer
  end.
Proof.
  unfold lookup_answer, nominatim_unavailable. destruct answer as [message|status [body|]]; [done| |].
  - destruct (status =? 429); [done|]. destruct (negb _); [done|].
    destruct (firstPoint body query).2 as [[p|f]|e] eqn:E; [by eapply firstPoint_point|done|].
    apply firstPoint_throws in E as [rest ->]. by exists status, rest.
  - destruct (status =? 429); [done|]. by destruct (negb _).
Qed.

(** The points that are remembered are on Earth: a check of the table. *)
Definition points_on_earth (d : Db) : Prop :=
  forall key row, geocoded_addresses d !! key = Some row -> on_earth (geocoded_point row) = true.

Section Composition.
Context {P : Platform} (Hrel : reliable) (fetch : nat -> GeocoderRequest -> Fetched) (a : NominatimGeocodingAdapter).
#[local] Instance provider : GeocodingProviderPort := nominatim fetch a.

(** With this provider, and when no connection is lost, geocoding an address answers a point on
    Earth that it has remembered, or says why it has none and stores nothing; it throws only when
    the service answers with a list that begins with null. *)
Theorem nominatim_places_or_explains q w r w' :
  points_on_earth (db w) -> run (geocode q) w = (r, w') ->
  match r with
  | Ok (Geocoded lat lon p name) =>
      (-90 # 1 <= lat <= 90 # 1)%Q /\ (-180 # 1 <= lon <= 180 # 1)%Q /\
      (fun row => success (geocoded_point row)) <$> geocoded_addresses (db w') !! normalise q = Some (Geocoded lat lon p name)
  | Ok (NotGeocoded _ _) => db w' = db w
  | Err _ => db w' = db w /\ begins_with_null (fetch (net_calls w) (lookup_request a (normalise q)))
  end.
Proof.
  intros Hon Hrun.
  assert (forall p, on_earth p = true -> (-90 # 1 <= latitude p <= 90 # 1)%Q /\ (-180 # 1 <= longitude p <= 180 # 1)%Q) as Hrange.
  { intros p H. unfold on_earth in H. apply andb_true_iff in H as [[H1 H2]%andb_true_iff [H3 H4]%andb_true_iff].
    by apply Qle_bool_iff in H1, H2, H3, H4. }
  enough (wp (geocode q) (fun r w' => match r with
    | Ok (Geocoded lat lon p name) => exists pt, success pt = Geocoded lat lon p name /\ on_earth pt = true /\
        (fun row => success (geocoded_point row)) <$> geocoded_addresses (db w') !! normalise q = Some (Geocoded lat lon p name)
    | Ok (NotGeocoded _ _) => db w' = db w
    | Err _ => db w' = db w /\ begins_with_null (fetch (net_calls w) (lookup_request a (normalise q)))
    end) w) as H.
  { unfold wp in H. rewrite Hrun in H. cbn [fst snd] in H. destruct r as [[lat lon p name|]|]; [|done|done].
    destruct H as (pt & [= <- <- <- <-] & He & H). destruct (Hrange pt He). done. }
  clear Hrun Hrange. unfold geocode, findByQuery. cbv zeta. case_bool_decide; [by wp_step|]. wp_rel Hrel. wp_rel Hrel. cbn [db count_call].
  destruct (geocoded_addresses (db w) !! normalise q) as [row|] eqn:Er; cbn [option_map].
  { wp_rel Hrel. cbn. exists (geocoded_point row). rewrite Er. split; [done|]. split; [by eapply Hon|done]. }
  do 3 wp_rel Hrel. cbn [net_calls count_call fst provider_lookup provider nominatim].
  pose proof (lookup_answer_cases (fetch (net_calls w) (lookup_request a (normalise q))) (normalise q)) as Hcases.
  unfold nominatim_lookup. destruct (lookup_answer _ _).2 as [[pt|f]|e]; [|by repeat wp_step|by repeat wp_step].
  do 2 wp_step. unfold remember. wp_rel Hrel. cbn -[wp on_earth]. rewrite Hcases. cbn -[wp on_earth]. rewrite Er.
  cbn -[wp on_earth]. wp_rel Hrel. cbn -[on_earth]. exists pt. rewrite lookup_insert_eq. done.
Qed.
End Composition.

Module Witness.
Definition adapter : NominatimGeocodingAdapter := mkNominatim "https://nominatim.example" "kinetix".
Definition found (members : list (string * JsonValue)) (n : nat) (r : GeocoderRequest) : Fetched := Response 200 (Some (VArray [VObject members])).
Definition jakarta : nat -> GeocoderRequest -> Fetched :=
  found [("lat", VString "-6.2"); ("lon", VString "106.8"); ("addresstype", VString "Road"); ("display_name", VString "Jl. Sudirman")].
Definition address : GeocodeQuery := mkQuery "Jl. Sudirman 1" (Some "Jakarta") None.
Definition asked fetch := run (@geocode sample_platform (nominatim fetch adapter) address) (world_at 0 empty_db).

Lemma nominatim_places_or_explains_witness :
  (asked jakarta).1 = Ok (Geocoded (-62 # 10) (1068 # 10) STREET (Some "Jl. Sudirman")) /\
  ((-90 # 1 <= -62 # 10 <= 90 # 1)%Q /\ (-180 # 1 <= 1068 # 10 <= 180 # 1)%Q /\
   (fun row => success (geocoded_point row)) <$> geocoded_addresses (db (asked jakarta).2) !! normalise address =
     Some (Geocoded (-62 # 10) (1068 # 10) STREET (Some "Jl. Sudirman"))).
Proof.
  split; [vm_compute; reflexivity|].
  apply (@nominatim_places_or_explains sample_platform (fun _ => eq_refl) jakarta adapter address (world_at 0 empty_db)
    (Ok (Geocoded (-62 # 10) (1068 # 10) STREET (Some "Jl. Sudirman"))) (asked jakarta).2).
  - intros key row H. change (geocoded_addresses (db (world_at 0 empty_db))) with (∅ : gmap string GeocodedRow) in H.
    rewrite lookup_empty in H. discriminate H.
  - vm_compute. reflexivity.
Defined.

(** Coordinates that are not numbers are refused, except those that [Number] makes zero of: a null
    latitude and an empty longitude are taken for the point 0, 0, which is then remembered. *)
Example words_are_no_coordinates :
  (asked (found [("lat", VString "north"); ("lon", VString "106.8")])).1 =
  Ok (NotGeocoded PROVIDER_UNAVAILABLE ("the geocoder did not place " ++ json_string "jl. sudirman 1, jakarta")).
Proof. vm_compute. reflexivity. Qed.
Lemma null_coordinates_are_a_point :
  (asked (found [("lat", VNull); ("lon", VString "")])).1 = Ok (Geocoded 0 0 UNSPECIFIED None).
Proof. vm_compute. reflexivity. Qed.
Example null_result_throws : exists e, (asked (fun _ _ => Response 200 (Some (VArray [VNull])))).1 = Err e.
Proof. eexists. vm_compute. reflexivity. Qed.
End Witness.
