(* ===== verification/GeoGrpc.v ===== *)
(** * The gRPC geocoding service

    Models src/src/adapters/controllers/geo_grpc.controller.ts over the use case of Geocoding.v. *)

From S2P Require Import Prelude JsString Domain Store Sample Geocoding Profiles.
From Stdlib Require Import Ascii String QArith_base.

Local Open Scope string_scope.
Local Open Scope Z_scope.

Record GeoAddressWire := mkWireAddress {
  street_address : option string;
  streetAddress : option string;
  wire_city : option string;
  postal_code : option string;
  postalCode : option string
}.
Record GeocodeAddressResponseWire := mkGeoResponse {
  geo_geocoded : bool;
  geo_location : Q * Q;
  geo_failure : string;
  failure_detail : string;
  geo_precision : string
}.

Definition MAX_BATCH : Z := 25.

Definition precision_name (p : GeocodePrecision) : string :=
  match p with
  | UNSPECIFIED => "UNSPECIFIED" | ROOFTOP => "ROOFTOP" | STREET => "STREET" | SUBURB => "SUBURB" | CITY => "CITY"
  end.

Definition first_given (a b : option string) : option string := match a with Some _ => a | None => b end.

Definition queryOf (address : option GeoAddressWire) : GeocodeQuery :=
  match address with
  | Some a => mkQuery (default "" (first_given (street_address a) (streetAddress a))) (wire_city a) (first_given (postal_code a) (postalCode a))
  | None => mkQuery "" None None
  end.

Definition responseOf (outcome : GeocodeOutcome) : GeocodeAddressResponseWire :=
  match outcome with
  | Geocoded lat lon p _ => mkGeoResponse true (lat, lon) "GEOCODE_FAILURE_UNSPECIFIED" "" ("GEOCODE_PRECISION_" ++ precision_name p)
  | NotGeocoded failure detail =>
      mkGeoResponse false (0, 0)%Q ("GEOCODE_FAILURE_" ++ failure_name failure) detail "GEOCODE_PRECISION_UNSPECIFIED"
  end.

Definition batch_refused : GeocodeAddressResponseWire :=
  mkGeoResponse false (0, 0)%Q "GEOCODE_FAILURE_UNSPECIFIED" ("a batch may hold at most " ++ String_of MAX_BATCH ++ " addresses")
    "GEOCODE_PRECISION_UNSPECIFIED".

Section Controller.
Context {P : Platform} {G : GeocodingProviderPort}.
Local Open Scope prog_scope.

Definition geocodeAddress (address : option GeoAddressWire) : M GeocodeAddressResponseWire :=
  outcome <- geocode (queryOf address) ;; Ret (responseOf outcome).

(** The loop over a batch. *)
Fixpoint geocode_each (addresses : list GeoAddressWire) : M (list GeocodeAddressResponseWire) :=
  match addresses with
  | [] => Ret []
  | address :: rest =>
      outcome <- geocode (queryOf (Some address)) ;;
      results <- geocode_each rest ;;
      Ret (responseOf outcome :: results)
  end.

Definition geocodeAddresses (sent : option (list GeoAddressWire)) : M (list GeocodeAddressResponseWire) :=
  let addresses := default [] sent in
  if MAX_BATCH <? Z.of_nat (List.length addresses) then
    emit (LogLine None ("refusing a batch of " ++ String_of (Z.of_nat (List.length addresses)) ++
      " addresses; the geocoder's usage policy does not permit bulk lookups, so the caller must ask in batches of " ++
      String_of MAX_BATCH ++ " or fewer")) ;;;
    Ret (map (fun _ => batch_refused) addresses)
  else geocode_each addresses.
End Controller.

(** ** Facts *)

Section Facts.
Context {P : Platform} {G : GeocodingProviderPort}.

(** A geocoding asks the provider at most once. *)
Lemma geocode_asks_once q w : (net_calls w <= net_calls (run (geocode q) w).2 <= S (net_calls w))%nat.
Proof.
  enough (wp (geocode q) (fun _ w' => (net_calls w <= net_calls w' <= S (net_calls w))%nat) w) as H by exact H.
  unfold geocode, findByQuery. cbv zeta. case_bool_decide; [wp_step; lia|]. wp_step. wp_step; [|cbn; lia].
  destruct (option_map _ _); [wp_step; cbn; lia|]. do 3 wp_step. destruct (provider_lookup _ _) as [[p|f]|e]; wp_step; [|wp_step; cbn; lia|cbn; lia].
  wp_step. unfold remember. apply wp_statement; cbn -[wp]; repeat case_match; cbn -[wp]; repeat wp_step; cbn; lia.
Qed.

Lemma geocode_each_run addresses w :
  (net_calls w <= net_calls (run (geocode_each addresses) w).2 <= net_calls w + List.length addresses)%nat /\
  forall results, (run (geocode_each addresses) w).1 = Ok results -> List.length results = List.length addresses.
Proof.
  revert w. induction addresses as [|address rest IH]; intros w; cbn [geocode_each].
  { cbn. split; [lia|]. by intros results [= <-]. }
  rewrite run_bind. pose proof (geocode_asks_once (queryOf (Some address)) w) as H1.
  destruct (run (geocode (queryOf (Some address))) w) as [[outcome|e] w1]; cbn [fst snd] in *; [|split; [cbn; lia|done]].
  rewrite run_bind. specialize (IH w1). destruct (run (geocode_each rest) w1) as [[results|e] w2]; cbn [fst snd] in *.
  - destruct IH as [IH1 IH2]. cbn. split; [lia|]. intros ? [= <-]. cbn. by rewrite (IH2 results).
  - split; [cbn; lia|done].
Qed.

(** A call of the batch method asks the provider at most 25 times, whatever it is sent, and for
    more than 25 addresses not at all; it answers one result per address, in their order. *)
Theorem batch_lookups_are_bounded sent w r w' :
  run (geocodeAddresses sent) w = (r, w') ->
  Z.of_nat (net_calls w') <= Z.of_nat (net_calls w) + MAX_BATCH /\
  (forall results, r = Ok results -> List.length results = List.length (default [] sent)) /\
  (MAX_BATCH < Z.of_nat (List.length (default [] sent)) ->
     r = Ok (map (fun _ => batch_refused) (default [] sent)) /\ net_calls w' = net_calls w /\ db w' = db w).
Proof.
  unfold geocodeAddresses. cbv zeta. destruct (Z.ltb_spec MAX_BATCH (Z.of_nat (List.length (default [] sent)))) as [Hbig|Hsmall].
  - cbn. intros [= <- <-]. cbn. split_and!; [unfold MAX_BATCH; lia| |done]. intros results [= <-]. by rewrite length_map.
  - destruct (geocode_each_run (default [] sent) w) as [H1 H2]. intros Hrun. rewrite Hrun in H1, H2. cbn [fst snd] in *.
    split_and!; [lia|done|]. lia.
Qed.
End Facts.

Module Witness.
Definition twice : list GeoAddressWire :=
  [mkWireAddress (Some "Jl. Sudirman 1") None (Some "Jakarta") None None; mkWireAddress None (Some "JL. SUDIRMAN 1") (Some "jakarta") None None].
Definition batch := run (@geocodeAddresses sample_platform Geocoding.Witness.sample_provider (Some twice)) (world_at 0 empty_db).

(** The same address in two spellings: two results, one lookup. *)
Example batch_of_two : match batch.1 with Ok results => map geo_geocoded results | Err _ => [] end = [true; true] /\ net_calls batch.2 = 1%nat.
Proof. vm_compute. split; reflexivity. Qed.

Lemma batch_lookups_are_bounded_witness :
  Z.of_nat (net_calls batch.2) <= 0 + MAX_BATCH /\
  (forall results, batch.1 = Ok results -> List.length results = 2%nat).
Proof.
  destruct (@batch_lookups_are_bounded sample_platform Geocoding.Witness.sample_provider (Some twice) (world_at 0 empty_db) batch.1 batch.2)
    as (H1 & H2 & _); [vm_compute; reflexivity|]. split; [exact H1|exact H2].
Defined.
End Witness.
