(* ===== verification/Json.v ===== *)
(** * JSON as the log writes it

    [JSON.stringify] of the language's standard library on the values a log line carries, and a
    reader of such text. A value is plain data or an [Error]; its numbers are integers. The theorem
    is that the reader gets back what was written, so a text inside a value, whatever it holds,
    stays inside it. *)

From S2P Require Import Prelude JsString.
From Stdlib Require Import Ascii String.
Local Open Scope string_scope.
Local Open Scope Z_scope.

(** ** Values *)

(** A JavaScript value. The members of an object are in the order in which [Object.entries] has
    them. [JSON.stringify] throws on a [BigInt]. *)
Inductive JsValue :=
| JsUndefined
| JsNull
| JsBoolean (b : bool)
| JsInteger (n : Z)
| JsString (s : string)
| JsBigInt (n : Z)
| JsArray (elements : list JsValue)
| JsObject (members : list (string * JsValue))
| JsErrorValue (name message : string) (stack : option string).

(** The data a JSON text denotes. *)
Inductive Json :=
| JNull
| JBool (b : bool)
| JNum (n : Z)
| JStr (s : string)
| JArr (elements : list Json)
| JObj (members : list (string * Json)).

(** ** Writing *)

(** What [JSON.stringify] writes of a value: nothing of [undefined], [null] for it in an array, no
    member of an [Error] (they are not enumerable); [Err tt] is its [TypeError]. *)
Fixpoint json_of (v : JsValue) : res unit (option Json) :=
  match v with
  | JsUndefined => Ok None
  | JsNull => Ok (Some JNull)
  | JsBoolean b => Ok (Some (JBool b))
  | JsInteger n => Ok (Some (JNum n))
  | JsString s => Ok (Some (JStr s))
  | JsBigInt _ => Err tt
  | JsErrorValue _ _ _ => Ok (Some (JObj []))
  | JsArray l =>
      res_bind ((fix elements l :=
        match l with
        | [] => Ok []
        | v :: l => res_bind (json_of v) (fun j => res_bind (elements l) (fun js => Ok (default JNull j :: js)))
        end) l) (fun js => Ok (Some (JArr js)))
  | JsObject m =>
      res_bind ((fix members m :=
        match m with
        | [] => Ok []
        | (k, v) :: m =>
            res_bind (json_of v) (fun j => res_bind (members m) (fun js =>
              Ok (match j with Some j => (k, j) :: js | None => js end)))
        end) m) (fun js => Ok (Some (JObj js)))
  end.

Definition hex_digit (n : Z) : ascii := chr (if n <? 10 then 48 + n else 87 + n).

Definition escaped (c : ascii) : list ascii :=
  if Ascii.eqb c (chr 34) then [chr 92; chr 34]
  else if Ascii.eqb c (chr 92) then [chr 92; chr 92]
  else if code c =? 8 then [chr 92; "b"%char]
  else if code c =? 9 then [chr 92; "t"%char]
  else if code c =? 10 then [chr 92; "n"%char]
  else if code c =? 12 then [chr 92; "f"%char]
  else if code c =? 13 then [chr 92; "r"%char]
  else if code c <? 32 then [chr 92; "u"%char; "0"%char; "0"%char; hex_digit (code c / 16); hex_digit (code c mod 16)]
  else [c].

Definition quoted (s : string) : list ascii := (chr 34 :: flat_map escaped (str_list s) ++ [chr 34])%list.

Fixpoint separated (parts : list (list ascii)) : list ascii :=
  match parts with
  | [] => []
  | [p] => p
  | p :: ps => (p ++ ","%char :: separated ps)%list
  end.

Fixpoint render (j : Json) : list ascii :=
  match j with
  | JNull => str_list "null"
  | JBool true => str_list "true"
  | JBool false => str_list "false"
  | JNum n => str_list (String_of n)
  | JStr s => quoted s
  | JArr l => ("["%char :: separated (map render l) ++ ["]"%char])%list
  | JObj m => ("{"%char :: separated (map (fun '(k, v) => quoted k ++ ":"%char :: render v) m) ++ ["}"%char])%list
  end.

Definition stringify (v : JsValue) : res unit (option string) :=
  res_bind (json_of v) (fun j => Ok (option_map (fun j => list_str (render j)) j)).

(** ** Reading *)

Definition hex_value (c : ascii) : option Z :=
  if is_digit c then Some (code c - 48)
  else if (97 <=? code c) && (code c <=? 102) then Some (code c - 87)
  else None.

Definition plain_escape (e : ascii) : option Z :=
  match e with
  | "b"%char => Some 8 | "t"%char => Some 9 | "n"%char => Some 10 | "f"%char => Some 12 | "r"%char => Some 13
  | _ => if Ascii.eqb e (chr 34) || Ascii.eqb e (chr 92) then Some (code e) else None
  end.

(** What follows a backslash and [u]: four hexadecimal digits, of a code below 256. *)
Definition read_unicode (z z' h g : ascii) : option Z :=
  if Ascii.eqb z "0" && Ascii.eqb z' "0" then
    match hex_value h, hex_value g with Some h, Some g => Some (16 * h + g) | _, _ => None end
  else None.

Definition add_char (n : option Z) (r : option (list ascii * list ascii)) : option (list ascii * list ascii) :=
  match n, r with Some n, Some (s, rest) => Some (chr n :: s, rest) | _, _ => None end.

Fixpoint read_text (l : list ascii) : option (list ascii * list ascii) :=
  match l with
  | [] => None
  | c :: l' =>
      if Ascii.eqb c (chr 34) then Some ([], l')
      else if Ascii.eqb c (chr 92) then
        match l' with
        | e :: l'' =>
            if Ascii.eqb e "u" then
              match l'' with
              | z :: z' :: h :: g :: l3 => add_char (read_unicode z z' h g) (read_text l3)
              | _ => None
              end
            else add_char (plain_escape e) (read_text l'')
        | [] => None
        end
      else if code c <? 32 then None
      else add_char (Some (code c)) (read_text l')
  end.

Fixpoint span {A} (p : A -> bool) (l : list A) : list A * list A :=
  match l with
  | [] => ([], [])
  | c :: l' => if p c then let '(a, b) := span p l' in (c :: a, b) else ([], l)
  end.

Definition read_number (l : list ascii) : option (Z * list ascii) :=
  let '(negative, l) := match l with "-"%char :: l => (true, l) | _ => (false, l) end in
  match span is_digit l with
  | ([], _) => None
  | (digits, rest) =>
      match digits_value 0 digits with Some n => Some ((if negative : bool then - n else n), rest) | None => None end
  end.

Definition read_word (word : string) (l : list ascii) : option (list ascii) :=
  if decide (take (String.length word) l = str_list word) then Some (drop (String.length word) l) else None.

(** A value at the head of the text, and what follows it. The fuel bounds the depth of the calls. *)
Fixpoint read_value (fuel : nat) (l : list ascii) : option (Json * list ascii) :=
  match fuel with
  | O => None
  | S fuel =>
      match l with
      | "n"%char :: _ => match read_word "null" l with Some rest => Some (JNull, rest) | None => None end
      | "t"%char :: _ => match read_word "true" l with Some rest => Some (JBool true, rest) | None => None end
      | "f"%char :: _ => match read_word "false" l with Some rest => Some (JBool false, rest) | None => None end
      | "034"%char :: l => match read_text l with Some (s, rest) => Some (JStr (list_str s), rest) | None => None end
      | "["%char :: "]"%char :: rest => Some (JArr [], rest)
      | "["%char :: l => match read_elements fuel l with Some (js, rest) => Some (JArr js, rest) | None => None end
      | "{"%char :: "}"%char :: rest => Some (JObj [], rest)
      | "{"%char :: l => match read_members fuel l with Some (ms, rest) => Some (JObj ms, rest) | None => None end
      | _ => match read_number l with Some (n, rest) => Some (JNum n, rest) | None => None end
      end
  end
with read_elements (fuel : nat) (l : list ascii) : option (list Json * list ascii) :=
  match fuel with
  | O => None
  | S fuel =>
      match read_value fuel l with
      | Some (j, "]"%char :: rest) => Some ([j], rest)
      | Some (j, ","%char :: rest) =>
          match read_elements fuel rest with Some (js, rest) => Some (j :: js, rest) | None => None end
      | _ => None
      end
  end
with read_members (fuel : nat) (l : list ascii) : option (list (string * Json) * list ascii) :=
  match fuel with
  | O => None
  | S fuel =>
      match l with
      | "034"%char :: l =>
          match read_text l with
          | Some (k, ":"%char :: rest) =>
              match read_value fuel rest with
              | Some (j, "}"%char :: rest) => Some ([(list_str k, j)], rest)
              | Some (j, ","%char :: rest) =>
                  match read_members fuel rest with
                  | Some (ms, rest) => Some ((list_str k, j) :: ms, rest)
                  | None => None
                  end
              | _ => None
              end
          | _ => None
          end
      | _ => None
      end
  end.

Definition json_parse (text : string) : option Json :=
  match read_value (S (String.length text)) (str_list text) with Some (j, []) => Some j | _ => None end.

(** ** What is written is read back *)

Lemma Json_rect' (Q : Json -> Prop) :
  Q JNull -> (forall b, Q (JBool b)) -> (forall n, Q (JNum n)) -> (forall s, Q (JStr s)) ->
  (forall l, Forall Q l -> Q (JArr l)) -> (forall m, Forall (fun kv => Q kv.2) m -> Q (JObj m)) ->
  forall j, Q j.
Proof.
  intros Hnull Hbool Hnum Hstr Harr Hobj. fix IH 1. intros [| | | |l|m]; [done|apply Hbool|apply Hnum|apply Hstr| |].
  - apply Harr. induction l as [|j l IHl]; constructor; [apply IH|apply IHl].
  - apply Hobj. induction m as [|[k j] m IHm]; constructor; [apply IH|apply IHm].
Qed.

Definition escape_read (c : ascii) : bool :=
  match escaped c with
  | [x] => Ascii.eqb x c && negb (Ascii.eqb c (chr 34)) && negb (Ascii.eqb c (chr 92)) && (32 <=? code c)
  | [b; e] => Ascii.eqb b (chr 92) && negb (Ascii.eqb e "u") && bool_decide (plain_escape e = Some (code c))
  | [b; u; z; z'; h; g] => Ascii.eqb b (chr 92) && Ascii.eqb u "u" && bool_decide (read_unicode z z' h g = Some (code c))
  | _ => false
  end.

Lemma escapes_read c : escape_read c = true.
Proof. revert c. apply forall_chars. vm_compute. reflexivity. Qed.

Lemma read_text_escaped c l s rest :
  read_text l = Some (s, rest) -> read_text (escaped c ++ l)%list = Some (c :: s, rest).
Proof.
  intros H. pose proof (escapes_read c) as Hc. unfold escape_read in Hc.
  destruct (escaped c) as [|x [|e [|z [|z' [|h [|g [|? ?]]]]]]]; try done; rewrite !andb_true_iff in Hc.
  - destruct Hc as [[[->%Ascii.eqb_eq Hq%negb_true_iff] Hb%negb_true_iff] Hl%Z.leb_le].
    cbn [read_text app]. rewrite Hq, Hb, (proj2 (Z.ltb_ge _ _) Hl), H. cbn [add_char]. by rewrite chr_code.
  - destruct Hc as [[->%Ascii.eqb_eq Hu%negb_true_iff] He%bool_decide_eq_true].
    cbn [read_text app]. change (Ascii.eqb (chr 92) (chr 34)) with false. rewrite Ascii.eqb_refl, Hu, H, He.
    cbn [add_char]. by rewrite chr_code.
  - destruct Hc as [[->%Ascii.eqb_eq ->%Ascii.eqb_eq] He%bool_decide_eq_true].
    cbn [read_text app]. change (Ascii.eqb (chr 92) (chr 34)) with false. rewrite !Ascii.eqb_refl, H, He.
    cbn [add_char]. by rewrite chr_code.
Qed.

Lemma read_text_quoted s rest : read_text (flat_map escaped s ++ "034"%char :: rest)%list = Some (s, rest).
Proof. induction s as [|c s IH]; [done|]. cbn [flat_map]. rewrite <- app_assoc. by apply read_text_escaped. Qed.

Lemma quoted_app s l : (quoted s ++ l)%list = ("034"%char :: flat_map escaped (str_list s) ++ "034"%char :: l)%list.
Proof. unfold quoted. cbn [app]. by rewrite <- app_assoc. Qed.

(** No digit follows: a number ends where the text goes on. *)
Definition ends (rest : list ascii) : Prop := match rest with c :: _ => is_digit c = false | [] => True end.

Lemma span_digits d rest : forallb is_digit d = true -> ends rest -> span is_digit (d ++ rest)%list = (d, rest).
Proof.
  intros Hd Hr. induction d as [|c d IH]; cbn in *.
  - destruct rest as [|c rest]; cbn in *; [done|]. by rewrite Hr.
  - apply andb_true_iff in Hd as [-> Hd]. by rewrite IH.
Qed.

(** The decimal digits of a number, which [String(n)] writes after its sign. *)
Lemma decimal_digits p : exists c d,
  str_list (String_of (Zpos p)) = c :: d /\ forallb is_digit (c :: d) = true /\ digits_value 0 (c :: d) = Some (Zpos p).
Proof.
  change (String_of (Zpos p)) with (pretty.pretty_N_go (Npos p) "").
  pose proof (digits_value_pretty_go (Npos p) "" eq_refl : _ = Some (Zpos p)) as H.
  destruct (str_list (pretty.pretty_N_go (Npos p) "")) as [|c d] eqn:E.
  - by cbn in H.
  - exists c, d. split; [done|]. split; [by apply digits_value_head in H|done].
Qed.

Lemma read_number_String_of n rest : ends rest -> read_number (str_list (String_of n) ++ rest)%list = Some (n, rest).
Proof.
  intros Hr. destruct n as [|p|p].
  - unfold read_number. cbn. destruct rest as [|c rest]; cbn in *; [done|]. by rewrite Hr.
  - destruct (decimal_digits p) as (c & d & -> & Hd & Hv). unfold read_number.
    assert (c <> "-"%char) as Hc by (intros ->; done).
    destruct ((c :: d) ++ rest)%list as [|c' l] eqn:E; [done|]. injection E as <- <-.
    replace (match c with "-"%char => _ | _ => _ end) with (false, c :: d ++ rest)%list by (by destruct c as [[] [] [] [] [] [] [] []]).
    change (c :: d ++ rest)%list with ((c :: d) ++ rest)%list. rewrite span_digits by done. by rewrite Hv.
  - destruct (decimal_digits p) as (c & d & E & Hd & Hv). unfold read_number.
    change (str_list (String_of (Zneg p))) with ("-"%char :: str_list (String_of (Zpos p))). cbn [app]. rewrite E.
    rewrite span_digits by done. by rewrite Hv.
Qed.

(** The calls the reader makes to read a value. *)
Fixpoint size (j : Json) : nat :=
  match j with
  | JArr l => 1 + list_sum (map (fun j => 1 + size j) l)
  | JObj m => 1 + list_sum (map (fun '(_, j) => 1 + size j) m)
  | _ => 1
  end%nat.

Lemma number_starts n : exists c l, str_list (String_of n) = c :: l /\ (c = "-"%char \/ is_digit c = true).
Proof.
  destruct n as [|p|p].
  - exists "0"%char, []. split; [done|by right].
  - destruct (decimal_digits p) as (c & d & -> & [Hc _]%andb_true_iff & _). eauto.
  - eexists "-"%char, _. split; [reflexivity|by left].
Qed.

(** A number is told from every other value by its first character. *)
Lemma read_value_number fuel n rest :
  ends rest -> read_value (S fuel) (str_list (String_of n) ++ rest)%list = Some (JNum n, rest).
Proof.
  intros Hr. pose proof (read_number_String_of n rest Hr) as H. destruct (number_starts n) as (c & l & E & Hc).
  rewrite E in *. cbn [app] in *. cbn [read_value].
  destruct Hc as [->|Hc]; [by rewrite H|].
  destruct c as [[] [] [] [] [] [] [] []]; try discriminate Hc; by rewrite H.
Qed.

Lemma render_starts j : exists c l, render j = c :: l /\ c <> "]"%char.
Proof.
  destruct j as [|[]|n|s|l|m]; try (eexists _, _; split; [reflexivity|done]).
  destruct (number_starts n) as (c & l & E & Hc). exists c, l. split; [done|]. intros ->. by destruct Hc.
Qed.

Definition reads (j : Json) : Prop := forall fuel rest,
  (size j <= fuel)%nat -> ends rest -> read_value fuel (render j ++ rest)%list = Some (j, rest).

Lemma separated_cons p q ps : separated (p :: q :: ps) = (p ++ ","%char :: separated (q :: ps))%list.
Proof. done. Qed.

Lemma reads_elements l fuel rest :
  Forall reads l -> l <> [] -> (list_sum (map (fun j => 1 + size j) l) <= fuel)%nat ->
  read_elements fuel ((separated (map render l) ++ ["]"%char]) ++ rest)%list = Some (l, rest).
Proof.
  intros Hl. revert fuel. induction Hl as [|j l Hj Hl IH]; [done|]. intros fuel _ Hf. cbn in Hf.
  destruct fuel as [|fuel]; [lia|]. cbn [read_elements]. destruct l as [|j' l].
  - cbn [map separated]. rewrite <- app_assoc. by rewrite Hj by (cbn in *; lia || done).
  - change (map render (j :: j' :: l)) with (render j :: map render (j' :: l)). cbn [map]. rewrite separated_cons.
    rewrite <- !app_assoc. rewrite Hj by (lia || done). cbn [app].
    specialize (IH fuel). rewrite <- app_assoc in IH. cbn [map app] in IH. by rewrite IH by (done || (cbn in *; lia)).
Qed.

Lemma reads_members m fuel rest :
  Forall (fun kv => reads kv.2) m -> m <> [] -> (list_sum (map (fun '(_, j) => 1 + size j) m) <= fuel)%nat ->
  read_members fuel ((separated (map (fun '(k, v) => quoted k ++ ":"%char :: render v) m) ++ ["}"%char]) ++ rest)%list = Some (m, rest).
Proof.
  intros Hm. revert fuel. induction Hm as [|[k j] m Hj Hm IH]; [done|]. intros fuel _ Hf. cbn in Hf, Hj.
  destruct fuel as [|fuel]; [lia|]. destruct m as [|[k' j'] m].
  - cbn [map separated]. rewrite <- !app_assoc, quoted_app. cbn [app read_members]. rewrite read_text_quoted.
    rewrite Hj by (cbn in *; lia || done). by rewrite list_str_list.
  - cbn [map]. rewrite separated_cons, <- !app_assoc, quoted_app. cbn [app read_members]. rewrite read_text_quoted.
    rewrite Hj by (lia || done). cbn [app].
    specialize (IH fuel). rewrite <- app_assoc in IH. cbn [map app] in IH. rewrite IH by (done || (cbn in *; lia)).
    by rewrite list_str_list.
Qed.

Lemma render_reads j : reads j.
Proof.
  induction j as [| |n|s|l IH|m IH] using Json_rect'; intros [|fuel] rest Hf Hr; try (cbn in Hf; lia).
  - done.
  - by destruct b.
  - by apply read_value_number.
  - cbn [render]. rewrite quoted_app. cbn [read_value]. by rewrite read_text_quoted, list_str_list.
  - destruct l as [|j l]; [done|]. pose proof (reads_elements (j :: l) fuel rest IH) as H.
    cbn [render]. change (map render (j :: l)) with (render j :: map render l) in *.
    destruct (render_starts j) as (c & t & E & Hc).
    assert (exists t', separated (render j :: map render l) = c :: t') as [t' Ht].
    { rewrite E. destruct l; cbn; eauto. }
    rewrite Ht in *. cbn [app read_value] in *. rewrite H by (done || (cbn in *; lia)).
    by destruct c as [[] [] [] [] [] [] [] []].
  - destruct m as [|[k j] m]; [done|]. pose proof (reads_members ((k, j) :: m) fuel rest IH) as H.
    cbn [render]. cbn [map] in *.
    assert (exists t', separated ((quoted k ++ ":"%char :: render j)%list ::
      map (fun '(k, v) => (quoted k ++ ":"%char :: render v)%list) m) = "034"%char :: t') as [t' Ht].
    { rewrite quoted_app. destruct m; cbn [map separated app]; eauto. }
    rewrite Ht in *. cbn [app read_value] in *. by rewrite H by (done || (cbn in *; lia)).
Qed.

Lemma size_render j : (size j <= List.length (render j))%nat.
Proof.
  assert (forall ps, 1 + list_sum (map (fun p => 1 + List.length p) ps) <= 2 + List.length (separated ps))%nat as Hsep.
  { intros ps. induction ps as [|p [|q ps] IH]; [cbn; lia|cbn; lia|]. rewrite separated_cons, length_app. cbn in *. lia. }
  induction j as [| |n|s|l IH|m IH] using Json_rect'; cbn [size render]; try (cbn; lia).
  - destruct b; cbn; lia.
  - destruct (number_starts n) as (c & l & -> & _). cbn. lia.
  - specialize (Hsep (map render l)). cbn [List.length]. rewrite length_app. cbn [List.length].
    assert (list_sum (map (fun j => 1 + size j) l) <= list_sum (map (fun p => 1 + List.length p) (map render l)))%nat; [|lia].
    clear Hsep. induction IH as [|j l Hj _ IHl]; cbn in *; unfold list_sum in *; lia.
  - specialize (Hsep (map (fun '(k, v) => quoted k ++ ":"%char :: render v)%list m)). cbn [List.length]. rewrite length_app. cbn [List.length].
    assert (list_sum (map (fun '(_, j) => 1 + size j) m) <=
      list_sum (map (fun p => 1 + List.length p) (map (fun '(k, v) => quoted k ++ ":"%char :: render v)%list m)))%nat; [|lia].
    clear Hsep. induction IH as [|[k j] m Hj _ IHm]; cbn in *; [lia|]. rewrite !length_app. cbn. unfold list_sum in *. lia.
Qed.

(** The reader gets back what was written. *)
Theorem json_roundtrip j : json_parse (list_str (render j)) = Some j.
Proof.
  unfold json_parse. rewrite <- str_list_length, str_list_str.
  rewrite <- (app_nil_r (render j)) at 2. by rewrite (render_reads j) by (pose proof (size_render j); lia || done).
Qed.

(** Nothing below a space is written: no line break, no tabulator, no escape sequence of a terminal. *)
Definition printable (l : list ascii) : Prop := Forall (fun c => 32 <= code c) l.

Lemma escaped_printable c : printable (escaped c).
Proof.
  assert (forallb (fun x => 32 <=? code x) (escaped c) = true) as H.
  { revert c. apply forall_chars. vm_compute. reflexivity. }
  apply Forall_forall. intros x Hx. rewrite forallb_forall in H. apply Z.leb_le, H. by apply list_elem_of_In.
Qed.

Lemma quoted_printable s : printable (quoted s).
Proof.
  unfold quoted, printable. constructor; [done|]. apply Forall_app. split; [|by repeat constructor].
  induction (str_list s) as [|c l IH]; cbn; [constructor|]. apply Forall_app. split; [apply escaped_printable|done].
Qed.

Lemma separated_printable ps : Forall printable ps -> printable (separated ps).
Proof.
  induction 1 as [|p ps Hp Hps IH]; [constructor|]. destruct ps as [|q ps]; [done|]. rewrite separated_cons.
  apply Forall_app. split; [done|]. by constructor.
Qed.

Lemma digits_printable d : forallb is_digit d = true -> printable d.
Proof.
  intros H. apply Forall_forall. intros c Hc%list_elem_of_In. rewrite forallb_forall in H. specialize (H c Hc).
  unfold is_digit in H. apply andb_true_iff in H as [H%Z.leb_le _]. lia.
Qed.

Lemma render_printable j : printable (render j).
Proof.
  induction j as [| |n|s|l IH|m IH] using Json_rect'; cbn [render].
  - by repeat constructor.
  - by destruct b; repeat constructor.
  - destruct n as [|p|p]; [by repeat constructor| |].
    + destruct (decimal_digits p) as (c & d & -> & Hd & _). by apply digits_printable.
    + destruct (decimal_digits p) as (c & d & E & Hd & _).
      change (str_list (String_of (Zneg p))) with ("-"%char :: str_list (String_of (Zpos p))). rewrite E.
      constructor; [done|by apply digits_printable].
  - apply quoted_printable.
  - constructor; [done|]. apply Forall_app. split; [|by repeat constructor]. apply separated_printable.
    by apply Forall_map.
  - constructor; [done|]. apply Forall_app. split; [|by repeat constructor]. apply separated_printable.
    apply Forall_map. eapply Forall_impl; [exact IH|]. intros [k j] Hj.
    apply Forall_app. split; [apply quoted_printable|by constructor].
Qed.
