(* ===== verification/Logging.v ===== *)
(** * The log

    Models src/src/infrastructure/observability/json_logger.ts (the logger), log_levels.ts (which
    levels LOG_LEVEL names), request_id_middleware.ts and request_id_interceptor.ts (the line written
    for each request). Nest's [Logger] hands an event to the logger with its own name as the last
    parameter.

    Main result: a log line cannot be forged. Whatever a request puts into a message or a field, an
    event is one line of JSON, whose time, level, logger and request id are those of the logger, and which
    has all members of the event's record unless one holds a value that JSON cannot write. *)

From S2P Require Import Prelude JsString Dates Domain Keys Json.
From Stdlib Require Import Ascii String.
Local Open Scope string_scope.
Local Open Scope Z_scope.

(** ** Levels *)

Inductive LogLevel := Lverbose | Ldebug | Llog | Lwarn | Lerror | Lfatal.
#[export] Instance LogLevel_eq_dec : EqDecision LogLevel.
Proof. solve_decision. Defined.

Definition LEVELS : list (string * list LogLevel) := [
  ("error", [Lerror; Lfatal]);
  ("warn", [Lwarn; Lerror; Lfatal]);
  ("warning", [Lwarn; Lerror; Lfatal]);
  ("info", [Llog; Lwarn; Lerror; Lfatal]);
  ("log", [Llog; Lwarn; Lerror; Lfatal]);
  ("debug", [Ldebug; Llog; Lwarn; Lerror; Lfatal]);
  ("verbose", [Lverbose; Ldebug; Llog; Lwarn; Lerror; Lfatal]);
  ("trace", [Lverbose; Ldebug; Llog; Lwarn; Lerror; Lfatal])
].

(** [LEVELS.info]. *)
Definition DEFAULT_LEVELS : list LogLevel := [Llog; Lwarn; Lerror; Lfatal].

(** What indexing [LEVELS] gives: a member, or what an object inherits under that name. *)
Inductive Indexed := OwnLevels (levels : list LogLevel) | InheritedMember (key : string).

(** The members every object inherits whose names are in lower case. *)
Definition INHERITED : list string := ["constructor"; "__proto__"].

Definition level_at (key : string) : option Indexed :=
  match map_get key LEVELS with
  | Some levels => Some (OwnLevels levels)
  | None => if bool_decide (key ∈ INHERITED) then Some (InheritedMember key) else None
  end.

Definition logLevelsFrom (value : option string) : res exn Indexed :=
  match value with
  | None => Ok (OwnLevels DEFAULT_LEVELS)
  | Some text =>
      if String.eqb (trim text) "" then Ok (OwnLevels DEFAULT_LEVELS)
      else match level_at (toLowerCase (trim text)) with
           | None => Err (PlainError ("LOG_LEVEL is " ++ String (chr 34) text ++ String (chr 34)
                       ", which is not a level. Use one of: " ++ join ", " (map fst LEVELS) ++ "."))
           | Some levels => Ok levels
           end
  end.

(** ** The logger *)

Record JsonLogger := mkJsonLogger { logger_levels : list LogLevel }.

(** [new Set(levels)], which throws on what is no collection. *)
Definition newJsonLogger (levels : Indexed) : res exn JsonLogger :=
  match levels with
  | OwnLevels levels => Ok (mkJsonLogger levels)
  | InheritedMember key => Err (PlainError ("the member " ++ key ++ " of an object is not iterable"))
  end.

Definition setLogLevels (levels : list LogLevel) (logger : JsonLogger) : JsonLogger := mkJsonLogger levels.

Definition SEVERITY (level : LogLevel) : string :=
  match level with
  | Lverbose => "trace" | Ldebug => "debug" | Llog => "info" | Lwarn => "warn" | Lerror => "error" | Lfatal => "fatal"
  end.

Definition RESERVED : list string := ["timestamp"; "level"; "message"; "logger"; "request_id"; "stack"; "details"].

Definition CARRIES_STACK (level : LogLevel) : bool := bool_decide (level ∈ [Lerror; Lfatal]).

Definition UNNAMED_LOGGER : string := "application".

(** The type [LogEvent]; what is not given is [undefined]. *)
Record LogEvent := mkLogEvent { ev_message : string; ev_requestId : JsValue; ev_fields : JsValue }.

(** [String(value)]. *)
Fixpoint string_of (v : JsValue) : string :=
  match v with
  | JsUndefined => "undefined"
  | JsNull => "null"
  | JsBoolean b => if b then "true" else "false"
  | JsInteger n | JsBigInt n => String_of n
  | JsString s => s
  | JsArray l => join "," (map (fun v => match v with JsUndefined | JsNull => "" | _ => string_of v end) l)
  | JsObject _ => "[object Object]"
  | JsErrorValue name message _ =>
      if String.eqb message "" then name else if String.eqb name "" then message else name ++ ": " ++ message
  end.

Definition textOf (v : JsValue) : string :=
  match stringify v with
  | Ok (Some text) => text
  | Ok None | Err _ => string_of v
  end.

(** A member of an object, [undefined] where it has none. *)
Definition member (key : string) (members : list (string * JsValue)) : JsValue := default JsUndefined (map_get key members).

(** An object whose member [message] is a string. *)
Definition isLogEvent (v : JsValue) : bool :=
  match v with
  | JsObject members => match member "message" members with JsString _ => true | _ => false end
  | _ => false
  end.

Definition eventOf (message : JsValue) : LogEvent :=
  match message with
  | JsString text => mkLogEvent text JsUndefined JsUndefined
  | JsErrorValue name text _ => mkLogEvent text JsUndefined (JsObject [("error", JsString name)])
  | _ =>
      match message with
      | JsObject members =>
          if isLogEvent message
          then mkLogEvent (string_of (member "message" members)) (member "requestId" members) (member "fields" members)
          else mkLogEvent (textOf message) JsUndefined JsUndefined
      | _ => mkLogEvent (textOf message) JsUndefined JsUndefined
      end
  end.

Definition remainder_part (param : JsValue) : list string :=
  match param with
  | JsErrorValue name message stack => [default (name ++ ": " ++ message) stack]
  | JsString s => if String.eqb s "" then [] else [s]
  | _ => []
  end.

Definition remainderOf (params : list JsValue) : option string :=
  match flat_map remainder_part params with
  | [] => None
  | parts => Some (join (String (chr 10) "") parts)
  end.

(** *** Objects *)

(** The number a key stands for when it is the index of an array element; such members come first in
    an object, in the order of their numbers, and the others as they were added. *)
Definition index_of (key : string) : option Z :=
  match digits_value 0 (str_list key) with
  | Some n => if String.eqb (String_of n) key && (n <? 4294967295) then Some n else None
  | None => None
  end.

Definition precedes (k k' : string) : bool :=
  match index_of k, index_of k' with
  | Some n, Some n' => n <? n'
  | Some _, None => true
  | None, _ => false
  end.

Fixpoint place (k : string) (v : JsValue) (members : list (string * JsValue)) : list (string * JsValue) :=
  match members with
  | [] => [(k, v)]
  | (k', v') :: rest => if precedes k k' then (k, v) :: members else (k', v') :: place k v rest
  end.

(** [record[key] = value]. Assigning to [__proto__] sets the prototype, and adds no member. *)
Definition assign (k : string) (v : JsValue) (members : list (string * JsValue)) : list (string * JsValue) :=
  if String.eqb k "__proto__" then members
  else if bool_decide (k ∈ map fst members) then map_set k v members
  else place k v members.

Fixpoint numbered (n : Z) (l : list JsValue) : list (string * JsValue) :=
  match l with [] => [] | v :: l => (String_of n, v) :: numbered (n + 1) l end.

(** [Object.entries(value ?? {})]. *)
Definition own_entries (v : JsValue) : list (string * JsValue) :=
  match v with
  | JsObject members => members
  | JsArray l => numbered 0 l
  | JsString s => numbered 0 (map (fun c => JsString (list_str [c])) (str_list s))
  | _ => []
  end.

(** *** A record and its line *)

Definition nullish (v : JsValue) : JsValue := match v with JsUndefined => JsNull | _ => v end.

(** [params] without its last element, when that is a string, and that string. *)
Definition split_context (params : list JsValue) : list JsValue * option string :=
  match last params with
  | Some (JsString context) => (removelast params, Some context)
  | _ => (params, None)
  end.

Definition field_key (key : string) : string := if bool_decide (key ∈ RESERVED) then "field_" ++ key else key.

Definition record_of (now : Z) (level : LogLevel) (message : JsValue) (optionalParams : list JsValue) : list (string * JsValue) :=
  let '(params, context) := split_context optionalParams in
  let event := eventOf message in
  let record := [
    ("timestamp", JsString (toISOString now));
    ("level", JsString (SEVERITY level));
    ("message", JsString (ev_message event));
    ("logger", JsString (default UNNAMED_LOGGER context));
    ("request_id", nullish (ev_requestId event))] in
  let record := fold_left (fun record '(key, value) => assign (field_key key) value record) (own_entries (ev_fields event)) record in
  match remainderOf params with
  | Some remainder => assign (if CARRIES_STACK level then "stack" else "details") (JsString remainder) record
  | None => record
  end.

Definition newline : string := String (chr 10) "".

(** [`${JSON.stringify(record)}\n`], and the fallback, whose own [TypeError] is thrown. *)
Definition line_text (record : list (string * JsValue)) : res unit string :=
  res_bind (stringify (JsObject record)) (fun text => Ok (default "undefined" text ++ newline)).

Definition lineOf (record : list (string * JsValue)) : res unit string :=
  match line_text record with
  | Ok line => Ok line
  | Err _ =>
      line_text [
        ("timestamp", member "timestamp" record);
        ("level", member "level" record);
        ("message", JsString "a log record could not be serialised as JSON");
        ("logger", member "logger" record);
        ("request_id", nullish (member "request_id" record))]
  end.

(** What is written to the standard output. *)
Definition emit (logger : JsonLogger) (now : Z) (level : LogLevel) (message : JsValue) (optionalParams : list JsValue) :
    res unit (list string) :=
  if negb (bool_decide (level ∈ logger_levels logger)) then Ok []
  else res_bind (lineOf (record_of now level message optionalParams)) (fun line => Ok [line]).

Definition logger_log (logger : JsonLogger) (now : Z) := emit logger now Llog.
Definition logger_warn (logger : JsonLogger) (now : Z) := emit logger now Lwarn.
Definition logger_error (logger : JsonLogger) (now : Z) := emit logger now Lerror.
Definition logger_fatal (logger : JsonLogger) (now : Z) := emit logger now Lfatal.
Definition logger_debug (logger : JsonLogger) (now : Z) := emit logger now Ldebug.
Definition logger_verbose (logger : JsonLogger) (now : Z) := emit logger now Lverbose.

(** ** The line of a request *)

Definition event_value (message : string) (requestId : JsValue) (fields : list (string * JsValue)) : JsValue :=
  JsObject [("message", JsString message); ("requestId", requestId); ("fields", JsObject fields)].

(** A header, of which Node keeps one value or all of them. *)
Inductive HeaderValue := OneHeader (value : string) | ManyHeaders (values : list string).

Definition header_id (header : option HeaderValue) : option string :=
  match header with
  | Some (ManyHeaders values) => head values
  | Some (OneHeader value) => Some value
  | None => None
  end.

(** The header set on the response, and what is logged. *)
Definition requestIdMiddleware (logger : JsonLogger) (now : Z) (method url : option string) (header : option HeaderValue) :
    list (string * string) * res unit (list string) :=
  let requestId := header_id header in
  let headers := match requestId with
                 | Some id => if 0 <? str_length id then [("X-Request-Id", id)] else []
                 | None => []
                 end in
  (headers,
   logger_log logger now
     (event_value (default "undefined" method ++ " " ++ default "undefined" url)
        (match requestId with Some id => JsString id | None => JsUndefined end)
        [("method", JsString (default "" method)); ("path", JsString (default "" url))])
     [JsString "RequestId"]).

(** A value of gRPC metadata: text, or the bytes of a binary key. *)
Inductive MetadataValue := MetadataText (s : string) | MetadataBytes (l : list Z).

Definition requestIdOf (metadata : string -> list MetadataValue) : option string :=
  match head (metadata "x-request-id") with
  | Some (MetadataText value) => if 0 <? str_length value then Some value else None
  | _ => None
  end.

(** What [onReceiveMetadata] logs of a call before it forwards the metadata. *)
Definition requestIdInterceptor (logger : JsonLogger) (now : Z) (method : string) (metadata : string -> list MetadataValue) :
    res unit (list string) :=
  logger_log logger now
    (event_value ("gRPC " ++ method) (match requestIdOf metadata with Some id => JsString id | None => JsNull end)
       [("grpc_method", JsString method)])
    [JsString "RequestId"].

(** ** Facts about records *)

Lemma map_get_place k k' v m :
  k' ∉ map fst m -> map_get k (place k' v m) = if decide (k' = k) then Some v else map_get k m.
Proof.
  induction m as [|[k1 v1] m IH]; cbn; [done|]. intros [Hk Hm]%not_elem_of_cons.
  destruct (precedes k' k1); [done|]. cbn. rewrite (IH Hm). repeat case_decide; congruence.
Qed.

Lemma place_keys k v m : Permutation (map fst (place k v m)) (k :: map fst m).
Proof.
  induction m as [|[k1 v1] m IH]; [done|]. cbn. destruct (precedes k k1); [done|]. cbn. rewrite IH. constructor.
Qed.

Lemma map_get_assign k k' v m : k' <> k -> map_get k (assign k' v m) = map_get k m.
Proof.
  intros Hk. unfold assign. destruct (String.eqb _ _); [done|]. case_bool_decide as Hin.
  - rewrite map_get_set. by case_decide.
  - rewrite map_get_place by done. by case_decide.
Qed.

Lemma assign_keys k v m : NoDup (map fst m) -> NoDup (map fst (assign k v m)).
Proof.
  intros Hm. unfold assign. destruct (String.eqb _ _); [done|]. case_bool_decide as Hin.
  - by apply map_set_keys.
  - rewrite place_keys. by constructor.
Qed.

Lemma field_key_free key : field_key key ∉ RESERVED.
Proof.
  unfold field_key. case_bool_decide as H; [|done]. intros H'. unfold RESERVED in H'.
  repeat (apply elem_of_cons in H' as [H'|H']; [discriminate H'|]). by apply elem_of_nil in H'.
Qed.

Lemma map_get_assigned k v m : k <> "__proto__" -> map_get (field_key k) (assign (field_key k) v m) = Some v.
Proof.
  intros Hp. unfold assign. destruct (String.eqb_spec (field_key k) "__proto__") as [E|_].
  - unfold field_key in E. case_bool_decide; [discriminate E|done].
  - case_bool_decide as Hin; [rewrite map_get_set|rewrite map_get_place by done]; by case_decide.
Qed.

(** A record keeps its first members, whatever fields come after them. *)
Lemma fields_keep k (m : list (string * JsValue)) record :
  k ∈ RESERVED ->
  map_get k (fold_left (fun record '(key, value) => assign (field_key key) value record) m record) = map_get k record.
Proof.
  intros Hk. revert record. induction m as [|[key v] m IH]; intros record; [done|]. cbn. rewrite IH.
  apply map_get_assign. intros E. apply (field_key_free key). by rewrite E.
Qed.

Lemma fields_keys (m : list (string * JsValue)) record :
  NoDup (map fst record) ->
  NoDup (map fst (fold_left (fun record '(key, value) => assign (field_key key) value record) m record)).
Proof.
  revert record. induction m as [|[key v] m IH]; intros record H; [done|]. cbn. by apply IH, assign_keys.
Qed.

Definition HEADING : list string := ["timestamp"; "level"; "message"; "logger"; "request_id"].

(** The name of the logger that an event was given to. *)
Definition context_of (params : list JsValue) : string := default UNNAMED_LOGGER (split_context params).2.

Definition heading (now : Z) (level : LogLevel) (message : JsValue) (params : list JsValue) : list (string * JsValue) := [
  ("timestamp", JsString (toISOString now));
  ("level", JsString (SEVERITY level));
  ("message", JsString (ev_message (eventOf message)));
  ("logger", JsString (context_of params));
  ("request_id", nullish (ev_requestId (eventOf message)))].

Lemma record_heading now level message params k :
  k ∈ HEADING -> map_get k (record_of now level message params) = map_get k (heading now level message params).
Proof.
  intros Hk. unfold record_of, heading, context_of. destruct (split_context params) as [rest context]. cbn [snd].
  assert (k ∈ RESERVED) as Hr.
  { unfold HEADING, RESERVED in *. set_solver. }
  destruct (remainderOf rest) as [text|]; [|by apply fields_keep].
  rewrite map_get_assign; [by apply fields_keep|]. intros <-. revert Hk.
  change ((if CARRIES_STACK level then "stack" else "details") ∉ HEADING).
  destruct (CARRIES_STACK level); apply (bool_decide_unpack _); vm_compute; exact I.
Qed.

Lemma record_keys now level message params : NoDup (map fst (record_of now level message params)).
Proof.
  unfold record_of. destruct (split_context params) as [rest context].
  assert (forall m : list (string * JsValue), map fst m = HEADING -> NoDup (map fst m)) as Hh
    by (intros m ->; apply (bool_decide_unpack _); vm_compute; exact I).
  destruct (remainderOf rest); [apply assign_keys|]; apply fields_keys, Hh; done.
Qed.

(** *** The text of a record *)

Fixpoint members_json (m : list (string * JsValue)) : res unit (list (string * Json)) :=
  match m with
  | [] => Ok []
  | (k, v) :: m =>
      res_bind (json_of v) (fun j => res_bind (members_json m) (fun js =>
        Ok (match j with Some j => (k, j) :: js | None => js end)))
  end.

Lemma json_of_object m : json_of (JsObject m) = res_bind (members_json m) (fun js => Ok (Some (JObj js))).
Proof. reflexivity. Qed.

Lemma members_json_get m js k v j :
  members_json m = Ok js -> map_get k m = Some v -> json_of v = Ok (Some j) -> map_get k js = Some j.
Proof.
  revert js. induction m as [|[k1 v1] m IH]; intros js; cbn; [done|].
  destruct (json_of v1) as [j1|] eqn:E1; cbn; [|done]. destruct (members_json m) as [js1|] eqn:Em; cbn; [|done].
  intros [= <-]. case_decide as Hk.
  - intros [= ->] Hj. rewrite E1 in Hj. injection Hj as ->. cbn. by case_decide.
  - intros Hv Hj. specialize (IH _ eq_refl Hv Hj). destruct j1; cbn; [by case_decide|done].
Qed.

Lemma members_json_keys m js : members_json m = Ok js -> NoDup (map fst m) -> NoDup (map fst js) /\ map fst js ⊆ map fst m.
Proof.
  revert js. induction m as [|[k v] m IH]; intros js; cbn; [intros [= <-]; done|].
  destruct (json_of v) as [j|]; cbn; [|done]. destruct (members_json m) as [js1|]; cbn; [|done].
  intros [= <-] [Hk Hm]%NoDup_cons. destruct (IH _ eq_refl Hm) as [Hn Hs].
  destruct j as [j|]; cbn; [|set_solver]. split; [constructor; set_solver|set_solver].
Qed.

(** A request id as the services hand it on: text, or none. *)
Definition id_value (v : JsValue) : bool := match v with JsString _ | JsNull | JsUndefined => true | _ => false end.

Definition id_json (v : JsValue) : Json := match v with JsString s => JStr s | _ => JNull end.

Lemma id_value_json v : id_value v = true -> json_of (nullish v) = Ok (Some (id_json v)).
Proof. by destruct v. Qed.

(** A line that was written is the text of a JSON object with the members of the record. *)
Lemma line_text_Ok record line :
  line_text record = Ok line ->
  exists js, members_json record = Ok js /\ line = list_str (render (JObj js)) ++ newline.
Proof.
  unfold line_text, stringify. rewrite json_of_object. destruct (members_json record) as [js|]; [|done].
  intros [= <-]. by exists js.
Qed.

Lemma line_text_Err record u : line_text record = Err u -> exists u', members_json record = Err u'.
Proof.
  unfold line_text, stringify. rewrite json_of_object. destruct (members_json record) as [js|]; [done|]. eauto.
Qed.

(** What a reader of the log finds in an object: its five first members, each once. *)
Definition headed (now : Z) (level : LogLevel) (text context : string) (request_id : Json) (js : list (string * Json)) : Prop :=
  NoDup (map fst js) /\
  map_get "timestamp" js = Some (JStr (toISOString now)) /\
  map_get "level" js = Some (JStr (SEVERITY level)) /\
  map_get "message" js = Some (JStr text) /\
  map_get "logger" js = Some (JStr context) /\
  map_get "request_id" js = Some request_id.

Lemma headed_json now level text context id record js :
  id_value id = true -> members_json record = Ok js -> NoDup (map fst record) ->
  Forall (fun '(k, v) => map_get k record = Some v) [("timestamp", JsString (toISOString now)); ("level", JsString (SEVERITY level));
    ("message", JsString text); ("logger", JsString context); ("request_id", nullish id)] ->
  headed now level text context (id_json id) js.
Proof.
  intros Hid Hm Hn H. rewrite !Forall_cons in H. destruct H as (H1 & H2 & H3 & H4 & H5 & _).
  split; [by apply (members_json_keys _ _ Hm)|].
  repeat split; (eapply members_json_get; [exact Hm|eassumption|]); try reflexivity. by apply id_value_json.
Qed.

(** What is logged in place of a record that JSON cannot write. *)
Definition unserialisable (now : Z) (level : LogLevel) (context : string) (id : JsValue) : list (string * JsValue) := [
  ("timestamp", JsString (toISOString now));
  ("level", JsString (SEVERITY level));
  ("message", JsString "a log record could not be serialised as JSON");
  ("logger", JsString context);
  ("request_id", nullish id)].

Lemma fallback_record now level message params record :
  (forall k, k ∈ HEADING -> map_get k record = map_get k (heading now level message params)) ->
  [("timestamp", member "timestamp" record); ("level", member "level" record);
   ("message", JsString "a log record could not be serialised as JSON");
   ("logger", member "logger" record); ("request_id", nullish (member "request_id" record))] =
  unserialisable now level (context_of params) (ev_requestId (eventOf message)).
Proof.
  intros Hr. unfold member, unserialisable. rewrite !Hr by (apply (bool_decide_unpack _); vm_compute; exact I).
  assert (forall v, nullish (nullish v) = nullish v) as Hn by (by intros []).
  by rewrite <- (Hn (ev_requestId (eventOf message))).
Qed.

Lemma unserialisable_line now level context id :
  id_value id = true ->
  exists js, members_json (unserialisable now level context id) = Ok js /\
    line_text (unserialisable now level context id) = Ok (list_str (render (JObj js)) ++ newline).
Proof.
  intros Hid. unfold line_text, stringify. rewrite json_of_object.
  assert (exists js, members_json (unserialisable now level context id) = Ok js) as [js ->].
  { cbn -[toISOString nullish]. rewrite (id_value_json _ Hid). eauto. }
  by exists js.
Qed.

(** *** What JSON cannot write *)

(** A [BigInt] somewhere in a value: of the values here, which are trees, all that [JSON.stringify]
    throws on. *)
Fixpoint has_bigint (v : JsValue) : bool :=
  match v with
  | JsBigInt _ => true
  | JsArray l => existsb has_bigint l
  | JsObject m => existsb (fun '(_, v) => has_bigint v) m
  | _ => false
  end.

Lemma JsValue_nested_ind (Q : JsValue -> Prop) :
  (forall l, Forall Q l -> Q (JsArray l)) -> (forall m, Forall (fun '(_, v) => Q v) m -> Q (JsObject m)) ->
  (forall v, match v with JsArray _ | JsObject _ => True | _ => Q v end) -> forall v, Q v.
Proof.
  intros HA HO Hrest. fix IH 1. intros v. specialize (Hrest v). destruct v; try exact Hrest.
  - apply HA. induction elements; constructor; [apply IH|assumption].
  - apply HO. induction members as [|[k v] m IHm]; constructor; [apply IH|assumption].
Qed.

Lemma members_json_writable m :
  Forall (fun '(_, v) => is_ok (json_of v) = negb (has_bigint v)) m ->
  is_ok (members_json m) = negb (existsb (fun '(_, v) => has_bigint v) m).
Proof.
  induction 1 as [|[k v] m Hv _ IH]; [done|]. cbn [members_json existsb]. rewrite negb_orb, <- Hv, <- IH.
  destruct (json_of v); [|done]. cbn [res_bind is_ok andb]. by destruct (members_json m).
Qed.

Lemma json_of_writable v : is_ok (json_of v) = negb (has_bigint v).
Proof.
  apply (JsValue_nested_ind (fun v => is_ok (json_of v) = negb (has_bigint v))); clear v; [intros l Hl|intros m Hm|intros v].
  - cbn [json_of has_bigint].
    match goal with |- context [res_bind (?f l) _] => assert (is_ok (f l) = negb (existsb has_bigint l)) as H end.
    { induction Hl as [|v l Hv _ IH]; [done|]. cbn [existsb]. rewrite negb_orb, <- Hv, <- IH.
      destruct (json_of v); [|done]. cbn [res_bind is_ok andb]. by match goal with |- context [res_bind ?x _] => destruct x end. }
    rewrite <- H. by match goal with |- context [res_bind ?x _] => destruct x end.
  - rewrite json_of_object. cbn [has_bigint]. rewrite <- members_json_writable by done. by destruct (members_json m).
  - by destruct v.
Qed.

(** A record without a [BigInt] stays one when a value without one is assigned to it. *)
Abbreviation writable := (Forall (fun '(_, v) => has_bigint v = false)).

Lemma assign_writable k v m : has_bigint v = false -> writable m -> writable (assign k v m).
Proof.
  intros Hv Hm. unfold assign. destruct (String.eqb _ _); [done|]. case_bool_decide as Hin; clear Hin.
  - induction Hm as [|[k' v'] m Hv' Hm IH]; cbn; [by repeat constructor|]. case_decide; by constructor.
  - induction Hm as [|[k' v'] m Hv' Hm IH]; cbn; [by repeat constructor|]. destruct (precedes k k'); repeat (constructor; try done).
Qed.

Lemma record_writable now level message params :
  id_value (ev_requestId (eventOf message)) = true -> writable (own_entries (ev_fields (eventOf message))) ->
  has_bigint (JsObject (record_of now level message params)) = false.
Proof.
  intros Hid Hf. assert (writable (record_of now level message params)) as H.
  { unfold record_of. destruct (split_context params) as [rest context].
    assert (forall fields record, writable fields -> writable record ->
      writable (fold_left (fun record '(key, value) => assign (field_key key) value record) fields record)) as Hfold.
    { intros fields record Hfs. revert record. induction Hfs as [|[k v] fs Hv Hfs IH]; intros record Hr; [done|]. cbn.
      by apply IH, assign_writable. }
    destruct (remainderOf rest); [apply assign_writable; [done|]|]; apply Hfold; try done;
      repeat constructor; by destruct (ev_requestId (eventOf message)). }
  cbn [has_bigint]. induction H as [|[k v] m Hv _ IH]; [done|]. cbn. by rewrite Hv.
Qed.

Definition UNSERIALISABLE : string := "a log record could not be serialised as JSON".

(** C40: A log line cannot be forged. Whatever a caller puts into the message, the fields or the
    parameters of an event, whose request id is text or absent, an event of an enabled level is written
    as exactly one line: no character below a space but the line break at its end, and before it the
    text of one JSON object, in which every member occurs once and the time, the severity, the logger and
    the request id are those of the event. If no field holds a BigInt, the object is the record of the
    event with all its members, the event's own message among them. In general it is unless a member of
    the record holds a BigInt, which JSON cannot write, and exactly then the line carries a fixed message
    in place of the event's. (The values here are trees: one that contains itself is not among them.) An
    event of another level writes nothing. *)
Theorem log_lines_cannot_be_forged logger now level message params :
  let event := eventOf message in
  let record := JsObject (record_of now level message params) in
  id_value (ev_requestId event) = true ->
  (writable (own_entries (ev_fields event)) -> has_bigint record = false) /\
  exists lines, emit logger now level message params = Ok lines /\
    (level ∉ logger_levels logger -> lines = []) /\
    (level ∈ logger_levels logger -> exists text js,
       lines = [text ++ newline] /\ printable (str_list text) /\ json_parse text = Some (JObj js) /\
       headed now level (if has_bigint record then UNSERIALISABLE else ev_message event) (context_of params)
         (id_json (ev_requestId event)) js /\
       (has_bigint record = false -> json_of record = Ok (Some (JObj js)))).
Proof.
  intros event record Hid. split; [by apply record_writable|].
  pose proof (json_of_writable record) as Hw. unfold record in Hw |- *. clear record. rewrite json_of_object in Hw |- *.
  unfold emit. case_bool_decide as Hl; cbn [negb]; [|by exists []].
  set (record := record_of now level message params) in *.
  assert (forall k, k ∈ HEADING -> map_get k record = map_get k (heading now level message params)) as Hr
    by (intros k; apply record_heading).
  assert (forall js text, text = list_str (render (JObj js)) -> printable (str_list text) /\ json_parse text = Some (JObj js)) as Htext.
  { intros js text ->. split; [|apply json_roundtrip]. rewrite str_list_str. apply render_printable. }
  unfold lineOf. destruct (line_text record) as [line|] eqn:E; cbn [res_bind].
  - apply line_text_Ok in E as (js & Hm & ->). rewrite Hm in Hw |- *. cbn in Hw. apply eq_sym, negb_true_iff in Hw.
    eexists. split; [reflexivity|]. split; [done|]. intros _.
    eexists _, js. split; [reflexivity|]. split; [by eapply Htext|]. split; [by eapply Htext|]. cbn [has_bigint] in *. rewrite Hw.
    split; [|done]. apply (headed_json _ _ _ _ _ record); [done|done|apply record_keys|].
    repeat constructor; rewrite Hr by (apply (bool_decide_unpack _); vm_compute; exact I); reflexivity.
  - apply line_text_Err in E as [u E]. rewrite E in Hw |- *. cbn in Hw. apply eq_sym, negb_false_iff in Hw. cbn [has_bigint] in *. rewrite Hw.
    rewrite (fallback_record _ _ _ _ record Hr).
    destruct (unserialisable_line now level (context_of params) _ Hid) as (js & Hm & Hl'). fold event. rewrite Hl'.
    eexists. split; [reflexivity|]. split; [done|]. intros _.
    eexists _, js. split; [reflexivity|]. split; [by eapply Htext|]. split; [by eapply Htext|]. split; [|done].
    apply (headed_json _ _ _ _ _ _ _ Hid Hm); [|by repeat constructor].
    change (NoDup HEADING). apply (bool_decide_unpack _). vm_compute. exact I.
Qed.

(** A field is found in the record under its name, or with [field_] before it when the name is one of
    the logger's, unless another field is given the same name. *)
Lemma record_field now level message params fields k v :
  ev_fields (eventOf message) = JsObject fields -> map_get k fields = Some v -> NoDup (map fst fields) ->
  k <> "__proto__" -> (forall k', k' ∈ map fst fields -> field_key k' = field_key k -> k' = k) ->
  map_get (field_key k) (record_of now level message params) = Some v.
Proof.
  intros Hf Hk Hn Hp Hone. unfold record_of. destruct (split_context params) as [rest context]. rewrite Hf. cbn [own_entries].
  set (base := [_; _; _; _; _]). clearbody base.
  assert (map_get (field_key k) (fold_left (fun record '(key, value) => assign (field_key key) value record) fields base) = Some v) as H.
  { clear Hf. revert base. induction fields as [|[k1 v1] fields IH]; intros base; [done|]. cbn [fold_left].
    apply NoDup_cons in Hn as [Hk1 Hn]. cbn in Hk. case_decide as E.
    - subst k1. injection Hk as ->. clear IH.
      assert (forall m b, (forall k', k' ∈ map fst m -> field_key k' <> field_key k) -> map_get (field_key k) b = Some v ->
        map_get (field_key k) (fold_left (fun record '(key, value) => assign (field_key key) value record) m b) = Some v) as Hrest.
      { intros m. induction m as [|[k2 v2] m IHm]; intros b Hm Hb; [done|]. cbn [fold_left]. apply IHm; [set_solver|].
        rewrite map_get_assign; [done|]. apply Hm. set_solver. }
      apply Hrest; [|by apply map_get_assigned].
      intros k' Hk' E. apply Hk1. rewrite <- (Hone k'); [done|set_solver|done].
    - apply IH; [done|done|]. intros k' Hk' E'. apply Hone; [set_solver|done]. }
  destruct (remainderOf rest); [|done]. rewrite map_get_assign; [done|]. intros E. apply (field_key_free k). rewrite <- E.
  destruct (CARRIES_STACK level); apply (bool_decide_unpack _); vm_compute; exact I.
Qed.

Module Witness.

Definition every_level : JsonLogger := mkJsonLogger [Lverbose; Ldebug; Llog; Lwarn; Lerror; Lfatal].

(** A path that ends the line and starts one of its own, and a field that claims another time. *)
Definition forging : JsValue :=
  event_value ("GET /" ++ newline ++ "{level: fatal}") (JsString "r-1")
    [("timestamp", JsString "1970"); ("path", JsString ("/" ++ String (chr 34) newline))].

Lemma log_lines_cannot_be_forged_witness :
  exists text js, emit every_level 0 Llog forging [JsString "RequestId"] = Ok [text ++ newline] /\
    printable (str_list text) /\ json_parse text = Some (JObj js) /\
    headed 0 Llog ("GET /" ++ newline ++ "{level: fatal}") "RequestId" (JStr "r-1") js /\
    json_of (JsObject (record_of 0 Llog forging [JsString "RequestId"])) = Ok (Some (JObj js)).
Proof.
  destruct (log_lines_cannot_be_forged every_level 0 Llog forging [JsString "RequestId"] eq_refl) as (Hw & lines & E & _ & H).
  assert (has_bigint (JsObject (record_of 0 Llog forging [JsString "RequestId"])) = false) as Hb by (apply Hw; repeat constructor).
  destruct H as (text & js & -> & Hp & Hj & Hh & Hall); [apply (bool_decide_unpack _); vm_compute; exact I|].
  exists text, js. rewrite Hb in Hh. split; [exact E|]. split; [exact Hp|]. split; [exact Hj|]. split; [exact Hh|exact (Hall Hb)].
Defined.

(** The text of that line: the field is kept under another name. *)
Example forged_line :
  match emit every_level 0 Llog forging [JsString "RequestId"] with
  | Ok [line] => json_parse (list_str (removelast (str_list line)))
  | _ => None
  end = Some (JObj [
    ("timestamp", JStr "1970-01-01T00:00:00.000Z"); ("level", JStr "info"); ("message", JStr ("GET /" ++ newline ++ "{level: fatal}"));
    ("logger", JStr "RequestId"); ("request_id", JStr "r-1");
    ("field_timestamp", JStr "1970"); ("path", JStr ("/" ++ String (chr 34) newline))]).
Proof. vm_compute. reflexivity. Qed.

Example bigint_line :
  emit every_level 0 Lerror (event_value "counted" (JsString "r-2") [("n", JsBigInt 7)]) [JsErrorValue "Error" "m" None] =
  res_bind (line_text (unserialisable 0 Lerror UNNAMED_LOGGER (JsString "r-2"))) (fun line => Ok [line]).
Proof. vm_compute. reflexivity. Qed.

(** The name of a member that every object inherits is taken for a level, and the logger cannot be made. *)
Example inherited_member_is_taken_for_a_level :
  logLevelsFrom (Some " Constructor ") = Ok (InheritedMember "constructor") /\
  is_ok (newJsonLogger (InheritedMember "constructor")) = false /\
  logLevelsFrom (Some "WARN") = Ok (OwnLevels [Lwarn; Lerror; Lfatal]) /\
  is_ok (logLevelsFrom (Some "loud")) = false.
Proof. vm_compute. auto. Qed.
End Witness.
