(* ===== verification/Settings.v ===== *)
(** * Settings that the service trusts

    Models src/src/infrastructure/config/relying_party.ts (for whom passkeys are made),
    src/src/infrastructure/http/gateway_hop.ts (whose forwarded address is believed) and
    src/src/infrastructure/observability/build_identity.ts (which version answers). Node's parsing of
    IP addresses and of URLs, and the file system, are parameters.

    Main results: the origin a relying party is configured with is under its id; only the nearest hop
    is believed, and only from the private and loopback networks; the version is the setting's, or
    that of the nearest manifest of this service. *)

From S2P Require Import Prelude JsString Domain Keys Passkeys Json.
From Stdlib Require Import Ascii String.
Local Open Scope string_scope.
Local Open Scope Z_scope.

(** ** IP addresses *)

(** An address as a number of 32 or of 128 bits. *)
Inductive IpAddress := IPv4 (n : Z) | IPv6 (n : Z).

(** Node's [net] reads an address; [isIP] is 0 where it is none. *)
Class NetLibrary := { parse_ip : string -> option IpAddress }.

(** What a URL is read as: [protocol], [origin] and [hostname] of [new URL(value)]. *)
Record WebUrl := mkWebUrl { web_protocol : string; web_origin : string; web_hostname : string }.
Class WebUrlParser := { parse_web_url : string -> option WebUrl }.

(** ** The gateway *)

(** The rules of a [BlockList]: a network by its first address and the length of its prefix. *)
Definition in_subnet (width prefix base n : Z) : bool := Z.shiftr n (width - prefix) =? Z.shiftr base (width - prefix).

Definition octets (a b c d : Z) : Z := ((a * 256 + b) * 256 + c) * 256 + d.

Definition internal_v4 (n : Z) : bool :=
  in_subnet 32 8 (octets 127 0 0 0) n || in_subnet 32 8 (octets 10 0 0 0) n ||
  in_subnet 32 12 (octets 172 16 0 0) n || in_subnet 32 16 (octets 192 168 0 0) n.

(** [BlockList.check]: an IPv6 address that maps an IPv4 address is checked against its rules too. *)
Definition INTERNAL_NETWORKS_check (a : IpAddress) : bool :=
  match a with
  | IPv4 n => internal_v4 n
  | IPv6 n =>
      (n =? 1) || in_subnet 128 7 (Z.shiftl 252 120) n ||
      (Z.shiftr n 32 =? 65535) && internal_v4 (Z.land n (2 ^ 32 - 1))
  end.

Definition isGatewayHop {N : NetLibrary} (address : string) (hop : Z) : bool :=
  if negb (hop =? 0) then false
  else match parse_ip address with
       | None => false
       | Some a => INTERNAL_NETWORKS_check a
       end.

(** ** The relying party *)

Definition is_alnum (c : ascii) : bool := is_lower c || is_digit c.

(** [[a-z0-9]([a-z0-9-]{0,61}[a-z0-9])?] *)
Definition domain_label (l : list ascii) : bool :=
  match l with
  | [] => false
  | c :: l' =>
      is_alnum c && forallb (fun c => is_alnum c || Ascii.eqb c "-") l' && is_alnum (List.last l' c) &&
      (Z.of_nat (List.length l) <=? 63)
  end.

Definition DOMAIN_NAME_test (s : string) : bool :=
  (1 <=? str_length s) && (str_length s <=? 253) && forallb domain_label (split_list "." (str_list s)).

Definition CEREMONY_SCHEMES : list string := ["https:"; "http:"].

Definition endsWith (suffix s : string) : bool :=
  let n := (String.length s - String.length suffix)%nat in
  (String.length suffix <=? String.length s)%nat && bool_decide (drop n (str_list s) = str_list suffix).

Section RelyingParty.
Context {N : NetLibrary} {U : WebUrlParser}.

Definition originHostOf (origin : string) : res exn string :=
  match parse_web_url origin with
  | None => Err (PlainError ("IDENTITY_WEBAUTHN_ORIGIN is " ++ quote ++ origin ++ quote ++ ", which is not a URL."))
  | Some url =>
      if negb (bool_decide (web_protocol url ∈ CEREMONY_SCHEMES)) || negb (bool_decide (web_origin url = origin))
      then Err (PlainError ("IDENTITY_WEBAUTHN_ORIGIN is " ++ quote ++ origin ++ quote ++
                  "; it is one origin, http(s)://host[:port] in lower case, with nothing after it."))
      else Ok (web_hostname url)
  end.

Definition relyingPartyFrom (read : string -> option string) : res exn RelyingParty :=
  res_bind (requiredSetting "IDENTITY_WEBAUTHN_RP_ID" (read "IDENTITY_WEBAUTHN_RP_ID")) (fun id =>
  res_bind (requiredSetting "IDENTITY_WEBAUTHN_ORIGIN" (read "IDENTITY_WEBAUTHN_ORIGIN")) (fun origin =>
  res_bind (requiredSetting "IDENTITY_WEBAUTHN_RP_NAME" (read "IDENTITY_WEBAUTHN_RP_NAME")) (fun name =>
  let id := trim id in let origin := trim origin in let name := trim name in
  if match parse_ip id with Some _ => true | None => false end || negb (DOMAIN_NAME_test id)
  then Err (PlainError ("IDENTITY_WEBAUTHN_RP_ID is " ++ quote ++ id ++ quote ++
              "; it is a lower-case domain name, never an IP address, which WebAuthn refuses as a relying party."))
  else
    res_bind (originHostOf origin) (fun host =>
    if negb (bool_decide (host = id)) && negb (endsWith ("." ++ id) host)
    then Err (PlainError ("IDENTITY_WEBAUTHN_ORIGIN is " ++ quote ++ origin ++ quote ++
                ", whose host is neither IDENTITY_WEBAUTHN_RP_ID (" ++ quote ++ id ++ quote ++
                ") nor under it, so no browser would run a ceremony for it."))
    else Ok (mkRelyingParty id origin name))))).
End RelyingParty.

(** ** The version *)

Definition SERVICE_NAME : string := "kinetix-identity-service".
Definition UNKNOWN_VERSION : string := "unknown".
Definition MAX_ASCENT : nat := 6.

(** The directories of a path, the innermost first; [dirname] of the root is the root. *)
Definition Directory := list string.

Section Version.
(** What reading and parsing the [package.json] of a directory gives; [None] where either fails. *)
Context (manifest : Directory -> option Json).

Definition versionOfManifest (directory : Directory) : option string :=
  match manifest directory with
  | Some (JObj members) =>
      match map_get "name" members, map_get "version" members with
      | Some (JStr name), Some (JStr version) =>
          if negb (String.eqb name SERVICE_NAME) then None else if String.eqb version "" then None else Some version
      | _, _ => None
      end
  | _ => None
  end.

Fixpoint ascend (ascents : nat) (directory : Directory) : string :=
  match ascents with
  | O => UNKNOWN_VERSION
  | S ascents =>
      match versionOfManifest directory with
      | Some version => version
      | None => match directory with [] => UNKNOWN_VERSION | _ :: parent => ascend ascents parent end
      end
  end.

Definition resolveVersion (declared : option string) (start : Directory) : string :=
  match declared with
  | Some text => if String.eqb (trim text) "" then ascend MAX_ASCENT start else trim text
  | None => ascend MAX_ASCENT start
  end.

(** ** Facts *)

(** Without a setting, the version is that of the nearest of six directories whose manifest is this
    service's. *)
Theorem version_of_nearest_manifest start :
  resolveVersion None start =
  default UNKNOWN_VERSION (head (omap versionOfManifest (map (fun n => drop n start) (seq 0 (S (Nat.min 5 (List.length start))))))).
Proof.
  unfold resolveVersion, MAX_ASCENT.
  do 6 (destruct start as [|? start]; cbn -[versionOfManifest]; [by repeat destruct (versionOfManifest _)|]).
  cbn -[versionOfManifest]. repeat (destruct (versionOfManifest _); [done|]). done.
Qed.
End Version.

Lemma subnet_range width prefix base n :
  0 <= prefix <= width -> base mod 2 ^ (width - prefix) = 0 ->
  in_subnet width prefix base n = true <-> base <= n < base + 2 ^ (width - prefix).
Proof.
  intros Hw Hb. unfold in_subnet. rewrite Z.eqb_eq, !Z.shiftr_div_pow2 by lia.
  set (m := 2 ^ (width - prefix)) in *. assert (0 < m) as Hm by (apply Z.pow_pos_nonneg; lia).
  pose proof (Z.div_mod n m ltac:(lia)). pose proof (Z.mod_pos_bound n m Hm).
  pose proof (Z.div_mod base m ltac:(lia)). split; [nia|].
  intros Hn. apply Z.le_antisymm; [|apply Z.div_le_mono; lia].
  assert (n / m < base / m + 1); [|lia]. apply Z.div_lt_upper_bound; nia.
Qed.

(** The private and the loopback networks, by their first and last addresses. *)
Definition private_v4 (n : Z) : Prop :=
  octets 127 0 0 0 <= n <= octets 127 255 255 255 \/ octets 10 0 0 0 <= n <= octets 10 255 255 255 \/
  octets 172 16 0 0 <= n <= octets 172 31 255 255 \/ octets 192 168 0 0 <= n <= octets 192 168 255 255.

Definition private (a : IpAddress) : Prop :=
  match a with
  | IPv4 n => private_v4 n
  | IPv6 n => n = 1 \/ 252 * 2 ^ 120 <= n < 254 * 2 ^ 120 \/ exists v4, 0 <= v4 < 2 ^ 32 /\ n = 65535 * 2 ^ 32 + v4 /\ private_v4 v4
  end.

Lemma internal_v4_private n : internal_v4 n = true <-> private_v4 n.
Proof.
  unfold internal_v4. rewrite !orb_true_iff, !subnet_range by (lia || reflexivity).
  unfold private_v4, octets. change (2 ^ (32 - 8)) with 16777216. change (2 ^ (32 - 12)) with 1048576.
  change (2 ^ (32 - 16)) with 65536. lia.
Qed.

Lemma mapped_v4 n : (Z.shiftr n 32 =? 65535) = true <-> 65535 * 2 ^ 32 <= n < 65536 * 2 ^ 32.
Proof.
  rewrite Z.eqb_eq, Z.shiftr_div_pow2 by lia. pose proof (Z.div_mod n (2 ^ 32) ltac:(lia)).
  pose proof (Z.mod_pos_bound n (2 ^ 32) ltac:(lia)). split; [lia|]. intros Hn.
  apply Z.le_antisymm; [|apply Z.div_le_lower_bound; lia].
  assert (n / 2 ^ 32 < 65536); [|lia]. apply Z.div_lt_upper_bound; lia.
Qed.

(** Whose word is taken for the address of a client: the nearest hop only, and only when its own
    address lies in a private or loopback network, written as IPv4, IPv6 or as IPv4 inside IPv6. *)
Theorem only_the_gateway_is_believed {N : NetLibrary} address hop :
  isGatewayHop address hop = true <-> hop = 0 /\ exists a, parse_ip address = Some a /\ private a.
Proof.
  unfold isGatewayHop. destruct (Z.eqb_spec hop 0) as [->|Hh]; cbn [negb]; [|split; [done|by intros [? _]]].
  destruct (parse_ip address) as [a|]; [|split; [done|by intros (_ & a & ? & _)]].
  assert (INTERNAL_NETWORKS_check a = true <-> private a) as ->.
  { destruct a as [n|n]; [apply internal_v4_private|]. cbn.
    rewrite !orb_true_iff, andb_true_iff, subnet_range, mapped_v4, internal_v4_private, Z.eqb_eq by (lia || reflexivity).
    change (Z.shiftl 252 120) with (252 * 2 ^ 120). change (128 - 7) with 121.
    change (2 ^ 32 - 1) with (Z.ones 32). rewrite Z.land_ones by lia.
    assert (forall v4, 0 <= v4 < 2 ^ 32 -> (65535 * 2 ^ 32 + v4) mod 2 ^ 32 = v4) as Hmod.
    { intros v4 Hv. rewrite Z.add_comm, Z_mod_plus_full. by apply Z.mod_small. }
    pose proof (Z.mod_pos_bound n (2 ^ 32) ltac:(lia)). pose proof (Z.div_mod n (2 ^ 32) ltac:(lia)).
    split.
    - intros [[H1|H1]|[H1 H2]]; [by left|right; left; lia|right; right]. exists (n mod 2 ^ 32).
      assert (n / 2 ^ 32 = 65535); [|split_and!; [lia..|done]].
      apply Z.eqb_eq. rewrite <- Z.shiftr_div_pow2 by lia. by apply mapped_v4.
    - intros [H1|[H1|(v4 & Hv & -> & Hp)]]; [by left; left|left; right; lia|right]. rewrite Hmod by done. split; [lia|done]. }
  split; [eauto|]. by intros (_ & a' & [= ->] & H).
Qed.

Lemma endsWith_spec suffix s : endsWith suffix s = true -> exists front, s = front ++ suffix.
Proof.
  unfold endsWith. intros [_ H%bool_decide_eq_true]%andb_true_iff.
  exists (list_str (take (String.length s - String.length suffix) (str_list s))).
  rewrite <- (list_str_list s) at 1. rewrite <- (list_str_list (_ ++ suffix)). f_equal.
  by rewrite str_list_app, str_list_str, <- H, take_drop.
Qed.

(** A relying party that is accepted: its id is the name of a domain and no address, its origin is
    exactly one http or https origin, and the host of that origin is the id or a name under it. *)
Theorem relying_party_covers_its_origin {N : NetLibrary} {U : WebUrlParser} read rp :
  relyingPartyFrom read = Ok rp ->
  DOMAIN_NAME_test (rp_id rp) = true /\ parse_ip (rp_id rp) = None /\
  exists url, parse_web_url (rp_origin rp) = Some url /\ web_origin url = rp_origin rp /\ web_protocol url ∈ CEREMONY_SCHEMES /\
    (web_hostname url = rp_id rp \/ exists front, web_hostname url = front ++ "." ++ rp_id rp).
Proof.
  unfold relyingPartyFrom. do 3 (destruct (requiredSetting _ _) as [?|]; cbn [res_bind]; [|done]).
  destruct (parse_ip _) eqn:Eip; cbn [orb]; [done|]. destruct (DOMAIN_NAME_test _) eqn:Ed; cbn [negb]; [|done].
  unfold originHostOf. destruct (parse_web_url _) as [url|] eqn:Eu; [|done].
  case_bool_decide as Hp; cbn [negb orb]; [|done]. case_bool_decide as Ho; cbn [negb]; [|done]. cbn [res_bind].
  case_bool_decide as Hh; cbn [negb andb].
  - intros [= <-]. cbn. split_and!; [done..|]. exists url. auto.
  - destruct (endsWith _ _) eqn:Ee; cbn [negb]; [|done]. intros [= <-]. cbn. split_and!; [done..|]. exists url.
    split_and!; [done..|]. right. by apply endsWith_spec.
Qed.

Module Witness.
#[local] Instance net : NetLibrary := {|
  parse_ip := fun s => if String.eqb s "10.0.0.7" then Some (IPv4 (octets 10 0 0 7))
                       else if String.eqb s "::ffff:172.32.0.1" then Some (IPv6 (65535 * 2 ^ 32 + octets 172 32 0 1)) else None |}.
#[local] Instance urls : WebUrlParser := {|
  parse_web_url := fun s => if String.eqb s "https://id.kinetix.example" then Some (mkWebUrl "https:" s "id.kinetix.example") else None |}.

Definition settings (name : string) : option string :=
  if String.eqb name "IDENTITY_WEBAUTHN_RP_ID" then Some " kinetix.example"
  else if String.eqb name "IDENTITY_WEBAUTHN_ORIGIN" then Some "https://id.kinetix.example" else Some "Kinetix".

Example hops : isGatewayHop "10.0.0.7" 0 = true /\ isGatewayHop "10.0.0.7" 1 = false /\ isGatewayHop "::ffff:172.32.0.1" 0 = false.
Proof. vm_compute. auto. Qed.

Example domains : map DOMAIN_NAME_test ["a"; "a-b.c"; "-a"; "a-"; "A"; "a..b"; ""; "a.b."] = [true; true; false; false; false; false; false; false].
Proof. vm_compute. reflexivity. Qed.

Lemma relying_party_covers_its_origin_witness :
  let rp := mkRelyingParty "kinetix.example" "https://id.kinetix.example" "Kinetix" in
  relyingPartyFrom settings = Ok rp /\
  exists url, parse_web_url (rp_origin rp) = Some url /\ web_origin url = rp_origin rp /\ web_protocol url ∈ CEREMONY_SCHEMES /\
    (web_hostname url = rp_id rp \/ exists front, web_hostname url = front ++ "." ++ rp_id rp).
Proof.
  intros rp. assert (relyingPartyFrom settings = Ok rp) as H by (vm_compute; reflexivity).
  split; [exact H|]. apply (relying_party_covers_its_origin settings rp H).
Defined.
End Witness.
