(* ===== verification/Metrics.v ===== *)
(** * Metrics

    Models src/src/infrastructure/observability/metrics_registry.ts (the counters and what counts in
    them), grpc_metrics_interceptor.ts (a gRPC call is counted when it ends), http_metrics.ts and
    route_template.ts (an HTTP request is counted under the template of its route),
    grpc_method_paths.ts and admin_actions.ts. The registry of the prom-client package keeps, for
    every series of labels, a number; the durations are kept as they were observed.

    Main results: a counter holds the number of events of its series; the calls counted are the
    calls that ended, each once; no administrator's action is counted under an undeclared series. *)

From S2P Require Import Prelude JsString Domain Store Keys Clients Fleet Guards Routes Json Settings.
From Stdlib Require Import Ascii String QArith_base.
Local Open Scope string_scope.
Local Open Scope Z_scope.

(** ** Counters *)

Abbreviation Counter := (gmap (string * string) Z).

(** [counter.inc(labels, n)]. *)
Definition inc (labels : string * string) (n : Z) (c : Counter) : Counter := <[labels := default 0 (c !! labels) + n]> c.

Record Registry := mkRegistry {
  httpRequestsTotal : gmap (string * string * string) Z;
  httpRequestDurationSeconds : gmap (string * string) (list Q);
  grpcServerCallsTotal : Counter;
  buildInfo : Counter;
  signInFailuresTotal : Counter;
  adminActionsTotal : Counter;
  clientProofRefusalsTotal : Counter
}.

Definition ADMIN_ACTIONS : list string := [
  "identity.seller_applications_list"; "identity.seller_applications_tally"; "identity.seller_application_read";
  "identity.seller_onboard"; "identity.seller_verify"; "identity.seller_reject";
  "identity.courier_applications_list"; "identity.courier_applications_tally"; "identity.courier_approve";
  "identity.courier_reject"; "identity.profile_read"; "identity.profile_update"; "identity.passkeys_list";
  "identity.passkey_options"; "identity.passkey_add"; "identity.passkey_remove"].

Definition ADMIN_ACTION_OUTCOMES : list string := ["done"; "refused"; "failed"].

Definition stage_label (s : SignInStage) : string :=
  match s with StagePassword => "password" | StageTwoFactor => "two_factor" | StagePasskey => "passkey" end.
Definition role_label (r : SignInRole) : string := match r with RoleAdmin => "admin" | RoleOther => "other" end.
Definition SIGN_IN_STAGES : list SignInStage := [StagePassword; StageTwoFactor; StagePasskey].
Definition SIGN_IN_ROLES : list SignInRole := [RoleAdmin; RoleOther].

Definition reason_label (r : ClientRefusalReason) : string :=
  match r with
  | proof_refusal r =>
      match r with
      | missing => "missing" | malformed => "malformed" | invalid_signature => "invalid_signature" | expired => "expired"
      | not_yet_valid => "not_yet_valid" | wrong_project => "wrong_project" | wrong_app_id => "wrong_app_id"
      | keys_unavailable => "keys_unavailable"
      end
  | unknown_client => "unknown_client" | client_required => "client_required" | client_mismatch => "client_mismatch"
  end.

(** Every series of [rows] and [columns], declared at zero. *)
Definition declare_all {A B} (label : A -> string) (label' : B -> string) (rows : list A) (columns : list B) (c : Counter) : Counter :=
  fold_left (fun c row => fold_left (fun c column => inc (label row, label' column) 0 c) columns c) rows c.

(** The registry when the module has been loaded. *)
Definition loaded (version : string) : Registry :=
  mkRegistry ∅ ∅ ∅ {[ (SERVICE_NAME, version) := 1 ]}
    (declare_all stage_label role_label SIGN_IN_STAGES SIGN_IN_ROLES ∅)
    (declare_all id id ADMIN_ACTIONS ADMIN_ACTION_OUTCOMES ∅)
    ∅.

(** ** Recording *)

Record HttpRequestObservation := mkHttpObservation {
  ho_method : string; ho_route : string; ho_status : Z; ho_durationSeconds : Q
}.

Definition recordHttpRequest (o : HttpRequestObservation) (r : Registry) : Registry :=
  let labels := (ho_method o, ho_route o, String_of (ho_status o)) in
  mkRegistry (<[labels := default 0 (httpRequestsTotal r !! labels) + 1]> (httpRequestsTotal r))
    (<[(ho_method o, ho_route o) := (default [] (httpRequestDurationSeconds r !! (ho_method o, ho_route o)) ++ [ho_durationSeconds o])%list]>
       (httpRequestDurationSeconds r))
    (grpcServerCallsTotal r) (buildInfo r) (signInFailuresTotal r) (adminActionsTotal r) (clientProofRefusalsTotal r).

Definition with_grpc (f : Counter -> Counter) (r : Registry) : Registry :=
  mkRegistry (httpRequestsTotal r) (httpRequestDurationSeconds r) (f (grpcServerCallsTotal r)) (buildInfo r)
    (signInFailuresTotal r) (adminActionsTotal r) (clientProofRefusalsTotal r).
Definition with_sign_in (f : Counter -> Counter) (r : Registry) : Registry :=
  mkRegistry (httpRequestsTotal r) (httpRequestDurationSeconds r) (grpcServerCallsTotal r) (buildInfo r)
    (f (signInFailuresTotal r)) (adminActionsTotal r) (clientProofRefusalsTotal r).
Definition with_admin (f : Counter -> Counter) (r : Registry) : Registry :=
  mkRegistry (httpRequestsTotal r) (httpRequestDurationSeconds r) (grpcServerCallsTotal r) (buildInfo r)
    (signInFailuresTotal r) (f (adminActionsTotal r)) (clientProofRefusalsTotal r).
Definition with_client (f : Counter -> Counter) (r : Registry) : Registry :=
  mkRegistry (httpRequestsTotal r) (httpRequestDurationSeconds r) (grpcServerCallsTotal r) (buildInfo r)
    (signInFailuresTotal r) (adminActionsTotal r) (f (clientProofRefusalsTotal r)).

Definition recordGrpcServerCall (grpcMethod grpcCode : string) : Registry -> Registry := with_grpc (inc (grpcMethod, grpcCode) 1).
Definition declareGrpcMethod (grpcMethod : string) : Registry -> Registry := with_grpc (inc (grpcMethod, "OK") 0).
Definition recordSignInFailure (stage : SignInStage) (role : SignInRole) : Registry -> Registry :=
  with_sign_in (inc (stage_label stage, role_label role) 1).
Definition recordAdminAction (action outcome : string) : Registry -> Registry := with_admin (inc (action, outcome) 1).
Definition declareClientRefusals (series : list (string * ClientRefusalReason)) : Registry -> Registry :=
  with_client (fun c => fold_left (fun c '(client, reason) => inc (client, reason_label reason) 0 c) series c).
Definition recordClientRefusal (client : string) (reason : ClientRefusalReason) : Registry -> Registry :=
  with_client (inc (client, reason_label reason) 1).

(** What an event of the service's log counts. *)
Definition count_event (r : Registry) (e : Event) : Registry :=
  match e with
  | MetricSignInFailure stage role => recordSignInFailure stage role r
  | MetricClientRefusal client reason => recordClientRefusal client reason r
  | MetricAdminAction action outcome => recordAdminAction action outcome r
  | _ => r
  end.

(** ** gRPC calls *)

Definition UNRECOGNISED_CODE : string := "UNKNOWN_CODE".

Definition CANCELLED : Z := 1.

Definition codeNameOf (code : Z) : string :=
  if code <? 0 then UNRECOGNISED_CODE else default UNRECOGNISED_CODE (status_name code).

(** How a call ends, as its interceptor sees it. *)
Inductive CallEvent := OnCancel | SendStatus (code : Z).

Definition code_of (e : CallEvent) : Z := match e with OnCancel => CANCELLED | SendStatus code => code end.

(** The closure of one call: its method, and whether it has been counted. *)
Record CallClosure := mkClosure { grpcMethod : string; counted : bool }.

Definition grpcMetricsInterceptor (path : string) : CallClosure := mkClosure path false.

Definition count (code : Z) (s : CallClosure * Registry) : CallClosure * Registry :=
  let '(call, r) := s in
  if counted call then (call, r)
  else (mkClosure (grpcMethod call) true, recordGrpcServerCall (grpcMethod call) (codeNameOf code) r).

Definition on_call_event (s : CallClosure * Registry) (e : CallEvent) : CallClosure * Registry :=
  match e with OnCancel => count CANCELLED s | SendStatus code => count code s end.

(** ** Routes and methods *)

Definition UNMATCHED_ROUTE : string := "unmatched".

Definition is_word (c : ascii) : bool := is_digit c || is_lower c || is_upper c || Ascii.eqb c "_".

(** [matched.replace(/:([A-Za-z0-9_]+)/g, "{$1}")]: [open] inside a name that has been opened. *)
Fixpoint braces (open : bool) (l : list ascii) : list ascii :=
  match l with
  | [] => if open then ["}"%char] else []
  | c :: l' =>
      if open && is_word c then c :: braces true l'
      else
        let rest := match c, l' with
                    | ":"%char, c' :: _ => if is_word c' then "{"%char :: braces true l' else c :: braces false l'
                    | _, _ => c :: braces false l'
                    end in
        if open then "}"%char :: rest else rest
  end.

Definition routeTemplateOf (matched : option string) : string :=
  match matched with
  | None => UNMATCHED_ROUTE
  | Some path => if String.eqb path "" then UNMATCHED_ROUTE else list_str (braces false (str_list path))
  end.

(** The hook [onResponse]; the times are in milliseconds. *)
Definition on_response (method : string) (url : option string) (statusCode : Z) (elapsedTime : Q) : Registry -> Registry :=
  recordHttpRequest (mkHttpObservation method (routeTemplateOf url) statusCode (elapsedTime / (1000 # 1))%Q).

Definition member_paths (member : string * JsValue) : list string :=
  match member.2 with
  | JsObject members =>
      match map_get "path" members with
      | Some (JsString path) => if startsWith "/" path then [path] else []
      | _ => []
      end
  | _ => []
  end.

(** The definitions of a package are objects of methods, or message types. *)
Definition grpcMethodPathsOf (packageDefinition : list (string * JsValue)) : list string :=
  flat_map (fun definition => match definition.2 with JsObject members => flat_map member_paths members | _ => [] end) packageDefinition.

(** ** What is counted *)

Lemma inc_lookup labels n c k : inc labels n c !! k = if decide (labels = k) then Some (default 0 (c !! labels) + n) else c !! k.
Proof. unfold inc. by rewrite lookup_insert. Qed.

(** The number of events that count under these labels in the counter of a kind. *)
Definition occurrences (labels_of : Event -> option (string * string)) (k : string * string) (es : list Event) : Z :=
  Z.of_nat (List.length (List.filter (fun e => bool_decide (labels_of e = Some k)) es)).

Definition sign_in_labels (e : Event) : option (string * string) :=
  match e with MetricSignInFailure stage role => Some (stage_label stage, role_label role) | _ => None end.
Definition admin_labels (e : Event) : option (string * string) :=
  match e with MetricAdminAction action outcome => Some (action, outcome) | _ => None end.
Definition client_labels (e : Event) : option (string * string) :=
  match e with MetricClientRefusal client reason => Some (client, reason_label reason) | _ => None end.

(** A counter, a series of which grows by one with every event of its labels. *)
Lemma counter_counts (counter : Registry -> Counter) labels_of es r k n :
  (forall r e, counter (count_event r e) = match labels_of e with Some l => inc l 1 (counter r) | None => counter r end) ->
  counter r !! k = Some n -> counter (fold_left count_event es r) !! k = Some (n + occurrences labels_of k es).
Proof.
  intros Hstep. revert r n. induction es as [|e es IH]; intros r n Hk; cbn [fold_left].
  - rewrite Hk. unfold occurrences. cbn. f_equal. lia.
  - assert (counter (count_event r e) !! k = Some (n + (if bool_decide (labels_of e = Some k) then 1 else 0))) as He.
    { rewrite Hstep. destruct (labels_of e) as [l|].
      - rewrite inc_lookup. case_decide; case_bool_decide; subst; try congruence; rewrite Hk; cbn; f_equal; lia.
      - case_bool_decide; [done|]. rewrite Hk. f_equal. lia. }
    rewrite (IH _ _ He). unfold occurrences. cbn [List.filter]. case_bool_decide; cbn [List.length]; f_equal; lia.
Qed.

Lemma declare_row {A} (label : A -> string) row columns c k :
  fold_left (fun c column => inc (row, label column) 0 c) columns c !! k =
  if bool_decide (k.1 = row /\ k.2 ∈ map label columns) then Some (default 0 (c !! k)) else c !! k.
Proof.
  destruct k as [a b]. cbn [fst snd]. revert c. induction columns as [|x columns IH]; intros c; cbn [fold_left map].
  - case_bool_decide as H; [|done]. destruct H as [_ H]. by apply elem_of_nil in H.
  - rewrite IH, inc_lookup. destruct (decide ((row, label x) = (a, b))) as [[= -> <-]|Hx].
    + rewrite (bool_decide_eq_true_2 (_ /\ _ ∈ _ :: _)) by (split; [done|left]). case_bool_decide; cbn; f_equal; lia.
    + case_bool_decide as H1; case_bool_decide as H2; try done.
      * destruct H2. destruct H1. split; [done|by right].
      * destruct H1. destruct H2 as [-> [->|H2]%elem_of_cons]; done.
Qed.

Lemma declare_all_lookup {A B} (label : A -> string) (label' : B -> string) rows columns c k :
  declare_all label label' rows columns c !! k =
  if bool_decide (k.1 ∈ map label rows /\ k.2 ∈ map label' columns) then Some (default 0 (c !! k)) else c !! k.
Proof.
  unfold declare_all. revert c. induction rows as [|x rows IH]; intros c; cbn [fold_left map].
  - case_bool_decide as H; [|done]. destruct H as [H _]. by apply elem_of_nil in H.
  - rewrite IH, declare_row. repeat case_bool_decide; try done; set_solver.
Qed.

(** Starting from the registry as it is loaded, the failed sign-ins and the actions of administrators
    are counted exactly, from zero, under every declared label. *)
Theorem events_are_counted version es :
  let after := fold_left count_event es (loaded version) in
  (forall stage role, signInFailuresTotal after !! (stage_label stage, role_label role) =
     Some (occurrences sign_in_labels (stage_label stage, role_label role) es)) /\
  (forall action outcome, action ∈ ADMIN_ACTIONS -> outcome ∈ ADMIN_ACTION_OUTCOMES ->
     adminActionsTotal after !! (action, outcome) = Some (occurrences admin_labels (action, outcome) es)).
Proof.
  split.
  - intros stage role. apply (counter_counts signInFailuresTotal sign_in_labels _ _ _ 0); [by intros ? []|].
    by destruct stage, role.
  - intros action outcome Ha Ho. apply (counter_counts adminActionsTotal admin_labels _ _ _ 0); [by intros ? []|].
    cbn [loaded adminActionsTotal]. rewrite declare_all_lookup, bool_decide_eq_true_2; [done|].
    by rewrite !map_id.
Qed.

(** What an administrator does is counted under a series the registry declares. *)
Theorem audited_actions_are_declared c rq call e :
  audited_call (route_of c) rq = Some call ->
  call_action call ∈ ADMIN_ACTIONS /\ "done" ∈ ADMIN_ACTION_OUTCOMES /\ adminActionOutcomeOf e ∈ ADMIN_ACTION_OUTCOMES.
Proof.
  intros H. split; [|split].
  - unfold audited_call in H. destruct c; cbn in H; try done;
      (destruct (rq_user rq) as [claims|]; [|done]); (destruct (is_admin claims); [|done]); injection H as <-; cbn; set_solver.
  - unfold ADMIN_ACTION_OUTCOMES. set_solver.
  - unfold ADMIN_ACTION_OUTCOMES. destruct e; cbn; try set_solver. destruct (_ <? _); set_solver.
Qed.

(** A gRPC call is counted once, when it first ends, however often it is cancelled and answered. *)
Theorem calls_are_counted_once path es r :
  (fold_left on_call_event es (grpcMetricsInterceptor path, r)).2 =
  match es with [] => r | e :: _ => recordGrpcServerCall path (codeNameOf (code_of e)) r end.
Proof.
  assert (forall es call r, counted call = true -> fold_left on_call_event es (call, r) = (call, r)) as Hdone.
  { intros es'. induction es' as [|e es' IH]; intros call r' Hc; [done|]. cbn [fold_left].
    destruct e; cbn; rewrite Hc; by apply IH. }
  destruct es as [|e es]; [done|]. cbn [fold_left]. destruct e; cbn; by rewrite Hdone.
Qed.

(** A route is counted under its template: no name of a parameter is left, so neither is its value. *)
Fixpoint parameter_free (l : list ascii) : Prop :=
  match l with
  | c :: l' => (c = ":"%char -> match l' with c' :: _ => is_word c' = false | [] => True end) /\ parameter_free l'
  | [] => True
  end.

Lemma braces_head c l : is_word c = false -> match braces false (c :: l) with c' :: _ => is_word c' = false | [] => True end.
Proof.
  intros Hc. cbn [braces andb]. destruct (Ascii.eqb_spec c ":") as [->|Hn].
  - destruct l as [|c' l]; [done|]. by destruct (is_word c').
  - destruct c as [[] [] [] [] [] [] [] []]; try done; destruct l; done.
Qed.

Lemma braces_free open l : parameter_free (braces open l).
Proof.
  revert open. induction l as [|c l IH]; intros open; cbn [braces].
  - by destruct open.
  - destruct (open && is_word c) eqn:Eo.
    { cbn. split; [|apply IH]. intros ->. apply andb_true_iff in Eo as [_ Eo]. done. }
    assert (parameter_free match c, l with
      | ":"%char, c' :: _ => if is_word c' then "{"%char :: braces true l else c :: braces false l
      | _, _ => c :: braces false l
      end) as Hrest.
    { destruct (Ascii.eqb_spec c ":") as [->|Hn].
      - destruct l as [|c' l']; [done|].
        destruct (is_word c') eqn:Ew; (split; [|apply IH]); [done|]. intros _. by apply braces_head.
      - assert (parameter_free (c :: braces false l)) as H by (split; [done|apply IH]).
        destruct c as [[] [] [] [] [] [] [] []]; try done; destruct l; done. }
    destruct open; [by split|done].
Qed.

Theorem templates_name_no_parameter path : path <> "" -> parameter_free (str_list (routeTemplateOf (Some path))).
Proof.
  intros H. unfold routeTemplateOf. rewrite (proj2 (String.eqb_neq _ _) H), str_list_str. apply braces_free.
Qed.

Module Witness.
Example a_template : routeTemplateOf (Some "/users/:id/passkeys/:passkeyId") = "/users/{id}/passkeys/{passkeyId}" /\
  routeTemplateOf (Some "") = UNMATCHED_ROUTE /\ routeTemplateOf (Some "/a/::b:") = "/a/:{b}:".
Proof. vm_compute. auto. Qed.

Lemma templates_name_no_parameter_witness : parameter_free (str_list (routeTemplateOf (Some "/users/:id"))).
Proof. apply (templates_name_no_parameter "/users/:id"). discriminate. Defined.

(** A call that is answered after it was cancelled is counted as cancelled. *)
Example cancelled_then_answered :
  grpcServerCallsTotal (fold_left on_call_event [OnCancel; SendStatus 0] (grpcMetricsInterceptor "/a/B", loaded "1")).2 =
  {[ ("/a/B", "CANCELLED") := 1 ]}.
Proof. apply (bool_decide_unpack _). vm_compute. exact I. Qed.
End Witness.
