(* ===== verification/Schema.v ===== *)
(** * Schemas and the statements that change them

    The part of SQL's data definition language that src/src/migrations uses, with PostgreSQL's rules:
    which objects a statement needs, which it creates and what it takes with it. A schema is finite
    maps of tables, indexes, triggers and functions by name. Rows are not part of it: a statement that
    only changes rows needs its tables and columns ([Rows]), and is modelled on the tables of Store.v
    where it matters (DataMigrations.v). *)

From S2P Require Import Prelude.
From stdpp Require Import gmap strings sets.
From Stdlib Require Import String QArith_base.
Local Open Scope string_scope.
Local Open Scope Z_scope.

(** ** Columns *)

Inductive SqlType :=
| Integer | Bigint | DoublePrecision | Boolean | Uuid | Bytea | Text | TextArray | Xid8
| Varchar (limit : option Z)
| Timestamp (precision : option Z)
| TimestampTz.
#[export] Instance SqlType_eq_dec : EqDecision SqlType.
Proof. solve_decision. Defined.

(** [Increment] is the next value of the column's sequence, [GeneratedUuid] a function that makes a
    random UUID. *)
Inductive Default := Increment | GeneratedUuid | Now | TextDefault (s : string) | BooleanDefault (b : bool).
#[export] Instance Default_eq_dec : EqDecision Default.
Proof. solve_decision. Defined.

Record Column := mkColumn { col_type : SqlType; col_nullable : bool; col_default : option Default }.
#[export] Instance Column_eq_dec : EqDecision Column.
Proof. solve_decision. Defined.

(** [SERIAL NOT NULL], [t NOT NULL], [t], [t NOT NULL DEFAULT d]. *)
Definition serial : Column := mkColumn Integer false (Some Increment).
Definition required (t : SqlType) : Column := mkColumn t false None.
Definition optional (t : SqlType) : Column := mkColumn t true None.
Definition defaulted (t : SqlType) (d : Default) : Column := mkColumn t false (Some d).

(** ** Constraints *)

(** The conditions of the checks. *)
Inductive Condition :=
| IsNull (c : string)
| OneOf (c : string) (values : list string)
| BetweenC (c : string) (low high : Z)
| AndC (p q : Condition)
| OrC (p q : Condition)
| NotC (p : Condition)
| SameC (p q : Condition).
#[export] Instance Condition_eq_dec : EqDecision Condition.
Proof. solve_decision. Defined.

Fixpoint condition_columns (p : Condition) : list string :=
  match p with
  | IsNull c | OneOf c _ | BetweenC c _ _ => [c]
  | AndC p q | OrC p q | SameC p q => condition_columns p ++ condition_columns q
  | NotC p => condition_columns p
  end.

(** *** When a condition holds

    A value of a row; a condition over it is true, false or unknown ([None]), and a check refuses only
    what makes its condition false. *)
Inductive SqlValue :=
| SqlNull | SqlText (s : string) | SqlTexts (l : list string) | SqlNumber (q : Q) | SqlInteger (z : Z) | SqlBoolean (b : bool)
| SqlUuid (s : string) | SqlBytes (l : list Z)
| SqlInstant (t : SqlType) (ms : Z)
| SqlValueOf (t : SqlType).

Definition and3 (p q : option bool) : option bool :=
  match p, q with
  | Some false, _ | _, Some false => Some false
  | Some true, Some true => Some true
  | _, _ => None
  end.
Definition not3 (p : option bool) : option bool := option_map negb p.
Definition or3 (p q : option bool) : option bool := not3 (and3 (not3 p) (not3 q)).

Definition between (low high : Z) (q : Q) : bool := Qle_bool (inject_Z low) q && Qle_bool q (inject_Z high).

Fixpoint truth (p : Condition) (row : string -> SqlValue) : option bool :=
  match p with
  | IsNull c => Some match row c with SqlNull => true | _ => false end
  | OneOf c values => match row c with SqlText s => Some (bool_decide (s ∈ values)) | SqlNull => None | _ => Some false end
  | BetweenC c low high => match row c with SqlNumber q => Some (between low high q) | SqlNull => None | _ => Some false end
  | AndC p q => and3 (truth p row) (truth q row)
  | OrC p q => or3 (truth p row) (truth q row)
  | NotC p => not3 (truth p row)
  | SameC p q => match truth p row, truth q row with Some a, Some b => Some (Bool.eqb a b) | _, _ => None end
  end.

Definition passes (p : Condition) (row : string -> SqlValue) : bool := match truth p row with Some false => false | _ => true end.

Inductive OnDelete := Cascade | NoAction.
#[export] Instance OnDelete_eq_dec : EqDecision OnDelete.
Proof. solve_decision. Defined.

Inductive Constraint :=
| PrimaryKey (columns : list string)
| Unique (columns : list string)
| CheckThat (p : Condition)
| ForeignKey (columns : list string) (target : string) (referenced : list string) (onDelete : OnDelete).
#[export] Instance Constraint_eq_dec : EqDecision Constraint.
Proof. solve_decision. Defined.

Definition constraint_columns (k : Constraint) : list string :=
  match k with PrimaryKey cs | Unique cs | ForeignKey cs _ _ _ => cs | CheckThat p => condition_columns p end.

(** ** Tables, indexes and the rest *)

Record Table := mkTable { columns : gmap string Column; constraints : gmap string Constraint }.
#[export] Instance Table_eq_dec : EqDecision Table.
Proof. solve_decision. Defined.

(** What an index is on: a column, or a column in lower case. *)
Inductive IndexKey := OnColumn (c : string) | OnLower (c : string).
#[export] Instance IndexKey_eq_dec : EqDecision IndexKey.
Proof. solve_decision. Defined.
Definition key_column (k : IndexKey) : string := match k with OnColumn c | OnLower c => c end.

Record Index := mkIndex { index_table : string; index_keys : list IndexKey; index_unique : bool }.
#[export] Instance Index_eq_dec : EqDecision Index.
Proof. solve_decision. Defined.

(** A trigger is named within its table. *)
Record Schema := mkSchema {
  tables : gmap string Table;
  indexes : gmap string Index;
  triggers : gmap (string * string) string;
  functions : gset string;
  extensions : gset string
}.
#[export] Instance Schema_eq_dec : EqDecision Schema.
Proof. solve_decision. Defined.

Definition empty_schema : Schema := mkSchema ∅ ∅ ∅ ∅ ∅.

Definition with_tables (f : gmap string Table -> gmap string Table) (s : Schema) : Schema :=
  mkSchema (f (tables s)) (indexes s) (triggers s) (functions s) (extensions s).
Definition with_indexes (f : gmap string Index -> gmap string Index) (s : Schema) : Schema :=
  mkSchema (tables s) (f (indexes s)) (triggers s) (functions s) (extensions s).
Definition with_triggers (f : gmap (string * string) string -> gmap (string * string) string) (s : Schema) : Schema :=
  mkSchema (tables s) (indexes s) (f (triggers s)) (functions s) (extensions s).
Definition with_functions (f : gset string -> gset string) (s : Schema) : Schema :=
  mkSchema (tables s) (indexes s) (triggers s) (f (functions s)) (extensions s).
Definition with_extensions (f : gset string -> gset string) (s : Schema) : Schema :=
  mkSchema (tables s) (indexes s) (triggers s) (functions s) (f (extensions s)).

(** ** Errors, by PostgreSQL's condition names *)

Inductive SqlError :=
| duplicate_table | undefined_table | duplicate_column | undefined_column | duplicate_object | undefined_object
| invalid_foreign_key | dependent_objects_still_exist | invalid_table_definition.
#[export] Instance SqlError_eq_dec : EqDecision SqlError.
Proof. solve_decision. Defined.

(** ** Statements *)

Inductive Statement :=
| CreateTable (name : string) (columns : list (string * Column)) (constraints : list (string * Constraint))
| DropTable (name : string)
| AddColumn (table name : string) (column : Column)
| DropColumn (table name : string)
| AlterColumnType (table name : string) (t : SqlType)
| AddConstraint (table name : string) (k : Constraint)
| DropConstraint (table name : string)
| CreateIndex (name : string) (i : Index)
| DropIndex (name : string)
| CreateExtensionIfNotExists (name : string)
| CreateFunction (name : string)
| DropFunction (name : string)
| CreateTrigger (name table function : string)
| DropTrigger (name table : string)
| Rows (uses : list (string * list string)).

Declare Scope sql_scope.
Notation "'let*' x := m 'in' k" := (res_bind m (fun x => k)) (at level 10, x name, m at level 100, k at level 200) : sql_scope.
Local Open Scope sql_scope.

Definition guard (b : bool) (e : SqlError) : res SqlError unit := if b then Ok tt else Err e.

Definition find_table (name : string) (s : Schema) : res SqlError Table :=
  match tables s !! name with Some t => Ok t | None => Err undefined_table end.

Definition find_column (name : string) (t : Table) : res SqlError Column :=
  match columns t !! name with Some c => Ok c | None => Err undefined_column end.

Definition has_columns (cs : list string) (t : Table) : bool := bool_decide (Forall (fun c => is_Some (columns t !! c)) cs).

(** The primary keys and unique constraints of a table, each with the index it stands on. *)
Definition is_key (k : Constraint) : bool := match k with PrimaryKey _ | Unique _ => true | _ => false end.

(** Tables, indexes and the indexes of keys share one name space. *)
Definition key_names (t : Table) : list string := map fst (List.filter (fun '(_, k) => is_key k) (map_to_list (constraints t))).

Definition relation_taken (name : string) (s : Schema) : bool :=
  bool_decide (is_Some (tables s !! name)) || bool_decide (is_Some (indexes s !! name)) ||
  existsb (fun '(_, t) => bool_decide (name ∈ key_names t)) (map_to_list (tables s)).

(** The columns are a key of the table: what a foreign key refers to, and an [ON CONFLICT] names. *)
Definition is_key_on (cs : list string) (k : Constraint) : bool :=
  match k with PrimaryKey cs' | Unique cs' => bool_decide (cs = cs') | _ => false end.
Definition keyed_by (cs : list string) (t : Table) : bool :=
  existsb (fun '(_, k) => is_key_on cs k) (map_to_list (constraints t)).

Definition with_constraint (name : string) (k : Constraint) (t : Table) : Table := mkTable (columns t) (<[name := k]> (constraints t)).

(** The columns of a primary key cannot be null. *)
Definition not_null (cs : list string) (t : Table) : Table :=
  mkTable (fold_left (fun m c => alter (fun col => mkColumn (col_type col) false (col_default col)) c m) cs (columns t)) (constraints t).

(** One constraint more on the table [t] named [table], which is not yet stored in [s]. *)
Definition constrain (s : Schema) (table name : string) (k : Constraint) (t : Table) : res SqlError Table :=
  let* _ := guard (negb (bool_decide (is_Some (constraints t !! name)))) duplicate_object in
  let* _ := guard (has_columns (constraint_columns k) t) undefined_column in
  match k with
  | CheckThat _ => Ok (with_constraint name k t)
  | Unique _ => let* _ := guard (negb (relation_taken name s)) duplicate_table in Ok (with_constraint name k t)
  | PrimaryKey cs =>
      let* _ := guard (negb (relation_taken name s)) duplicate_table in
      let* _ := guard (forallb (fun '(_, k) => match k with PrimaryKey _ => false | _ => true end) (map_to_list (constraints t)))
                 invalid_table_definition in
      Ok (with_constraint name k (not_null cs t))
  | ForeignKey _ target referenced _ =>
      let* t' := (if bool_decide (target = table) then Ok t else find_table target s) in
      let* _ := guard (keyed_by referenced t') invalid_foreign_key in
      Ok (with_constraint name k t)
  end.

Fixpoint constrain_all (s : Schema) (table : string) (ks : list (string * Constraint)) (t : Table) : res SqlError Table :=
  match ks with
  | [] => Ok t
  | (name, k) :: ks => let* t' := constrain s table name k t in constrain_all s table ks t'
  end.

Fixpoint add_columns (cs : list (string * Column)) (t : Table) : res SqlError Table :=
  match cs with
  | [] => Ok t
  | (name, c) :: cs =>
      let* _ := guard (negb (bool_decide (is_Some (columns t !! name)))) duplicate_column in
      add_columns cs (mkTable (<[name := c]> (columns t)) (constraints t))
  end.

(** Another table has a foreign key to this one, on these columns or on any. *)
Definition refers_to (table : string) (cs : option (list string)) (k : Constraint) : bool :=
  match k with
  | ForeignKey _ target referenced _ =>
      bool_decide (target = table) && match cs with Some cs => bool_decide (referenced = cs) | None => true end
  | _ => false
  end.
Definition referenced_elsewhere (table : string) (cs : option (list string)) (s : Schema) : bool :=
  existsb (fun '(name, t) => negb (bool_decide (name = table)) &&
    existsb (fun '(_, k) => refers_to table cs k) (map_to_list (constraints t))) (map_to_list (tables s)).

Definition store_table (name : string) (t : Table) : Schema -> Schema := with_tables (<[name := t]>).

Definition exec (st : Statement) (s : Schema) : res SqlError Schema :=
  match st with
  | CreateTable name cs ks =>
      let* _ := guard (negb (relation_taken name s)) duplicate_table in
      let* t := add_columns cs (mkTable ∅ ∅) in
      let* t := constrain_all s name ks t in
      Ok (store_table name t s)
  | DropTable name =>
      let* _ := find_table name s in
      let* _ := guard (negb (referenced_elsewhere name None s)) dependent_objects_still_exist in
      Ok (with_triggers (filter (fun kv => kv.1.1 <> name)) (with_indexes (filter (fun kv => index_table kv.2 <> name))
            (with_tables (delete name) s)))
  | AddColumn table name c =>
      let* t := find_table table s in
      let* t := add_columns [(name, c)] t in
      Ok (store_table table t s)
  | DropColumn table name =>
      let* t := find_table table s in
      let* _ := find_column name t in
      let gone := List.filter (fun '(_, k) => bool_decide (name ∈ constraint_columns k)) (map_to_list (constraints t)) in
      let* _ := guard (forallb (fun '(_, k) => negb (is_key k && referenced_elsewhere table (Some (constraint_columns k)) s)) gone)
                 dependent_objects_still_exist in
      Ok (with_indexes (filter (fun kv => ~ (index_table kv.2 = table /\ name ∈ map key_column (index_keys kv.2))))
            (store_table table (mkTable (delete name (columns t)) (filter (fun kv => name ∉ constraint_columns kv.2) (constraints t))) s))
  | AlterColumnType table name ty =>
      let* t := find_table table s in
      let* c := find_column name t in
      Ok (store_table table (mkTable (<[name := mkColumn ty (col_nullable c) (col_default c)]> (columns t)) (constraints t)) s)
  | AddConstraint table name k =>
      let* t := find_table table s in
      let* t := constrain s table name k t in
      Ok (store_table table t s)
  | DropConstraint table name =>
      let* t := find_table table s in
      match constraints t !! name with
      | None => Err undefined_object
      | Some k =>
          let* _ := guard (negb (is_key k && referenced_elsewhere table (Some (constraint_columns k)) s)) dependent_objects_still_exist in
          Ok (store_table table (mkTable (columns t) (delete name (constraints t))) s)
      end
  | CreateIndex name i =>
      let* _ := guard (negb (relation_taken name s)) duplicate_table in
      let* t := find_table (index_table i) s in
      let* _ := guard (has_columns (map key_column (index_keys i)) t) undefined_column in
      Ok (with_indexes (<[name := i]>) s)
  | DropIndex name =>
      match indexes s !! name with None => Err undefined_object | Some _ => Ok (with_indexes (delete name) s) end
  | CreateExtensionIfNotExists name => Ok (with_extensions (fun e => {[ name ]} ∪ e) s)
  | CreateFunction name =>
      let* _ := guard (negb (bool_decide (name ∈ functions s))) duplicate_object in
      Ok (with_functions (fun f => {[ name ]} ∪ f) s)
  | DropFunction name =>
      let* _ := guard (bool_decide (name ∈ functions s)) undefined_object in
      let* _ := guard (forallb (fun '(_, f) => negb (bool_decide (f = name))) (map_to_list (triggers s))) dependent_objects_still_exist in
      Ok (with_functions (fun f => f ∖ {[ name ]}) s)
  | CreateTrigger name table function =>
      let* _ := find_table table s in
      let* _ := guard (bool_decide (function ∈ functions s)) undefined_object in
      let* _ := guard (negb (bool_decide (is_Some (triggers s !! (table, name))))) duplicate_object in
      Ok (with_triggers (<[(table, name) := function]>) s)
  | DropTrigger name table =>
      match triggers s !! (table, name) with None => Err undefined_object | Some _ => Ok (with_triggers (delete (table, name)) s) end
  | Rows uses =>
      let* _ := guard (forallb (fun '(table, cs) =>
        match tables s !! table with Some t => has_columns cs t | None => false end) uses) undefined_table in
      Ok s
  end.

(** The statements one after the other, up to the first error. *)
Fixpoint exec_all (sts : list Statement) (s : Schema) : res SqlError Schema :=
  match sts with
  | [] => Ok s
  | st :: sts => let* s' := exec st s in exec_all sts s'
  end.

Lemma exec_all_app sts sts' s : exec_all (sts ++ sts') s = res_bind (exec_all sts s) (exec_all sts').
Proof. revert s. induction sts as [|st sts IH]; intros s; cbn; [done|]. destruct (exec st s); cbn; [apply IH|done]. Qed.
