(* ===== verification/Migrations.v ===== *)
(** * The migrations

    Models src/src/migrations, one definition per [up] and per [down] with its statements in their
    order, and the list of src/src/data-source.ts. The changes of rows some of them make are in
    DataMigrations.v, the program that runs them and its settings in Startup.v.

    Main results: every migration runs after the ones before it, and its [down] takes the schema back to
    where its [up] found it. *)

From S2P Require Import Prelude JsString Domain Keys Schema.
From stdpp Require Import gmap strings.
From Stdlib Require Import String.
Local Open Scope string_scope.
Local Open Scope Z_scope.

Definition varchar : SqlType := Varchar None.
Definition varchar_of (n : Z) : SqlType := Varchar (Some n).
Definition timestamp : SqlType := Timestamp None.

(** ["latitude" BETWEEN -90 AND 90 AND "longitude" BETWEEN -180 AND 180] *)
Definition ON_EARTH : Condition := AndC (BetweenC "latitude" (-90) 90) (BetweenC "longitude" (-180) 180).
(** [("latitude" IS NULL AND "longitude" IS NULL) OR (...)] *)
Definition POINT_ON_EARTH : Condition := OrC (AndC (IsNull "latitude") (IsNull "longitude")) ON_EARTH.

Definition to_user : Constraint := ForeignKey ["userId"] "users" ["id"] Cascade.
Definition to_principal : Constraint := ForeignKey ["principalId"] "principals" ["id"] Cascade.
Definition index_on (table : string) (cs : list string) : Index := mkIndex table (map OnColumn cs) false.

Record Migration := mkMigration { migration_name : string; up : list Statement; down : list Statement }.

Definition InitialSchema_up : list Statement := [
  CreateTable "merchants" [
      ("id", serial); ("userId", required Integer); ("storeName", required varchar); ("slug", required varchar);
      ("description", optional varchar); ("businessRegistrationNumber", required varchar); ("taxId", required varchar);
      ("status", defaulted varchar (TextDefault "pending")); ("verifiedAt", optional timestamp);
      ("createdAt", defaulted timestamp Now); ("updatedAt", defaulted timestamp Now)]
    [("UQ_c4199d0353747c821386791f813", Unique ["userId"]); ("UQ_66b19d9a264ff84db8e799a398f", Unique ["slug"]);
     ("PK_4fd312ef25f8e05ad47bfe7ed25", PrimaryKey ["id"])];
  CreateTable "merchant_verifications" [
      ("id", serial); ("userId", required Integer); ("storeName", required varchar);
      ("businessRegistrationNumber", required varchar); ("taxId", required varchar);
      ("status", defaulted varchar (TextDefault "pending")); ("verifiedAt", optional timestamp)]
    [("UQ_9c8939f7dcc4c9644d2ba8faaa3", Unique ["userId"]); ("PK_cffc68836615f18792b4cfbc321", PrimaryKey ["id"])];
  CreateTable "profiles" [
      ("id", serial); ("userId", required Integer); ("fullName", defaulted varchar (TextDefault ""));
      ("phoneNumber", defaulted varchar (TextDefault "")); ("streetAddress", defaulted varchar (TextDefault ""));
      ("city", defaulted varchar (TextDefault "")); ("postalCode", defaulted varchar (TextDefault ""));
      ("avatarUrl", optional varchar)]
    [("UQ_315ecd98bd1a42dcf2ec4e2e985", Unique ["userId"]); ("PK_8e520eb4da7dc01d0e190447c8e", PrimaryKey ["id"])];
  CreateTable "users" [
      ("id", serial); ("email", required varchar); ("passwordHash", required varchar);
      ("role", defaulted varchar (TextDefault "customer")); ("isTwoFactorEnabled", defaulted Boolean (BooleanDefault false));
      ("twoFactorSecret", optional varchar); ("createdAt", defaulted timestamp Now); ("updatedAt", defaulted timestamp Now)]
    [("UQ_97672ac88f789774dd47f7c8be3", Unique ["email"]); ("PK_a3ffb1c0c8416b9fc6f907b7433", PrimaryKey ["id"])];
  AddConstraint "profiles" "FK_315ecd98bd1a42dcf2ec4e2e985" to_user;
  AddConstraint "merchants" "FK_c4199d0353747c821386791f813" to_user;
  AddConstraint "merchant_verifications" "FK_9c8939f7dcc4c9644d2ba8faaa3" to_user].

Definition InitialSchema_down : list Statement := [
  DropConstraint "merchant_verifications" "FK_9c8939f7dcc4c9644d2ba8faaa3";
  DropConstraint "merchants" "FK_c4199d0353747c821386791f813";
  DropConstraint "profiles" "FK_315ecd98bd1a42dcf2ec4e2e985";
  DropTable "users"; DropTable "profiles"; DropTable "merchant_verifications"; DropTable "merchants"].

Definition Principals_up : list Statement := [
  CreateExtensionIfNotExists "pgcrypto";
  CreateTable "principals" [
      ("id", defaulted Uuid GeneratedUuid); ("kind", required (varchar_of 32)); ("displayName", optional (varchar_of 255));
      ("createdAt", defaulted TimestampTz Now); ("updatedAt", defaulted TimestampTz Now)]
    [("PK_principals", PrimaryKey ["id"])];
  CreateTable "principal_aliases" [
      ("id", serial); ("principalId", required Uuid); ("service", required (varchar_of 32));
      ("localId", required (varchar_of 128)); ("createdAt", defaulted TimestampTz Now)]
    [("uq_principal_aliases_service_local_id", Unique ["service"; "localId"]); ("PK_principal_aliases", PrimaryKey ["id"])];
  CreateIndex "ix_principal_aliases_service_local_id" (index_on "principal_aliases" ["service"; "localId"]);
  AddConstraint "principal_aliases" "FK_principal_aliases_principal" to_principal].

Definition Principals_down : list Statement := [
  DropConstraint "principal_aliases" "FK_principal_aliases_principal";
  DropIndex "ix_principal_aliases_service_local_id";
  DropTable "principal_aliases"; DropTable "principals"].

Definition TokenLifecycle_up : list Statement := [
  CreateTable "refresh_tokens" [
      ("id", defaulted Uuid GeneratedUuid); ("jti", required Uuid); ("familyId", required Uuid); ("principalId", required Uuid);
      ("userId", required Integer); ("expiresAt", required TimestampTz); ("usedAt", optional TimestampTz);
      ("revokedAt", optional TimestampTz); ("revokedReason", optional (varchar_of 32)); ("replacedByJti", optional Uuid);
      ("createdAt", defaulted TimestampTz Now)]
    [("uq_refresh_tokens_jti", Unique ["jti"]); ("PK_refresh_tokens", PrimaryKey ["id"])];
  CreateIndex "ix_refresh_tokens_family" (index_on "refresh_tokens" ["familyId"]);
  CreateIndex "ix_refresh_tokens_principal" (index_on "refresh_tokens" ["principalId"]);
  AddConstraint "refresh_tokens" "FK_refresh_tokens_principal" to_principal;
  CreateTable "revoked_access_tokens" [
      ("id", defaulted Uuid GeneratedUuid); ("jti", required Uuid); ("expiresAt", required TimestampTz);
      ("reason", required (varchar_of 32)); ("createdAt", defaulted TimestampTz Now)]
    [("uq_revoked_access_tokens_jti", Unique ["jti"]); ("PK_revoked_access_tokens", PrimaryKey ["id"])];
  CreateIndex "ix_revoked_access_tokens_expires" (index_on "revoked_access_tokens" ["expiresAt"])].

Definition TokenLifecycle_down : list Statement := [
  DropIndex "ix_revoked_access_tokens_expires";
  DropTable "revoked_access_tokens";
  DropConstraint "refresh_tokens" "FK_refresh_tokens_principal";
  DropIndex "ix_refresh_tokens_principal"; DropIndex "ix_refresh_tokens_family";
  DropTable "refresh_tokens"].

Definition ProfileProvenance_up : list Statement := [
  AddColumn "profiles" "createdAt" (defaulted TimestampTz Now);
  AddColumn "profiles" "updatedAt" (defaulted TimestampTz Now);
  CreateIndex "ix_profiles_created" (index_on "profiles" ["createdAt"])].

Definition ProfileProvenance_down : list Statement := [
  DropIndex "ix_profiles_created";
  DropColumn "profiles" "updatedAt"; DropColumn "profiles" "createdAt"].

(** The rows are changed by [PrincipalForEveryUser] of DataMigrations.v. *)
Definition PrincipalForEveryUser_up : list Statement := [
  Rows [("users", ["id"; "email"; "role"]); ("principal_aliases", ["principalId"; "service"; "localId"]);
        ("principals", ["id"; "kind"; "displayName"])]].

Definition PrincipalForEveryUser_down : list Statement := [].

Definition GeocodedAddresses_up : list Statement := [
  CreateTable "geocoded_addresses" [
      ("id", serial); ("query", required Text); ("latitude", required DoublePrecision); ("longitude", required DoublePrecision);
      ("provider", required varchar); ("precision", defaulted varchar (TextDefault "UNSPECIFIED")); ("displayName", optional Text);
      ("createdAt", defaulted TimestampTz Now); ("updatedAt", defaulted TimestampTz Now)]
    [("PK_geocoded_addresses", PrimaryKey ["id"])];
  CreateIndex "UQ_geocoded_addresses_query" (mkIndex "geocoded_addresses" [OnColumn "query"] true);
  AddConstraint "geocoded_addresses" "CK_geocoded_addresses_on_earth" (CheckThat ON_EARTH)].

Definition GeocodedAddresses_down : list Statement := [DropTable "geocoded_addresses"].

Definition ProfileCoordinates_up : list Statement := [
  AddColumn "profiles" "latitude" (optional DoublePrecision);
  AddColumn "profiles" "longitude" (optional DoublePrecision);
  AddColumn "profiles" "geocodedAt" (optional TimestampTz);
  AddConstraint "profiles" "CK_profiles_point_on_earth" (CheckThat POINT_ON_EARTH)].

Definition ProfileCoordinates_down : list Statement := [
  DropConstraint "profiles" "CK_profiles_point_on_earth";
  DropColumn "profiles" "geocodedAt"; DropColumn "profiles" "longitude"; DropColumn "profiles" "latitude"].

Definition MerchantStoreAddress_up : list Statement :=
  (flat_map (fun table => [
     AddColumn table "streetAddress" (defaulted varchar (TextDefault ""));
     AddColumn table "city" (defaulted varchar (TextDefault ""));
     AddColumn table "postalCode" (defaulted varchar (TextDefault ""))]) ["merchant_verifications"; "merchants"] ++ [
   AddColumn "merchants" "latitude" (optional DoublePrecision);
   AddColumn "merchants" "longitude" (optional DoublePrecision);
   AddColumn "merchants" "geocodedAt" (optional TimestampTz);
   AddConstraint "merchants" "CK_merchants_point_on_earth" (CheckThat POINT_ON_EARTH)])%list.

Definition MerchantStoreAddress_down : list Statement :=
  ([DropConstraint "merchants" "CK_merchants_point_on_earth";
    DropColumn "merchants" "geocodedAt"; DropColumn "merchants" "longitude"; DropColumn "merchants" "latitude"] ++
   flat_map (fun table => [DropColumn table "postalCode"; DropColumn table "city"; DropColumn table "streetAddress"])
     ["merchants"; "merchant_verifications"])%list.

Definition MerchantCursorPrecision_up : list Statement := [AlterColumnType "merchants" "updatedAt" (Timestamp (Some 3))].

Definition MerchantCursorPrecision_down : list Statement := [AlterColumnType "merchants" "updatedAt" timestamp].

(** The constraints given without a name get PostgreSQL's names for them. *)
Definition MerchantChangeTransaction_up : list Statement := [
  CreateTable "merchant_change_feed" [("merchant_id", optional Integer); ("change_transaction_id", required Xid8)]
    [("merchant_change_feed_pkey", PrimaryKey ["merchant_id"]);
     ("merchant_change_feed_merchant_id_fkey", ForeignKey ["merchant_id"] "merchants" ["id"] Cascade)];
  Rows [("merchant_change_feed", ["merchant_id"; "change_transaction_id"]); ("merchants", ["id"])];
  CreateFunction "merchants_record_change_transaction";
  CreateTrigger "merchants_record_change_transaction" "merchants" "merchants_record_change_transaction";
  CreateIndex "merchant_change_feed_order_idx" (index_on "merchant_change_feed" ["change_transaction_id"; "merchant_id"])].

Definition MerchantChangeTransaction_down : list Statement := [
  DropTrigger "merchants_record_change_transaction" "merchants";
  DropFunction "merchants_record_change_transaction";
  DropTable "merchant_change_feed"].

Definition CaseInsensitiveEmail_up : list Statement := [CreateIndex "UQ_users_email_lower" (mkIndex "users" [OnLower "email"] true)].

Definition CaseInsensitiveEmail_down : list Statement := [DropIndex "UQ_users_email_lower"].

Definition TwoFactorLastStep_up : list Statement := [AddColumn "users" "twoFactorLastStep" (optional Integer)].

Definition TwoFactorLastStep_down : list Statement := [DropColumn "users" "twoFactorLastStep"].

Definition CourierApplications_up : list Statement := [
  CreateTable "courier_applications" [
      ("id", serial); ("userId", required Integer); ("principalId", required Uuid); ("driverId", optional Bigint);
      ("status", defaulted (varchar_of 16) (TextDefault "pending")); ("filedAt", defaulted TimestampTz Now);
      ("approvedAt", optional TimestampTz)]
    [("UQ_courier_applications_user", Unique ["userId"]);
     ("CK_courier_applications_status", CheckThat (OneOf "status" ["pending"; "approved"]));
     ("PK_courier_applications", PrimaryKey ["id"])];
  AddConstraint "courier_applications" "FK_courier_applications_user" to_user;
  AddConstraint "courier_applications" "FK_courier_applications_principal" to_principal;
  Rows [("courier_applications", ["userId"; "principalId"; "status"]); ("users", ["id"; "role"]);
        ("principal_aliases", ["principalId"; "service"; "localId"])]].

Definition CourierApplications_down : list Statement := [DropTable "courier_applications"].

Definition NoPlaceholderStoreDescription_up : list Statement := [Rows [("merchants", ["description"])]].

Definition NoPlaceholderStoreDescription_down : list Statement := [].

Definition SignInAttempts_up : list Statement := [
  CreateTable "account_sign_in_attempts" [
      ("accountKey", required (varchar_of 64)); ("attempts", required Integer); ("lastAttemptAt", required TimestampTz);
      ("delayedUntil", required TimestampTz)]
    [("PK_account_sign_in_attempts", PrimaryKey ["accountKey"])];
  CreateIndex "ix_account_sign_in_attempts_last_attempt" (index_on "account_sign_in_attempts" ["lastAttemptAt"]);
  CreateTable "two_factor_challenge_attempts" [
      ("jti", required Uuid); ("attempts", required Integer); ("expiresAt", required TimestampTz)]
    [("PK_two_factor_challenge_attempts", PrimaryKey ["jti"])];
  CreateIndex "ix_two_factor_challenge_attempts_expires" (index_on "two_factor_challenge_attempts" ["expiresAt"])].

Definition SignInAttempts_down : list Statement := [DropTable "two_factor_challenge_attempts"; DropTable "account_sign_in_attempts"].

Definition RefreshTokenClient_up : list Statement := [AddColumn "refresh_tokens" "client" (optional (varchar_of 64))].

Definition RefreshTokenClient_down : list Statement := [DropColumn "refresh_tokens" "client"].

Definition CourierApplicationRejection_up : list Statement := [
  DropConstraint "courier_applications" "CK_courier_applications_status";
  AddConstraint "courier_applications" "CK_courier_applications_status"
    (CheckThat (OneOf "status" ["pending"; "approved"; "rejected"]));
  AddColumn "courier_applications" "rejectedAt" (optional TimestampTz)].

Definition CourierApplicationRejection_down : list Statement := [
  Rows [("courier_applications", ["status"])];
  DropColumn "courier_applications" "rejectedAt";
  DropConstraint "courier_applications" "CK_courier_applications_status";
  AddConstraint "courier_applications" "CK_courier_applications_status" (CheckThat (OneOf "status" ["pending"; "approved"]))].

Definition SellerApplicationRejectedAt_up : list Statement := [AddColumn "merchant_verifications" "rejectedAt" (optional TimestampTz)].

Definition SellerApplicationRejectedAt_down : list Statement := [DropColumn "merchant_verifications" "rejectedAt"].

Definition Passkeys_up : list Statement := [
  CreateTable "passkeys" [
      ("id", defaulted Uuid GeneratedUuid); ("userId", required Integer); ("credentialId", required Text);
      ("publicKey", required Bytea); ("signCount", required Bigint); ("transports", required TextArray);
      ("deviceType", required (varchar_of 32)); ("backedUp", required Boolean); ("name", required (varchar_of 64));
      ("createdAt", defaulted TimestampTz Now); ("lastUsedAt", optional TimestampTz)]
    [("UQ_passkeys_credential_id", Unique ["credentialId"]);
     ("CK_passkeys_device_type", CheckThat (OneOf "deviceType" ["singleDevice"; "multiDevice"]));
     ("PK_passkeys", PrimaryKey ["id"])];
  CreateIndex "ix_passkeys_user" (index_on "passkeys" ["userId"]);
  AddConstraint "passkeys" "FK_passkeys_user" to_user;
  CreateTable "passkey_challenges" [
      ("id", defaulted Uuid GeneratedUuid); ("userId", required Integer); ("purpose", required (varchar_of 16));
      ("challenge", required Text); ("mfaJti", optional Uuid); ("expiresAt", required TimestampTz); ("usedAt", optional TimestampTz)]
    [("UQ_passkey_challenges_mfa_jti", Unique ["mfaJti"]);
     ("CK_passkey_challenges_purpose", CheckThat (OneOf "purpose" ["register"; "sign_in"]));
     ("CK_passkey_challenges_mfa_jti", CheckThat (SameC (OneOf "purpose" ["sign_in"]) (NotC (IsNull "mfaJti"))));
     ("PK_passkey_challenges", PrimaryKey ["id"])];
  CreateIndex "ix_passkey_challenges_expires" (index_on "passkey_challenges" ["expiresAt"]);
  AddConstraint "passkey_challenges" "FK_passkey_challenges_user" to_user].

Definition Passkeys_down : list Statement := [DropTable "passkey_challenges"; DropTable "passkeys"].

(** ** The data source *)

Definition migrations : list Migration := [
  mkMigration "InitialSchema1788322826135" InitialSchema_up InitialSchema_down;
  mkMigration "Principals1788512628577" Principals_up Principals_down;
  mkMigration "TokenLifecycle1788900000000" TokenLifecycle_up TokenLifecycle_down;
  mkMigration "ProfileProvenance1788950000000" ProfileProvenance_up ProfileProvenance_down;
  mkMigration "PrincipalForEveryUser1789000000000" PrincipalForEveryUser_up PrincipalForEveryUser_down;
  mkMigration "GeocodedAddresses1789100000000" GeocodedAddresses_up GeocodedAddresses_down;
  mkMigration "ProfileCoordinates1789200000000" ProfileCoordinates_up ProfileCoordinates_down;
  mkMigration "MerchantStoreAddress1789300000000" MerchantStoreAddress_up MerchantStoreAddress_down;
  mkMigration "MerchantCursorPrecision1789400000000" MerchantCursorPrecision_up MerchantCursorPrecision_down;
  mkMigration "MerchantChangeTransaction1789500000000" MerchantChangeTransaction_up MerchantChangeTransaction_down;
  mkMigration "CaseInsensitiveEmail1789600000000" CaseInsensitiveEmail_up CaseInsensitiveEmail_down;
  mkMigration "TwoFactorLastStep1789610000000" TwoFactorLastStep_up TwoFactorLastStep_down;
  mkMigration "CourierApplications1789620000000" CourierApplications_up CourierApplications_down;
  mkMigration "NoPlaceholderStoreDescription1789630000000" NoPlaceholderStoreDescription_up NoPlaceholderStoreDescription_down;
  mkMigration "SignInAttempts1789640000000" SignInAttempts_up SignInAttempts_down;
  mkMigration "RefreshTokenClient1789650000000" RefreshTokenClient_up RefreshTokenClient_down;
  mkMigration "CourierApplicationRejection1789660000000" CourierApplicationRejection_up CourierApplicationRejection_down;
  mkMigration "SellerApplicationRejectedAt1789670000000" SellerApplicationRejectedAt_up SellerApplicationRejectedAt_down;
  mkMigration "Passkeys1789680000000" Passkeys_up Passkeys_down].

(** The schema after the first [n] migrations, from an empty database. *)
Definition schema_at (n : nat) : res SqlError Schema := exec_all (flat_map up (take n migrations)) empty_schema.

(** ** Running and reverting *)

(** The same tables, indexes, triggers and functions. Extensions stay: no migration removes one. *)
Definition same_objects (s s' : Schema) : Prop :=
  tables s = tables s' /\ indexes s = indexes s' /\ triggers s = triggers s' /\ functions s = functions s'.
#[export] Instance same_objects_dec s s' : Decision (same_objects s s').
Proof. unfold same_objects. apply _. Defined.

Definition reverts (n : nat) : bool :=
  match nth_error migrations n with
  | None => true
  | Some m =>
      match schema_at n with
      | Err _ => false
      | Ok s =>
          match exec_all (up m) s with
          | Err _ => false
          | Ok s' => match exec_all (down m) s' with Ok s'' => bool_decide (same_objects s'' s) | Err _ => false end
          end
      end
  end.

Lemma all_revert : forallb reverts (seq 0 (List.length migrations)) = true.
Proof. vm_compute. reflexivity. Qed.

Lemma nth_error_In_seq {A} (l : list A) n x : nth_error l n = Some x -> In n (seq 0 (List.length l)).
Proof. intros H. apply in_seq. split; [lia|]. apply nth_error_Some. by rewrite H. Qed.

(** C33: Every migration runs on the schema that the ones before it build, and its [down] then succeeds and
    leaves the schema as it was; reverting all of them from the newest to the oldest leaves nothing but
    the extension. *)
Theorem migrations_run_and_revert :
  (forall n m, nth_error migrations n = Some m ->
     exists s s' s'', schema_at n = Ok s /\ exec_all (up m) s = Ok s' /\ exec_all (down m) s' = Ok s'' /\ same_objects s'' s) /\
  exists s, schema_at (List.length migrations) = Ok s /\
    exec_all (flat_map down (rev migrations)) s = Ok (with_extensions (fun _ => {["pgcrypto"]}) empty_schema).
Proof.
  split.
  - intros n m Hm. pose proof all_revert as H. rewrite forallb_forall in H. specialize (H n (nth_error_In_seq _ _ _ Hm)).
    unfold reverts in H. rewrite Hm in H. destruct (schema_at n) as [s|] eqn:Es; [|done].
    destruct (exec_all (up m) s) as [s'|] eqn:Eu; [|done]. destruct (exec_all (down m) s') as [s''|] eqn:Ed; [|done].
    exists s, s', s''. by apply bool_decide_eq_true in H.
  - assert (match schema_at (List.length migrations) with
            | Ok s => bool_decide (exec_all (flat_map down (rev migrations)) s =
                                   Ok (with_extensions (fun _ => {["pgcrypto"]}) empty_schema))
            | Err _ => false
            end = true) as H by (vm_compute; reflexivity).
    destruct (schema_at _) as [s|]; [|done]. exists s. by apply bool_decide_eq_true in H.
Qed.
