(* ===== verification/Entities.v ===== *)
(** * The entities and the tables they stand for

    Models the decorators of src/src/infrastructure/persistence/entities and the list of entities in
    src/src/data-source.ts. An entity declares a table: its columns, its keys, its indexes, its checks
    and the tables it refers to. What a decorator declares follows TypeORM's documentation for
    PostgreSQL: a column without a type gets the one of its property's type, a generated column its
    default. The names of keys that the decorators leave out are TypeORM's, and are not compared.

    Main results: the schema the migrations build is the one the entities declare, column by column and
    constraint by constraint, in both directions; every key the store's tables and the [ON CONFLICT]
    clauses rely on is there. *)

From S2P Require Import Prelude JsString Schema Migrations.
From stdpp Require Import gmap strings.
From Stdlib Require Import String.
Local Open Scope string_scope.
Local Open Scope Z_scope.

(** ** Declarations *)

(** The type of a property, as the compiler hands it to a decorator. *)
Inductive DesignType := PString | PNumber | PBoolean | PDate.

Definition type_of_property (t : DesignType) : SqlType :=
  match t with PString => Varchar None | PNumber => Integer | PBoolean => Boolean | PDate => Timestamp None end.

Record ColumnDecl := mkDecl {
  decl_name : string;
  decl_column : Column;
  decl_unique : bool;
  decl_primary : bool
}.

(** [@Column()], [@Column({ type })]. *)
Definition inferred (name : string) (t : DesignType) : ColumnDecl := mkDecl name (required (type_of_property t)) false false.
Definition typed (name : string) (t : SqlType) : ColumnDecl := mkDecl name (required t) false false.

(** [{ nullable: true }], [{ unique: true }], [{ default }]. *)
Definition nullable (d : ColumnDecl) : ColumnDecl :=
  mkDecl (decl_name d) (mkColumn (col_type (decl_column d)) true (col_default (decl_column d))) (decl_unique d) (decl_primary d).
Definition unique (d : ColumnDecl) : ColumnDecl := mkDecl (decl_name d) (decl_column d) true (decl_primary d).
Definition default_to (v : Default) (d : ColumnDecl) : ColumnDecl :=
  mkDecl (decl_name d) (mkColumn (col_type (decl_column d)) (col_nullable (decl_column d)) (Some v)) (decl_unique d) (decl_primary d).

Definition PrimaryGeneratedColumn (name : string) : ColumnDecl := mkDecl name serial false true.
Definition PrimaryGeneratedColumn_uuid (name : string) : ColumnDecl := mkDecl name (defaulted Uuid GeneratedUuid) false true.
Definition PrimaryColumn (name : string) (t : SqlType) : ColumnDecl := mkDecl name (required t) false true.
(** [@CreateDateColumn] and [@UpdateDateColumn]; without a type they are timestamps. *)
Definition DateColumn (name : string) (t : SqlType) : ColumnDecl := mkDecl name (defaulted t Now) false false.

(** [@ManyToOne] with its [@JoinColumn]: it refers to the primary key of the target. *)
Record RelationDecl := mkRelation { join_column : string; relation_target : string; relation_onDelete : OnDelete; foreign_name : option string }.

(** [@Index]. One that TypeORM is told not to synchronize is only named. *)
Inductive IndexDecl := SynchronizedIndex (columns : list string) (is_unique : bool) | UnsynchronizedIndex.

Record Entity := mkEntity {
  entity_table : string;
  primary_name : option string;
  entity_columns : list ColumnDecl;
  entity_uniques : list (string * list string);
  entity_indexes : list (string * IndexDecl);
  entity_checks : list (string * Condition);
  entity_relations : list RelationDecl
}.

Definition tz : SqlType := TimestampTz.

(** ** The entities *)

Definition UserTypeormEntity : Entity := mkEntity "users" None [
  PrimaryGeneratedColumn "id";
  unique (inferred "email" PString);
  inferred "passwordHash" PString;
  default_to (TextDefault "customer") (inferred "role" PString);
  default_to (BooleanDefault false) (inferred "isTwoFactorEnabled" PBoolean);
  nullable (typed "twoFactorSecret" varchar);
  nullable (typed "twoFactorLastStep" Integer);
  DateColumn "createdAt" timestamp;
  DateColumn "updatedAt" timestamp]
  [] [("UQ_users_email_lower", UnsynchronizedIndex)] [] [].

Definition PrincipalTypeormEntity : Entity := mkEntity "principals" None [
  PrimaryGeneratedColumn_uuid "id";
  typed "kind" (varchar_of 32);
  nullable (typed "displayName" (varchar_of 255));
  DateColumn "createdAt" tz;
  DateColumn "updatedAt" tz]
  [] [] [] [].

Definition PrincipalAliasTypeormEntity : Entity := mkEntity "principal_aliases" None [
  PrimaryGeneratedColumn "id";
  typed "principalId" Uuid;
  typed "service" (varchar_of 32);
  typed "localId" (varchar_of 128);
  DateColumn "createdAt" tz]
  [("uq_principal_aliases_service_local_id", ["service"; "localId"])]
  [("ix_principal_aliases_service_local_id", SynchronizedIndex ["service"; "localId"] false)]
  []
  [mkRelation "principalId" "principals" Cascade (Some "FK_principal_aliases_principal")].

Definition RefreshTokenTypeormEntity : Entity := mkEntity "refresh_tokens" None [
  PrimaryGeneratedColumn_uuid "id";
  unique (typed "jti" Uuid);
  typed "familyId" Uuid;
  typed "principalId" Uuid;
  typed "userId" Integer;
  nullable (typed "client" (varchar_of 64));
  typed "expiresAt" tz;
  nullable (typed "usedAt" tz);
  nullable (typed "revokedAt" tz);
  nullable (typed "revokedReason" (varchar_of 32));
  nullable (typed "replacedByJti" Uuid);
  DateColumn "createdAt" tz]
  []
  [("ix_refresh_tokens_family", SynchronizedIndex ["familyId"] false);
   ("ix_refresh_tokens_principal", SynchronizedIndex ["principalId"] false)]
  []
  [mkRelation "principalId" "principals" Cascade (Some "FK_refresh_tokens_principal")].

Definition RevokedAccessTokenTypeormEntity : Entity := mkEntity "revoked_access_tokens" None [
  PrimaryGeneratedColumn_uuid "id";
  unique (typed "jti" Uuid);
  typed "expiresAt" tz;
  typed "reason" (varchar_of 32);
  DateColumn "createdAt" tz]
  [] [("ix_revoked_access_tokens_expires", SynchronizedIndex ["expiresAt"] false)] [] [].

Definition ProfileTypeormEntity : Entity := mkEntity "profiles" None [
  PrimaryGeneratedColumn "id";
  unique (inferred "userId" PNumber);
  default_to (TextDefault "") (inferred "fullName" PString);
  default_to (TextDefault "") (inferred "phoneNumber" PString);
  default_to (TextDefault "") (inferred "streetAddress" PString);
  default_to (TextDefault "") (inferred "city" PString);
  default_to (TextDefault "") (inferred "postalCode" PString);
  nullable (inferred "avatarUrl" PString);
  nullable (typed "latitude" DoublePrecision);
  nullable (typed "longitude" DoublePrecision);
  nullable (typed "geocodedAt" tz);
  DateColumn "createdAt" tz;
  DateColumn "updatedAt" tz]
  [] [("ix_profiles_created", SynchronizedIndex ["createdAt"] false)]
  [("CK_profiles_point_on_earth", POINT_ON_EARTH)]
  [mkRelation "userId" "users" Cascade None].

Definition MerchantVerificationTypeormEntity : Entity := mkEntity "merchant_verifications" None [
  PrimaryGeneratedColumn "id";
  unique (inferred "userId" PNumber);
  inferred "storeName" PString;
  inferred "businessRegistrationNumber" PString;
  inferred "taxId" PString;
  default_to (TextDefault "") (inferred "streetAddress" PString);
  default_to (TextDefault "") (inferred "city" PString);
  default_to (TextDefault "") (inferred "postalCode" PString);
  default_to (TextDefault "pending") (inferred "status" PString);
  nullable (inferred "verifiedAt" PDate);
  nullable (typed "rejectedAt" tz)]
  [] [] [] [mkRelation "userId" "users" Cascade None].

Definition MerchantTypeormEntity : Entity := mkEntity "merchants" None [
  PrimaryGeneratedColumn "id";
  unique (inferred "userId" PNumber);
  inferred "storeName" PString;
  unique (inferred "slug" PString);
  nullable (typed "description" varchar);
  inferred "businessRegistrationNumber" PString;
  inferred "taxId" PString;
  default_to (TextDefault "pending") (inferred "status" PString);
  nullable (inferred "verifiedAt" PDate);
  default_to (TextDefault "") (inferred "streetAddress" PString);
  default_to (TextDefault "") (inferred "city" PString);
  default_to (TextDefault "") (inferred "postalCode" PString);
  nullable (typed "latitude" DoublePrecision);
  nullable (typed "longitude" DoublePrecision);
  nullable (typed "geocodedAt" tz);
  DateColumn "createdAt" timestamp;
  DateColumn "updatedAt" (Timestamp (Some 3))]
  [] [] [("CK_merchants_point_on_earth", POINT_ON_EARTH)]
  [mkRelation "userId" "users" Cascade None].

Definition GeocodedAddressTypeormEntity : Entity := mkEntity "geocoded_addresses" None [
  PrimaryGeneratedColumn "id";
  typed "query" Text;
  typed "latitude" DoublePrecision;
  typed "longitude" DoublePrecision;
  inferred "provider" PString;
  default_to (TextDefault "UNSPECIFIED") (inferred "precision" PString);
  nullable (typed "displayName" Text);
  DateColumn "createdAt" tz;
  DateColumn "updatedAt" tz]
  [] [("UQ_geocoded_addresses_query", SynchronizedIndex ["query"] true)]
  [("CK_geocoded_addresses_on_earth", ON_EARTH)] [].

Definition CourierApplicationTypeormEntity : Entity := mkEntity "courier_applications" None [
  PrimaryGeneratedColumn "id";
  typed "userId" Integer;
  typed "principalId" Uuid;
  nullable (typed "driverId" Bigint);
  default_to (TextDefault "pending") (typed "status" (varchar_of 16));
  DateColumn "filedAt" tz;
  nullable (typed "approvedAt" tz);
  nullable (typed "rejectedAt" tz)]
  [("UQ_courier_applications_user", ["userId"])] []
  [("CK_courier_applications_status", OneOf "status" ["pending"; "approved"; "rejected"])]
  [mkRelation "userId" "users" Cascade (Some "FK_courier_applications_user");
   mkRelation "principalId" "principals" Cascade (Some "FK_courier_applications_principal")].

Definition AccountSignInAttemptTypeormEntity : Entity := mkEntity "account_sign_in_attempts" (Some "PK_account_sign_in_attempts") [
  PrimaryColumn "accountKey" (varchar_of 64);
  typed "attempts" Integer;
  typed "lastAttemptAt" tz;
  typed "delayedUntil" tz]
  [] [("ix_account_sign_in_attempts_last_attempt", SynchronizedIndex ["lastAttemptAt"] false)] [] [].

Definition TwoFactorChallengeAttemptTypeormEntity : Entity :=
  mkEntity "two_factor_challenge_attempts" (Some "PK_two_factor_challenge_attempts") [
  PrimaryColumn "jti" Uuid;
  typed "attempts" Integer;
  typed "expiresAt" tz]
  [] [("ix_two_factor_challenge_attempts_expires", SynchronizedIndex ["expiresAt"] false)] [] [].

Definition PasskeyTypeormEntity : Entity := mkEntity "passkeys" (Some "PK_passkeys") [
  PrimaryGeneratedColumn_uuid "id";
  typed "userId" Integer;
  typed "credentialId" Text;
  typed "publicKey" Bytea;
  typed "signCount" Bigint;
  typed "transports" TextArray;
  typed "deviceType" (varchar_of 32);
  typed "backedUp" Boolean;
  typed "name" (varchar_of 64);
  DateColumn "createdAt" tz;
  nullable (typed "lastUsedAt" tz)]
  [("UQ_passkeys_credential_id", ["credentialId"])]
  [("ix_passkeys_user", SynchronizedIndex ["userId"] false)]
  [("CK_passkeys_device_type", OneOf "deviceType" ["singleDevice"; "multiDevice"])]
  [mkRelation "userId" "users" Cascade (Some "FK_passkeys_user")].

Definition PasskeyChallengeTypeormEntity : Entity := mkEntity "passkey_challenges" (Some "PK_passkey_challenges") [
  PrimaryGeneratedColumn_uuid "id";
  typed "userId" Integer;
  typed "purpose" (varchar_of 16);
  typed "challenge" Text;
  nullable (typed "mfaJti" Uuid);
  typed "expiresAt" tz;
  nullable (typed "usedAt" tz)]
  [("UQ_passkey_challenges_mfa_jti", ["mfaJti"])]
  [("ix_passkey_challenges_expires", SynchronizedIndex ["expiresAt"] false)]
  [("CK_passkey_challenges_purpose", OneOf "purpose" ["register"; "sign_in"]);
   ("CK_passkey_challenges_mfa_jti", SameC (OneOf "purpose" ["sign_in"]) (NotC (IsNull "mfaJti")))]
  [mkRelation "userId" "users" Cascade (Some "FK_passkey_challenges_user")].

Definition entities : list Entity := [
  PrincipalTypeormEntity; PrincipalAliasTypeormEntity; RefreshTokenTypeormEntity; RevokedAccessTokenTypeormEntity;
  UserTypeormEntity; ProfileTypeormEntity; MerchantVerificationTypeormEntity; MerchantTypeormEntity;
  GeocodedAddressTypeormEntity; CourierApplicationTypeormEntity; AccountSignInAttemptTypeormEntity;
  TwoFactorChallengeAttemptTypeormEntity; PasskeyTypeormEntity; PasskeyChallengeTypeormEntity].

(** ** What an entity declares, and a schema that has it *)

Definition primary_columns (e : Entity) : list string := map decl_name (List.filter decl_primary (entity_columns e)).

(** The columns a relation to a table refers to. *)
Definition target_key (table : string) : list string :=
  match List.find (fun e => String.eqb (entity_table e) table) entities with Some e => primary_columns e | None => [] end.

(** The constraints an entity declares; [None] is a name left to TypeORM. *)
Definition declared (e : Entity) : list (option string * Constraint) :=
  ((primary_name e, PrimaryKey (primary_columns e)) ::
   map (fun d => (None, Unique [decl_name d])) (List.filter decl_unique (entity_columns e)) ++
   map (fun '(n, cs) => (Some n, Unique cs)) (entity_uniques e) ++
   map (fun '(n, p) => (Some n, CheckThat p)) (entity_checks e) ++
   map (fun r => (foreign_name r, ForeignKey [join_column r] (relation_target r) (target_key (relation_target r)) (relation_onDelete r)))
     (entity_relations e))%list.

Definition names (declared_name : option string) (name : string) : bool :=
  match declared_name with Some n => String.eqb n name | None => true end.

Definition declared_columns (e : Entity) : gmap string Column := list_to_map (map (fun d => (decl_name d, decl_column d)) (entity_columns e)).

Definition index_declared (table : string) (d : IndexDecl) (i : Index) : bool :=
  match d with
  | SynchronizedIndex cs u => bool_decide (i = mkIndex table (map OnColumn cs) u)
  | UnsynchronizedIndex => String.eqb (index_table i) table
  end.

(** The schema has the table of an entity, with the declared columns, constraints and indexes and with
    no others. *)
Record represents (s : Schema) (e : Entity) (t : Table) : Prop := {
  has_table : tables s !! entity_table e = Some t;
  same_columns : columns t = declared_columns e;
  has_constraints : forall n k, (n, k) ∈ declared e -> exists name, constraints t !! name = Some k /\ names n name = true;
  no_other_constraints : forall name k, constraints t !! name = Some k -> exists n, (n, k) ∈ declared e /\ names n name = true;
  has_indexes : forall name d, (name, d) ∈ entity_indexes e -> exists i, indexes s !! name = Some i /\ index_declared (entity_table e) d i = true;
  no_other_indexes : forall name i, indexes s !! name = Some i -> index_table i = entity_table e -> name ∈ map fst (entity_indexes e)
}.

Definition represented (s : Schema) (e : Entity) : bool :=
  match tables s !! entity_table e with
  | None => false
  | Some t =>
      bool_decide (columns t = declared_columns e) &&
      forallb (fun '(n, k) => existsb (fun '(name, k') => bool_decide (k' = k) && names n name) (map_to_list (constraints t))) (declared e) &&
      forallb (fun '(name, k') => existsb (fun '(n, k) => bool_decide (k = k') && names n name) (declared e)) (map_to_list (constraints t)) &&
      forallb (fun '(name, d) => match indexes s !! name with Some i => index_declared (entity_table e) d i | None => false end)
        (entity_indexes e) &&
      forallb (fun '(name, i) => negb (bool_decide (index_table i = entity_table e)) || bool_decide (name ∈ map fst (entity_indexes e)))
        (map_to_list (indexes s))
  end.

Lemma represented_spec s e : represented s e = true -> exists t, represents s e t.
Proof.
  unfold represented. destruct (tables s !! entity_table e) as [t|] eqn:Et; [|done].
  rewrite !andb_true_iff, !forallb_forall, bool_decide_eq_true. intros [[[[Hc H1] H2] H3] H4]. exists t. split; [done|done|..].
  - intros n k Hin%list_elem_of_In. specialize (H1 _ Hin). cbv beta iota in H1. apply existsb_exists in H1 as ([name k'] & Hm & H).
    apply andb_true_iff in H as [->%bool_decide_eq_true Hn]. exists name. split; [|done].
    by apply elem_of_map_to_list, list_elem_of_In.
  - intros name k Hk%elem_of_map_to_list%list_elem_of_In. specialize (H2 _ Hk). cbv beta iota in H2.
    apply existsb_exists in H2 as ([n k'] & Hm & H). apply andb_true_iff in H as [->%bool_decide_eq_true Hn].
    exists n. split; [by apply list_elem_of_In|done].
  - intros name d Hd%list_elem_of_In. specialize (H3 _ Hd). cbv beta iota in H3. destruct (indexes s !! name) as [i|]; [eauto|done].
  - intros name i Hi%elem_of_map_to_list%list_elem_of_In Ht. specialize (H4 _ Hi). cbv beta iota in H4.
    rewrite (bool_decide_eq_true_2 _ Ht) in H4. by apply bool_decide_eq_true in H4.
Qed.

(** The schema of the service's database. *)
Definition latest : nat := List.length migrations.

Definition all_represented : bool :=
  match schema_at latest with
  | Err _ => false
  | Ok s => forallb (represented s) entities &&
            bool_decide (dom (tables s) = {["merchant_change_feed"]} ∪ list_to_set (map entity_table entities))
  end.

Lemma all_represented_true : all_represented = true.
Proof. vm_compute. reflexivity. Qed.

(** C32: The database that the migrations build from nothing is the one the entities declare: each entity has
    its table with exactly the columns it declares, of the declared types, defaults and nullability, with
    exactly its keys, checks and foreign keys, and with exactly its indexes; and but for the table of the
    merchant change feed, which no entity stands for, there is no other table. *)
Theorem migrated_schema_is_declared :
  exists s, schema_at latest = Ok s /\
    Forall (fun e => exists t, represents s e t) entities /\
    dom (tables s) = {["merchant_change_feed"]} ∪ list_to_set (map entity_table entities).
Proof.
  pose proof all_represented_true as H. unfold all_represented in H. destruct (schema_at latest) as [s|]; [|done].
  apply andb_true_iff in H as [H Hd%bool_decide_eq_true]. exists s. split_and!; [done| |done].
  apply Forall_forall. intros e He%list_elem_of_In. apply represented_spec. rewrite forallb_forall in H. by apply H.
Qed.

(** ** The keys the service relies on *)

(** No two rows of the table agree on these columns: a key of the table, or a unique index on exactly
    these columns. *)
Definition kept_apart (s : Schema) (table : string) (keys : list IndexKey) : Prop :=
  (exists t name k, tables s !! table = Some t /\ constraints t !! name = Some k /\ is_key k = true /\
     keys = map OnColumn (constraint_columns k)) \/
  (exists name i, indexes s !! name = Some i /\ i = mkIndex table keys true).

Definition kept_apartb (s : Schema) (table : string) (keys : list IndexKey) : bool :=
  match tables s !! table with
  | None => false
  | Some t => existsb (fun '(_, k) => is_key k && bool_decide (keys = map OnColumn (constraint_columns k))) (map_to_list (constraints t))
  end || existsb (fun '(_, i) => bool_decide (i = mkIndex table keys true)) (map_to_list (indexes s)).

Lemma kept_apartb_spec s table keys : kept_apartb s table keys = true -> kept_apart s table keys.
Proof.
  unfold kept_apartb. intros [H|H]%orb_true_iff.
  - left. destruct (tables s !! table) as [t|] eqn:Et; [|done]. apply existsb_exists in H as ([name k] & Hin & H).
    apply andb_true_iff in H as [Hk ->%bool_decide_eq_true]. exists t, name, k. split_and!; [done| |done..].
    by apply elem_of_map_to_list, list_elem_of_In.
  - right. apply existsb_exists in H as ([name i] & Hin & H%bool_decide_eq_true). exists name, i. split; [|done].
    by apply elem_of_map_to_list, list_elem_of_In.
Qed.

Definition on (cs : list string) : list IndexKey := map OnColumn cs.

(** The columns the tables of Store.v are keyed by, and those its operations keep apart. *)
Definition STORE_KEYS : list (string * list IndexKey) := [
  ("users", on ["id"]); ("users", [OnLower "email"]); ("principals", on ["id"]); ("principal_aliases", on ["service"; "localId"]);
  ("refresh_tokens", on ["jti"]); ("revoked_access_tokens", on ["jti"]); ("account_sign_in_attempts", on ["accountKey"]);
  ("two_factor_challenge_attempts", on ["jti"]); ("passkeys", on ["id"]); ("passkeys", on ["credentialId"]); ("passkey_challenges", on ["id"]);
  ("passkey_challenges", on ["mfaJti"]); ("profiles", on ["id"]); ("profiles", on ["userId"]); ("merchants", on ["id"]);
  ("merchants", on ["userId"]); ("merchants", on ["slug"]); ("merchant_verifications", on ["id"]);
  ("merchant_verifications", on ["userId"]); ("courier_applications", on ["id"]); ("courier_applications", on ["userId"]);
  ("geocoded_addresses", on ["query"]); ("merchant_change_feed", on ["merchant_id"])].

(** The targets of the [ON CONFLICT] clauses. A statement whose target no key or unique index covers is
    refused by the database, whatever its rows. *)
Definition CONFLICT_TARGETS : list (string * list string) := [
  ("two_factor_challenge_attempts", ["jti"]); ("account_sign_in_attempts", ["accountKey"]); ("passkey_challenges", ["mfaJti"]);
  ("courier_applications", ["userId"]); ("passkeys", ["credentialId"]); ("principal_aliases", ["service"; "localId"]);
  ("merchant_change_feed", ["merchant_id"])].

(** The migrated database keeps apart the rows the operations of the service rely on being apart, and every
    [ON CONFLICT] names a key of its table. *)
Theorem keys_are_kept_apart :
  exists s, schema_at latest = Ok s /\
    Forall (fun '(table, keys) => kept_apart s table keys) STORE_KEYS /\
    Forall (fun '(table, cs) => kept_apart s table (on cs)) CONFLICT_TARGETS.
Proof.
  assert (match schema_at latest with
          | Ok s => forallb (fun '(table, keys) => kept_apartb s table keys) STORE_KEYS &&
                    forallb (fun '(table, cs) => kept_apartb s table (on cs)) CONFLICT_TARGETS
          | Err _ => false
          end = true) as H by (vm_compute; reflexivity).
  destruct (schema_at latest) as [s|]; [|done]. apply andb_true_iff in H as [H1 H2]. exists s. split; [done|].
  split; apply Forall_forall; intros [table x] Hin%list_elem_of_In; apply kept_apartb_spec.
  - rewrite forallb_forall in H1. exact (H1 _ Hin).
  - rewrite forallb_forall in H2. exact (H2 _ Hin).
Qed.
