(* ===== verification/WrittenRows.v ===== *)
(** * The rows the service writes, and how they fit their tables

    The columns each adapter of src/src/infrastructure/persistence/adapters and the token, principal and
    alias services write for a row of Store.v, and when they meet what the schema of the migrations asks
    of a row taken by itself: the value of every column is of its type and within its width or range, no
    column that must not be null is null, and no CHECK is false. The constraints that compare a row with
    others (UNIQUE, FOREIGN KEY) are not here: the operations of Store.v and of the services check them
    where the database does, and Entities.v says which there are.

    And what the adapters make of a record they read.

    Main results: a row fits its table exactly if its numbers, texts, ids and instants fit their columns and
    its point, where the table has one, passes the model's check; an enumeration always fits; and a row is
    read back as it was written. *)

From S2P Require Import Prelude JsString Domain Store Accounts Records Geocoding Profiles Sellers Grpc GeoGrpc Schema Migrations Entities.
From stdpp Require Import gmap strings.
From Stdlib Require Import Ascii String QArith_base.
Local Open Scope string_scope.
Local Open Scope Z_scope.

(** ** What a table asks of a row *)

Definition fits_integer (bits : Z) (z : Z) : bool := (- 2 ^ (bits - 1) <=? z) && (z <? 2 ^ (bits - 1)).

(** A text holds no NUL character. *)
Definition storable (s : string) : bool := forallb (fun c => negb (code c =? 0)) (str_list s).
Definition storable_all (l : list string) : bool := forallb storable l.

(** A text is no longer than its column is wide; spaces at its end do not count (they are cut off). *)
Definition fits_text (n : Z) (s : string) : bool :=
  storable s && forallb (fun c => Ascii.eqb c " ") (drop (Z.to_nat n) (str_list s)).

(** The texts PostgreSQL reads as a UUID: 32 hexadecimal digits, which may be in braces, with a hyphen
    after every group of four digits or not. *)
Definition is_hex (c : ascii) : bool := is_digit c || ((65 <=? code c) && (code c <=? 70)) || ((97 <=? code c) && (code c <=? 102)).

(** What follows [n] more bytes. *)
Fixpoint after_bytes (n : nat) (l : list ascii) : option (list ascii) :=
  match n with
  | O => Some l
  | S n' =>
      match l with
      | a :: b :: l =>
          if is_hex a && is_hex b
          then after_bytes n' (match l with
                               | c :: l' => if Ascii.eqb c "-" && Nat.odd n && negb (Nat.eqb n' 0) then l' else l
                               | [] => l
                               end)
          else None
      | _ => None
      end
  end.

Definition fits_uuid (s : string) : bool :=
  match str_list s with
  | c :: l =>
      if Ascii.eqb c "{"
      then match after_bytes 16 l with Some [d] => Ascii.eqb d "}" | _ => false end
      else match after_bytes 16 (c :: l) with Some [] => true | _ => false end
  | [] => false
  end.

(** The milliseconds of the instants a timestamp holds, from 4713 BC to the year 294276. *)
Definition fits_instant (ms : Z) : bool := (-210866803200000 <=? ms) && (ms <? 9224318016000000).

Definition fits_type (t : SqlType) (v : SqlValue) : bool :=
  match t, v with
  | _, SqlNull => true
  | Varchar (Some n), SqlText s => fits_text n s
  | (Varchar None | Text), SqlText s => storable s
  | Integer, SqlInteger z => fits_integer 32 z
  | Bigint, SqlInteger z => fits_integer 64 z
  | DoublePrecision, SqlNumber _ => true
  | Boolean, SqlBoolean _ | Bytea, SqlBytes _ => true
  | Uuid, SqlUuid s => fits_uuid s
  | TextArray, SqlTexts l => storable_all l
  | _, SqlInstant t' ms => bool_decide (t = t') && fits_instant ms
  | _, SqlValueOf t' => bool_decide (t = t')
  | _, _ => false
  end.

(** The columns a statement gives; the others get their default, or null. *)
Definition Given := list (string * SqlValue).

Fixpoint given_value (name : string) (row : Given) : option SqlValue :=
  match row with
  | [] => None
  | (n, v) :: row => if String.eqb n name then Some v else given_value name row
  end.

Definition stored_value (row : Given) (name : string) (c : Column) : SqlValue :=
  match given_value name row with
  | Some v => v
  | None => match col_default c with Some _ => SqlValueOf (col_type c) | None => SqlNull end
  end.

Definition fits_column (row : Given) (name : string) (c : Column) : bool :=
  let v := stored_value row name c in
  fits_type (col_type c) v && (col_nullable c || match v with SqlNull => false | _ => true end).

Definition checks (t : Table) : list Condition :=
  flat_map (fun '(_, k) => match k with CheckThat p => [p] | _ => [] end) (map_to_list (constraints t)).

(** What the checks see of a row: the columns no statement gives have defaults that no check is about. *)
Definition seen (row : Given) (name : string) : SqlValue := default SqlNull (given_value name row).

Definition row_fits (t : Table) (row : Given) : bool :=
  forallb (fun '(name, _) => bool_decide (is_Some (columns t !! name))) row &&
  forallb (fun '(name, c) => fits_column row name c) (map_to_list (columns t)) &&
  forallb (fun p => passes p (seen row)) (checks t).

(** ** The rows *)

Definition or_null {A} (f : A -> SqlValue) (o : option A) : SqlValue := match o with Some a => f a | None => SqlNull end.
Definition instant : Z -> SqlValue := SqlInstant TimestampTz.
Definition local_instant : Z -> SqlValue := SqlInstant timestamp.
Definition uuid : string -> SqlValue := SqlUuid.
Definition flag : bool -> SqlValue := SqlBoolean.

(** [id: x.id > 0 ? x.id : undefined] *)
Definition id_given (id : Z) : Given := if 0 <? id then [("id", SqlInteger id)] else [].

Definition user_row (u : UserEntity) : Given := (id_given (user_id u) ++ [
  ("email", SqlText (user_email u)); ("passwordHash", SqlText (passwordHash u)); ("role", SqlText (role_name (user_role u)));
  ("isTwoFactorEnabled", flag (isTwoFactorEnabled u)); ("twoFactorSecret", or_null SqlText (twoFactorSecret u))])%list.

Definition profile_row (p : ProfileEntity) : Given := (id_given (profile_id p) ++ [
  ("userId", SqlInteger (profile_userId p)); ("fullName", SqlText (fullName p)); ("phoneNumber", SqlText (phoneNumber p));
  ("streetAddress", SqlText (profile_streetAddress p)); ("city", SqlText (profile_city p)); ("postalCode", SqlText (profile_postalCode p));
  ("avatarUrl", or_null SqlText (avatarUrl p)); ("latitude", or_null SqlNumber (profile_latitude p));
  ("longitude", or_null SqlNumber (profile_longitude p)); ("geocodedAt", or_null instant (profile_geocodedAt p))])%list.

Definition merchant_row (m : MerchantEntity) : Given := (id_given (merchant_id m) ++ [
  ("userId", SqlInteger (merchant_userId m)); ("storeName", SqlText (merchant_storeName m)); ("slug", SqlText (slug m));
  ("description", or_null SqlText (merchant_description m));
  ("businessRegistrationNumber", SqlText (merchant_businessRegistrationNumber m)); ("taxId", SqlText (merchant_taxId m));
  ("status", SqlText (merchant_state_name (merchant_status m))); ("verifiedAt", or_null local_instant (merchant_verifiedAt m));
  ("streetAddress", SqlText (merchant_streetAddress m)); ("city", SqlText (merchant_city m));
  ("postalCode", SqlText (merchant_postalCode m)); ("latitude", or_null SqlNumber (merchant_latitude m));
  ("longitude", or_null SqlNumber (merchant_longitude m)); ("geocodedAt", or_null instant (merchant_geocodedAt m))])%list.

Definition verification_row (v : MerchantVerificationEntity) : Given := (id_given (verification_id v) ++ [
  ("userId", SqlInteger (verification_userId v)); ("storeName", SqlText (storeName v));
  ("businessRegistrationNumber", SqlText (businessRegistrationNumber v)); ("taxId", SqlText (taxId v));
  ("status", SqlText (seller_status_name (verification_status v))); ("verifiedAt", or_null local_instant (verifiedAt v));
  ("rejectedAt", or_null instant (rejectedAt v)); ("streetAddress", SqlText (verification_streetAddress v));
  ("city", SqlText (verification_city v)); ("postalCode", SqlText (verification_postalCode v))])%list.

(** The row of account [userId] as the statements leave it. *)
Definition courier_row (userId : Z) (r : CourierApplicationRow) : Given := [
  ("id", SqlInteger (courier_id r)); ("userId", SqlInteger userId); ("principalId", uuid (courier_principalId r));
  ("driverId", or_null SqlInteger (courier_driverId r)); ("status", SqlText (courier_status_name (courier_status r)));
  ("filedAt", instant (filedAt r)); ("approvedAt", or_null instant (approvedAt r)); ("rejectedAt", or_null instant (courier_rejectedAt r))].

Definition geocoded_row (query provider : string) (p : ProviderPoint) : Given := [
  ("query", SqlText query); ("latitude", SqlNumber (latitude p)); ("longitude", SqlNumber (longitude p));
  ("provider", SqlText provider); ("precision", SqlText (precision_name (precision p))); ("displayName", or_null SqlText (displayName p))].

Definition passkey_row (k : PasskeyEntity) : Given := [
  ("userId", SqlInteger (passkey_userId k)); ("credentialId", SqlText (credentialId k)); ("publicKey", SqlBytes (publicKey k));
  ("signCount", SqlInteger (signCount k)); ("transports", SqlTexts (transports k));
  ("deviceType", SqlText (device_type_name (deviceType k))); ("backedUp", flag (backedUp k)); ("name", SqlText (passkey_name k))].

Definition purpose_name (p : ChallengePurpose) : string := match p with purpose_register => "register" | purpose_sign_in => "sign_in" end.

Definition challenge_row (id : string) (r : PasskeyChallengeRow) : Given := [
  ("id", uuid id); ("userId", SqlInteger (pc_userId r)); ("purpose", SqlText (purpose_name (purpose r)));
  ("challenge", SqlText (pc_challenge r)); ("mfaJti", or_null uuid (mfaJti r)); ("expiresAt", instant (pc_expiresAt r));
  ("usedAt", or_null instant (pc_usedAt r))].

Definition refresh_row (jti : string) (r : RefreshTokenRow) : Given := [
  ("jti", uuid jti); ("familyId", uuid (familyId r)); ("principalId", uuid (principalId r)); ("userId", SqlInteger (token_userId r));
  ("client", or_null SqlText (client r)); ("expiresAt", instant (expiresAt r)); ("usedAt", or_null instant (usedAt r));
  ("revokedAt", or_null instant (revokedAt r)); ("revokedReason", or_null SqlText (revokedReason r));
  ("replacedByJti", or_null uuid (replacedByJti r))].

Definition revoked_row (jti : string) (r : RevokedTokenRow) : Given := [
  ("jti", uuid jti); ("expiresAt", instant (revoked_expiresAt r)); ("reason", SqlText (revoked_reason r))].

Definition attempt_row (accountKey : string) (s : AttemptState) : Given := [
  ("accountKey", SqlText accountKey); ("attempts", SqlInteger (attempts s)); ("lastAttemptAt", instant (lastAttemptAt s));
  ("delayedUntil", instant (delayedUntil s))].

Definition challenge_attempt_row (jti : string) (r : ChallengeAttemptRow) : Given := [
  ("jti", uuid jti); ("attempts", SqlInteger (challenge_attempts r)); ("expiresAt", instant (challenge_row_expiresAt r))].

Definition principal_row (r : PrincipalRow) : Given := [
  ("kind", SqlText (kind_name (kind r))); ("displayName", or_null SqlText (principal_displayName r))].

Definition alias_row (principal service localId : string) : Given := [
  ("principalId", uuid principal); ("service", SqlText service); ("localId", SqlText localId)].

(** ** The tables of the migrated database *)

Definition fits (table : string) (row : Given) : bool :=
  match schema_at latest with
  | Ok s => match tables s !! table with Some t => row_fits t row | None => false end
  | Err _ => false
  end.

(** The parts of a table that decide. *)
Definition table_parts (table : string) : list (string * Column) * list Condition :=
  match schema_at latest with
  | Ok s => match tables s !! table with Some t => (map_to_list (columns t), checks t) | None => ([], []) end
  | Err _ => ([], [])
  end.

Definition fits_parts (parts : list (string * Column) * list Condition) (row : Given) : bool :=
  forallb (fun '(name, _) => existsb (fun '(n, _) => String.eqb n name) parts.1) row &&
  forallb (fun '(name, c) => fits_column row name c) parts.1 && forallb (fun p => passes p (seen row)) parts.2.

Lemma listed_column (m : gmap string Column) name :
  bool_decide (is_Some (m !! name)) = existsb (fun '(n, _) => String.eqb n name) (map_to_list m).
Proof.
  apply eq_bool_prop_intro. rewrite bool_decide_spec, Is_true_true, existsb_exists. split.
  - intros [c Hc]. exists (name, c). split; [by apply list_elem_of_In, elem_of_map_to_list|apply String.eqb_refl].
  - intros ([n c] & Hin%list_elem_of_In%elem_of_map_to_list & ->%String.eqb_eq). eauto.
Qed.

Lemma fits_by_parts table row : table_parts table <> ([], []) -> fits table row = fits_parts (table_parts table) row.
Proof.
  unfold table_parts, fits. destruct (schema_at latest) as [s|]; [|done]. destruct (tables s !! table) as [t|]; [|done].
  intros _. unfold row_fits, fits_parts. cbn [fst snd]. do 2 f_equal. induction row as [|[name v] row IH]; [done|].
  cbn [forallb]. by rewrite listed_column, IH.
Qed.

(** The parts of a table are computed; what is left of a row is the conditions on its values. *)
Ltac by_parts table :=
  rewrite (fits_by_parts table) by (vm_compute; discriminate);
  let parts := eval vm_compute in (table_parts table) in
  replace (table_parts table) with parts by (vm_compute; reflexivity).

Definition fits_id (id : Z) : bool := negb (0 <? id) || fits_integer 32 id.
Definition if_given {A} (f : A -> bool) (o : option A) : bool := match o with Some a => f a | None => true end.

(** Every value of a row is one condition, constants are computed and the same conditions are left on both sides. *)
Ltac decide_row :=
  cbv -[andb orb negb fits_integer fits_text fits_uuid fits_instant storable storable_all Qle_bool Z.ltb Z.leb];
  repeat match goal with
  | |- context [fits_text ?n ?x] => change (fits_text n x) with true
  | |- context [storable ?x] => change (storable x) with true
  end;
  repeat match goal with |- context [Qle_bool ?a ?b] => destruct (Qle_bool a b) end;
  cbn [andb orb negb]; rewrite ?andb_true_r, ?andb_false_r; try reflexivity;
  apply eq_true_iff_eq; rewrite ?andb_true_iff; split; intros; destruct_and?; split_and?; first [assumption|reflexivity|discriminate].

(** A challenge of a sign-in is that of a second factor, and a registration's of none. *)
Definition challenge_row_ok (r : PasskeyChallengeRow) : bool :=
  match purpose r, mfaJti r with purpose_register, None | purpose_sign_in, Some _ => true | _, _ => false end.

Lemma user_rows_fit u :
  fits "users" (user_row u) =
    fits_id (user_id u) && forallb storable [user_email u; passwordHash u] && if_given storable (twoFactorSecret u).
Proof. by_parts "users". destruct u as [id e h [] b []]; unfold user_row, id_given, fits_id; cbn [user_id]; destruct (0 <? id); decide_row. Qed.

Lemma profile_rows_fit p :
  fits "profiles" (profile_row p) =
    fits_id (profile_id p) && fits_integer 32 (profile_userId p) &&
    forallb storable [fullName p; phoneNumber p; profile_streetAddress p; profile_city p; profile_postalCode p] &&
    if_given storable (avatarUrl p) && if_given fits_instant (profile_geocodedAt p) && valid profile_table p.
Proof. by_parts "profiles". destruct p as [id u f ph st c po [] [] [] []]; unfold profile_row, id_given, fits_id; cbn [profile_id];
    destruct (0 <? id); decide_row. Qed.

Lemma merchant_rows_fit m :
  fits "merchants" (merchant_row m) =
    fits_id (merchant_id m) && fits_integer 32 (merchant_userId m) &&
    forallb storable [merchant_storeName m; slug m; merchant_businessRegistrationNumber m; merchant_taxId m; merchant_streetAddress m;
      merchant_city m; merchant_postalCode m] && if_given storable (merchant_description m) &&
    if_given fits_instant (merchant_verifiedAt m) && if_given fits_instant (merchant_geocodedAt m) && valid merchant_table m.
Proof. by_parts "merchants". destruct m as [id u n sl [] b t [] [] st c po [] [] []]; unfold merchant_row, id_given, fits_id; cbn [merchant_id];
    destruct (0 <? id); decide_row. Qed.

Lemma verification_rows_fit v :
  fits "merchant_verifications" (verification_row v) =
    fits_id (verification_id v) && fits_integer 32 (verification_userId v) &&
    forallb storable [storeName v; businessRegistrationNumber v; taxId v; verification_streetAddress v; verification_city v;
      verification_postalCode v] && if_given fits_instant (verifiedAt v) && if_given fits_instant (rejectedAt v).
Proof. by_parts "merchant_verifications". destruct v as [id u n b t [] [] st c po []]; unfold verification_row, id_given, fits_id; cbn [verification_id];
    destruct (0 <? id); decide_row. Qed.

Lemma courier_rows_fit u r :
  fits "courier_applications" (courier_row u r) =
    fits_integer 32 (courier_id r) && fits_integer 32 u && fits_uuid (courier_principalId r) &&
    if_given (fits_integer 64) (courier_driverId r) && fits_instant (filedAt r) && if_given fits_instant (approvedAt r) &&
    if_given fits_instant (courier_rejectedAt r).
Proof. by_parts "courier_applications". destruct r as [id p [] [] f [] []]; decide_row. Qed.

Lemma geocoded_rows_fit q provider p :
  fits "geocoded_addresses" (geocoded_row q provider p) =
    forallb storable [q; provider] && if_given storable (displayName p) && on_earth p.
Proof. by_parts "geocoded_addresses". destruct p as [la lo [] []]; decide_row. Qed.

Lemma passkey_rows_fit k :
  fits "passkeys" (passkey_row k) =
    fits_integer 32 (passkey_userId k) && fits_integer 64 (signCount k) && fits_text 64 (passkey_name k) &&
    storable (credentialId k) && storable_all (transports k).
Proof. by_parts "passkeys". destruct k as [i u c pk n t [] b na cr l]; decide_row. Qed.

Lemma challenge_rows_fit id r :
  fits "passkey_challenges" (challenge_row id r) =
    fits_uuid id && fits_integer 32 (pc_userId r) && storable (pc_challenge r) && if_given fits_uuid (mfaJti r) &&
    fits_instant (pc_expiresAt r) && if_given fits_instant (pc_usedAt r) && challenge_row_ok r.
Proof. by_parts "passkey_challenges". destruct r as [u [] c [] e []]; decide_row. Qed.

Lemma refresh_rows_fit jti r :
  fits "refresh_tokens" (refresh_row jti r) =
    fits_uuid jti && fits_uuid (familyId r) && fits_uuid (principalId r) && fits_integer 32 (token_userId r) &&
    if_given (fits_text 64) (client r) && fits_instant (expiresAt r) && if_given fits_instant (usedAt r) &&
    if_given fits_instant (revokedAt r) && if_given (fits_text 32) (revokedReason r) && if_given fits_uuid (replacedByJti r).
Proof. by_parts "refresh_tokens". destruct r as [f p u [] e [] [] [] []]; decide_row. Qed.

Lemma revoked_rows_fit jti r :
  fits "revoked_access_tokens" (revoked_row jti r) =
    fits_uuid jti && fits_instant (revoked_expiresAt r) && fits_text 32 (revoked_reason r).
Proof. by_parts "revoked_access_tokens". destruct r; decide_row. Qed.

Lemma attempt_rows_fit key s :
  fits "account_sign_in_attempts" (attempt_row key s) =
    fits_text 64 key && fits_integer 32 (attempts s) && fits_instant (lastAttemptAt s) && fits_instant (delayedUntil s).
Proof. by_parts "account_sign_in_attempts". destruct s; decide_row. Qed.

Lemma challenge_attempt_rows_fit jti r :
  fits "two_factor_challenge_attempts" (challenge_attempt_row jti r) =
    fits_uuid jti && fits_integer 32 (challenge_attempts r) && fits_instant (challenge_row_expiresAt r).
Proof. by_parts "two_factor_challenge_attempts". destruct r; decide_row. Qed.

Lemma principal_rows_fit r :
  fits "principals" (principal_row r) =
    if_given (fits_text 255) (principal_displayName r).
Proof. by_parts "principals". destruct r as [[] []]; decide_row. Qed.

Lemma alias_rows_fit p service localId :
  fits "principal_aliases" (alias_row p service localId) =
    fits_uuid p && fits_text 32 service && fits_text 128 localId.
Proof. by_parts "principal_aliases". decide_row. Qed.

(** C35: What the tables of the migrated database ask of a row by itself (the type, the width and the range of
    its columns, not null, and the CHECKs) is met by a row that the service writes exactly if every whole
    number is in its column's range, every text is free of NUL characters and, spaces at its end apart, no
    longer than its column is wide, every id of a UUID column reads as a UUID, every instant is one a
    timestamp holds, a point, where the table has one, passes the model's check of it, and a passkey
    challenge names a second factor's challenge exactly if it is of a sign-in. So no status, role, kind,
    purpose, precision or device type is ever the reason that a row does not fit, and the checks on saving
    that the tables of the model have are those of the database. The constraints that compare a row with
    other rows, UNIQUE and FOREIGN KEY, are not part of this statement: the statements of the store
    check them. *)
Theorem rows_fit_their_columns :
  (forall u, fits "users" (user_row u) =
     fits_id (user_id u) && forallb storable [user_email u; passwordHash u] && if_given storable (twoFactorSecret u)) /\
  (forall p, fits "profiles" (profile_row p) =
     fits_id (profile_id p) && fits_integer 32 (profile_userId p) &&
       forallb storable [fullName p; phoneNumber p; profile_streetAddress p; profile_city p; profile_postalCode p] &&
       if_given storable (avatarUrl p) && if_given fits_instant (profile_geocodedAt p) && valid profile_table p) /\
  (forall m, fits "merchants" (merchant_row m) =
     fits_id (merchant_id m) && fits_integer 32 (merchant_userId m) &&
       forallb storable [merchant_storeName m; slug m; merchant_businessRegistrationNumber m; merchant_taxId m; merchant_streetAddress m;
         merchant_city m; merchant_postalCode m] && if_given storable (merchant_description m) &&
       if_given fits_instant (merchant_verifiedAt m) && if_given fits_instant (merchant_geocodedAt m) && valid merchant_table m) /\
  (forall v, fits "merchant_verifications" (verification_row v) =
     fits_id (verification_id v) && fits_integer 32 (verification_userId v) &&
       forallb storable [storeName v; businessRegistrationNumber v; taxId v; verification_streetAddress v; verification_city v;
         verification_postalCode v] && if_given fits_instant (verifiedAt v) && if_given fits_instant (rejectedAt v)) /\
  (forall u r, fits "courier_applications" (courier_row u r) =
     fits_integer 32 (courier_id r) && fits_integer 32 u && fits_uuid (courier_principalId r) &&
       if_given (fits_integer 64) (courier_driverId r) && fits_instant (filedAt r) && if_given fits_instant (approvedAt r) &&
       if_given fits_instant (courier_rejectedAt r)) /\
  (forall q provider p, fits "geocoded_addresses" (geocoded_row q provider p) =
     forallb storable [q; provider] && if_given storable (displayName p) && on_earth p) /\
  (forall k, fits "passkeys" (passkey_row k) =
     fits_integer 32 (passkey_userId k) && fits_integer 64 (signCount k) && fits_text 64 (passkey_name k) &&
       storable (credentialId k) && storable_all (transports k)) /\
  (forall id r, fits "passkey_challenges" (challenge_row id r) =
     fits_uuid id && fits_integer 32 (pc_userId r) && storable (pc_challenge r) && if_given fits_uuid (mfaJti r) &&
       fits_instant (pc_expiresAt r) && if_given fits_instant (pc_usedAt r) && challenge_row_ok r) /\
  (forall jti r, fits "refresh_tokens" (refresh_row jti r) =
     fits_uuid jti && fits_uuid (familyId r) && fits_uuid (principalId r) && fits_integer 32 (token_userId r) &&
       if_given (fits_text 64) (client r) && fits_instant (expiresAt r) && if_given fits_instant (usedAt r) &&
       if_given fits_instant (revokedAt r) && if_given (fits_text 32) (revokedReason r) && if_given fits_uuid (replacedByJti r)) /\
  (forall jti r, fits "revoked_access_tokens" (revoked_row jti r) =
     fits_uuid jti && fits_instant (revoked_expiresAt r) && fits_text 32 (revoked_reason r)) /\
  (forall key s, fits "account_sign_in_attempts" (attempt_row key s) =
     fits_text 64 key && fits_integer 32 (attempts s) && fits_instant (lastAttemptAt s) && fits_instant (delayedUntil s)) /\
  (forall jti r, fits "two_factor_challenge_attempts" (challenge_attempt_row jti r) =
     fits_uuid jti && fits_integer 32 (challenge_attempts r) && fits_instant (challenge_row_expiresAt r)) /\
  (forall r, fits "principals" (principal_row r) =
     if_given (fits_text 255) (principal_displayName r)) /\
  (forall p service localId, fits "principal_aliases" (alias_row p service localId) =
     fits_uuid p && fits_text 32 service && fits_text 128 localId).
Proof.
  split_and!; [apply user_rows_fit|apply profile_rows_fit|apply merchant_rows_fit|apply verification_rows_fit
    |apply courier_rows_fit|apply geocoded_rows_fit|apply passkey_rows_fit|apply challenge_rows_fit
    |apply refresh_rows_fit|apply revoked_rows_fit|apply attempt_rows_fit|apply challenge_attempt_rows_fit
    |apply principal_rows_fit|apply alias_rows_fit].
Qed.

(** The checks on points let half a point pass: with one coordinate missing the condition is unknown, and
    a check refuses only what makes it false. *)
Example half_a_point_fits :
  fits "profiles" (profile_row (mkProfile 1 7 "Dewi" "" "" "" "" None (Some 1%Q) None None)) = true /\
  fits "profiles" (profile_row (mkProfile 1 7 "Dewi" "" "" "" "" None (Some (91 # 1)%Q) None None)) = false.
Proof. rewrite !profile_rows_fit. vm_compute. split; reflexivity. Qed.

(** ** Reading a row back

    What the adapters make of a record. A record has its columns' types, so a reading fails only where a
    record is not of its table; TypeScript takes the text of an enumeration as it is. *)

Definition Recorded := string -> SqlValue.

Definition read_text (v : SqlValue) : option string := match v with SqlText s => Some s | _ => None end.
Definition read_texts (v : SqlValue) : option (list string) := match v with SqlTexts l => Some l | _ => None end.
Definition read_integer (v : SqlValue) : option Z := match v with SqlInteger z => Some z | _ => None end.
Definition read_number (v : SqlValue) : option Q := match v with SqlNumber q => Some q | _ => None end.
Definition read_flag (v : SqlValue) : option bool := match v with SqlBoolean b => Some b | _ => None end.
Definition read_bytes (v : SqlValue) : option (list Z) := match v with SqlBytes l => Some l | _ => None end.
Definition read_uuid (v : SqlValue) : option string := match v with SqlUuid s => Some s | _ => None end.
Definition read_instant (v : SqlValue) : option Z := match v with SqlInstant _ ms => Some ms | _ => None end.
(** [value ?? undefined] *)
Definition read_nullable {A} (read : SqlValue -> option A) (v : SqlValue) : option (option A) :=
  match v with SqlNull => Some None | _ => Some <$> read v end.
Definition read_enum {A} (name : A -> string) (values : list A) (v : SqlValue) : option A :=
  s ← read_text v; List.find (fun a => String.eqb (name a) s) values.

Definition user_of (r : Recorded) : option UserEntity :=
  id ← read_integer (r "id"); email ← read_text (r "email"); hash ← read_text (r "passwordHash");
  role ← read_enum role_name [Customer; Seller; Courier; Admin] (r "role"); enabled ← read_flag (r "isTwoFactorEnabled");
  secret ← read_nullable read_text (r "twoFactorSecret");
  Some (mkUser id email hash role enabled secret).

Definition profile_of (r : Recorded) : option ProfileEntity :=
  id ← read_integer (r "id"); userId ← read_integer (r "userId"); fullName ← read_text (r "fullName");
  phoneNumber ← read_text (r "phoneNumber"); streetAddress ← read_text (r "streetAddress"); city ← read_text (r "city");
  postalCode ← read_text (r "postalCode"); avatarUrl ← read_nullable read_text (r "avatarUrl");
  latitude ← read_nullable read_number (r "latitude"); longitude ← read_nullable read_number (r "longitude");
  geocodedAt ← read_nullable read_instant (r "geocodedAt");
  Some (mkProfile id userId fullName phoneNumber streetAddress city postalCode avatarUrl latitude longitude geocodedAt).

Definition merchant_of (r : Recorded) : option MerchantEntity :=
  id ← read_integer (r "id"); userId ← read_integer (r "userId"); storeName ← read_text (r "storeName"); slug ← read_text (r "slug");
  description ← read_nullable read_text (r "description"); registration ← read_text (r "businessRegistrationNumber");
  taxId ← read_text (r "taxId"); status ← read_enum merchant_state_name [m_pending; m_verified; m_active; m_suspended] (r "status");
  verifiedAt ← read_nullable read_instant (r "verifiedAt"); streetAddress ← read_text (r "streetAddress"); city ← read_text (r "city");
  postalCode ← read_text (r "postalCode"); latitude ← read_nullable read_number (r "latitude");
  longitude ← read_nullable read_number (r "longitude"); geocodedAt ← read_nullable read_instant (r "geocodedAt");
  Some (mkMerchant id userId storeName slug description registration taxId status verifiedAt streetAddress city postalCode latitude
          longitude geocodedAt).

Definition verification_of (r : Recorded) : option MerchantVerificationEntity :=
  id ← read_integer (r "id"); userId ← read_integer (r "userId"); storeName ← read_text (r "storeName");
  registration ← read_text (r "businessRegistrationNumber"); taxId ← read_text (r "taxId");
  status ← read_enum seller_status_name [s_pending; s_verified; s_rejected] (r "status");
  verifiedAt ← read_nullable read_instant (r "verifiedAt"); streetAddress ← read_text (r "streetAddress"); city ← read_text (r "city");
  postalCode ← read_text (r "postalCode"); rejectedAt ← read_nullable read_instant (r "rejectedAt");
  Some (mkVerification id userId storeName registration taxId status verifiedAt streetAddress city postalCode rejectedAt).

Definition passkeyOf (r : Recorded) : option PasskeyEntity :=
  id ← read_uuid (r "id"); userId ← read_integer (r "userId"); credentialId ← read_text (r "credentialId");
  publicKey ← read_bytes (r "publicKey"); signCount ← read_integer (r "signCount"); transports ← read_texts (r "transports");
  deviceType ← read_enum device_type_name [singleDevice; multiDevice] (r "deviceType"); backedUp ← read_flag (r "backedUp");
  name ← read_text (r "name"); createdAt ← read_instant (r "createdAt"); lastUsedAt ← read_nullable read_instant (r "lastUsedAt");
  Some (mkPasskey id userId credentialId publicKey signCount transports deviceType backedUp name createdAt lastUsedAt).

Definition PRECISIONS : list GeocodePrecision := [UNSPECIFIED; ROOFTOP; STREET; SUBURB; CITY].

(** A precision the code does not know is none. *)
Definition stored_precisionOf (stored : string) : GeocodePrecision :=
  default UNSPECIFIED (List.find (fun candidate => String.eqb (precision_name candidate) stored) PRECISIONS).

Definition cached_point (r : Recorded) : option ProviderPoint :=
  latitude ← read_number (r "latitude"); longitude ← read_number (r "longitude"); precision ← read_text (r "precision");
  displayName ← read_nullable read_text (r "displayName");
  Some (mkPoint latitude longitude (stored_precisionOf precision) displayName).

(** The record of a row that was numbered [id], with every value as it was given. *)
Definition recorded (id : Z) (row : Given) : Recorded := fun name => if String.eqb name "id" then SqlInteger id else seen row name.
Definition recorded_passkey (id : string) (now : Z) (row : Given) : Recorded := fun name =>
  if String.eqb name "id" then SqlUuid id else if String.eqb name "createdAt" then instant now else seen row name.

(** What an adapter writes and the database row_fits, it reads back as it was, under the number it was
    given: no column is left out, swapped with another or read as another type. *)
Theorem saved_rows_read_back :
  (forall id u, user_of (recorded id (user_row u)) = Some (with_id id u)) /\
  (forall id p, profile_of (recorded id (profile_row p)) = Some (number profile_table id p)) /\
  (forall id m, merchant_of (recorded id (merchant_row m)) = Some (number merchant_table id m)) /\
  (forall id v, verification_of (recorded id (verification_row v)) = Some (number verification_table id v)) /\
  (forall id now k, passkeyOf (recorded_passkey id now (passkey_row k)) =
     Some (mkPasskey id (passkey_userId k) (credentialId k) (publicKey k) (signCount k) (transports k) (deviceType k) (backedUp k)
             (passkey_name k) now None)) /\
  (forall q provider p, cached_point (seen (geocoded_row q provider p)) = Some p).
Proof.
  split_and!.
  - intros id [i e h [] b []]; unfold user_row, id_given; cbn [user_id]; destruct (0 <? i); reflexivity.
  - intros id [i u f ph st c po [] [] [] []]; unfold profile_row, id_given; cbn [profile_id]; destruct (0 <? i); reflexivity.
  - intros id [i u n sl [] b t [] [] st c po [] [] []]; unfold merchant_row, id_given; cbn [merchant_id]; destruct (0 <? i); reflexivity.
  - intros id [i u n b t [] [] st c po []]; unfold verification_row, id_given; cbn [verification_id]; destruct (0 <? i); reflexivity.
  - intros id now [i u c pk n t [] b na cr l]; reflexivity.
  - intros q provider [lat lon [] []]; reflexivity.
Qed.
