(* ===== verification/DataMigrations.v ===== *)
(** * What the migrations do to rows

    The statements of src/src/migrations that change rows or depend on them, on the tables of Store.v:
    PrincipalForEveryUser (every account gets a principal), CourierApplications (the couriers there are
    become approved applications), CaseInsensitiveEmail (which database takes the index),
    NoPlaceholderStoreDescription and the [down] of CourierApplicationRejection. The rows
    that MerchantChangeTransaction makes are in Feed.v, with their table.

    Main results: run together, they leave every account with a principal of its own and exactly the
    couriers with an application that satisfies the invariant of Couriers.v, or fail and leave everything
    as it was. *)

From S2P Require Import Prelude JsString Domain Store Sample Keys Accounts SecondFactor Records Geocoding Profiles Couriers Sellers Pages Maintenance Schema Migrations WrittenRows.
From Stdlib Require Import Ascii String QArith_base.
Local Open Scope string_scope.
Local Open Scope Z_scope.
Local Open Scope prog_scope.

(** ** A principal for every account *)

Section Principals.
Context {P : Platform}.

(** The accounts without an alias, [ORDER BY u."id"]. *)
Definition unclaimed (d : Db) : list UserEntity :=
  sort_by_id user_id (List.filter (fun u => bool_decide (principal_aliases d !! ("identity", String_of (user_id u)) = None))
    (map (fun '(_, row) => row_user row) (map_to_list (users d)))).

Fixpoint mint_each (l : list UserEntity) : M unit :=
  match l with
  | [] => Ret tt
  | user :: l =>
      principal <- insert_principal (principalKindForRole (user_role user)) (Some (user_email user)) ;;
      insert_alias_unless_there principal "identity" (String_of (user_id user)) ;;;
      mint_each l
  end.

Definition PrincipalForEveryUser : M unit :=
  users <- query (fun w => unclaimed (db w)) ;;
  match users with
  | [] => console "every user already has a principal"
  | _ => mint_each users ;;; console ("minted " ++ String_of (Z.of_nat (List.length users)) ++ " principal(s) for users that had none")
  end.
End Principals.

(** The principal a new account of this user would get. *)
Definition principal_of (u : UserEntity) : PrincipalRow := mkPrincipal (principalKindForRole (user_role u)) (Some (user_email u)).

Definition identity_key (u : UserEntity) : string * string := ("identity", String_of (user_id u)).

(** [p] is a principal that was made for [u]. *)
Definition minted (d d' : Db) (u : UserEntity) (p : string) : Prop :=
  principal_aliases d' !! identity_key u = Some p /\ principals d' !! p = Some (principal_of u) /\ principals d !! p = None.

Section PrincipalFacts.
Context {P : Platform} {L : PlatformLaws P} (Hrel : reliable).

Lemma wp_mint_each l (Q : res exn unit -> World -> Prop) w :
  ledger_ok w -> NoDup (map identity_key l) -> Forall (fun u => principal_aliases (db w) !! identity_key u = None) l ->
  (forall w' ps, ledger_ok w' -> grown (db w) (db w') -> Forall2 (minted (db w) (db w')) l ps -> NoDup ps ->
    (forall key, key ∉ map identity_key l -> principal_aliases (db w') !! key = principal_aliases (db w) !! key) -> Q (Ok tt) w') ->
  wp (mint_each l) Q w.
Proof.
  revert w. induction l as [|u l IH]; intros w Hw Hn Hl HQ; cbn [mint_each].
  { wp_step. apply (HQ w []); [done|reflexivity|constructor|constructor|done]. }
  apply NoDup_cons in Hn as [Hu Hn]. apply Forall_cons in Hl as [Hnone Hl].
  wp_step. apply (wp_insert_principal Hrel); [done|]. intros p w0 Hw0 Hg0 Hne Hfresh Hp Ealias. wp_step.
  apply (wp_insert_alias_unless_there Hrel); [done|done|eauto|].
  intros w1 Hw1 Hg1 Hother Hnew. rewrite Ealias in *. fold (identity_key u) in *. rewrite Hnone in Hnew. cbn in Hnew.
  pose proof Hg1 as (Ha1 & Hp1 & _). pose proof (lookup_weaken _ _ _ _ Hp Hp1) as Hp1'.
  apply IH; [done|done| |].
  { apply Forall_forall. intros v Hv. rewrite Hother; [by apply (proj1 (Forall_forall _ _) Hl)|].
    intros E. apply Hu. rewrite <- E. by apply list_elem_of_fmap_2. }
  intros w' ps Hw' Hg Hm Hps Ho. pose proof Hg as (Ha & Hpr & _). apply (HQ w' (p :: ps)); [done| | | |].
  - etransitivity; [exact Hg0|]. by etransitivity.
  - constructor; [split_and!; [|by eapply lookup_weaken|done]|].
    + by eapply lookup_weaken.
    + eapply Forall2_impl; [exact Hm|]. intros v q (H1 & H2 & H3). split_and!; [done..|].
      destruct Hg0 as (_ & Hp0 & _). apply (lookup_weaken_None _ (principals (db w1))); [done|]. by etransitivity.
  - constructor; [|done]. intros Hin. apply list_elem_of_lookup in Hin as [i Hi].
    destruct (Forall2_lookup_r _ _ _ _ _ Hm Hi) as (v & _ & _ & _ & Hno). by rewrite Hno in Hp1'.
  - intros key Hkey. apply not_elem_of_cons in Hkey as [Hk1 Hk2]. rewrite Ho by done. by rewrite Hother.
Qed.
Lemma unclaimed_elem d u : u ∈ unclaimed d <->
  exists id row, users d !! id = Some row /\ row_user row = u /\ principal_aliases d !! identity_key u = None.
Proof.
  unfold unclaimed. rewrite (sort_by_id_perm user_id), list_elem_of_In, filter_In, in_map_iff, bool_decide_eq_true. split.
  - intros [([id row] & <- & Hin%list_elem_of_In%elem_of_map_to_list) Hn]. eauto.
  - intros (id & row & Hr & <- & Hn). split; [|done]. exists (id, row). split; [done|].
    by apply list_elem_of_In, elem_of_map_to_list.
Qed.

Lemma unclaimed_keys d : keyed d -> NoDup (map identity_key (unclaimed d)).
Proof.
  intros Hk. assert (forall u v, u ∈ unclaimed d -> v ∈ unclaimed d -> identity_key u = identity_key v -> u = v) as Hinj.
  { intros u v (i & ru & Hu & <- & _)%unclaimed_elem (j & rv & Hv & <- & _)%unclaimed_elem [= E].
    destruct (Hk _ _ Hu) as [<- ?], (Hk _ _ Hv) as [<- ?]. apply String_of_inj in E; [|lia..]. rewrite E in Hu. congruence. }
  apply (NoDup_fmap_2_strong identity_key _ Hinj). unfold unclaimed. rewrite (sort_by_id_perm user_id).
  apply NoDup_ListNoDup, List.NoDup_filter, NoDup_ListNoDup.
  apply (NoDup_fmap_2_strong (fun '(_, row) => row_user row)); [|apply NoDup_map_to_list].
  intros [i ru] [j rv] Hu%elem_of_map_to_list Hv%elem_of_map_to_list E.
  destruct (Hk _ _ Hu) as [<- _], (Hk _ _ Hv) as [<- _]. rewrite E in *. congruence.
Qed.

(** Every account has an alias of a principal that is there. *)
Definition all_have_principals (d : Db) : Prop :=
  forall id row, users d !! id = Some row ->
    exists p, principal_aliases d !! ("identity", String_of id) = Some p /\ is_Some (principals d !! p).

(** The accounts that had no principal get one each, of their own, and no other alias is made. *)
Definition principals_made (d d' : Db) : Prop :=
  (exists ps, Forall2 (minted d d') (unclaimed d) ps /\ NoDup ps) /\
  forall key, key ∉ map identity_key (unclaimed d) -> principal_aliases d' !! key = principal_aliases d !! key.

Lemma made_for_all d w' :
  keyed d -> ledger_ok w' -> grown d (db w') -> principals_made d (db w') -> all_have_principals (db w').
Proof.
  intros Hk Hw' Hg [(ps & Hm & _) _] id row Hr. destruct Hg as (Ha & Hp & Eu). rewrite Eu in Hr. destruct (Hk _ _ Hr) as [Eid _].
  assert (is_Some (principal_aliases (db w') !! ("identity", String_of id))) as [p Hpa].
  { destruct (principal_aliases d !! ("identity", String_of id)) as [q|] eqn:E; [exists q; by eapply lookup_weaken|].
    assert (row_user row ∈ unclaimed d) as Hin.
    { apply unclaimed_elem. exists id, row. unfold identity_key. by rewrite Eid. }
    apply list_elem_of_lookup in Hin as [i Hi]. destruct (Forall2_lookup_l _ _ _ _ _ Hm Hi) as (q & _ & Hq & _).
    unfold identity_key in Hq. rewrite Eid in Hq. eauto. }
  exists p. split; [done|]. by apply Hw' in Hpa as [_ ?].
Qed.

(** Nothing but principals and aliases changes. *)
Definition same_beside_principals (d d' : Db) : Prop :=
  set_principals ∅ (set_principal_aliases ∅ d') = set_principals ∅ (set_principal_aliases ∅ d).
#[export] Instance same_beside_principals_preorder : PreOrder same_beside_principals.
Proof. unfold same_beside_principals. split; [done|]. intros d1 d2 d3 H1 H2. by rewrite H2. Qed.

Lemma PrincipalForEveryUser_beside : guar (on_db same_beside_principals) PrincipalForEveryUser.
Proof.
  assert (forall l, guar (on_db same_beside_principals) (mint_each l)) as Hm.
  { induction l as [|u l IH]; cbn [mint_each]; unfold insert_principal, insert_alias_unless_there; guar_auto; try done;
      apply guar_statement; try typeclasses eauto; intros w; repeat case_match; reflexivity. }
  unfold PrincipalForEveryUser, console. guar_auto.
Qed.

Lemma wp_PrincipalForEveryUser (Q : res exn unit -> World -> Prop) w :
  keyed (db w) -> ledger_ok w ->
  (forall w', ledger_ok w' -> grown (db w) (db w') -> principals_made (db w) (db w') -> same_beside_principals (db w) (db w') ->
    Q (Ok tt) w') ->
  wp PrincipalForEveryUser Q w.
Proof.
  intros Hk Hw HQ. set (post := fun (r : res exn unit) (w' : World) =>
    r = Ok tt /\ ledger_ok w' /\ grown (db w) (db w') /\ principals_made (db w) (db w')).
  apply (wp_mono _ (fun r w' => post r w' /\ same_beside_principals (db w) (db w')));
    [|intros r w' [(-> & ? & ? & ?) ?]; by apply HQ].
  apply wp_and; [|apply (wp_guar (on_db same_beside_principals)); [apply PrincipalForEveryUser_beside|done]].
  unfold PrincipalForEveryUser, console. wp_rel Hrel. wp_rel Hrel. cbn [db count_call].
  pose proof (unclaimed_keys _ Hk) as Hn. pose proof (unclaimed_elem (db w)) as He. unfold post, principals_made.
  destruct (unclaimed (db w)) as [|u l].
  - wp_step. split_and!; [done..| |done]. exists []. by split; constructor.
  - wp_step. apply wp_mint_each; [done|done|apply Forall_forall; by intros v (_ & _ & _ & _ & Hv)%He|].
    intros w' ps Hw' Hg Hm Hps Ho. wp_step. split_and!; eauto.
Qed.
End PrincipalFacts.

(** ** The other changes of rows *)

Section Rows.
Context {P : Platform}.
(** The order in which the database reads the accounts: nothing is said about it but that it reads each
    of them once. *)
Context (scan : gmap Z UserRow -> list (Z * UserRow)).

(** SELECT "account"."id", "alias"."principalId" FROM "users" "account" JOIN "principal_aliases" "alias" .. WHERE the
    role is a courier's *)
Definition couriers_with_principal (d : Db) : list (Z * string) :=
  omap (fun '(id, row) =>
    if bool_decide (user_role (row_user row) = Courier)
    then (fun p => (id, p)) <$> principal_aliases d !! ("identity", String_of id) else None) (scan (users d)).

(** INSERT INTO "courier_applications" ("userId", "principalId", "status"): the rest by the defaults of
    the columns. The numbers a failed statement used stay used. *)
Fixpoint insert_approved (now : Z) (rows : list (Z * string)) (d : Db) : res (string * Z) Db :=
  match rows with
  | [] => Ok d
  | (userId, principal) :: rows =>
      let id := courier_applications_next d in
      if bool_decide (is_Some (courier_applications d !! userId)) then Err (UNIQUE_VIOLATION, id + 1)
      else if bool_decide (users d !! userId = None) || bool_decide (principals d !! principal = None)
      then Err (FOREIGN_KEY_VIOLATION, id + 1)
      else insert_approved now rows
             (set_courier_applications (<[userId := mkCourierRow id principal None c_approved now None None]> (courier_applications d))
               (set_courier_applications_next (id + 1) d))
  end.

Definition CourierApplications : M unit :=
  statement (fun w =>
    match insert_approved (pg_ms w) (couriers_with_principal (db w)) (db w) with
    | Ok d => (Ok tt, set_db d w)
    | Err (code, next) => (Err (QueryFailedError code), set_db (set_courier_applications_next next (db w)) w)
    end).

(** CREATE UNIQUE INDEX .. ON "users" (lower("email")): refused where two accounts have an address that
    differs in the case of letters only. *)
Definition emails_apart (d : Db) : bool :=
  forallb (fun '(id, row) => negb (email_taken id (user_email (row_user row)) d)) (map_to_list (users d)).
Definition CaseInsensitiveEmail : M unit :=
  statement (fun w => (if emails_apart (db w) then Ok tt else Err (QueryFailedError UNIQUE_VIOLATION), w)).

(** UPDATE "merchants" SET "description" = NULL WHERE "description" = 'Official Merchant Store' *)
Definition PLACEHOLDER : string := "Official Merchant Store".
Definition without_placeholder (m : MerchantEntity) : MerchantEntity :=
  if bool_decide (merchant_description m = Some PLACEHOLDER)
  then mkMerchant (merchant_id m) (merchant_userId m) (merchant_storeName m) (slug m) None (merchant_businessRegistrationNumber m)
         (merchant_taxId m) (merchant_status m) (merchant_verifiedAt m) (merchant_streetAddress m) (merchant_city m)
         (merchant_postalCode m) (merchant_latitude m) (merchant_longitude m) (merchant_geocodedAt m)
  else m.
Definition NoPlaceholderStoreDescription : M unit :=
  update (fun w => (tt, set_merchants (without_placeholder <$> merchants (db w)) (db w))).

(** UPDATE "courier_applications" SET "status" = 'pending' WHERE "status" = 'rejected' *)
Definition unrejected (r : CourierApplicationRow) : CourierApplicationRow :=
  if bool_decide (courier_status r = c_rejected)
  then mkCourierRow (courier_id r) (courier_principalId r) (courier_driverId r) c_pending (filedAt r) (approvedAt r) (courier_rejectedAt r)
  else r.
Definition undo_rejections : M unit :=
  update (fun w => (tt, set_courier_applications (unrejected <$> courier_applications (db w)) (db w))).

(** Those of [runMigrations({ transaction: "all" })] that read or change rows of these tables, in their
    order. *)
Definition migrate_rows : M unit :=
  transaction (PrincipalForEveryUser ;;; CaseInsensitiveEmail ;;; CourierApplications ;;; NoPlaceholderStoreDescription).
End Rows.

(** What the [down] of the rejections makes of the applications, the check it puts back accepts. *)
Lemma unrejected_accepted u r : passes (OneOf "status" ["pending"; "approved"]) (seen (courier_row u (unrejected r))) = true.
Proof. destruct r as [id p d [] f a j]; reflexivity. Qed.

Section RowFacts.
Context {P : Platform} {L : PlatformLaws P} (Hrel : reliable).
Context (scan : gmap Z UserRow -> list (Z * UserRow)) (Hscan : forall m, scan m ≡ₚ map_to_list m).

Lemma emails_apart_spec d : emails_apart d = true <-> emails_unique d.
Proof.
  unfold emails_apart. rewrite forallb_forall. split.
  - intros H i j a b Ha Hb Hs. apply elem_of_map_to_list, list_elem_of_In, H in Hb. apply negb_true_iff in Hb.
    by eapply email_taken_false.
  - intros H [id row] Hin%list_elem_of_In%elem_of_map_to_list. by rewrite own_email_free.
Qed.

Lemma couriers_elem d u p : (u, p) ∈ couriers_with_principal scan d <->
  account_role u d = Some Courier /\ principal_aliases d !! ("identity", String_of u) = Some p.
Proof.
  unfold couriers_with_principal, account_role. rewrite list_elem_of_omap. split.
  - intros ([id row] & Hin & E). rewrite Hscan in Hin. apply elem_of_map_to_list in Hin. case_bool_decide as Hr; [|done].
    apply fmap_Some in E as (q & Hq & [= -> ->]). by rewrite Hin, <- Hr.
  - intros [(row & Hrow & Hr)%fmap_Some Hp]. exists (u, row). split; [by rewrite Hscan; apply elem_of_map_to_list|].
    by rewrite bool_decide_eq_true_2, Hp.
Qed.

Lemma couriers_NoDup d : NoDup (couriers_with_principal scan d).*1.
Proof.
  unfold couriers_with_principal.
  assert (NoDup (scan (users d)).*1) as H by (rewrite Hscan; apply NoDup_fst_map_to_list).
  induction (scan (users d)) as [|[id row] l IH]; [constructor|]. cbn in *. apply NoDup_cons in H as [Hid H].
  case_bool_decide; [|by apply IH]. destruct (principal_aliases d !! _); [|by apply IH]. cbn. constructor; [|by apply IH].
  intros ([u p] & -> & ([i r] & Hin & E)%list_elem_of_omap)%list_elem_of_fmap. apply Hid. cbn.
  case_bool_decide; [|done]. apply fmap_Some in E as (q & _ & [= -> ->]). by apply (list_elem_of_fmap_2 fst _ (i, r)).
Qed.

(** The row the statement makes of the [i]-th courier it reads. *)
Definition taken_over (now first : Z) (i : nat) (principal : string) : CourierApplicationRow :=
  mkCourierRow (first + Z.of_nat i) principal None c_approved now None None.

Lemma insert_approved_spec now l d :
  NoDup l.*1 ->
  Forall (fun '(u, p) => courier_applications d !! u = None /\ is_Some (users d !! u) /\ is_Some (principals d !! p)) l ->
  exists m, insert_approved now l d =
      Ok (set_courier_applications m (set_courier_applications_next (courier_applications_next d + Z.of_nat (List.length l)) d)) /\
    (forall u, u ∉ l.*1 -> m !! u = courier_applications d !! u) /\
    forall i u p, l !! i = Some (u, p) -> m !! u = Some (taken_over now (courier_applications_next d) i p).
Proof.
  revert d. induction l as [|[u p] l IH]; intros d Hn Hl; cbn [insert_approved].
  { exists (courier_applications d). split_and!; [|done..]. f_equal. destruct d. unfold set_courier_applications, set_courier_applications_next.
    cbn. by rewrite Z.add_0_r. }
  cbn in Hn. apply NoDup_cons in Hn as [Hu Hn]. apply Forall_cons in Hl as [(Hnone & [urow Hus] & [prow Hps]) Hl].
  rewrite Hnone, Hus, Hps. rewrite !bool_decide_eq_false_2 by (done || by intros [? ?]). cbv zeta beta iota. cbn [orb].
  match goal with |- context [insert_approved now l ?x] => set (d1 := x) end.
  destruct (IH d1) as (m & -> & Hout & Hin); [done| |].
  { apply Forall_forall. intros [v q] Hv. apply (proj1 (Forall_forall _ _) Hl) in Hv as Hv'. destruct Hv' as (H1 & H2 & H3).
    split_and!; [|done..]. cbn. rewrite lookup_insert_ne; [done|]. intros <-. apply Hu. by apply (list_elem_of_fmap_2 fst _ (u, q)). }
  exists m. split_and!.
  - f_equal. unfold d1, set_courier_applications, set_courier_applications_next. cbn. f_equal. lia.
  - intros v Hv. cbn in Hv. apply not_elem_of_cons in Hv as [Hne Hv]. rewrite (Hout v Hv). cbn. by rewrite lookup_insert_ne.
  - intros [|i] v q; cbn [lookup list_lookup].
    + intros [= <- <-]. rewrite (Hout u Hu). cbn. rewrite lookup_insert_eq. unfold taken_over. by rewrite Z.add_0_r.
    + intros Hi. rewrite (Hin i v q Hi). unfold taken_over. do 2 f_equal. cbn. lia.
Qed.

(** Exactly the couriers have an application: approved, of their principal, of no driver yet and of one
    time, under a number of its own. *)
Definition couriers_taken_over (d : Db) : Prop :=
  (forall u, is_Some (courier_applications d !! u) <-> account_role u d = Some Courier) /\
  (exists now, forall u r, courier_applications d !! u = Some r -> 1 <= courier_id r < courier_applications_next d /\
     exists p, principal_aliases d !! ("identity", String_of u) = Some p /\
       r = mkCourierRow (courier_id r) p None c_approved now None None) /\
  (forall u v r s, courier_applications d !! u = Some r -> courier_applications d !! v = Some s -> courier_id r = courier_id s -> u = v).

Lemma wp_CourierApplications (Q : res exn unit -> World -> Prop) w :
  ledger_ok w -> all_have_principals (db w) -> courier_applications (db w) = ∅ -> courier_applications_next (db w) = 1 ->
  (forall w' m n, db w' = set_courier_applications m (set_courier_applications_next n (db w)) -> couriers_taken_over (db w') -> Q (Ok tt) w') ->
  wp (CourierApplications scan) Q w.
Proof.
  intros [_ Hledger] Hall He Hn HQ. unfold CourierApplications. wp_rel Hrel. cbn [db count_call pg_ms].
  destruct (insert_approved_spec (pg_ms w) (couriers_with_principal scan (db w)) (db w)) as (m & -> & Hout & Hin).
  { apply couriers_NoDup. }
  { apply Forall_forall. intros [u p] [(row & Hrow & _)%fmap_Some Hp]%couriers_elem. rewrite He, lookup_empty, Hrow.
    apply Hledger in Hp as [_ Hp]. eauto. }
  rewrite Hn in *. cbn [fst snd]. eapply HQ; [reflexivity|]. unfold couriers_taken_over. cbn [db set_db courier_applications courier_applications_next principal_aliases set_courier_applications set_courier_applications_next].
  assert (forall u r, m !! u = Some r -> exists i p, couriers_with_principal scan (db w) !! i = Some (u, p) /\ r = taken_over (pg_ms w) 1 i p) as Hrow.
  { intros u r Hr. destruct (decide (u ∈ (couriers_with_principal scan (db w)).*1)) as [Hu|Hu].
    - apply list_elem_of_fmap in Hu as ([u' p] & -> & [i Hi]%list_elem_of_lookup). cbn in *. exists i, p. split; [done|].
      rewrite (Hin _ _ _ Hi) in Hr. congruence.
    - rewrite (Hout _ Hu), He, lookup_empty in Hr. done. }
  split_and!.
  - intros u. split.
    + intros [r (i & p & Hi & _)%Hrow]. apply list_elem_of_lookup_2, couriers_elem in Hi as [? _]. done.
    + intros Hc. pose proof Hc as (row & Hr & _)%fmap_Some. destruct (Hall _ _ Hr) as (p & Hp & _).
      assert ((u, p) ∈ couriers_with_principal scan (db w)) as [i Hi]%list_elem_of_lookup by by apply couriers_elem. eauto.
  - exists (pg_ms w). intros u r (i & p & Hi & ->)%Hrow. pose proof (lookup_lt_Some _ _ _ Hi) as Hlt. split; [cbn; lia|].
    exists p. split; [|done]. by apply list_elem_of_lookup_2, couriers_elem in Hi as [_ ?].
  - intros u v r t (i & p & Hi & ->)%Hrow (j & q & Hj & ->)%Hrow. cbn. intros Heq. assert (i = j) as <- by lia. congruence.
Qed.

(** What the changes of rows make of a database. *)
Record rows_migrated (d d' : Db) : Prop := {
  kept : grown d d';
  with_principals : all_have_principals d';
  made : principals_made d d';
  taken : couriers_taken_over d';
  no_placeholder : forall id m, merchants d' !! id = Some m -> merchant_description m <> Some PLACEHOLDER;
  nothing_else : exists m n, same_beside_principals
    (set_merchants (without_placeholder <$> merchants d) (set_courier_applications m (set_courier_applications_next n d))) d'
}.

Lemma taken_over_ok d : couriers_taken_over d -> applications_ok d.
Proof. intros (_ & (now & H) & _) u r (_ & p & _ & ->)%H. done. Qed.

Lemma wp_migrate_rows w :
  keyed (db w) -> ledger_ok w -> courier_applications (db w) = ∅ -> courier_applications_next (db w) = 1 ->
  wp (migrate_rows scan) (fun r w' =>
    (emails_unique (db w) -> r = Ok tt /\ rows_migrated (db w) (db w')) /\
    (~ emails_unique (db w) -> r = Err (QueryFailedError UNIQUE_VIOLATION) /\ db w' = db w)) w.
Proof.
  intros Hk Hw He Hn. unfold migrate_rows. wp_rel Hrel. wp_step. apply (wp_PrincipalForEveryUser Hrel); [done..|].
  intros w1 Hw1 Hg Hm Hs. wp_step. unfold CaseInsensitiveEmail. wp_rel Hrel. cbn [fst snd db count_call].
  assert (emails_apart (db w1) = emails_apart (db w)) as ->
    by (unfold emails_apart, email_taken; destruct Hg as (_ & _ & ->); done).
  destruct (emails_apart (db w)) eqn:Ea; [apply emails_apart_spec in Ea|].
  2: { assert (~ emails_unique (db w)) by (intros Hu%emails_apart_spec; congruence). done. }
  wp_step. pose proof (f_equal courier_applications Hs) as Ec. pose proof (f_equal courier_applications_next Hs) as Ex.
  pose proof (f_equal merchants Hs) as Em. cbn in Ec, Ex, Em.
  pose proof (made_for_all _ _ Hk Hw1 Hg Hm) as Hall.
  apply wp_CourierApplications; [done|done|cbn; congruence|cbn; congruence|].
  intros w2 m n E2 Ht. unfold NoPlaceholderStoreDescription. wp_rel Hrel. cbn [fst snd db count_call set_db]. split; [|done].
  intros _. split; [done|]. cbn [db count_call] in E2. rewrite E2 in *. split.
  - exact Hg.
  - exact Hall.
  - exact Hm.
  - exact Ht.
  - cbn. intros id x. rewrite lookup_fmap, fmap_Some. intros (y & _ & ->). unfold without_placeholder. by case_bool_decide.
  - exists m, n. unfold same_beside_principals in *. destruct (db w1), (db w). cbn in *. by simplify_eq.
Qed.

End RowFacts.

Module Witness.

(** A courier and a customer without a principal, a seller with one, and the seller's store. *)
Definition account (id : Z) (email : string) (role : UserRole) : UserRow := mkUserRow (mkUser id email "bcrypt:pw" role false None) None.
Definition store : MerchantEntity :=
  mkMerchant 1 3 "Toko" "toko" (Some PLACEHOLDER) "NIB-1" "NPWP-1" m_verified None "" "" "" None None None.
Definition old_db : Db :=
  set_users (<[1 := account 1 "dewi@x.io" Courier]> (<[2 := account 2 "budi@x.io" Customer]> {[3 := account 3 "toko@x.io" Seller]}))
    (set_principals {["p" := mkPrincipal PRINCIPAL_KIND_MERCHANT (Some "toko@x.io")]}
      (set_principal_aliases {[("identity", "3") := "p"]}
        (set_merchants {[1 := store]} (set_courier_applications_next 1 empty_db)))).
Definition before : World := world_at 1000000000 old_db.
Definition migrated := run (@migrate_rows sample_platform map_to_list) before.

Example what_changed :
  migrated.1 = Ok tt /\ size (principals (db migrated.2)) = 3%nat /\
  courier_applications (db migrated.2) = {[1 := mkCourierRow 1 "uuid-0" None c_approved 1000000000 None None]} /\
  (merchant_description <$> merchants (db migrated.2) !! 1) = Some None.
Proof. split_and!; vm_compute; reflexivity. Qed.

Lemma old_users id row : users old_db !! id = Some row ->
  (id, row) ∈ [(1, account 1 "dewi@x.io" Courier); (2, account 2 "budi@x.io" Customer); (3, account 3 "toko@x.io" Seller)].
Proof.
  change (users old_db) with (<[1 := account 1 "dewi@x.io" Courier]> (<[2 := account 2 "budi@x.io" Customer]>
    ({[3 := account 3 "toko@x.io" Seller]} : gmap Z UserRow))).
  rewrite !lookup_insert_Some, lookup_singleton_Some. set_solver.
Qed.

End Witness.
