(* ===== verification/Startup.v ===== *)
(** * Start-up, credentials and the routes for the platform

    Models src/src/main.ts (the order in which the process comes up), the database settings of
    src/src/data-source.ts and src/src/app.module.ts, src/src/infrastructure/mesh/service_identity.ts and
    contract_proto.ts (the files it starts from), src/src/migrate.ts (the program that applies the
    migrations) and the controllers health, metrics and jwks. The framework (creating the application,
    loading the package definition, opening ports), the file system and the runner of migrations are
    parameters.

    Main results: no port is opened before everything it depends on was found in order, and the gRPC port
    asks every caller for a certificate and for a grant; a migration that failed is reported and the
    connection is closed. *)

From S2P Require Import Prelude JsString Domain Store Sample Keys Mesh Json Logging Settings Shutdown Metrics Errors Maintenance.
From Stdlib Require Import Ascii String QArith_base.
Local Open Scope string_scope.
Local Open Scope Z_scope.
Local Open Scope prog_scope.

(** ** Settings of the database *)

Record DatabaseSettings := mkDatabase {
  db_host : string; db_port : Z; db_username : string; db_password : string; db_database : string
}.

Definition databaseSettings (read : string -> option string) : res exn DatabaseSettings :=
  res_bind (requiredSetting "DB_HOST" (read "DB_HOST")) (fun host =>
  res_bind (positiveIntegerSetting "DB_PORT" (read "DB_PORT")) (fun port =>
  res_bind (requiredSetting "DB_USERNAME" (read "DB_USERNAME")) (fun username =>
  res_bind (requiredSetting "DB_PASSWORD" (read "DB_PASSWORD")) (fun password =>
  res_bind (requiredSetting "DB_DATABASE" (read "DB_DATABASE")) (fun database =>
  Ok (mkDatabase host port username password database)))))).

(** ** Paths, as Node's [path] module on POSIX has them *)

Definition slash : ascii := "/".

(** The segments of a path, the innermost first, with "." and ".." resolved. *)
Definition segment_step (absolute : bool) (stack : list string) (segment : string) : list string :=
  if String.eqb segment "" || String.eqb segment "." then stack
  else if String.eqb segment ".." then
    match stack with
    | top :: rest => if String.eqb top ".." then ".." :: stack else rest
    | [] => if absolute then [] else [".."]
    end
  else segment :: stack.

Definition path_normalize (path : string) : string :=
  if String.eqb path "" then "."
  else
    let absolute := startsWith "/" path in
    let trailing := match rev (str_list path) with c :: _ => Ascii.eqb c slash | [] => false end in
    let inner := join "/" (rev (fold_left (segment_step absolute) (split slash path) [])) in
    if String.eqb inner "" then (if absolute then "/" else if trailing then "./" else ".")
    else (if absolute then "/" else "") ++ inner ++ (if trailing then "/" else "").

Definition path_join (a b : string) : string :=
  path_normalize (if String.eqb a "" then b else if String.eqb b "" then a else a ++ "/" ++ b).

Fixpoint drop_slashes (l : list ascii) : list ascii :=
  match l with c :: l' => if Ascii.eqb c slash then drop_slashes l' else l | [] => [] end.
Fixpoint drop_name (l : list ascii) : list ascii :=
  match l with c :: l' => if Ascii.eqb c slash then l else drop_name l' | [] => [] end.

Definition path_dirname (path : string) : string :=
  match drop_name (drop_slashes (rev (str_list path))) with
  | [] | [_] => if startsWith "/" path then "/" else "."
  | _ :: before => let dir := list_str (rev before) in if String.eqb dir "/" then "//" else dir
  end.

(** ** The files of the service's identity and of the contracts *)

Record ServiceIdentityFiles := mkIdentity { id_cert : string; id_key : string; id_ca : string }.

Definition DEFAULT_PKI_DIR : string := "/pki".

Section Files.
Context (readFile : string -> option string).

Definition read_pki (dir name : string) : res exn string :=
  match readFile (path_join dir name) with
  | Some content => Ok content
  | None => Err (PlainError (name ++ " is missing from " ++ dir ++ ". This service's PKI is mounted there; issue it with " ++
                             "kinetix-infrastructure/bin/kinetix-pki issue."))
  end.

Definition loadServiceIdentity (directory configured : option string) : res exn ServiceIdentityFiles :=
  let dir := default (default DEFAULT_PKI_DIR configured) directory in
  res_bind (read_pki dir "tls.crt") (fun cert =>
  res_bind (read_pki dir "tls.key") (fun key =>
  res_bind (read_pki dir "ca.pem") (fun ca => Ok (mkIdentity cert key ca)))).
End Files.

(** What [ServerCredentials.createSsl] and [ChannelCredentials.createSsl] are given. *)
Record ServerSsl := mkServerSsl { root_certs : string; key_cert_pairs : list (string * string); check_client_certificate : bool }.
Record ChannelSsl := mkChannelSsl { channel_root_certs : string; channel_key : string; channel_cert : string }.

Definition meshServerCredentials (files : ServiceIdentityFiles) : ServerSsl :=
  mkServerSsl (id_ca files) [(id_key files, id_cert files)] true.

Definition meshClientCredentials (files : ServiceIdentityFiles) : ChannelSsl :=
  mkChannelSsl (id_ca files) (id_key files) (id_cert files).

(** [manifest]: where the package of the contracts is found. *)
Definition contractProtoRoot (manifest : string) : string := path_join (path_dirname manifest) "proto".
Definition contractProto (manifest relative : string) : string := path_join (contractProtoRoot manifest) relative.

(** ** Coming up *)

Inductive GrpcInterceptor := GrpcMetricsInterceptor | PeerAuthorizationInterceptor (allowed : PeerAllowList) | RequestIdInterceptor.

Record GrpcOptions := mkGrpcOptions {
  grpc_packages : list string;
  grpc_protoPath : list string;
  grpc_keepCase : bool;
  grpc_includeDirs : list string;
  grpc_url : string;
  grpc_credentials : ServerSsl;
  grpc_interceptors : list GrpcInterceptor
}.

Inductive BootStep :=
| AppCreated (logger : JsonLogger)
| HttpMetricsInstalled
| HttpPipelineConfigured
| CallersLogged (line : string)
| GrpcConnected (options : GrpcOptions)
| GrpcMethodDeclared (path : string)
| ReflectionAdded
| GrpcStarted
| Listening (port : Z) (address : string)
| DrainInstalled (captured : bool) (graceSeconds : Q)
| UpLogged (port : Z) (grpcPort : string) (version : string) (graceSeconds : Q).

Section Bootstrap.
Context (env : string -> option string) (readFile : string -> option string) (manifest version : string).
(** The framework: the application may fail to be created, the microservices to start and the port to be
    opened; starting the microservices may load the package definition and hand over the server. *)
Context (create_app : res exn unit) (start_microservices : res exn unit)
        (package_definition : option (list (string * JsValue))) (listen : Z -> res exn unit).

Abbreviation Boot := (prog (list BootStep) exn).
Definition did (s : BootStep) : Boot unit := atom (fun steps => (tt, (steps ++ [s])%list)).

Fixpoint declare_methods (paths : list string) : Boot unit :=
  match paths with [] => Ret tt | path :: paths => did (GrpcMethodDeclared path) ;;; declare_methods paths end.

Definition onLoadPackageDefinition : Boot bool :=
  match package_definition with
  | None => Ret false
  | Some pkg => declare_methods (grpcMethodPathsOf pkg) ;;; did ReflectionAdded ;;; Ret true
  end.

Definition grpc_options (grpcPort : string) (identity : ServiceIdentityFiles) (allowed : PeerAllowList) : GrpcOptions :=
  mkGrpcOptions ["identity.v1"; "geo.v1"]
    [contractProto manifest "identity/v1/identity.proto"; contractProto manifest "geo/v1/geo.proto"]
    true [contractProtoRoot manifest] ("0.0.0.0:" ++ grpcPort) (meshServerCredentials identity)
    [GrpcMetricsInterceptor; PeerAuthorizationInterceptor allowed; RequestIdInterceptor].

Definition bootstrap : Boot unit :=
  graceSeconds <- of_res (graceSecondsFrom (env "SHUTDOWN_GRACE_SECONDS")) ;;
  port <- of_res (positiveIntegerSetting "PORT" (env "PORT")) ;;
  logger <- of_res (res_bind (logLevelsFrom (env "LOG_LEVEL")) newJsonLogger) ;;
  of_res create_app ;;;
  did (AppCreated logger) ;;;
  did HttpMetricsInstalled ;;;
  did HttpPipelineConfigured ;;;
  match given (env "GRPC_PORT") with
  | None => Throw (PlainError "GRPC_PORT must be set")
  | Some grpcPort =>
      identity <- of_res (loadServiceIdentity readFile None (env "KINETIX_PKI_DIR")) ;;
      callers <- of_res (allowedCallers (env "GRPC_ALLOWED_CALLERS")) ;;
      did (CallersLogged callers.2) ;;;
      did (GrpcConnected (grpc_options grpcPort identity callers.1)) ;;;
      captured <- onLoadPackageDefinition ;;
      of_res start_microservices ;;;
      did GrpcStarted ;;;
      of_res (listen port) ;;;
      did (Listening port "0.0.0.0") ;;;
      did (DrainInstalled captured graceSeconds) ;;;
      did (UpLogged port grpcPort version graceSeconds)
  end.
End Bootstrap.

Section BootFacts.
Context (env : string -> option string) (readFile : string -> option string) (manifest version : string).
Context (create_app : res exn unit) (start_microservices : res exn unit)
        (package_definition : option (list (string * JsValue))) (listen : Z -> res exn unit).
Abbreviation boot := (bootstrap env readFile manifest version create_app start_microservices package_definition listen).

(** The steps of loading the package definition. *)
Definition load_steps : list BootStep :=
  match package_definition with
  | None => []
  | Some pkg => map GrpcMethodDeclared (grpcMethodPathsOf pkg) ++ [ReflectionAdded]
  end.

Lemma run_declare paths steps : run (declare_methods paths) steps = (Ok tt, (steps ++ map GrpcMethodDeclared paths)%list).
Proof.
  revert steps. induction paths as [|path paths IH]; intros steps; cbn; [by rewrite app_nil_r|]. by rewrite IH, <- app_assoc.
Qed.

Lemma run_load steps :
  run (onLoadPackageDefinition package_definition) steps = (Ok (bool_decide (is_Some package_definition)), (steps ++ load_steps)%list).
Proof.
  unfold onLoadPackageDefinition, load_steps. destruct package_definition as [pkg|]; [|by rewrite app_nil_r].
  rewrite run_bind, run_declare. cbn. by rewrite <- app_assoc.
Qed.

(** The steps up to the gRPC port, and those after it. *)
Definition before_grpc (logger : JsonLogger) (line : string) (options : GrpcOptions) : list BootStep :=
  ([AppCreated logger; HttpMetricsInstalled; HttpPipelineConfigured; CallersLogged line; GrpcConnected options] ++ load_steps)%list.

(** What the settings and files must be for the gRPC server to be set up. *)
Record configured (grace : Q) (port : Z) (logger : JsonLogger) (grpcPort : string) (files : ServiceIdentityFiles) (allowed : PeerAllowList)
    (line : string) : Prop := {
  grace_set : graceSecondsFrom (env "SHUTDOWN_GRACE_SECONDS") = Ok grace;
  port_set : positiveIntegerSetting "PORT" (env "PORT") = Ok port;
  logger_set : res_bind (logLevelsFrom (env "LOG_LEVEL")) newJsonLogger = Ok logger;
  grpcPort_set : given (env "GRPC_PORT") = Some grpcPort;
  files_read : loadServiceIdentity readFile None (env "KINETIX_PKI_DIR") = Ok files;
  allowed_set : allowedCallers (env "GRPC_ALLOWED_CALLERS") = Ok (allowed, line)
}.

Definition opens_port (s : BootStep) : bool := match s with GrpcConnected _ | GrpcStarted | Listening _ _ => true | _ => false end.

Lemma bootstrap_cases :
  (exists e steps, run boot [] = (Err e, steps) /\ Forall (fun s => opens_port s = false) steps) \/
  exists grace port logger grpcPort files allowed line, configured grace port logger grpcPort files allowed line /\
    let options := grpc_options manifest grpcPort files allowed in
    let opened := before_grpc logger line options in
    (exists e, start_microservices = Err e /\ run boot [] = (Err e, opened)) \/
    (exists e, start_microservices = Ok tt /\ listen port = Err e /\ run boot [] = (Err e, (opened ++ [GrpcStarted])%list)) \/
    (start_microservices = Ok tt /\ listen port = Ok tt /\
     run boot [] = (Ok tt, (opened ++ [GrpcStarted; Listening port "0.0.0.0"; DrainInstalled (bool_decide (is_Some package_definition)) grace;
                                       UpLogged port grpcPort version grace])%list)).
Proof.
  unfold bootstrap.
  destruct (graceSecondsFrom _) as [grace|e] eqn:E1; [|left; do 2 eexists; split; [reflexivity|by repeat constructor]].
  destruct (positiveIntegerSetting _ _) as [port|e] eqn:E2; [|left; do 2 eexists; split; [reflexivity|by repeat constructor]].
  destruct (res_bind (logLevelsFrom _) _) as [logger|e] eqn:E3; [|left; do 2 eexists; split; [reflexivity|by repeat constructor]].
  destruct create_app as [[]|e]; [|left; do 2 eexists; split; [reflexivity|by repeat constructor]].
  destruct (given _) as [grpcPort|] eqn:E4; [|left; do 2 eexists; split; [reflexivity|by repeat constructor]].
  destruct (loadServiceIdentity _ _ _) as [files|e] eqn:E5; [|left; do 2 eexists; split; [reflexivity|by repeat constructor]].
  destruct (allowedCallers _) as [[allowed line]|e] eqn:E6; [|left; do 2 eexists; split; [reflexivity|by repeat constructor]].
  right. exists grace, port, logger, grpcPort, files, allowed, line. split; [done|]. cbv zeta.
  cbn -[onLoadPackageDefinition grpc_options]. rewrite run_bind, run_load. cbn -[grpc_options app].
  destruct start_microservices as [[]|e]; [|left; exists e; done]. right. cbn -[grpc_options app].
  destruct (listen port) as [[]|e]; [right|left; exists e; done]. split_and!; [done..|]. cbn -[grpc_options app].
  unfold before_grpc. by rewrite <- !app_assoc.
Qed.

(** The gRPC server asks for a certificate of the mesh's authority, and lets no call pass before the list
    of callers, which names someone, was asked about it. *)
Definition guarded_server (o : GrpcOptions) : Prop :=
  exists files allowed line,
    loadServiceIdentity readFile None (env "KINETIX_PKI_DIR") = Ok files /\
    allowedCallers (env "GRPC_ALLOWED_CALLERS") = Ok (allowed, line) /\ allowed <> [] /\
    grpc_credentials o = mkServerSsl (id_ca files) [(id_key files, id_cert files)] true /\
    grpc_interceptors o = [GrpcMetricsInterceptor; PeerAuthorizationInterceptor allowed; RequestIdInterceptor].

Lemma configured_guards grace port logger grpcPort files allowed line :
  configured grace port logger grpcPort files allowed line -> guarded_server (grpc_options manifest grpcPort files allowed).
Proof.
  intros [_ _ _ _ Hf Ha]. exists files, allowed, line. split_and!; try done. unfold allowedCallers in Ha.
  destruct (parsePeerAllowList _) as [[|entry l]|]; [done| |done]. by simplify_eq.
Qed.

Lemma load_steps_quiet s : s ∈ load_steps -> (exists path, s = GrpcMethodDeclared path) \/ s = ReflectionAdded.
Proof.
  unfold load_steps. destruct package_definition as [pkg|]; [|by intros ?%elem_of_nil].
  rewrite elem_of_app, list_elem_of_fmap, list_elem_of_singleton. intros [(path & -> & _)| ->]; eauto.
Qed.

(** Whatever the outcome: a gRPC server is only set up so that it is guarded; the HTTP port is the
    configured one and is opened after the validation and errors of requests are in place and after the
    gRPC server has started; start-up succeeds exactly if it reports that the service is up, with the port
    open and the shutdown prepared. *)
Definition ports_in_order (r : res exn unit) (steps : list BootStep) : Prop :=
  (forall o, GrpcConnected o ∈ steps -> guarded_server o) /\
  (forall p a, Listening p a ∈ steps -> positiveIntegerSetting "PORT" (env "PORT") = Ok p /\
     exists pre post, steps = (pre ++ Listening p a :: post)%list /\ HttpPipelineConfigured ∈ pre /\ GrpcStarted ∈ pre /\
       exists o, GrpcConnected o ∈ pre) /\
  (r = Ok tt <-> exists p g v gr c, UpLogged p g v gr ∈ steps /\ Listening p "0.0.0.0" ∈ steps /\ DrainInstalled c gr ∈ steps).

Lemma ports_open_in_order r steps : run boot [] = (r, steps) -> ports_in_order r steps.
Proof.
  intros Hrun. unfold ports_in_order. destruct bootstrap_cases as [(e & s & E & Hq)|(grace & port & logger & grpcPort & files & allowed & line & Hc & H)].
  { rewrite Hrun in E. injection E as -> ->. rewrite Forall_forall in Hq.
    split_and!; [intros o Ho%Hq; done|intros p a Ho%Hq; done|]. split; [done|]. intros (p & ? & ? & ? & ? & _ & Hl%Hq & _). done. }
  cbv zeta in H. set (o := grpc_options manifest grpcPort files allowed) in *. set (opened := before_grpc logger line o) in *.
  assert (forall o', GrpcConnected o' ∈ opened -> o' = o) as Ho.
  { intros o'. unfold opened, before_grpc. rewrite elem_of_app. intros [Hin|Hin%load_steps_quiet]; [set_solver|naive_solver]. }
  assert (forall p a, Listening p a ∈ opened -> False) as Hl.
  { intros p a. unfold opened, before_grpc. rewrite elem_of_app. intros [Hin|Hin%load_steps_quiet]; [set_solver|naive_solver]. }
  assert (HttpPipelineConfigured ∈ opened /\ GrpcConnected o ∈ opened) as [Hp Hg]
    by (unfold opened, before_grpc; rewrite !elem_of_app; split; left; set_solver).
  pose proof (configured_guards _ _ _ _ _ _ _ Hc) as Hguard. fold o in Hguard. clearbody opened o.
  destruct H as [(e & _ & E)|[(e & _ & _ & E)|(_ & _ & E)]]; rewrite Hrun in E; injection E as -> ->; split_and!.
  - by intros o' ->%Ho.
  - by intros p a ?%Hl.
  - split; [done|]. intros (p & ? & ? & ? & ? & _ & ?%Hl & _). done.
  - intros o' [->%Ho|?]%elem_of_app; [done|set_solver].
  - intros p a [?%Hl|?]%elem_of_app; [done|set_solver].
  - split; [done|]. intros (p & ? & ? & ? & ? & _ & [?%Hl|?]%elem_of_app & _); [done|set_solver].
  - intros o' [->%Ho|?]%elem_of_app; [done|set_solver].
  - intros p a [?%Hl|Hin]%elem_of_app; [done|].
    assert (Listening p a = Listening port "0.0.0.0") as E by set_solver. injection E as -> ->. split; [apply Hc|].
    exists (opened ++ [GrpcStarted])%list, [DrainInstalled (bool_decide (is_Some package_definition)) grace; UpLogged port grpcPort version grace].
    rewrite <- app_assoc. split_and!; [done|set_solver..|]. exists o. set_solver.
  - split; [|done]. intros _. exists port, grpcPort, version, grace, (bool_decide (is_Some package_definition)). set_solver.
Qed.

(** Nothing is done, not even a port opened, by a process whose application could not be created. *)
Lemma steps_need_app r steps : run boot [] = (r, steps) -> steps <> [] -> create_app = Ok tt.
Proof.
  unfold bootstrap. destruct (graceSecondsFrom _); [|by intros [= <- <-]]. destruct (positiveIntegerSetting _ _); [|by intros [= <- <-]].
  destruct (res_bind (logLevelsFrom _) _); [|by intros [= <- <-]]. by destruct create_app as [[]|]; [|intros [= <- <-]].
Qed.

(** Start-up succeeds exactly if the application was created, the settings and files are in order and the
    framework's steps succeed. *)
Lemma bootstrap_up :
  (run boot []).1 = Ok tt <->
  create_app = Ok tt /\ start_microservices = Ok tt /\
  exists grace port logger grpcPort files allowed line,
    configured grace port logger grpcPort files allowed line /\ listen port = Ok tt.
Proof.
  split.
  - intros Hok. destruct (run boot []) as [r steps] eqn:Hrun. cbn in Hok. subst r. pose proof Hrun as Happ. apply steps_need_app in Happ.
    + destruct bootstrap_cases as [(e & s & E & _)|(grace & port & logger & grpcPort & files & allowed & line & Hc & H)];
        [rewrite Hrun in E; done|]. cbv zeta in H.
      destruct H as [(e & _ & E)|[(e & _ & _ & E)|(Hs & Hl & _)]]; [rewrite Hrun in E; done..|].
      split_and!; [done..|]. by exists grace, port, logger, grpcPort, files, allowed, line.
    + intros ->. destruct (ports_open_in_order _ _ Hrun) as (_ & _ & [H _]).
      destruct (H eq_refl) as (? & ? & ? & ? & ? & []%elem_of_nil & _).
  - intros (Happ & Hs & grace & port & levels & grpcPort & files & allowed & line & [E1 E2 E3 E4 E5 E6] & Hl).
    unfold bootstrap. rewrite E1, E2, E3, Happ, E4, E5, E6. cbn -[onLoadPackageDefinition grpc_options].
    rewrite run_bind, run_load. cbn -[grpc_options app]. rewrite Hs. cbn -[grpc_options app]. by rewrite Hl.
Qed.
End BootFacts.

(** ** The migration program *)

(** What the program uses of TypeORM's data source. *)
Class MigrationSource {P : Platform} := {
  ds_initialize : M unit;
  ds_showMigrations : M bool;
  ds_runMigrations : M (list string);
  ds_destroy : M unit
}.

Section Migrate.
Context {P : Platform} {D : MigrationSource}.

(** [try { body } finally { last }] *)
Definition finally {A} (body : M A) (last : M unit) : M A :=
  r <- catch (a <- body ;; Ret (Ok a)) (fun error => Ret (Err error)) ;;
  last ;;;
  of_res r.

Fixpoint report_applied (applied : list string) : M unit :=
  match applied with
  | [] => Ret tt
  | name :: applied => console ("applied " ++ name) ;;; report_applied applied
  end.

Definition migrate_main : M unit :=
  ds_initialize ;;;
  finally
    (pending <- ds_showMigrations ;;
     if negb pending then console "schema is up to date; no migrations to apply"
     else
       applied <- ds_runMigrations ;;
       match applied with
       | [] => console "no migrations were applied"
       | _ => report_applied applied
       end)
    ds_destroy.

Definition migrate : M ScriptEnd :=
  catch (migrate_main ;;; Ret Returned)
    (fun error => console ("migration failed: " ++ exn_message error) ;;; Ret (Exit 1)).

Lemma run_finally {A} (body : M A) (last : M unit) w :
  run (finally body last) w =
  match run last (run body w).2 with
  | (Ok _, w') => ((run body w).1, w')
  | (Err e, w') => (Err e, w')
  end.
Proof.
  unfold finally. rewrite run_bind, run_catch, run_bind. destruct (run body w) as [[a|e] w1]; cbn; rewrite run_bind;
    destruct (run last w1) as [[[]|e'] w2]; cbn; by rewrite ?run_of_res.
Qed.

(** A migration that fails is never reported as one that was applied: the program returns only where
    the migrations were applied or none was pending, and the connection was closed; where anything threw
    it ends with status 1 and the reason as the last thing it says. *)
Lemma migrate_ends w :
  exists e w', run migrate w = (Ok e, w') /\
    ((e = Returned /\ exists w1 w2 r, run ds_initialize w = (Ok tt, w1) /\ run ds_destroy w2 = (Ok tt, w') /\
        (run ds_showMigrations w1 = (Ok false, r) \/
         exists w0 applied w3, run ds_showMigrations w1 = (Ok true, w0) /\ run ds_runMigrations w0 = (Ok applied, w3))) \/
     (e = Exit 1 /\ exists reason, last (events w') = Some (LogLine None ("migration failed: " ++ reason)))).
Proof.
  unfold migrate. rewrite run_catch, run_bind. unfold migrate_main. rewrite run_bind.
  assert (forall err w1, exists e w', run (console ("migration failed: " ++ exn_message err) ;;; Ret (Exit 1)) w1 = (Ok e, w') /\
    e = Exit 1 /\ last (events w') = Some (LogLine None ("migration failed: " ++ exn_message err))) as Hfail.
  { intros err w1. do 2 eexists. split; [reflexivity|]. split; [done|]. cbn. by rewrite last_snoc. }
  destruct (run ds_initialize w) as [[[]|err] w1] eqn:Ei; cbn [run].
  2: { destruct (Hfail err w1) as (e & w' & E & -> & Hl). exists (Exit 1), w'. split; [exact E|]. right. eauto. }
  rewrite run_finally. match goal with |- context [run ?b w1] => set (body := b) end.
  destruct (run ds_destroy (run body w1).2) as [[[]|err] w2] eqn:Ed.
  2: { destruct (Hfail err w2) as (e & w' & E & -> & Hl). exists (Exit 1), w'. split; [exact E|]. right. eauto. }
  destruct (run body w1) as [[[]|err] w3] eqn:Eb; cbn [fst snd] in *.
  2: { destruct (Hfail err w2) as (e & w' & E & -> & Hl). exists (Exit 1), w'. split; [exact E|]. right. eauto. }
  cbn [run]. exists Returned, w2. split; [done|]. left. split; [done|]. exists w1, w3. unfold body in Eb. rewrite run_bind in Eb.
  destruct (run ds_showMigrations w1) as [[[]|e0] w0]; cbn [negb] in Eb; [|exists w0; by auto|discriminate Eb].
  exists w0. split_and!; [done..|]. right. rewrite run_bind in Eb.
  destruct (run ds_runMigrations w0) as [[applied|e0] w4] eqn:Er; [|done]. exists w0, applied, w4. split; [reflexivity|exact Er].
Qed.
End Migrate.

(** ** The routes for the platform *)

Record LivenessReport := mkLiveness { live_status : string; live_service : string }.
Record ReadinessReport := mkReadiness { ready_status : string; ready_database : string }.

Definition live : LivenessReport := mkLiveness "ok" "kinetix-identity-service".

Section Platform.
Context {P : Platform}.

(** The exception carries an object of its own, and Nest's text for one. *)
Definition ready : M ReadinessReport :=
  catch (query (fun _ => tt)) (fun error =>
    Store.emit (LogLine None ("readiness check failed: " ++ exn_message error)) ;;;
    Throw (HttpException ServiceUnavailable None "Service Unavailable Exception")) ;;;
  Ret (mkReadiness "ok" "reachable").

(** The service says that it is ready exactly if the database answers now, and asking changes no table. *)
Lemma ready_asks w :
  (run ready w).1 = match db_fault (db_calls w) with
                     | NoFault => Ok (mkReadiness "ok" "reachable")
                     | _ => Err (HttpException ServiceUnavailable None "Service Unavailable Exception")
                     end /\
  db (run ready w).2 = db w.
Proof. unfold ready, query, statement. cbn. by destruct (db_fault (db_calls w)). Qed.

Definition PLAIN_TEXT : string := "text/plain; charset=utf-8".

(** [render] and [contentType]: the metrics library's text for a registry. *)
Definition metrics (render : Metrics.Registry -> res exn string) (contentType : string) (registry : Metrics.Registry) : M (HttpReply string) :=
  match render registry with
  | Err error =>
      Store.emit (LogLine None ("the metrics registry could not be rendered: " ++ exn_message error)) ;;;
      Ret (Errors.mkReply 503 [("Content-Type", PLAIN_TEXT); ("Cache-Control", "no-store")]
             ("metrics could not be rendered; this is not a report of zero traffic" ++ String (ascii_of_nat 10) ""))
  | Ok body => Ret (Errors.mkReply 200 [("Content-Type", contentType); ("Cache-Control", "no-store")] body)
  end.

Definition jwks_route {K : KeyMaterial P} (keys : JwtKeyProvider P) : HttpReply (list PublishedKey) :=
  Errors.mkReply 200 [("Cache-Control", "public, max-age=300"); ("Content-Type", "application/jwk-set+json")] (jwks keys).
End Platform.

Module Witness.

Definition env (name : string) : option string :=
  match name with
  | "PORT" => Some "3000"
  | "GRPC_PORT" => Some "50051"
  | "GRPC_ALLOWED_CALLERS" => Some "order-service"
  | _ => None
  end.
Definition files (path : string) : option string :=
  match path with "/pki/tls.crt" => Some "cert" | "/pki/tls.key" => Some "key" | "/pki/ca.pem" => Some "ca" | _ => None end.
Definition package : list (string * JsValue) :=
  [("identity.v1.Identity", JsObject [("ValidateToken", JsObject [("path", JsString "/identity.v1.Identity/ValidateToken")])])].
Definition start (files : string -> option string) := run (bootstrap env files "/srv/node_modules/kinetix-contracts/package.json" "1.0.0"
  (Ok tt) (Ok tt) (Some package) (fun _ => Ok tt)) [].

Example paths :
  path_join "/pki/" "./tls.crt" = "/pki/tls.crt" /\ path_join "" "a/../../b" = "../b" /\ path_dirname "/a/b.json" = "/a" /\
  path_dirname "/a" = "/" /\ path_dirname "b" = "." /\
  contractProto "/srv/node_modules/kinetix-contracts/package.json" "geo/v1/geo.proto" = "/srv/node_modules/kinetix-contracts/proto/geo/v1/geo.proto".
Proof. vm_compute. split_and!; reflexivity. Qed.

(** Without a key the service does not come up, and opens nothing. *)
Example no_key :
  start (fun path => if String.eqb path "/pki/tls.key" then None else files path) =
  (Err (PlainError "tls.key is missing from /pki. This service's PKI is mounted there; issue it with kinetix-infrastructure/bin/kinetix-pki issue."),
   [AppCreated (mkJsonLogger DEFAULT_LEVELS); HttpMetricsInstalled; HttpPipelineConfigured]).
Proof. vm_compute. reflexivity. Qed.

(** With LOG_LEVEL=constructor the logger cannot be made, and the process ends before its first step. *)
Example no_logger :
  run (bootstrap (fun name => if String.eqb name "LOG_LEVEL" then Some "constructor" else env name) files
         "/srv/node_modules/kinetix-contracts/package.json" "1.0.0" (Ok tt) (Ok tt) (Some package) (fun _ => Ok tt)) [] =
  (Err (PlainError "the member constructor of an object is not iterable"), []).
Proof. vm_compute. reflexivity. Qed.
End Witness.
