(* ===== verification/Wiring.v ===== *)
(** * The object graph of the service

    Models src/src/app.module.ts and the constructors of the classes it names: what each class asks to be
    given, which class, factory or library stands for each token ([AppModule]), and what the constructors
    check before the process may start ([construct]). The decorators of the routes (Routes.v) add the guards
    and interceptors the framework must build.

    The framework's container is an interface, [NestContainer], with its documented behaviour as laws: a
    class is built from what its parameters' tokens resolve to, a factory likewise, a token nobody provides
    is an error, and the application is created when every class of the module could be built. [Resolver] is
    an instance of it. TypeORM, the configuration module and the throttler are known by what they export.

    Main results: the application is created exactly if every setting its constructors and its database read
    is in order (nothing is missing from the module and nothing depends on itself), and then every
    constructor was given objects of the types it declares, over the repositories of the migrated tables. *)

From S2P Require Import Prelude JsString Domain Store Sample Keys Tokens Clients AppCheck Passkeys Mesh Nominatim Settings Guards Routes Json Logging Shutdown Entities Startup.
From Stdlib Require Import String QArith_base.
Local Open Scope string_scope.
Local Open Scope Z_scope.

(** ** Tokens, classes and modules *)

(** What the container is asked for: a class by itself, a port by its name, TypeORM's repository of an
    entity ([getRepositoryToken]), or the guard of every route. *)
Inductive Token := ClassToken (name : string) | PortToken (name : string) | RepositoryToken (table : string) | APP_GUARD.
#[export] Instance Token_eq_dec : EqDecision Token.
Proof. solve_decision. Defined.

(** The declared type of a parameter: a class or an interface, or a repository of an entity. *)
Inductive TypeRef := Named (name : string) | RepositoryOf (table : string).
#[export] Instance TypeRef_eq_dec : EqDecision TypeRef.
Proof. solve_decision. Defined.

Record Param := mkParam { param_token : Token; param_type : TypeRef }.

(** [x: T], [@Inject("P") x: P], [@InjectRepository(E) x: Repository<E>] and [@InjectDataSource()], whose
    token is the class [DataSource]. *)
Definition byType (name : string) : Param := mkParam (ClassToken name) (Named name).
Definition Inject (port interface : string) : Param := mkParam (PortToken port) (Named interface).
Definition InjectRepository (e declared : Entity) : Param := mkParam (RepositoryToken (entity_table e)) (RepositoryOf (entity_table declared)).
Definition InjectDataSource : Param := mkParam (ClassToken "DataSource") (Named "DataSource").

Record ClassDecl := mkClass { class_name : string; class_implements : list string; class_params : list Param }.

(** How an object comes about: [new] of a class, a factory of one, or a library's own class. *)
Inductive Recipe := UseClass (c : ClassDecl) | UseFactory (result : ClassDecl) (inject : list Param) | UseLibrary (name : string).

Record Provider := mkProvider { provide : Token; recipe : Recipe }.
(** A class listed among the providers stands for itself. *)
Definition itself (c : ClassDecl) : Provider := mkProvider (ClassToken (class_name c)) (UseClass c).

Record ControllerDecl := mkController { controller_class : ClassDecl; controller_routes : list Route }.

Record ThrottlerOptions := mkThrottle { ttl : Z; limit : Z }.
Record DataSourceOptions := mkDataSource {
  source_settings : DatabaseSettings; connectTimeoutMS : Z; source_entities : list Entity; synchronize : bool
}.

Inductive Import :=
| ConfigModule_forRoot (isGlobal : bool)
| ThrottlerModule_forRoot (throttlers : list ThrottlerOptions)
| TypeOrmModule_forRootAsync (inject : list Token) (useFactory : (string -> option string) -> res exn DataSourceOptions)
| TypeOrmModule_forFeature (features : list Entity).

Record ModuleDecl := mkModule { imports : list Import; controllers : list ControllerDecl; providers : list Provider }.

(** ** The classes *)

Definition FleetRegistryGrpcAdapter_class := mkClass "FleetRegistryGrpcAdapter" ["FleetRegistryPort"] [byType "ConfigService"].

Definition TypeormSignInAttemptRepositoryAdapter_class := mkClass "TypeormSignInAttemptRepositoryAdapter" ["SignInAttemptRepositoryPort"]
  [InjectRepository AccountSignInAttemptTypeormEntity AccountSignInAttemptTypeormEntity].

Definition TypeormPasskeyChallengeRepositoryAdapter_class := mkClass "TypeormPasskeyChallengeRepositoryAdapter" ["PasskeyChallengeRepositoryPort"]
  [InjectRepository PasskeyChallengeTypeormEntity PasskeyChallengeTypeormEntity].

Definition TypeormUserRepositoryAdapter_class := mkClass "TypeormUserRepositoryAdapter" ["UserRepositoryPort"]
  [InjectRepository UserTypeormEntity UserTypeormEntity].

Definition TypeormGeocodedAddressRepositoryAdapter_class := mkClass "TypeormGeocodedAddressRepositoryAdapter" ["GeocodedAddressRepositoryPort"]
  [InjectRepository GeocodedAddressTypeormEntity GeocodedAddressTypeormEntity].

Definition TypeormCourierApplicationRepositoryAdapter_class := mkClass "TypeormCourierApplicationRepositoryAdapter" ["CourierApplicationRepositoryPort"]
  [InjectRepository CourierApplicationTypeormEntity CourierApplicationTypeormEntity].

Definition TypeormMerchantVerificationRepositoryAdapter_class :=
  mkClass "TypeormMerchantVerificationRepositoryAdapter" ["MerchantVerificationRepositoryPort"]
  [InjectRepository MerchantVerificationTypeormEntity MerchantVerificationTypeormEntity].

Definition TypeormPasskeyRepositoryAdapter_class := mkClass "TypeormPasskeyRepositoryAdapter" ["PasskeyRepositoryPort"]
  [InjectRepository PasskeyTypeormEntity PasskeyTypeormEntity].

Definition TypeormMerchantRepositoryAdapter_class := mkClass "TypeormMerchantRepositoryAdapter" ["MerchantRepositoryPort"]
  [InjectRepository MerchantTypeormEntity MerchantTypeormEntity].

Definition TypeormProfileRepositoryAdapter_class := mkClass "TypeormProfileRepositoryAdapter" ["ProfileRepositoryPort"]
  [InjectRepository ProfileTypeormEntity ProfileTypeormEntity].

Definition NominatimGeocodingAdapter_class := mkClass "NominatimGeocodingAdapter" ["GeocodingProviderPort"] [byType "ConfigService"].

Definition JwtKeyProvider_class := mkClass "JwtKeyProvider" [] [byType "ConfigService"].

Definition AuthUsecaseService_class := mkClass "AuthUsecaseService" []
  [Inject "UserRepositoryPort" "UserRepositoryPort"; byType "TokenService"; byType "PrincipalResolverService";
   byType "SignInAttemptsService"; byType "ClientGateService"; Inject "PasskeyRepositoryPort" "PasskeyRepositoryPort"].

Definition PrincipalResolverService_class := mkClass "PrincipalResolverService" []
  [InjectRepository PrincipalAliasTypeormEntity PrincipalAliasTypeormEntity;
   InjectRepository PrincipalTypeormEntity PrincipalTypeormEntity; byType "DataSource"].

Definition GeocodingUsecaseService_class := mkClass "GeocodingUsecaseService" []
  [Inject "GeocodingProviderPort" "GeocodingProviderPort"; Inject "GeocodedAddressRepositoryPort" "GeocodedAddressRepositoryPort"].

Definition ExpiredRecordSweeperService_class := mkClass "ExpiredRecordSweeperService" ["OnApplicationBootstrap"; "OnModuleDestroy"]
  [byType "SignInAttemptsService"; byType "TokenService"; Inject "PasskeyChallengeRepositoryPort" "PasskeyChallengeRepositoryPort"].

Definition UserProfileUsecaseService_class := mkClass "UserProfileUsecaseService" []
  [Inject "ProfileRepositoryPort" "ProfileRepositoryPort"; byType "GeocodingUsecaseService"].

Definition SignInAttemptsService_class := mkClass "SignInAttemptsService" [] [Inject "SignInAttemptRepositoryPort" "SignInAttemptRepositoryPort"].

Definition SellerOnboardingUsecaseService_class := mkClass "SellerOnboardingUsecaseService" []
  [Inject "MerchantVerificationRepositoryPort" "MerchantVerificationRepositoryPort"; Inject "MerchantRepositoryPort" "MerchantRepositoryPort";
   Inject "UserRepositoryPort" "UserRepositoryPort"; byType "PrincipalResolverService"; byType "GeocodingUsecaseService"].

Definition PasskeyUsecaseService_class := mkClass "PasskeyUsecaseService" []
  [Inject "UserRepositoryPort" "UserRepositoryPort"; Inject "PasskeyRepositoryPort" "PasskeyRepositoryPort";
   Inject "PasskeyChallengeRepositoryPort" "PasskeyChallengeRepositoryPort"; Inject "PasskeyCeremonyPort" "PasskeyCeremonyPort";
   byType "AuthUsecaseService"; byType "TokenService"; byType "SignInAttemptsService"].

Definition TokenService_class := mkClass "TokenService" []
  [byType "ConfigService"; byType "JwtKeyProvider"; InjectRepository RefreshTokenTypeormEntity RefreshTokenTypeormEntity;
   InjectRepository RevokedAccessTokenTypeormEntity RevokedAccessTokenTypeormEntity].

Definition CourierOnboardingUsecaseService_class := mkClass "CourierOnboardingUsecaseService" []
  [Inject "UserRepositoryPort" "UserRepositoryPort"; byType "PrincipalResolverService"; Inject "FleetRegistryPort" "FleetRegistryPort";
   Inject "CourierApplicationRepositoryPort" "CourierApplicationRepositoryPort"].

Definition CourierRegistrationUsecaseService_class := mkClass "CourierRegistrationUsecaseService" []
  [byType "AuthUsecaseService"; byType "UserProfileUsecaseService"; Inject "FleetRegistryPort" "FleetRegistryPort";
   Inject "UserRepositoryPort" "UserRepositoryPort"; Inject "CourierApplicationRepositoryPort" "CourierApplicationRepositoryPort"].

(** The two made by factories: a parameter of a plain type is no token of the container. *)
Definition plain (type : string) : Param := mkParam (ClassToken "Object") (Named type).

Definition ClientGateService_class := mkClass "ClientGateService" [] [plain "ClientRegistry"; plain "ClientProofVerifierPort"].

Definition SimpleWebAuthnCeremonyAdapter_class := mkClass "SimpleWebAuthnCeremonyAdapter" ["PasskeyCeremonyPort"] [plain "RelyingParty"].

Definition JwtAuthGuard_class := mkClass "JwtAuthGuard" ["CanActivate"] [byType "TokenService"; byType "Reflector"].

Definition RolesGuard_class := mkClass "RolesGuard" ["CanActivate"] [byType "Reflector"].

Definition SelfOrStaffGuard_class := mkClass "SelfOrStaffGuard" ["CanActivate"] [byType "Reflector"].

Definition ClientProofGuard_class := mkClass "ClientProofGuard" ["CanActivate"] [byType "ClientGateService"].

Definition AdminAuditInterceptor_class := mkClass "AdminAuditInterceptor" ["NestInterceptor"] [byType "Reflector"].

Definition GeoGrpcController_class := mkClass "GeoGrpcController" [] [byType "GeocodingUsecaseService"].

Definition IdentityGrpcController_class := mkClass "IdentityGrpcController" []
  [byType "UserProfileUsecaseService"; Inject "UserRepositoryPort" "UserRepositoryPort"; Inject "MerchantRepositoryPort" "MerchantRepositoryPort";
   byType "TokenService"; InjectRepository PrincipalAliasTypeormEntity PrincipalAliasTypeormEntity;
   InjectRepository PrincipalTypeormEntity PrincipalTypeormEntity].

Definition SellerOnboardingController_class := mkClass "SellerOnboardingController" [] [byType "SellerOnboardingUsecaseService"].

Definition UserProfileController_class := mkClass "UserProfileController" [] [byType "UserProfileUsecaseService"].

Definition HealthController_class := mkClass "HealthController" [] [InjectDataSource].

Definition CourierOnboardingController_class := mkClass "CourierOnboardingController" []
  [byType "CourierOnboardingUsecaseService"; byType "CourierRegistrationUsecaseService"].

Definition MetricsController_class := mkClass "MetricsController" [] [].

Definition JwksController_class := mkClass "JwksController" [] [byType "TokenService"].

Definition PasskeyController_class := mkClass "PasskeyController" [] [byType "PasskeyUsecaseService"].

Definition AuthController_class := mkClass "AuthController" [] [byType "AuthUsecaseService"].

(** ** The module *)

Definition CLIENT_GATE_PROVIDER : Provider :=
  mkProvider (ClassToken "ClientGateService") (UseFactory ClientGateService_class [byType "ConfigService"]).

Definition PASSKEY_CEREMONY_PROVIDER : Provider :=
  mkProvider (PortToken "PasskeyCeremonyPort") (UseFactory SimpleWebAuthnCeremonyAdapter_class [byType "ConfigService"]).

Definition DEFAULT_THROTTLE : ThrottlerOptions := mkThrottle 60000 10.

Definition DATABASE_CONNECT_TIMEOUT_MS : Z := 5000.

Definition AppModule_entities : list Entity := [
  PrincipalTypeormEntity; PrincipalAliasTypeormEntity; RefreshTokenTypeormEntity; RevokedAccessTokenTypeormEntity;
  UserTypeormEntity; ProfileTypeormEntity; MerchantVerificationTypeormEntity; MerchantTypeormEntity;
  GeocodedAddressTypeormEntity; CourierApplicationTypeormEntity; AccountSignInAttemptTypeormEntity;
  TwoFactorChallengeAttemptTypeormEntity; PasskeyTypeormEntity; PasskeyChallengeTypeormEntity].

Definition AppModule_database (config : string -> option string) : res exn DataSourceOptions :=
  res_bind (requiredSetting "DB_HOST" (config "DB_HOST")) (fun host =>
  res_bind (positiveIntegerSetting "DB_PORT" (config "DB_PORT")) (fun port =>
  res_bind (requiredSetting "DB_USERNAME" (config "DB_USERNAME")) (fun username =>
  res_bind (requiredSetting "DB_PASSWORD" (config "DB_PASSWORD")) (fun password =>
  res_bind (requiredSetting "DB_DATABASE" (config "DB_DATABASE")) (fun database =>
  Ok (mkDataSource (mkDatabase host port username password database) DATABASE_CONNECT_TIMEOUT_MS AppModule_entities false)))))).

Definition AppModule_features : list Entity := [
  PrincipalTypeormEntity; PrincipalAliasTypeormEntity; RefreshTokenTypeormEntity; RevokedAccessTokenTypeormEntity;
  UserTypeormEntity; ProfileTypeormEntity; MerchantVerificationTypeormEntity; MerchantTypeormEntity;
  GeocodedAddressTypeormEntity; CourierApplicationTypeormEntity; AccountSignInAttemptTypeormEntity;
  TwoFactorChallengeAttemptTypeormEntity; PasskeyTypeormEntity; PasskeyChallengeTypeormEntity].

Definition AppModule_imports : list Import := [
  ConfigModule_forRoot true;
  ThrottlerModule_forRoot [DEFAULT_THROTTLE];
  TypeOrmModule_forRootAsync [ClassToken "ConfigService"] AppModule_database;
  TypeOrmModule_forFeature AppModule_features].

(** The routes are those of Routes.v; the other controllers' routes name no guard and no interceptor. *)
Definition auth_routes : list Route := [
  auth_login_route; auth_verifyTwoFactor_route; auth_register_route; auth_refresh_route; auth_logout_route; auth_me_route;
  auth_setupTwoFactor_route; auth_enableTwoFactor_route; auth_disableTwoFactor_route].

Definition passkey_routes : list Route := [
  passkey_signInOptions_route; passkey_verifySignIn_route; passkey_list_route; passkey_registrationOptions_route;
  passkey_register_route; passkey_remove_route].

Definition profile_routes : list Route := [profile_getProfile_route; profile_updateProfile_route].

Definition seller_routes : list Route := [
  seller_listApplications_route; seller_tally_route; seller_application_route; seller_onboardSeller_route;
  seller_approveVerification_route; seller_rejectVerification_route].

Definition courier_routes : list Route := [
  courier_register_route; courier_listApplications_route; courier_tally_route; courier_approveCourier_route;
  courier_rejectCourier_route].

Definition AppModule_controllers : list ControllerDecl := [
  mkController HealthController_class [];
  mkController MetricsController_class [];
  mkController JwksController_class [];
  mkController AuthController_class auth_routes;
  mkController PasskeyController_class passkey_routes;
  mkController UserProfileController_class profile_routes;
  mkController SellerOnboardingController_class seller_routes;
  mkController CourierOnboardingController_class courier_routes;
  mkController IdentityGrpcController_class [];
  mkController GeoGrpcController_class []].

Definition AppModule_providers : list Provider := [
  itself JwtKeyProvider_class;
  itself TokenService_class;
  itself PrincipalResolverService_class;
  CLIENT_GATE_PROVIDER;
  PASSKEY_CEREMONY_PROVIDER;
  mkProvider APP_GUARD (UseClass JwtAuthGuard_class);
  itself RolesGuard_class;
  itself SelfOrStaffGuard_class;
  itself AuthUsecaseService_class;
  itself PasskeyUsecaseService_class;
  itself SignInAttemptsService_class;
  itself ExpiredRecordSweeperService_class;
  itself UserProfileUsecaseService_class;
  itself GeocodingUsecaseService_class;
  itself SellerOnboardingUsecaseService_class;
  itself CourierOnboardingUsecaseService_class;
  itself CourierRegistrationUsecaseService_class;
  mkProvider (PortToken "UserRepositoryPort") (UseClass TypeormUserRepositoryAdapter_class);
  mkProvider (PortToken "ProfileRepositoryPort") (UseClass TypeormProfileRepositoryAdapter_class);
  mkProvider (PortToken "MerchantVerificationRepositoryPort") (UseClass TypeormMerchantVerificationRepositoryAdapter_class);
  mkProvider (PortToken "MerchantRepositoryPort") (UseClass TypeormMerchantRepositoryAdapter_class);
  mkProvider (PortToken "CourierApplicationRepositoryPort") (UseClass TypeormCourierApplicationRepositoryAdapter_class);
  mkProvider (PortToken "SignInAttemptRepositoryPort") (UseClass TypeormSignInAttemptRepositoryAdapter_class);
  mkProvider (PortToken "PasskeyRepositoryPort") (UseClass TypeormPasskeyRepositoryAdapter_class);
  mkProvider (PortToken "PasskeyChallengeRepositoryPort") (UseClass TypeormPasskeyChallengeRepositoryAdapter_class);
  mkProvider (PortToken "FleetRegistryPort") (UseClass FleetRegistryGrpcAdapter_class);
  mkProvider (PortToken "GeocodingProviderPort") (UseClass NominatimGeocodingAdapter_class);
  mkProvider (PortToken "GeocodedAddressRepositoryPort") (UseClass TypeormGeocodedAddressRepositoryAdapter_class)].

Definition AppModule : ModuleDecl := mkModule AppModule_imports AppModule_controllers AppModule_providers.

(** What the decorators of a route make the framework build. *)
Definition guard_recipe (g : Guard) : Recipe :=
  match g with
  | ThrottlerGuard => UseLibrary "ThrottlerGuard"
  | ClientProofGuard => UseClass ClientProofGuard_class
  | RolesGuard => UseClass RolesGuard_class
  | SelfOrStaffGuard => UseClass SelfOrStaffGuard_class
  end.
Definition route_enhancers (r : Route) : list Recipe :=
  (map guard_recipe (route_guards r) ++ match route_audit r with Some _ => [UseClass AdminAuditInterceptor_class] | None => [] end)%list.
Definition controller_recipes (c : ControllerDecl) : list Recipe :=
  UseClass (controller_class c) :: List.concat (map route_enhancers (controller_routes c)).

(** The actions an administrator's request may be recorded under. *)
Definition AdminAction : list string := [
  "identity.seller_applications_list"; "identity.seller_applications_tally"; "identity.seller_application_read";
  "identity.seller_onboard"; "identity.seller_verify"; "identity.seller_reject"; "identity.courier_applications_list";
  "identity.courier_applications_tally"; "identity.courier_approve"; "identity.courier_reject"; "identity.profile_read";
  "identity.profile_update"; "identity.passkeys_list"; "identity.passkey_options"; "identity.passkey_add"; "identity.passkey_remove"].

(** Each is the action of exactly one route. *)
Lemma actions_have_one_route :
  omap (fun r => audit_action <$> route_audit r) (List.concat (map controller_routes (controllers AppModule))) ≡ₚ AdminAction.
Proof. apply NoDup_Permutation; [apply (bool_decide_unpack _); vm_compute; exact I..|]. intros a. vm_compute. set_solver. Qed.

(** Everything the framework builds for a module. *)
Definition module_recipes (m : ModuleDecl) : list Recipe :=
  (map recipe (providers m) ++ List.concat (map controller_recipes (controllers m)))%list.

(** ** What the constructors and factories check *)

Section Constructors.
Context {P : Platform} {K : KeyMaterial P} {A : AppCheckPlatform} {N : NetLibrary} {W : WebUrlParser} {U : UrlParser}.

Definition newFleetRegistryGrpcAdapter (config : string -> option string) : res exn string :=
  res_bind (requiredSetting "MATCHING_GRPC_HOST" (config "MATCHING_GRPC_HOST")) (fun host => Ok (trim host)).

Definition passkeyCeremonyFrom (config : string -> option string) : res exn RelyingParty := relyingPartyFrom config.

(** [config.get(name) ?? process.env.name] *)
Definition setting_or_env (config env : string -> option string) (name : string) : option string :=
  match config name with Some value => Some value | None => env name end.

Definition jwt_keys (config env : string -> option string) : res exn (JwtKeyProvider P) :=
  newJwtKeyProvider (setting_or_env config env "KINETIX_IDENTITY_JWT_PRIVATE_KEY_B64")
    (setting_or_env config env "KINETIX_IDENTITY_JWT_PREVIOUS_PUBLIC_KEYS_B64").

(** The issuer and the audience are looked up in the environment too; the lifetimes are not. *)
Definition token_settings (config env : string -> option string) (name : string) : option string :=
  if String.eqb name "JWT_ISSUER" || String.eqb name "JWT_AUDIENCE" then setting_or_env config env name else config name.
Definition token_service (config env : string -> option string) (keys : JwtKeyProvider P) : res exn (TokenConfig P) :=
  newTokenService (token_settings config env) keys.

Definition constructed {T} (r : res exn T) : res exn unit := res_bind r (fun _ => Ok tt).

(** What becomes of making a class, by its constructor or its factory; a constructor that only keeps its
    arguments succeeds. *)
Definition construct (config env : string -> option string) (c : ClassDecl) : res exn unit :=
  let name := class_name c in
  if String.eqb name "JwtKeyProvider" then constructed (jwt_keys config env)
  else if String.eqb name "TokenService" then constructed (res_bind (jwt_keys config env) (token_service config env))
  else if String.eqb name "ClientGateService" then constructed (clientGateFrom config)
  else if String.eqb name "SimpleWebAuthnCeremonyAdapter" then constructed (passkeyCeremonyFrom config)
  else if String.eqb name "NominatimGeocodingAdapter" then constructed (newNominatim (config "GEOCODER_BASE_URL") (config "GEOCODER_USER_AGENT"))
  else if String.eqb name "FleetRegistryGrpcAdapter" then constructed (newFleetRegistryGrpcAdapter config)
  else Ok tt.
End Constructors.

(** ** The container *)

(** An object: of a class, with what it was given; one that an imported module exports; a repository. *)
Inductive Instance := Made (class : ClassDecl) (args : list Instance) | External (name : string) | RepositoryFor (table : string).

Definition has_type (i : Instance) (t : TypeRef) : bool :=
  match i, t with
  | Made c _, Named n => bool_decide (n = class_name c \/ n ∈ class_implements c)
  | External n', Named n => bool_decide (n = n')
  | RepositoryFor table, RepositoryOf table' => bool_decide (table = table')
  | _, _ => false
  end.

Definition recipe_params (r : Recipe) : list Param :=
  match r with UseClass c => class_params c | UseFactory _ inject => inject | UseLibrary _ => [] end.
Definition recipe_class (r : Recipe) : option ClassDecl :=
  match r with UseClass c | UseFactory c _ => Some c | UseLibrary _ => None end.

(** A token's provider; the last one listed counts. *)
Definition provider_of (m : ModuleDecl) (t : Token) : option Recipe :=
  recipe <$> last (List.filter (fun p => bool_decide (provide p = t)) (providers m)).

(** *** What the imported modules export *)

Definition has_table (table : string) (es : list Entity) : bool := existsb (fun e => String.eqb (entity_table e) table) es.
Definition exports_config (i : Import) : bool := match i with ConfigModule_forRoot _ => true | _ => false end.
Definition exports_throttler (i : Import) : bool := match i with ThrottlerModule_forRoot _ => true | _ => false end.
Definition registers (table : string) (i : Import) : bool :=
  match i with TypeOrmModule_forFeature es => has_table table es | _ => false end.

(** With the data source that was connected, if one was. A repository is exported for an entity that was
    registered as a feature and that the data source knows. *)
Definition exported (source : option DataSourceOptions) (m : ModuleDecl) (t : Token) : option Instance :=
  match t with
  | ClassToken name =>
      if String.eqb name "Reflector" then Some (External "Reflector")
      else if String.eqb name "ConfigService" then
        if existsb exports_config (imports m) then Some (External "ConfigService") else None
      else if String.eqb name "DataSource" then (fun _ => External "DataSource") <$> source
      else None
  | RepositoryToken table =>
      o ← source;
      if existsb (registers table) (imports m) && has_table table (source_entities o) then Some (RepositoryFor table) else None
  | PortToken _ | APP_GUARD => None
  end.

(** A library's guard that a route may name. *)
Definition library (m : ModuleDecl) (name : string) : bool := String.eqb name "ThrottlerGuard" && existsb exports_throttler (imports m).

(** *** Whether a token can be had, if the constructors agree *)

(** By the depth of what it depends on: [n] levels are looked at. *)
Fixpoint resolvable (source : option DataSourceOptions) (m : ModuleDecl) (n : nat) (t : Token) : bool :=
  match n with
  | O => false
  | S n =>
      match provider_of m t with
      | Some r => match recipe_class r with
                  | Some _ => forallb (fun p => resolvable source m n (param_token p)) (recipe_params r)
                  | None => false
                  end
      | None => bool_decide (is_Some (exported source m t))
      end
  end.

(** Every parameter of a recipe can be had, at a depth of at most [n]. *)
Definition supplied (source : option DataSourceOptions) (m : ModuleDecl) (n : nat) (r : Recipe) : bool :=
  forallb (fun p => resolvable source m n (param_token p)) (recipe_params r) &&
  match r with UseLibrary name => library m name | _ => true end.
Definition complete (source : option DataSourceOptions) (m : ModuleDecl) (n : nat) : bool := forallb (supplied source m n) (module_recipes m).

Definition classes_of (m : ModuleDecl) : list ClassDecl := omap recipe_class (module_recipes m).

Section Container.
Context (config : string -> option string).
(** Whether the database a data source is configured for can be connected to. *)
Context (connect : DataSourceOptions -> bool).

(** The data source the module sets up, when the factory's settings are in order and it connects. *)
Definition data_source_of (i : Import) : option DataSourceOptions :=
  match i with
  | TypeOrmModule_forRootAsync _ useFactory =>
      match useFactory config with Ok o => if connect o then Some o else None | Err _ => None end
  | _ => None
  end.
Definition data_source (m : ModuleDecl) : option DataSourceOptions := head (omap data_source_of (imports m)).

Context (make : ClassDecl -> res exn unit).

(** Nest's container, for the module [m]. *)
Class NestContainer (m : ModuleDecl) := {
  resolve : Token -> res exn Instance;
  build : Recipe -> res exn Instance;
  (** [NestFactory.create(m)] *)
  create : res exn unit;
  (** A token is its provider's object; otherwise what the imports export; otherwise an error. *)
  resolve_provided t r : provider_of m t = Some r -> resolve t = build r;
  resolve_exported t i : provider_of m t = None -> exported (data_source m) m t = Some i -> resolve t = Ok i;
  resolve_unknown t : provider_of m t = None -> exported (data_source m) m t = None -> exists e, resolve t = Err e;
  (** A class or factory is called with what its tokens resolve to, and not called when one does not. *)
  build_made r c args : r ∈ module_recipes m -> recipe_class r = Some c ->
    Forall2 (fun p i => resolve (param_token p) = Ok i) (recipe_params r) args ->
    build r = res_bind (make c) (fun _ => Ok (Made c args));
  build_missing r p e : r ∈ module_recipes m -> p ∈ recipe_params r -> resolve (param_token p) = Err e -> exists e', build r = Err e';
  build_library n : UseLibrary n ∈ module_recipes m -> (exists i, build (UseLibrary n) = Ok i) <-> library m n = true;
  (** The application is created when everything the module declares could be built. *)
  create_ok : create = Ok tt <-> forall r, r ∈ module_recipes m -> exists i, build r = Ok i
}.

(** *** Consequences of the laws *)

Lemma forallb_elem {T} (f : T -> bool) l : forallb f l = true <-> forall x, x ∈ l -> f x = true.
Proof. rewrite List.forallb_forall. by setoid_rewrite list_elem_of_In. Qed.

Lemma Forall2_impl_elem {S T} (Q R : S -> T -> Prop) l k :
  Forall2 Q l k -> (forall x y, x ∈ l -> Q x y -> R x y) -> Forall2 R l k.
Proof. induction 1 as [|x y l k Hxy _ IH]; intros Himp; constructor; [apply Himp; [by left|done]|]. apply IH. intros. apply Himp; [by right|done]. Qed.

Lemma provider_listed m t r : provider_of m t = Some r -> r ∈ module_recipes m.
Proof.
  unfold provider_of, module_recipes. intros (p & Hp & ->)%fmap_Some. apply elem_of_app. left.
  apply list_elem_of_fmap. exists p. split; [done|]. apply last_Some_elem_of in Hp.
  apply list_elem_of_In in Hp. apply List.filter_In in Hp as [Hp _]. by apply list_elem_of_In.
Qed.

Section Laws.
Context (m : ModuleDecl) {C : NestContainer m}.
Abbreviation source := (data_source m).

Lemma params_resolve ps :
  (forall p, p ∈ ps -> exists i, resolve (param_token p) = Ok i) -> exists args, Forall2 (fun p i => resolve (param_token p) = Ok i) ps args.
Proof.
  induction ps as [|p ps IH]; intros Hps; [by exists []|].
  destruct (Hps p) as [i Hi]; [by left|]. destruct IH as [args Hargs]; [intros p' Hp'; apply Hps; by right|].
  exists (i :: args). by constructor.
Qed.

Lemma class_listed r c : r ∈ module_recipes m -> recipe_class r = Some c -> c ∈ classes_of m.
Proof. intros Hr Hc. apply list_elem_of_omap. by exists r. Qed.

(** What is found at some depth is resolved. *)
Lemma resolvable_resolves n t :
  (forall c, c ∈ classes_of m -> make c = Ok tt) -> resolvable source m n t = true -> exists i, resolve t = Ok i.
Proof.
  intros Hmake. revert t. induction n as [|n IH]; intros t; [done|]. cbn [resolvable].
  destruct (provider_of m t) as [r|] eqn:Hr; [|intros [i Hi]%bool_decide_eq_true; exists i; by apply resolve_exported].
  destruct (recipe_class r) as [c|] eqn:Hc; [|done]. rewrite forallb_elem. intros Hps.
  destruct (params_resolve (recipe_params r)) as [args Hargs]; [intros p Hp; by apply IH, Hps|].
  pose proof (provider_listed _ _ _ Hr) as Hl. rewrite (resolve_provided _ _ Hr), (build_made _ _ _ Hl Hc Hargs).
  rewrite (Hmake c) by (by eapply class_listed). by eexists.
Qed.

(** What was built was given what its parameters' tokens resolve to. *)
Lemma built_given r c i :
  r ∈ module_recipes m -> recipe_class r = Some c -> build r = Ok i ->
  make c = Ok tt /\ exists args, i = Made c args /\ Forall2 (fun p i => resolve (param_token p) = Ok i) (recipe_params r) args.
Proof.
  intros Hr Hc Hi. destruct (params_resolve (recipe_params r)) as [args Hargs].
  { intros p Hp. destruct (resolve (param_token p)) as [j|e] eqn:E; [by exists j|].
    destruct (build_missing _ _ _ Hr Hp E) as [e' E']. congruence. }
  rewrite (build_made _ _ _ Hr Hc Hargs) in Hi. destruct (make c) as [[]|]; [|done]. cbn in Hi. simplify_eq.
  split; [done|]. by exists args.
Qed.

(** A module that lacks nothing is created exactly if its classes can be made. *)
Lemma complete_created n :
  complete source m n = true -> create = Ok tt <-> forall c, c ∈ classes_of m -> make c = Ok tt.
Proof.
  unfold complete. rewrite forallb_elem, create_ok. intros Hn. split.
  - intros Hall c (r & Hr & Hc)%list_elem_of_omap. destruct (Hall r Hr) as [i Hi]. by destruct (built_given _ _ _ Hr Hc Hi).
  - intros Hmake r Hr. specialize (Hn r Hr). unfold supplied in Hn. apply andb_true_iff in Hn as [Hps Hlib].
    destruct (recipe_class r) as [c|] eqn:Hc; [|by destruct r; try done; apply build_library].
    rewrite forallb_elem in Hps.
    destruct (params_resolve (recipe_params r)) as [args Hargs].
    { intros p Hp. eapply resolvable_resolves; [done|]. by apply Hps. }
    rewrite (build_made _ _ _ Hr Hc Hargs), (Hmake c) by (by eapply class_listed). by eexists.
Qed.
End Laws.
End Container.
Arguments NestContainer config connect make m : clear implicits.
Arguments resolve {config connect make m _} t.
Arguments build {config connect make m _} r.
Arguments create {config connect make m _}.
Arguments resolve_provided {config connect make m _} t r _.
Arguments resolve_exported {config connect make m _} t i _ _.
Arguments resolve_unknown {config connect make m _} t _ _.
Arguments create_ok {config connect make m _}.
Arguments complete_created {config connect make m _} n _.
Arguments built_given {config connect make m _} r c i _ _ _.

(** *** A container *)

(** The chains of providers from a token are no longer than [n]. *)
Fixpoint bounded (m : ModuleDecl) (n : nat) (t : Token) : bool :=
  match n with
  | O => false
  | S n => match provider_of m t with
           | Some r => forallb (fun p => bounded m n (param_token p)) (recipe_params r)
           | None => true
           end
  end.
Definition shallow (m : ModuleDecl) (n : nat) : bool :=
  forallb (fun r => forallb (fun p => bounded m n (param_token p)) (recipe_params r)) (module_recipes m).

Section Resolver.
Context (config : string -> option string) (connect : DataSourceOptions -> bool) (make : ClassDecl -> res exn unit) (m : ModuleDecl).

Definition cannot_resolve : exn := PlainError "Nest can't resolve dependencies".

Section Build.
Context (find : Token -> res exn Instance).
Fixpoint gather (ps : list Param) : res exn (list Instance) :=
  match ps with
  | [] => Ok []
  | p :: ps => res_bind (find (param_token p)) (fun i => res_bind (gather ps) (fun args => Ok (i :: args)))
  end.
Definition build_from (r : Recipe) : res exn Instance :=
  match r with
  | UseClass c | UseFactory c _ => res_bind (gather (recipe_params r)) (fun args => res_bind (make c) (fun _ => Ok (Made c args)))
  | UseLibrary name => if library m name then Ok (External name) else Err cannot_resolve
  end.
End Build.

Fixpoint resolve_at (n : nat) (t : Token) : res exn Instance :=
  match n with
  | O => Err cannot_resolve
  | S n => match provider_of m t with
           | Some r => build_from (resolve_at n) r
           | None => match exported (data_source config connect m) m t with Some i => Ok i | None => Err cannot_resolve end
           end
  end.

Lemma gather_ok find ps args : Forall2 (fun p i => find (param_token p) = Ok i) ps args -> gather find ps = Ok args.
Proof. induction 1 as [|p i ps args Hp _ IH]; cbn; [done|]. rewrite Hp. cbn. by rewrite IH. Qed.

Lemma gather_err find ps p e : p ∈ ps -> find (param_token p) = Err e -> exists e', gather find ps = Err e'.
Proof.
  induction ps as [|q ps IH]; [by intros ?%elem_of_nil|]. intros [->|Hp]%elem_of_cons He; cbn; [rewrite He; by eexists|].
  destruct (find (param_token q)) as [i|e']; cbn; [|by eexists]. destruct (IH Hp He) as [e' ->]. by eexists.
Qed.

Lemma gather_ext find find' ps : (forall p, p ∈ ps -> find (param_token p) = find' (param_token p)) -> gather find ps = gather find' ps.
Proof.
  induction ps as [|p ps IH]; intros Heq; cbn; [done|]. rewrite (Heq p) by (by left). rewrite IH; [done|].
  intros q Hq. apply Heq. by right.
Qed.

(** Looking deeper than the chains go changes nothing. *)
Lemma resolve_at_stable n t : bounded m n t = true -> resolve_at (S n) t = resolve_at n t.
Proof.
  revert t. induction n as [|n IH]; intros t; [done|]. cbn [bounded]. intros Hb.
  change (resolve_at (S (S n)) t) with
    (match provider_of m t with Some r => build_from (resolve_at (S n)) r
     | None => match exported (data_source config connect m) m t with Some i => Ok i | None => Err cannot_resolve end end).
  cbn [resolve_at]. destruct (provider_of m t) as [r|]; [|done]. rewrite forallb_elem in Hb.
  destruct r as [c|c inject|name]; cbn [build_from]; [..|done]; by rewrite (gather_ext (resolve_at (S n)) (resolve_at n)) by auto.
Qed.

Context (n : nat).
Definition build_all : bool := forallb (fun r => match build_from (resolve_at n) r with Ok _ => true | Err _ => false end) (module_recipes m).

#[refine] Instance Resolver (H : shallow m n = true) : NestContainer config connect make m := {|
  resolve := resolve_at (S n);
  build := build_from (resolve_at n);
  create := if build_all then Ok tt else Err cannot_resolve
|}.
Proof.
  all: unfold shallow in H; rewrite forallb_elem in H.
  all: assert (forall r p, r ∈ module_recipes m -> p ∈ recipe_params r -> resolve_at (S n) (param_token p) = resolve_at n (param_token p)) as Hs
    by (intros r p Hr Hp; specialize (H r Hr); rewrite forallb_elem in H; by apply resolve_at_stable, H).
  - intros t r Hr. cbn. by rewrite Hr.
  - intros t i Hr Hi. cbn. by rewrite Hr, Hi.
  - intros t Hr Hi. cbn. rewrite Hr, Hi. by eexists.
  - intros r c args Hr Hc Hargs. assert (gather (resolve_at n) (recipe_params r) = Ok args) as Hg.
    { apply gather_ok. eapply Forall2_impl_elem; [exact Hargs|]. intros p i Hp <-. symmetry. by eapply Hs. }
    destruct r; cbn in Hc; simplify_eq; cbn [build_from]; by rewrite Hg.
  - intros r p e Hr Hp He. rewrite (Hs r p Hr Hp) in He. destruct (gather_err _ _ _ _ Hp He) as [e' He'].
    destruct r; cbn [build_from]; [rewrite He'; by eexists..|]. by apply elem_of_nil in Hp.
  - intros name _. cbn. destruct (library m name); split; try done; [by eexists|]. by intros [].
  - unfold build_all. destruct (forallb _ _) eqn:E; split; try done.
    + intros _ r Hr. rewrite forallb_elem in E. specialize (E r Hr). destruct (build_from _ r) as [i|]; [by exists i|done].
    + intros Hall. apply not_true_iff_false in E. destruct E. apply forallb_elem. intros r Hr. by destruct (Hall r Hr) as [i ->].
Defined.
End Resolver.

(** *** Types of what is injected *)

Section Types.
Context (config : string -> option string) (connect : DataSourceOptions -> bool) (make : ClassDecl -> res exn unit).

(** What a token stands for has a type, as far as the declarations tell. *)
Definition well_typed (source : option DataSourceOptions) (m : ModuleDecl) (p : Param) : bool :=
  match provider_of m (param_token p) with
  | Some r => match recipe_class r with Some c => has_type (Made c []) (param_type p) | None => false end
  | None => match exported source m (param_token p) with Some i => has_type i (param_type p) | None => false end
  end.

Lemma well_typed_resolved m {C : NestContainer config connect make m} p i :
  well_typed (data_source config connect m) m p = true -> resolve (param_token p) = Ok i -> has_type i (param_type p) = true.
Proof.
  unfold well_typed. destruct (provider_of m _) as [r|] eqn:Hr.
  - destruct (recipe_class r) as [c|] eqn:Hc; [|done]. intros Ht. rewrite (resolve_provided _ _ Hr). intros Hi.
    apply provider_listed in Hr. destruct (built_given _ _ _ Hr Hc Hi) as (_ & args & -> & _). exact Ht.
  - destruct (exported _ _ _) as [j|] eqn:Hj; [|done]. rewrite (resolve_exported _ _ Hr Hj). by intros ? [= <-].
Qed.
End Types.

(** ** The application *)

Section Application.
Context {P : Platform} {K : KeyMaterial P} {A : AppCheckPlatform} {N : NetLibrary} {W : WebUrlParser} {U : UrlParser}.
Context (config env : string -> option string) (connect : DataSourceOptions -> bool).
Abbreviation AppContainer := (NestContainer config connect (construct config env) AppModule).

(** Everything the constructors, the factories and the connection to the database ask of the settings. *)
Record SettingsInOrder : Prop := {
  database_set : exists o, AppModule_database config = Ok o /\ connect o = true;
  tokens_set : exists keys tokens, jwt_keys config env = Ok keys /\ token_service config env keys = Ok tokens;
  clients_set : exists gate, clientGateFrom config = Ok gate;
  relyingParty_set : exists party, passkeyCeremonyFrom config = Ok party;
  geocoder_set : exists geocoder, newNominatim (config "GEOCODER_BASE_URL") (config "GEOCODER_USER_AGENT") = Ok geocoder;
  fleet_set : exists host, newFleetRegistryGrpcAdapter config = Ok host
}.

Lemma app_database o : AppModule_database config = Ok o -> source_entities o = AppModule_entities.
Proof.
  unfold AppModule_database.
  repeat first [progress cbn [res_bind]|destruct (requiredSetting _ _); [|done]|destruct (positiveIntegerSetting _ _); [|done]].
  by intros [= <-].
Qed.

Lemma app_data_source :
  data_source config connect AppModule =
  match AppModule_database config with Ok o => if connect o then Some o else None | Err _ => None end.
Proof.
  unfold data_source. cbn -[AppModule_database]. destruct (AppModule_database config) as [o|]; [|done]. by destruct (connect o).
Qed.

Lemma app_source_entities o : data_source config connect AppModule = Some o -> source_entities o = AppModule_entities.
Proof.
  rewrite app_data_source. destruct (AppModule_database config) as [o'|] eqn:E; [|done]. destruct (connect o'); [|done].
  intros [= <-]. by apply app_database.
Qed.

(** No chain of dependencies is longer than five. *)
Definition DEPTH : nat := 5.

Lemma app_complete o : source_entities o = AppModule_entities -> complete (Some o) AppModule DEPTH = true.
Proof. destruct o as [settings timeout es sync]. cbn [source_entities]. intros ->. vm_compute. reflexivity. Qed.

Lemma app_typed o : source_entities o = AppModule_entities ->
  forallb (fun r => forallb (well_typed (Some o) AppModule) (recipe_params r)) (module_recipes AppModule) = true.
Proof. destruct o as [settings timeout es sync]. cbn [source_entities]. intros ->. vm_compute. reflexivity. Qed.

Lemma app_constructs :
  (forall c, c ∈ classes_of AppModule -> construct config env c = Ok tt) <->
  (exists keys tokens, jwt_keys config env = Ok keys /\ token_service config env keys = Ok tokens) /\
  (exists gate, clientGateFrom config = Ok gate) /\ (exists party, passkeyCeremonyFrom config = Ok party) /\
  (exists geocoder, newNominatim (config "GEOCODER_BASE_URL") (config "GEOCODER_USER_AGENT") = Ok geocoder) /\
  (exists host, newFleetRegistryGrpcAdapter config = Ok host).
Proof.
  split.
  - intros Hall. assert (forall k c, classes_of AppModule !! k = Some c -> construct config env c = Ok tt) as Hk
      by (intros k c Hk; by eapply Hall, list_elem_of_lookup_2).
    pose proof (Hk 1%nat _ eq_refl) as H1. pose proof (Hk 3%nat _ eq_refl) as H2. pose proof (Hk 4%nat _ eq_refl) as H3.
    pose proof (Hk 26%nat _ eq_refl) as H4. pose proof (Hk 25%nat _ eq_refl) as H5. clear Hk Hall.
    cbn in H1, H2, H3, H4, H5. unfold constructed in *.
    destruct (jwt_keys config env) as [keys|]; [|done]. cbn [res_bind] in H1.
    destruct (token_service config env keys) as [tokens|] eqn:?; [|done].
    destruct (clientGateFrom config); [|done]. destruct (passkeyCeremonyFrom config); [|done].
    destruct (newNominatim _ _); [|done]. destruct (newFleetRegistryGrpcAdapter config); [|done]. naive_solver.
  - intros ((keys & tokens & E1 & E2) & (gate & E3) & (party & E4) & (geocoder & E5) & (host & E6)) c _.
    unfold construct, constructed. rewrite E1. cbn [res_bind]. rewrite E2, E3, E4, E5, E6. by repeat case_match.
Qed.

Context {C : AppContainer}.

Lemma app_builds r : create = Ok tt -> r ∈ module_recipes AppModule -> exists i, build r = Ok i.
Proof. rewrite create_ok. intros Hc Hr. by apply Hc. Qed.

(** The application needs its data source: the health controller asks for it. *)
Lemma app_connected : create = Ok tt -> exists o, data_source config connect AppModule = Some o.
Proof.
  intros Hc. assert (UseClass HealthController_class ∈ module_recipes AppModule) as Hr by (by apply (list_elem_of_lookup_2 _ 28)).
  destruct (app_builds _ Hc Hr) as [i Hi]. destruct (built_given _ _ _ Hr eq_refl Hi) as (_ & args & _ & Hargs).
  destruct (data_source config connect AppModule) as [o|] eqn:Hd; [by exists o|].
  destruct (resolve_unknown (ClassToken "DataSource")) as [e He]; [done|by rewrite Hd|].
  inversion Hargs as [|p j ps js Hp _]; subst. cbn in Hp. congruence.
Qed.

Lemma created_iff_in_order : create = Ok tt <-> SettingsInOrder.
Proof.
  pose proof app_constructs as Hk. pose proof app_data_source as Hd. split.
  - intros Hc. destruct (app_connected Hc) as [o Ho]. pose proof (app_source_entities _ Ho) as He.
    rewrite (complete_created DEPTH) in Hc by (rewrite Ho; by apply app_complete).
    apply Hk in Hc as (H1 & H2 & H3 & H4 & H5). split; try done.
    rewrite Hd in Ho. destruct (AppModule_database config) as [o'|]; [|done]. exists o'. split; [done|]. by destruct (connect o').
  - intros [(o & Ho & Hconn) H1 H2 H3 H4 H5]. rewrite Ho, Hconn in Hd. pose proof (app_source_entities _ Hd) as He.
    rewrite (complete_created DEPTH) by (rewrite Hd; by apply app_complete). by apply Hk.
Qed.

(** C36: However the settings and the environment are, and whichever step of the framework fails: Nest can
    create the application of [AppModule] exactly if the settings that its constructors, its factories and
    its database read are in order, since no class asks for what nobody provides or for itself; nothing is
    done, and no port opened, otherwise. The gRPC server asks every caller for a certificate and for a grant
    on a list that is not empty, and the ports open in order; and start-up succeeds exactly if the
    application was created, the settings and files of the process are in order (with a logger that can be
    made of LOG_LEVEL, which a name that every object inherits is not) and the framework's own steps
    succeed. *)
Theorem process_comes_up_configured readFile manifest version start package listen r steps :
  run (bootstrap env readFile manifest version create start package listen) [] = (r, steps) ->
  (create = Ok tt <-> SettingsInOrder) /\
  (steps <> [] -> SettingsInOrder) /\
  ports_in_order env readFile r steps /\
  (r = Ok tt <-> SettingsInOrder /\ start = Ok tt /\
     exists grace port logger grpcPort files allowed line,
       configured env readFile grace port logger grpcPort files allowed line /\ listen port = Ok tt).
Proof.
  intros Hrun. split_and!.
  - apply created_iff_in_order.
  - intros Hs. by apply created_iff_in_order, (steps_need_app _ _ _ _ _ _ _ _ _ _ Hrun).
  - by eapply ports_open_in_order.
  - rewrite <- created_iff_in_order.
    pose proof (bootstrap_up env readFile manifest version create start package listen) as H. by rewrite Hrun in H.
Qed.

(** C29: When the application was created, everything it declares (controllers, providers and the guards and
    interceptors its routes name) is an object of its class, every parameter of its constructor or factory
    was given the one object its token stands for, and that object is of the class or implements the
    interface the parameter declares, or is the repository of the entity it declares, which the compiler
    cannot check across a token. The guard of every route can activate, and verifies tokens with the very
    service that signs a user in. *)
Theorem injected_objects_fit_their_parameters :
  create = Ok tt ->
  (forall r c, r ∈ module_recipes AppModule -> recipe_class r = Some c ->
     exists args, build r = Ok (Made c args) /\
       Forall2 (fun p i => resolve (param_token p) = Ok i /\ has_type i (param_type p) = true) (recipe_params r) args) /\
  (exists guard tokens reflector auth user principals attempts gate passkeys,
     resolve APP_GUARD = Ok guard /\ has_type guard (Named "CanActivate") = true /\
     guard = Made JwtAuthGuard_class [tokens; reflector] /\ resolve (ClassToken "TokenService") = Ok tokens /\
     resolve (ClassToken "AuthUsecaseService") = Ok auth /\
     auth = Made AuthUsecaseService_class [user; tokens; principals; attempts; gate; passkeys]).
Proof.
  intros Hc. destruct (app_connected Hc) as [o Ho]. pose proof (app_typed o (app_source_entities _ Ho)) as Ht.
  assert (forall r c, r ∈ module_recipes AppModule -> recipe_class r = Some c ->
     exists args, build r = Ok (Made c args) /\
       Forall2 (fun p i => resolve (param_token p) = Ok i /\ has_type i (param_type p) = true) (recipe_params r) args) as Hall.
  { intros r c Hr Hrc. destruct (app_builds _ Hc Hr) as [i Hi]. destruct (built_given _ _ _ Hr Hrc Hi) as (_ & args & -> & Hargs).
    exists args. split; [done|]. rewrite forallb_elem in Ht. specialize (Ht r Hr). rewrite forallb_elem in Ht.
    eapply Forall2_impl_elem; [exact Hargs|]. intros p i Hp Hres. split; [done|].
    eapply well_typed_resolved; [|done]. rewrite Ho. by apply Ht. }
  split; [exact Hall|].
  destruct (Hall (UseClass JwtAuthGuard_class) _ ltac:(by apply (list_elem_of_lookup_2 _ 5)) eq_refl) as (gargs & Hg & Hgargs).
  destruct (Hall (UseClass AuthUsecaseService_class) _ ltac:(by apply (list_elem_of_lookup_2 _ 8)) eq_refl) as (aargs & Ha & Haargs).
  rewrite <- (resolve_provided (m := AppModule) APP_GUARD (UseClass JwtAuthGuard_class) eq_refl) in Hg. rewrite <- (resolve_provided (m := AppModule) (ClassToken "AuthUsecaseService") (UseClass AuthUsecaseService_class) eq_refl) in Ha.
  repeat match goal with H : Forall2 _ (recipe_params _) _ |- _ => cbn in H | H : Forall2 _ (_ :: _) _ |- _ => inversion H; clear H; subst
    | H : Forall2 _ [] _ |- _ => inversion H; clear H; subst end.
  cbn [param_token byType] in *. destruct_and!.
  match goal with H1 : resolve (ClassToken "TokenService") = Ok ?a, H2 : resolve (ClassToken "TokenService") = Ok ?b |- _ =>
    rewrite H1 in H2; injection H2 as -> end.
  do 9 eexists. split_and!; [exact Hg|done|reflexivity|eassumption|exact Ha|reflexivity].
Qed.
End Application.

Module Witness.
Import Startup.Witness.

Definition config (name : string) : option string :=
  match name with
  | "DB_HOST" => Some "db" | "DB_PORT" => Some "5432" | "DB_USERNAME" => Some "identity" | "DB_PASSWORD" => Some "secret"
  | "DB_DATABASE" => Some "identity"
  | "KINETIX_IDENTITY_JWT_PRIVATE_KEY_B64" => Some "PRIVATE KEY"
  | "JWT_ISSUER" => Some "https://id.kinetix.example" | "JWT_AUDIENCE" => Some "kinetix"
  | "JWT_ACCESS_TTL_SECONDS" => Some "900" | "JWT_REFRESH_TTL_SECONDS" => Some "86400"
  | "IDENTITY_WEBAUTHN_RP_ID" => Some "kinetix.example" | "IDENTITY_WEBAUTHN_ORIGIN" => Some "https://id.kinetix.example"
  | "IDENTITY_WEBAUTHN_RP_NAME" => Some "Kinetix"
  | "GEOCODER_BASE_URL" => Some "https://nominatim.example/" | "GEOCODER_USER_AGENT" => Some "kinetix"
  | "MATCHING_GRPC_HOST" => Some "matching:50051"
  | name => sample_settings name
  end.
Definition without (missing : string) (name : string) : option string := if String.eqb name missing then None else config name.

#[local] Instance platform : Platform := sample no_faults.
#[local] Instance keys : KeyMaterial platform := sample_keys no_faults.
#[local] Instance app_check : AppCheckPlatform := AppCheck.Witness.app_check_sample.
#[local] Instance net : NetLibrary := {| parse_ip := fun _ => None |}.
#[local] Instance web_urls : WebUrlParser := {| parse_web_url := fun s => Some (mkWebUrl "https:" s "id.kinetix.example") |}.
#[local] Instance urls : UrlParser := {| parse_url := fun s => Some (mkUrl "https:" s "/") |}.

Lemma app_shallow : shallow AppModule DEPTH = true.
Proof. vm_compute. reflexivity. Qed.

(** The process with some settings and a database that can be reached or not. *)
Definition container (config : string -> option string) (reachable : bool) :=
  Resolver config (fun _ => reachable) (construct config env) AppModule DEPTH app_shallow.
Definition started (config : string -> option string) (reachable : bool) :=
  run (bootstrap env files "/srv/node_modules/kinetix-contracts/package.json" "1.0.0" (create (NestContainer := container config reachable))
         (Ok tt) (Some package) (fun _ => Ok tt)) [].

Lemma process_comes_up_configured_witness :
  (started config true).1 = Ok tt /\ In (Listening 3000 "0.0.0.0") (started config true).2 /\
  SettingsInOrder config env (fun _ => true) /\ ports_in_order env files (Ok tt) (started config true).2.
Proof.
  assert ((started config true).1 = Ok tt) as Hok by (vm_compute; reflexivity).
  split; [exact Hok|]. split; [vm_compute; do 8 right; left; reflexivity|].
  destruct (process_comes_up_configured config env (fun _ => true) (C := container config true) files
    "/srv/node_modules/kinetix-contracts/package.json" "1.0.0" (Ok tt) (Some package) (fun _ => Ok tt)
    (started config true).1 (started config true).2 (surjective_pairing _)) as (_ & _ & Hports & Hup).
  rewrite Hok in Hports, Hup. split; [apply Hup; reflexivity|exact Hports].
Defined.

(** A missing setting of any constructor, or a database that cannot be reached, stops the process before
    its first step. *)
Example nothing_without_settings :
  Forall (fun name => (started (without name) true).2 = [])
    ["DB_PASSWORD"; "KINETIX_IDENTITY_JWT_PRIVATE_KEY_B64"; "JWT_AUDIENCE"; "IDENTITY_CLIENTS"; "IDENTITY_WEBAUTHN_RP_ID";
     "GEOCODER_USER_AGENT"; "MATCHING_GRPC_HOST"] /\ (started config false).2 = [].
Proof. split; [repeat constructor|]; vm_compute; reflexivity. Qed.

Lemma injected_objects_fit_their_parameters_witness :
  create (NestContainer := container config true) = Ok tt /\
  exists args, build (NestContainer := container config true) (UseClass PasskeyUsecaseService_class) = Ok (Made PasskeyUsecaseService_class args) /\
    args !! 3%nat = Some (Made SimpleWebAuthnCeremonyAdapter_class [External "ConfigService"]) /\
    Forall2 (fun p i => has_type i (param_type p) = true) (class_params PasskeyUsecaseService_class) args.
Proof.
  assert (create (NestContainer := container config true) = Ok tt) as Hc by (vm_compute; reflexivity). split; [exact Hc|].
  destruct (proj1 (injected_objects_fit_their_parameters config env (fun _ => true) (C := container config true) Hc)
    (UseClass PasskeyUsecaseService_class) PasskeyUsecaseService_class) as (args & Hb & Hargs);
    [by apply (list_elem_of_lookup_2 _ 9)|reflexivity|].
  exists args. split; [exact Hb|]. split.
  - assert (Ok (Made PasskeyUsecaseService_class args) = build (NestContainer := container config true) (UseClass PasskeyUsecaseService_class)) as E
      by (symmetry; exact Hb).
    vm_compute in E. injection E as ->. reflexivity.
  - eapply Forall2_impl; [exact Hargs|]. intros p i [_ Ht]. exact Ht.
Defined.
End Witness.
