(* ===== verification/Replies.v ===== *)
(** * The bodies of the replies

    What a client is sent for the answers of the sign-in, passkey and application routes: the objects of
    src/src/application/dto/auth_token_output.dto.ts, register_courier_output.dto.ts and
    approve_courier_output.dto.ts, and of src/src/types (two_factor, auth, passkey and application), with
    their members in the order in which the code sets them, written by [JSON.stringify] (Json.v). The
    answers with coordinates, whose decimals Json.v does not write, and the options of a passkey ceremony,
    which the library makes, are left out.

    Main results: a client that reads the reply of a login can tell a session, a challenge and an enrolment
    apart and has exactly what was issued, while the reply is the same whatever the account's password hash
    and secret are; the text of a page of applications or passkeys is the text of no other page. *)

From S2P Require Import Prelude JsString Domain Store Auth PasskeyStore Passkeys Couriers Sellers Routes Json.
From Stdlib Require Import Ascii String.
Local Open Scope string_scope.
Local Open Scope Z_scope.

(** ** What signing in is answered with *)

Record AuthenticatedAccount := mkAuthenticated { acc_id : Z; acc_email : string; acc_role : UserRole; acc_principalId : string }.

Inductive SignInReply :=
| SessionReply (accessToken refreshToken : string) (expiresIn : Z) (user : AuthenticatedAccount)
| ChallengeReply (challengeToken : string) (expiresIn : Z) (passkeys : bool)
| EnrolmentReply (enrolmentToken : string) (expiresIn userId : Z).

(** The account as the caller is told of it. *)
Definition account_of_session (s : AuthTokenOutput) : AuthenticatedAccount :=
  mkAuthenticated (user_id (out_user s)) (user_email (out_user s)) (user_role (out_user s)) (out_principalId s).

Definition public_part (o : LoginOutcome) : SignInReply :=
  match o with
  | SessionStarted s => SessionReply (out_accessToken s) (out_refreshToken s) (out_expiresIn s) (account_of_session s)
  | ChallengeIssued token expires passkeys => ChallengeReply token expires passkeys
  | EnrolmentIssued token expires userId => EnrolmentReply token expires userId
  end.

Definition orNull (s : option string) : JsValue := match s with Some s => JsString s | None => JsNull end.

Definition AuthenticatedAccount_body (a : AuthenticatedAccount) : JsValue :=
  JsObject [("id", JsInteger (acc_id a)); ("email", JsString (acc_email a)); ("role", JsString (role_name (acc_role a)));
            ("principalId", JsString (acc_principalId a))].

Definition AuthTokenOutputDto_members (s : AuthTokenOutput) : list (string * JsValue) :=
  [("accessToken", JsString (out_accessToken s)); ("refreshToken", JsString (out_refreshToken s));
   ("expiresIn", JsInteger (out_expiresIn s)); ("tokenType", JsString "Bearer");
   ("user", AuthenticatedAccount_body (account_of_session s))].

Definition TwoFactorChallenge_body (token : string) (expires : Z) (passkeys : bool) : JsValue :=
  JsObject [("mfaRequired", JsBoolean true); ("challengeToken", JsString token); ("expiresIn", JsInteger expires);
            ("passkeys", JsBoolean passkeys)].

Definition TwoFactorEnrolment_body (token : string) (expires userId : Z) : JsValue :=
  JsObject [("mfaEnrolmentRequired", JsBoolean true); ("enrolmentToken", JsString token); ("tokenType", JsString "Bearer");
            ("expiresIn", JsInteger expires); ("userId", JsInteger userId)].

Definition TwoFactorSetup_body (secret url : string) : JsValue :=
  JsObject [("twoFactorSecret", JsString secret); ("qrCodeUrl", JsString url); ("enabled", JsBoolean false)].

Definition login_body (o : LoginOutcome) : JsValue :=
  match o with
  | SessionStarted s => JsObject (AuthTokenOutputDto_members s)
  | ChallengeIssued token expires passkeys => TwoFactorChallenge_body token expires passkeys
  | EnrolmentIssued token expires userId => TwoFactorEnrolment_body token expires userId
  end.

Definition RegisterCourierOutputDto_body (out : RegisterCourierOutputDto) : JsValue :=
  JsObject (AuthTokenOutputDto_members (registered_session out) ++ [("driverId", JsInteger (registered_driverId out))])%list.

Definition ApproveCourierOutputDto_body (out : ApproveCourierOutputDto) : JsValue :=
  JsObject [("principalId", JsString (approved_principalId out)); ("email", JsString (approved_email out));
            ("role", JsString (role_name (approved_role out))); ("driverId", JsInteger (approved_driverId out));
            ("fleetActivated", JsBoolean (approved_active out))].

Definition CurrentUserView_body (v : CurrentUserView) : JsValue :=
  let claim (c : option string) := match c with Some s => JsString s | None => JsUndefined end in
  JsObject [("principalId", JsString (me_principalId v)); ("userId", JsInteger (me_userId v)); ("email", claim (me_email v));
            ("role", claim (me_role v)); ("expiresAt", JsString (me_expiresAt v))].

(** ** Views and pages *)

Definition PasskeyView_body (v : PasskeyView) : JsValue :=
  JsObject [("id", JsString (view_id v)); ("credentialId", JsString (view_credentialId v)); ("name", JsString (view_name v));
            ("createdAt", JsString (view_createdAt v)); ("lastUsedAt", orNull (view_lastUsedAt v));
            ("deviceType", JsString (device_type_name (view_deviceType v))); ("backedUp", JsBoolean (view_backedUp v))].

Definition CourierApplicationView_body (v : CourierApplicationView) : JsValue :=
  JsObject [("applicationId", JsInteger (cv_applicationId v)); ("principalId", JsString (cv_principalId v));
            ("userId", JsInteger (cv_userId v)); ("email", JsString (cv_email v));
            ("driverId", match cv_driverId v with Some n => JsInteger n | None => JsNull end);
            ("status", JsString (courier_status_name (cv_status v))); ("filedAt", JsString (cv_filedAt v));
            ("approvedAt", orNull (cv_approvedAt v)); ("rejectedAt", orNull (cv_rejectedAt v))].

Definition SellerApplicationView_body (v : SellerApplicationView) : JsValue :=
  JsObject [("applicationId", JsInteger (sv_applicationId v)); ("userId", JsInteger (sv_userId v));
            ("principalId", orNull (sv_principalId v)); ("email", JsString (sv_email v)); ("storeName", JsString (sv_storeName v));
            ("businessRegistrationNumber", JsString (sv_businessRegistrationNumber v)); ("taxId", JsString (sv_taxId v));
            ("streetAddress", JsString (sv_streetAddress v)); ("city", JsString (sv_city v)); ("postalCode", JsString (sv_postalCode v));
            ("status", JsString (seller_status_name (sv_status v))); ("verifiedAt", orNull (sv_verifiedAt v));
            ("rejectedAt", orNull (sv_rejectedAt v))].

Definition ApplicationPage_body {V} (view : V -> JsValue) (p : ApplicationPage V) : JsValue :=
  JsObject [("applications", JsArray (map view (page_applications p)));
            ("nextAfterId", match page_nextAfterId p with Some n => JsInteger n | None => JsNull end)].

Definition ApplicationTally_body (t : ApplicationTally) : JsValue :=
  JsObject [("since", JsString (tally_since t)); ("approved", JsInteger (tally_approved t)); ("rejected", JsInteger (tally_rejected t))].

(** ** Texts *)

(** A type whose values are written as JSON, and read back from it without ambiguity. *)
Class Written (A : Type) := {
  body : A -> JsValue;
  body_json a : exists j, json_of (body a) = Ok (Some j);
  body_apart a b : json_of (body a) = json_of (body b) -> a = b
}.

Lemma text_json v v' j j' : json_of v = Ok (Some j) -> json_of v' = Ok (Some j') -> stringify v = stringify v' -> j = j'.
Proof.
  unfold stringify. intros -> ->. cbn. intros [= E].
  assert (Some j = Some j') as E' by (rewrite <- !json_roundtrip; by rewrite E). by injection E'.
Qed.

(** Every value is written as a text, and different values as different texts. *)
Lemma texts_apart {A} `{Written A} (a b : A) :
  (exists text, stringify (body a) = Ok (Some text)) /\ (stringify (body a) = stringify (body b) <-> a = b).
Proof.
  destruct (body_json a) as [j Hj], (body_json b) as [k Hk]. split; [unfold stringify; rewrite Hj; by eexists|].
  split; [|by intros ->]. intros E. apply body_apart. rewrite Hj, Hk. by rewrite (text_json _ _ _ _ Hj Hk E).
Qed.

Lemma courier_status_name_inj s t : courier_status_name s = courier_status_name t -> s = t.
Proof. by destruct s, t. Qed.
Lemma seller_status_name_inj s t : seller_status_name s = seller_status_name t -> s = t.
Proof. by destruct s, t. Qed.
Lemma device_type_name_inj s t : device_type_name s = device_type_name t -> s = t.
Proof. by destruct s, t. Qed.
Lemma role_name_inj r s : role_name r = role_name s -> r = s.
Proof. by destruct r, s. Qed.

Create HintDb names.
#[export] Hint Resolve courier_status_name_inj seller_status_name_inj device_type_name_inj role_name_inj : names.

(** A record of texts, numbers, names and optional texts. *)
Ltac written_record :=
  repeat match goal with o : option _ |- _ => destruct o end; cbn; intros; simplify_eq; f_equal; auto with names.

Ltac written body :=
  refine {| body := body |};
  [intros []; unfold body, orNull; cbn; repeat match goal with o : option _ |- _ => destruct o end; by eexists
  |intros [] []; unfold body, orNull; cbn; written_record].

#[export] Instance PasskeyView_written : Written PasskeyView.
Proof. written PasskeyView_body. Defined.
#[export] Instance CourierApplicationView_written : Written CourierApplicationView.
Proof. written CourierApplicationView_body. Defined.
#[export] Instance SellerApplicationView_written : Written SellerApplicationView.
Proof. written SellerApplicationView_body. Defined.
#[export] Instance ApplicationTally_written : Written ApplicationTally.
Proof. written ApplicationTally_body. Defined.
#[export] Instance ApproveCourierOutputDto_written : Written ApproveCourierOutputDto.
Proof. written ApproveCourierOutputDto_body. Defined.

Section Lists.
Context {V : Type} `{Written V}.

Lemma array_json (l : list V) : exists js, json_of (JsArray (map body l)) = Ok (Some (JArr js)) /\
  Forall2 (fun a j => json_of (body a) = Ok (Some j)) l js.
Proof.
  induction l as [|a l IH]; [by exists []|]. destruct IH as (js & Hjs & Hall), (body_json a) as [j Hj].
  exists (j :: js). split; [|by constructor]. cbn in *. rewrite Hj. cbn.
  match type of Hjs with res_bind ?e _ = _ => by destruct e as [js'|]; cbn in *; simplify_eq end.
Qed.

Lemma arrays_apart (l k : list V) js :
  Forall2 (fun a j => json_of (body a) = Ok (Some j)) l js -> Forall2 (fun a j => json_of (body a) = Ok (Some j)) k js -> l = k.
Proof.
  intros Hl. revert k. induction Hl as [|a j l js Ha _ IH]; intros k Hk; inversion Hk; subst; [done|].
  f_equal; [apply body_apart; congruence|by apply IH].
Qed.

#[export] Instance list_written : Written (list V).
Proof.
  refine {| body := fun l => JsArray (map body l) |}.
  - intros l. destruct (array_json l) as (js & -> & _). by eexists.
  - intros l k E. destruct (array_json l) as (js & Hj & Hl), (array_json k) as (ks & Hk & Hks).
    rewrite Hj, Hk in E. injection E as ->. by eapply arrays_apart.
Defined.

#[export] Instance ApplicationPage_written : Written (ApplicationPage V).
Proof.
  refine {| body := ApplicationPage_body body |}.
  - intros [l next]. unfold ApplicationPage_body. destruct (array_json l) as (js & Hj & _). cbn [json_of page_applications] in *.
    rewrite Hj. destruct next; by eexists.
  - intros [l next] [k next'] E. unfold ApplicationPage_body in E. destruct (array_json l) as (js & Hj & Hl), (array_json k) as (ks & Hk & Hks).
    cbn [json_of page_applications page_nextAfterId] in *. rewrite Hj, Hk in E. cbn [res_bind] in E.
    destruct next, next'; cbn in E; simplify_eq; f_equal; by eapply arrays_apart.
Defined.
End Lists.

(** The text of a page of applications, or of a list of passkeys, says exactly what is on it: it is written,
    and it is the text of no other. *)
Theorem views_are_read_as_written :
  (forall p q : ApplicationPage SellerApplicationView, stringify (body p) = stringify (body q) <-> p = q) /\
  (forall p q : ApplicationPage CourierApplicationView, stringify (body p) = stringify (body q) <-> p = q) /\
  (forall l k : list PasskeyView, stringify (body l) = stringify (body k) <-> l = k) /\
  (forall t u : ApplicationTally, stringify (body t) = stringify (body u) <-> t = u).
Proof. split_and!; intros; apply texts_apart. Qed.

(** ** Reading the reply of a login *)

Definition json_member (name : string) (j : Json) : option Json :=
  match j with JObj members => snd <$> List.find (fun '(k, _) => String.eqb k name) members | _ => None end.
Definition str_member (name : string) (j : Json) : option string :=
  match json_member name j with Some (JStr s) => Some s | _ => None end.
Definition num_member (name : string) (j : Json) : option Z := match json_member name j with Some (JNum n) => Some n | _ => None end.
Definition bool_member (name : string) (j : Json) : option bool := match json_member name j with Some (JBool b) => Some b | _ => None end.

Definition role_of_name (s : string) : option UserRole := List.find (fun r => String.eqb (role_name r) s) [Customer; Seller; Courier; Admin].

Definition read_account (j : Json) : option AuthenticatedAccount :=
  id ← num_member "id" j; email ← str_member "email" j; role ← str_member "role" j ≫= role_of_name;
  principal ← str_member "principalId" j; Some (mkAuthenticated id email role principal).

(** As a client does: it asks for the second factor first. *)
Definition read_sign_in (j : Json) : option SignInReply :=
  match bool_member "mfaRequired" j, bool_member "mfaEnrolmentRequired" j with
  | Some true, _ =>
      token ← str_member "challengeToken" j; expires ← num_member "expiresIn" j; passkeys ← bool_member "passkeys" j;
      Some (ChallengeReply token expires passkeys)
  | _, Some true =>
      token ← str_member "enrolmentToken" j; expires ← num_member "expiresIn" j; userId ← num_member "userId" j;
      Some (EnrolmentReply token expires userId)
  | _, _ =>
      access ← str_member "accessToken" j; refresh ← str_member "refreshToken" j; expires ← num_member "expiresIn" j;
      user ← json_member "user" j ≫= read_account; Some (SessionReply access refresh expires user)
  end.

Lemma role_of_name_name r : role_of_name (role_name r) = Some r.
Proof. by destruct r. Qed.

(** Every outcome of a login is written as a text from which a client recovers whether it has a session, a
    challenge or an enrolment, and exactly the tokens, times and account it was issued; and two outcomes
    are written alike exactly if they agree on that, whatever the hash of the password, the secret of the
    second factor and the rest of the account are. *)
Theorem login_replies_read_back o :
  (exists text, stringify (login_body o) = Ok (Some text) /\ (json_parse text ≫= read_sign_in) = Some (public_part o)) /\
  forall o', stringify (login_body o) = stringify (login_body o') <-> public_part o = public_part o'.
Proof.
  assert (forall o, exists text, stringify (login_body o) = Ok (Some text) /\ (json_parse text ≫= read_sign_in) = Some (public_part o)) as Hread.
  { intros [s|token expires passkeys|token expires userId]; eexists; (split; [reflexivity|]); rewrite json_roundtrip; cbn -[role_of_name role_name]; [|done..].
    unfold read_account. cbn -[role_of_name role_name]. by rewrite role_of_name_name. }
  split; [apply Hread|]. intros o'. split.
  - intros E. destruct (Hread o) as (text & Ht & Hr), (Hread o') as (text' & Ht' & Hr'). congruence.
  - destruct o as [s| |], o' as [s'| |]; cbn; intros [=]; [|by subst..]. unfold login_body, AuthTokenOutputDto_members, account_of_session. congruence.
Qed.
